(* ===== verification/_CoqProject ===== *)
-Q . S2P
Prelude.v
Machine.v
PageTable.v
PageTableTheory.v
S2Mmu.v
S2MmuTheory.v
El2Mmu.v
El2MmuTheory.v
Uart.v
UartTheory.v
Vcpu.v
VcpuTheory.v
Sched.v
SchedTheory.v
Context.v
ContextTheory.v
Trap.v
TrapTheory.v
Isolation.v
Layout.v
Switch.v
Shield.v
SwitchTheory.v
SwitchSpec.v
El1Vectors.v
Guests.v
Main.v
BootMap.v
MainTheory.v
Breakout.v
GuestsTheory.v
Reports.v
