(* ===== verification/Prelude.v ===== *)
(** * Schism: a verification library

    Schism is an AArch64 hypervisor for QEMU's [virt] machine. It starts at EL2,
    maps itself, builds one stage-2 identity map of the guests' gigabyte, and
    switches between two small guest programs. This library is a shallow embedding
    of all its C code and of the assembly around it: C functions are Gallina
    functions of the same name in a small state monad, and the theorems below are
    about those functions.

    ** The program and its model

    From the bottom up; a file [XTheory] holds the theorems about the definitions
    of [X].

    - [Prelude] (this file): integers at their width ([u8] to [u64], [s32], [not64]),
      the monad [M], its logic ([total], [wp], [hangs]), loops ([for_upM],
      [fold_upM]), tactics and the hint database [schism].
    - [Machine]: the processor as the inline assembly sees it: system registers, SIMD
      and general registers, barriers as a trace, the generic timer's counter.
    - [PageTable], [PageTableTheory]: what [core/s2_mmu.c] and [core/el2_mmu.c] have
      in common: three levels of tables in static pools ([pt]), the tables as bytes
      of memory, the hardware's walk, and a reference builder over the class
      [Builder] of the two files' differences. The representation invariant [repr]
      relates tables to a finite map from pages to descriptors.
    - [S2Mmu], [S2MmuTheory]: [core/s2_mmu.c], [include/s2_mmu.h],
      [include/mem_attrs.h]: the stage-2 tables of the guests and the registers that
      enable them.
    - [El2Mmu], [El2MmuTheory]: [core/el2_mmu.c]: the hypervisor's own stage-1 tables.
    - [Uart], [UartTheory]: [drivers/uart_pl011.c], [include/mmio.h],
      [include/platform.h]: the driver as its register accesses, and the interface
      [Console] through which all other parts print. [ConsoleSpec] is what the
      interface promises; the driver is an instance of both.
    - [Vcpu], [VcpuTheory]: [include/vcpu.h]: the records of a VCPU and [hv], the
      state all EL2 code shares: the processor, the console, the pool of VCPUs, the
      scheduler's static variables, [current_trapframe], [host_saved_area], the cached
      number of list registers, the stage-2 tables, and the memory EL2 can load from. A
      [vcpu_t*] is an index into the pool or NULL, so two pointers alias exactly when
      they are equal.
    - [Sched], [SchedTheory]: the run queue of [core/vcpu.c], refined by a duplicate-free
      list with a cursor ([rr]).
    - [Context], [ContextTheory]: [save_fp] to [restore_vgic] of [core/vcpu.c].
    - [Trap], [TrapTheory]: [core/trap.c] with every branch. [Isolation]: what the
      handlers leave alone.
    - [Layout]: [linker.ld]: where the sections, guard pages and the stack of the image
      lie.
    - [Switch], [SwitchTheory], [SwitchSpec]: [arch/arm64/switch_el2.S],
      [el2_vector_common] of [arch/arm64/vectors_el2.S], [world_switch],
      [vcpu_scheduler_yield] and [vcpu_run] of [core/vcpu.c], and what a guest may do
      while it runs. [Shield]: which stage-2 tables keep it from the hypervisor.
    - [El1Vectors]: the slots of [vectors_el2.S], and [arch/arm64/el1_vectors.S].
    - [Guests], [GuestsTheory]: [guests/], [include/guest_stubs.h],
      [include/guest_layout.h], [include/guest_api.h]: the two guest programs as
      they act on memory words, with the calls they make of EL2.
    - [Main], [BootMap], [MainTheory]: [arch/arm64/start.S], [core/main.c],
      [core/guest_monitor.c]. [Breakout]: what a guest can do to the program on the
      tables [core/main.c] asks for.
    - [Reports]: the guests' reports followed from the struct on a guest's stack to
      the console.

    The parts interact as in the code: [_start] calls [el2_main], which builds both
    address spaces, prepares the VCPUs and calls [vcpu_run]. Each of its iterations
    is [world_switch]: save the outgoing VCPU ([Context]), install the incoming
    one, [vcpu_switch_asm] into the guest; the guest's exit comes back through
    [el2_vector_common], which captures the frame, calls [el2_exception_common]
    ([Trap]) and returns to [world_switch]'s caller.

    ** What the theorems show

    - Address spaces. The tables [s2_build_tables_identity] builds translate exactly
      the slots of the virtual machines and nothing else, whatever was in the pools
      before; slots of different machines are disjoint in memory; the builder hangs
      exactly when a pool is exhausted ([s2_build_exact], [s2_slots_isolated],
      [s2_build_panics_iff], [s2_map_page_refines]). [el2_map_range] likewise
      ([el2_map_range_exact], [el2_map_range_hangs_iff]), and after [el2_main]'s six
      calls no byte is writable and executable and the guard pages fault, for every
      image that fits ([boot_map_exact]). A guest's tables keep it from the hypervisor's
      memory exactly when they are read-only or no slot lies over the image
      ([s2_slots_shield_el2]); the request of [core/main.c] is neither
      ([s2_boot_tables_guest_writable]). The registers are programmed in an order
      that turns translation on last ([s2_program_regs_correct],
      [el2_mmu_enable_correct]).
    - Boot. [el2_main_boots], [start_boots]: from any contents of memory and
      registers the main loop is reached with all of this in place. It is never left
      by guests that leave the hypervisor's memory alone; [guest_breaks_main_loop] is a
      guest within its rights that makes [el2_main] return.
    - Switching. [guest_entered], [frame_roundtrip], [context_roundtrip]: a guest is
      entered with its own state; [world_switch_isolates], [descheduled_vcpu_resumes]:
      on tables that keep the guests from the hypervisor's memory, whatever a guest
      does, no other VCPU, and nothing that protects EL2 and the others, changes, and a
      descheduled VCPU resumes where it was; [reentry_restores_stale_context],
      [virtual_time_at_entry]: two ways in which this fails for the guest that is
      running.
    - Scheduling. [sched_refines_round_robin], [sched_invariant], [sched_yield_fair],
      [vcpu_run_body_round_robin] and, on such tables, [vcpu_run_never_returns].
    - Traps. [exception_returns_only_if_handled], [wfi_requests_yield],
      [sysreg_traps_emulated], [timer_traps_unrecognised], [time_override_reprograms],
      [time_override_wrong_on_hardware], [guest_exception_reported].
    - Guests. [guests_do_not_interfere], [memwalk_checksum], [guest_reports_printed],
      [guest_shared_dump_reads].
    - Console. [console_puts_sends], [console_hex64_roundtrip].

    ** Parameters

    What is not in the repository's sources is a class, with its documented
    behaviour as a second class that only the theorems that need it assume, and a
    concrete instance for the witnesses:
    - [Counter], [CounterArch]: the system counter, and how the architecture computes
      the virtual count from it;
    - [Device], [FifoDrains]: what the UART's registers read, and that its FIFO makes
      room in bounded time;
    - [Guest], [GuestArch]: one run of EL1 code up to the next exception to EL2, an
      arbitrary function of the whole state, EL2's variables and tables included, that
      cannot write EL2's registers, and whose stores, with stage 2 on, go where the
      translation lets them: it leaves EL2's data ([el2_data]) alone when its tables
      have no writable page in the image ([shields]). The theorems of [SwitchSpec] hold
      for all guests, not only those of [Guests]; those about what is true again after
      a run ask for such tables ([shielded]), or, where the conclusion is about the
      main loop of [core/main.c], that the guests leave EL2's data alone ([contained],
      [leaves_el2]). [storing_guest] is one that does not;
    - [GuestCpu]: what the guest programs read from the processor;
    - [Features]: whether the compiler defines [__ARM_FEATURE_PAUTH];
    - [S2Image], [El2Image], [Sections], [GuestImage]: addresses and sizes the compiler
      and linker choose, and that tables are aligned where the source aligns them.

    ** Loops and fuel

    Counted loops are [for_upM] and [fold_upM] and need no fuel. The other loops
    take fuel, and run out of it ([OutOfFuel]) only where no theorem is claimed:
    - the page loops of both MMU files get the number of pages of the range;
      [s2_map_identity_range_terminates] and [el2_map_range_terminates];
    - [copy_loop] gets the 32 bytes of the array, [load_cstr] one more than the bytes
      of memory ([load_cstr_fuelled]), [bss_loop] the size of [.bss];
    - [uart_wait] gets [poll_fuel] polls, which [FifoDrains] says are enough;
    - [vcpu_run] is not meant to end: its fuel is the number of iterations, and the
      theorems quantify over it.
    Null and dangling pointers, indices outside arrays and loads from unmapped
    memory are [Undef]; the [for (;;) wfi] loops are [Hang] with the state they stop in.

    ** Not modelled

    - [arch/arm64/el1_stub.S]: a test payload nothing calls. [read_CurrentEL] of
      [core/main.c], and [vm], [kresume], [kresume_arg0] and [kresume_arg1] of
      [vcpu_t], are not used by the program either.
    - The bytes EL2's own compiled code pushes on its stack: the model has the stack
      pointer and the save area, not the stack's contents.
    - Caches, TLB contents and instruction order: barriers and TLB maintenance are
      events of the trace, and the theorems about register programming speak of
      their order. The translation a guest runs on is that of the tables in memory,
      which nothing changes after the TLB has been invalidated.
    - The layout of EL2's variables as bytes: a store of a guest to one is a change of
      the variable, and the loads EL2 makes through a guest's pointer ([ram]) find bytes
      of other memory only. [bss_clear] writes bytes, and the variables, all in [.bss],
      are zero once all of its bytes are; the dump of an abort loads the stage-2 entry
      from the tables where they are.
    - Interrupts taken while EL2 itself runs: the sources never program the
      interrupt controller's distributor, so none is delivered.
    - [Makefile], [README.md].                                                     *)

From Stdlib Require Import ZArith Lia.
From stdpp Require Import base gmap list strings.

#[global] Open Scope Z_scope.

Declare Scope schism_scope.
Delimit Scope schism_scope with schism.
#[global] Open Scope schism_scope.

(** ** Machine integers

    C's unsigned types are [Z] values in [0, 2^w); every arithmetic operation
    that can leave the range is followed by the wrap of its type. *)

Definition u8 (x : Z) : Z := x mod 2 ^ 8.
Definition u16 (x : Z) : Z := x mod 2 ^ 16.
Definition u32 (x : Z) : Z := x mod 2 ^ 32.
Definition u64 (x : Z) : Z := x mod 2 ^ 64.

(** [~x] on [u64]. *)
Definition not64 (x : Z) : Z := u64 (Z.lnot x).

(** [(int32_t)x] followed by the conversion back to a wider type. *)
Definition s32 (x : Z) : Z := (x + 2 ^ 31) mod 2 ^ 32 - 2 ^ 31.

Notation "'is_u8' x" := (0 <= x < 2 ^ 8) (at level 10, only parsing) : schism_scope.
Notation "'is_u32' x" := (0 <= x < 2 ^ 32) (at level 10, only parsing) : schism_scope.
Notation "'is_u64' x" := (0 <= x < 2 ^ 64) (at level 10, only parsing) : schism_scope.

(** ** Outcomes of C code

    A function either returns, stops for ever in a [for (;;) wfi] loop (in the
    state it hangs in), has undefined behaviour (a null or dangling pointer, an
    index outside its array), or exhausts the fuel of a model loop; that the
    last never happens is a theorem about each loop. *)

Inductive result (S A : Type) : Type :=
  | Ok (a : A) (s : S)
  | Hang (s : S)
  | Undef
  | OutOfFuel.
Arguments Ok {S A} a s.
Arguments Hang {S A} s.
Arguments Undef {S A}.
Arguments OutOfFuel {S A}.

Definition M (S A : Type) : Type := S → result S A.

#[export] Instance M_ret S : MRet (M S) := λ A a s, Ok a s.
#[export] Instance M_bind S : MBind (M S) := λ A B k m s,
  match m s with
  | Ok a s' => k a s'
  | Hang s' => Hang s'
  | Undef => Undef
  | OutOfFuel => OutOfFuel
  end.

Definition hang {S A} : M S A := λ s, Hang s.
Definition undef {S A} : M S A := λ _, Undef.
Definition out_of_fuel {S A} : M S A := λ _, OutOfFuel.
Definition gets {S A} (f : S → A) : M S A := λ s, Ok (f s) s.
Definition modify {S} (f : S → S) : M S () := λ s, Ok () (f s).
Definition of_option {S A} (o : option A) : M S A :=
  match o with Some a => mret a | None => undef end.

(** Array accesses: an index outside the array is undefined behaviour. *)
Definition arr_get {S A} (l : list A) (i : nat) : M S A := of_option (l !! i).
Definition arr_set {S A} (l : list A) (i : nat) (x : A) : M S (list A) :=
  if decide (i < length l)%nat then mret (<[i := x]> l) else undef.

(** [for (i = 0; i < n; ++i) body(i)], pure and effectful. *)
Fixpoint for_up {A} (n : nat) (body : nat → A → A) (a : A) : A :=
  match n with
  | O => a
  | S k => body k (for_up k body a)
  end.

Fixpoint for_upM {S} (n : nat) (body : nat → M S ()) : M S () :=
  match n with
  | O => mret ()
  | S k => for_upM k body ;; body k
  end.

(** The same with a value carried from one iteration to the next. *)
Fixpoint fold_upM {S A} (n : nat) (body : nat → A → M S A) (a : A) : M S A :=
  match n with
  | O => mret a
  | S k => x ← fold_upM k body a; body k x
  end.

(** Run code that works on a part of the state. *)
Definition zoom {S T A} (get : T → S) (put : S → T → T) (m : M S A) : M T A := λ t,
  match m (get t) with
  | Ok a s => Ok a (put s t)
  | Hang s => Hang (put s t)
  | Undef => Undef
  | OutOfFuel => OutOfFuel
  end.

Definition on_fst {S T A} : M S A → M (S * T) A := zoom fst (λ s p, (s, snd p)).
Definition on_snd {S T A} : M T A → M (S * T) A := zoom snd (λ t p, (fst p, t)).

(** ** Weakest preconditions

    [wp m s Q H]: from [s], [m] returns with [Q] or hangs with [H]; it is never
    undefined and never out of fuel. [total m s Q] is [wp] with no hang. *)

Definition wp {S A} (m : M S A) (s : S) (Q : A → S → Prop) (H : S → Prop) : Prop :=
  match m s with
  | Ok a s' => Q a s'
  | Hang s' => H s'
  | Undef | OutOfFuel => False
  end.

Definition total {S A} (m : M S A) (s : S) (Q : A → S → Prop) : Prop :=
  wp m s Q (λ _, False).

Definition hangs {S A} (m : M S A) (s : S) : Prop := ∃ s', m s = Hang s'.

(** Whether code returned, and the state it returned in. *)
Definition is_ok {S A} (r : result S A) : bool := match r with Ok _ _ => true | _ => false end.
Definition final {S A} (s : S) (r : result S A) : S := match r with Ok _ s' => s' | _ => s end.

Lemma is_ok_final {S} (r : result S ()) s : is_ok r = true → r = Ok () (final s r).
Proof. by destruct r as [[]| | |]. Qed.

Create HintDb schism.
Create HintDb fuelled.

Section wp.
Context {St : Type}.

Lemma wp_ret {A} (a : A) (s : St) Q H : Q a s → wp (mret a) s Q H.
Proof. done. Qed.

Lemma wp_bind {A B} (m : M St A) (k : A → M St B) s Q H :
  wp m s (λ a s', wp (k a) s' Q H) H ↔ wp (m ≫= k) s Q H.
Proof. unfold wp, mbind, M_bind. by destruct (m s). Qed.

Lemma wp_mono {A} (m : M St A) s (Q Q' : A → St → Prop) (H H' : St → Prop) :
  wp m s Q H → (∀ a s', Q a s' → Q' a s') → (∀ s', H s' → H' s') → wp m s Q' H'.
Proof. unfold wp. destruct (m s); naive_solver. Qed.

Lemma total_bind {A B} (m : M St A) (k : A → M St B) s R Q :
  total m s R → (∀ a s', R a s' → total (k a) s' Q) → total (m ≫= k) s Q.
Proof.
  intros Hm Hk. apply wp_bind. eapply wp_mono; [exact Hm| |done].
  intros a s' HR. by apply Hk.
Qed.

Lemma total_mono {A} (m : M St A) s (Q Q' : A → St → Prop) :
  total m s Q → (∀ a s', Q a s' → Q' a s') → total m s Q'.
Proof. intros Hm HQ. by eapply wp_mono. Qed.

Lemma total_ret {A} (a : A) (s : St) (Q : A → St → Prop) : Q a s → total (mret a) s Q.
Proof. done. Qed.

Lemma total_Ok {A} (m : M St A) s Q : total m s Q ↔ ∃ a s', m s = Ok a s' ∧ Q a s'.
Proof.
  unfold total, wp. split; [|by intros (a & s' & -> & ?)].
  destruct (m s); naive_solver.
Qed.

Lemma hangs_bind {A B} (m : M St A) (k : A → M St B) s :
  hangs m s → hangs (m ≫= k) s.
Proof. intros [s' Hs]. exists s'. unfold mbind, M_bind. by rewrite Hs. Qed.

Lemma hangs_bind_total {A B} (m : M St A) (k : A → M St B) s R :
  total m s R → (∀ a s', R a s' → hangs (k a) s') → hangs (m ≫= k) s.
Proof.
  intros (a & s' & Hm & HR)%total_Ok Hk. destruct (Hk _ _ HR) as [s'' Hs].
  exists s''. unfold mbind, M_bind. by rewrite Hm.
Qed.

Lemma bind_Ok {A B} (m : M St A) (k : A → M St B) s a s' :
  m s = Ok a s' → (m ≫= k) s = k a s'.
Proof. intros Hm. unfold mbind, M_bind. by rewrite Hm. Qed.

Lemma bind_ext {A B} (m : M St A) (k1 k2 : A → M St B) s :
  (∀ a s', k1 a s' = k2 a s') → (m ≫= k1) s = (m ≫= k2) s.
Proof. intros Hk. unfold mbind, M_bind. destruct (m s); auto. Qed.

Lemma bind_assoc {A B C} (m : M St A) (k : A → M St B) (k' : B → M St C) s :
  ((m ≫= k) ≫= k') s = (m ≫= (λ a, k a ≫= k')) s.
Proof. unfold mbind, M_bind. by destruct (m s). Qed.

Lemma total_arr_get {A} (l : list A) i x (s : St) Q :
  l !! i = Some x → Q x s → total (arr_get l i) s Q.
Proof. intros Hl HQ. unfold arr_get. by rewrite Hl. Qed.

Lemma total_arr_set {A} (l : list A) i x (s : St) Q :
  (i < length l)%nat → Q (<[i := x]> l) s → total (arr_set l i x) s Q.
Proof. intros Hl HQ. unfold arr_set. by rewrite decide_True. Qed.

Lemma for_upM_S n (body : nat → M St ()) s :
  for_upM (S n) body s = (for_upM n body ;; body n) s.
Proof. done. Qed.

Lemma total_for_upM (n : nat) (body : nat → M St ()) (I : nat → St → Prop) s :
  I O s →
  (∀ i s', (i < n)%nat → I i s' → total (body i) s' (λ _, I (i + 1)%nat)) →
  total (for_upM n body) s (λ _, I n).
Proof.
  intros H0 Hstep. induction n as [|n IH]; [done|].
  eapply total_bind; [apply IH; eauto with lia|].
  intros [] s' HI. rewrite <-Nat.add_1_r. apply Hstep; [lia|done].
Qed.
End wp.

(** Code that never exhausts a model loop's fuel, whatever the state. *)
Definition fuelled {S A} (m : M S A) : Prop := ∀ s, m s ≠ OutOfFuel.

Section fuelled.
Context {St : Type}.

Lemma fuelled_bind {A B} (m : M St A) (k : A → M St B) :
  fuelled m → (∀ a, fuelled (k a)) → fuelled (m ≫= k).
Proof.
  intros Hm Hk s. unfold mbind, M_bind. specialize (Hm s).
  destruct (m s); try done. apply Hk.
Qed.
Lemma fuelled_ret {A} (a : A) : fuelled (mret a : M St A).
Proof. by intros s. Qed.
Lemma fuelled_gets {A} (f : St → A) : fuelled (gets f).
Proof. by intros s. Qed.
Lemma fuelled_modify (f : St → St) : fuelled (modify f).
Proof. by intros s. Qed.
Lemma fuelled_hang {A} : fuelled (hang : M St A).
Proof. by intros s. Qed.
Lemma fuelled_arr_get {A} (l : list A) i : fuelled (arr_get l i : M St A).
Proof. intros s. unfold arr_get. by destruct (l !! i). Qed.
Lemma fuelled_arr_set {A} (l : list A) i x : fuelled (arr_set l i x : M St (list A)).
Proof. intros s. unfold arr_set. by case_decide. Qed.
Lemma fuelled_if {A} (b : bool) (m1 m2 : M St A) :
  fuelled m1 → fuelled m2 → fuelled (if b then m1 else m2).
Proof. by destruct b. Qed.
Lemma fuelled_option {A B} (o : option A) (f : A → M St B) (m : M St B) :
  (∀ a, fuelled (f a)) → fuelled m →
  fuelled (match o with Some a => f a | None => m end).
Proof. by destruct o. Qed.
End fuelled.

#[export] Hint Resolve fuelled_ret fuelled_gets fuelled_modify fuelled_hang
  fuelled_arr_get fuelled_arr_set : fuelled.

Ltac solve_fuelled :=
  repeat (intros; first
    [ solve [eauto 3 with fuelled] | apply fuelled_bind | apply fuelled_if | case_match ]).

#[export] Hint Resolve wp_ret total_ret : schism.
Create Rewrite HintDb schism.
#[export] Hint Rewrite @list_lookup_insert_eq @length_insert using (done || lia) : schism.

(** Run the next statement: [mstep] when it reduces by itself, [mstep_by tac]
    with an equation for it. *)
Ltac mstep_by tac := (erewrite bind_Ok; [|solve [tac]]); cbv beta iota.
Ltac mstep := mstep_by ltac:(reflexivity).

(** ** Words *)

Section words.
Lemma u64_small x : is_u64 x → u64 x = x.
Proof. apply Z.mod_small. Qed.

Lemma u64_range x : is_u64 (u64 x).
Proof. apply Z.mod_pos_bound. lia. Qed.

Lemma u64_add_mod_l x y : u64 (u64 x + y) = u64 (x + y).
Proof. apply Zplus_mod_idemp_l. Qed.

Lemma u64_add_mod_r x y : u64 (x + u64 y) = u64 (x + y).
Proof. apply Zplus_mod_idemp_r. Qed.

Lemma u64_sub_mod_l x y : u64 (u64 x - y) = u64 (x - y).
Proof. apply Zminus_mod_idemp_l. Qed.

Lemma u64_sub_mod_r x y : u64 (x - u64 y) = u64 (x - y).
Proof. apply Zminus_mod_idemp_r. Qed.

Lemma u64_u64 x : u64 (u64 x) = u64 x.
Proof. apply Z.mod_mod. lia. Qed.

(** Adding and removing the same offset is the identity on [u64]. *)
Lemma u64_add_sub x y : u64 (u64 (x - y) + y) = u64 x.
Proof. rewrite u64_add_mod_l. f_equal. lia. Qed.

Lemma u64_sub_add x y : u64 (u64 (x + y) - y) = u64 x.
Proof. rewrite u64_sub_mod_l. f_equal. lia. Qed.
End words.

Create Rewrite HintDb words.
#[export] Hint Rewrite u64_add_mod_l u64_add_mod_r u64_sub_mod_l u64_sub_mod_r u64_u64 : words.
#[export] Hint Resolve u64_range : schism.

(** ** Bit fields *)

Section bits.
Lemma land_ones_mod x n : 0 ≤ n → Z.land x (Z.ones n) = x mod 2 ^ n.
Proof. apply Z.land_ones. Qed.

Lemma testbit_u64 x i : 0 ≤ i → Z.testbit (u64 x) i = bool_decide (i < 64) && Z.testbit x i.
Proof.
  intros Hi. unfold u64. case_bool_decide.
  - by rewrite Z.mod_pow2_bits_low.
  - by rewrite Z.mod_pow2_bits_high by lia.
Qed.

Lemma testbit_high x n i : 0 ≤ x < 2 ^ n → 0 ≤ n ≤ i → Z.testbit x i = false.
Proof.
  intros Hx Hi. rewrite <-(Z.mod_small x (2 ^ n)) by lia.
  apply Z.mod_pow2_bits_high. lia.
Qed.

(** Clearing the low [n] bits of a word with a mask. *)
Lemma land_clear_low x n : is_u64 x → 0 ≤ n ≤ 64 →
  Z.land x (not64 (Z.ones n)) = x - x mod 2 ^ n.
Proof.
  intros Hx Hn.
  assert (Z.land x (not64 (Z.ones n)) = Z.ldiff x (Z.ones n)) as ->.
  { apply Z.bits_inj'. intros i Hi. unfold not64.
    rewrite Z.land_spec, Z.ldiff_spec, testbit_u64, Z.lnot_spec by lia.
    case_bool_decide; [done|]. by rewrite (testbit_high x 64) by lia. }
  rewrite Z.ldiff_ones_r, Z.shiftl_mul_pow2, Z.shiftr_div_pow2 by lia.
  pose proof (Z.div_mod x (2 ^ n)). lia.
Qed.

(** [|] of fields that do not overlap is their sum. *)
Lemma lor_add a b n : 0 ≤ n → a mod 2 ^ n = 0 → 0 ≤ b < 2 ^ n → Z.lor a b = a + b.
Proof.
  intros Hn Ha Hb. assert (Z.land a b = 0) as Hab.
  { apply Z.bits_inj'. intros i Hi. rewrite Z.land_spec, Z.bits_0.
    destruct (decide (i < n)).
    - rewrite <-(Z.mod_pow2_bits_low a n) by lia. by rewrite Ha, Z.bits_0.
    - rewrite (testbit_high b n) by lia. by rewrite andb_false_r. }
  by rewrite <-Z.lxor_lor, <-Z.add_nocarry_lxor.
Qed.

(** [|] of numbers of [n] bits has [n] bits. *)
Lemma lor_range a b n : 0 ≤ n → 0 ≤ a < 2 ^ n → 0 ≤ b < 2 ^ n → 0 ≤ Z.lor a b < 2 ^ n.
Proof.
  intros Hn Ha Hb. assert (Z.lor a b = Z.lor a b mod 2 ^ n) as ->; [|apply Z.mod_pos_bound; lia].
  apply Z.bits_inj'. intros i Hi. rewrite Z.testbit_mod_pow2 by lia.
  destruct (Z.ltb_spec i n); [done|]. by rewrite Z.lor_spec, !(testbit_high _ n) by lia.
Qed.

Lemma shiftr_land_ones x s n : 0 ≤ s → 0 ≤ n →
  Z.land (Z.shiftr x s) (Z.ones n) = (x / 2 ^ s) mod 2 ^ n.
Proof. intros. by rewrite Z.land_ones, Z.shiftr_div_pow2 by lia. Qed.

Lemma mod_pow2_low x n k : 0 ≤ n ≤ k → (x mod 2 ^ k) mod 2 ^ n = x mod 2 ^ n.
Proof.
  intros Hn. apply Z.bits_inj'. intros i Hi. destruct (decide (i < n)).
  - by rewrite !Z.mod_pow2_bits_low by lia.
  - by rewrite !Z.mod_pow2_bits_high by lia.
Qed.

Lemma mod0_add x y a : x mod a = 0 → y mod a = 0 → (x + y) mod a = 0.
Proof. intros Hx Hy. by rewrite Zplus_mod, Hx, Hy, Z.add_0_l, Zmod_0_l. Qed.

Lemma mod0_mul n x a : x mod a = 0 → (n * x) mod a = 0.
Proof. intros Hx. by rewrite <-Zmult_mod_idemp_r, Hx, Z.mul_0_r, Zmod_0_l. Qed.

(** The set bits of a constant, tested one by one. *)
Definition set_bits (w : Z) (l : list Z) (n : Z) : bool :=
  bool_decide (0 ≤ w < 2 ^ n) && forallb (λ i, Z.ltb i n) l &&
  forallb (λ i, eqb (Z.testbit w i) (bool_decide (i ∈ l))) (seqZ 0 n).

Lemma set_bits_spec w l n i :
  set_bits w l n = true → 0 ≤ n → 0 ≤ i → Z.testbit w i = bool_decide (i ∈ l).
Proof.
  intros [[Hw Hl]%andb_true_iff Hb]%andb_true_iff Hn Hi. apply bool_decide_eq_true in Hw.
  destruct (decide (i < n)).
  - apply eqb_prop. by apply (proj1 (forallb_forall _ _) Hb), list_elem_of_In, elem_of_seqZ.
  - rewrite (testbit_high w n) by lia. symmetry. apply bool_decide_eq_false_2. intros Hin.
    apply list_elem_of_In in Hin. apply (proj1 (forallb_forall _ _) Hl) in Hin. lia.
Qed.

(** Case analysis on a 3-bit field. *)
Lemma octal_cases c : 0 ≤ c < 8 →
  c = 0 ∨ c = 1 ∨ c = 2 ∨ c = 3 ∨ c = 4 ∨ c = 5 ∨ c = 6 ∨ c = 7.
Proof. lia. Qed.

(** Rounding down to a multiple. *)
Lemma floor_mod x a : 0 < a → (x - x mod a) mod a = 0.
Proof.
  intros Ha. pose proof (Z.div_mod x a). replace (x - x mod a) with (x / a * a) by lia.
  by rewrite Z.mod_mul by lia.
Qed.

Lemma floor_bound x a : 0 < a → 0 ≤ x → 0 ≤ x - x mod a ≤ x ∧ x < x - x mod a + a.
Proof.
  intros Ha Hx. pose proof (Z.mod_pos_bound x a Ha). pose proof (Z.mod_le x a). lia.
Qed.
End bits.

Ltac octal c H :=
  destruct (octal_cases c H) as [->|[->|[->|[->|[->|[->|[->| ->]]]]]]].

(** ** Pure loops over arrays *)

Section arrays.
Context {A : Type}.

Lemma length_for_up_fill (x : A) n (l : list A) :
  length (for_up n (λ i b, <[i := x]> b) l) = length l.
Proof. induction n as [|n IH]; simpl; [done|]. by rewrite length_insert. Qed.

Lemma for_up_fill_lookup (x : A) n (l : list A) i :
  for_up n (λ i b, <[i := x]> b) l !! i =
    if decide (i < n)%nat then (λ _, x) <$> l !! i else l !! i.
Proof.
  induction n as [|n IH]; simpl; [done|].
  destruct (decide (i = n)) as [->|Hne].
  - rewrite (decide_True (P := (n < S n)%nat)) by lia.
    destruct (l !! n) eqn:Hl; simpl.
    + apply list_lookup_insert_eq. rewrite length_for_up_fill. by eapply lookup_lt_Some.
    + apply lookup_ge_None. rewrite length_insert, length_for_up_fill. by apply lookup_ge_None.
  - rewrite list_lookup_insert_ne by done. rewrite IH.
    repeat case_decide; lia || done.
Qed.

(** A loop that stores [x] in every cell of an array. *)
Lemma for_up_fill (x : A) n (l : list A) :
  length l = n → for_up n (λ i b, <[i := x]> b) l = replicate n x.
Proof.
  intros <-. apply list_eq. intros i. rewrite for_up_fill_lookup.
  case_decide as Hi.
  - rewrite lookup_replicate_2 by done.
    apply lookup_lt_is_Some_2 in Hi as [y ->]. done.
  - rewrite (lookup_ge_None_2 l) by lia.
    symmetry. apply lookup_ge_None. rewrite length_replicate. lia.
Qed.
End arrays.

(** ** Domains of finite maps *)

Section maps.
Context `{Countable K} {V : Type}.

Lemma dom_add_Some (C : gmap K V) k v : C !! k = Some v → {[k]} ∪ dom C = dom C.
Proof. intros Hk%elem_of_dom_2. by apply subseteq_union_1_L, singleton_subseteq_l. Qed.

Lemma size_dom_add_None (C : gmap K V) k :
  C !! k = None → size ({[k]} ∪ dom C) = S (size C).
Proof.
  intros Hk%not_elem_of_dom. rewrite size_union by by apply disjoint_singleton_l.
  by rewrite size_singleton, size_dom.
Qed.

Lemma size_list_to_set_le (l : list K) :
  (size (list_to_set l : gset K) ≤ length l)%nat.
Proof.
  induction l as [|x l IH]; [done|]. simpl.
  rewrite size_union_alt, size_singleton.
  pose proof (subseteq_size (list_to_set l ∖ {[x]} : gset K) (list_to_set l)) as Hs.
  specialize (Hs ltac:(apply subseteq_difference_l; done)). lia.
Qed.
End maps.

#[global] Arguments for_up : simpl never.
#[global] Arguments for_upM : simpl never.
