(* ===== verification/Machine.v ===== *)
(** * The processor as the C code sees it

    System registers, barriers and the generic timer: what [mrs], [msr] and the
    barrier instructions in the inline assembly of [core/] do to the state the
    hypervisor depends on. *)

From Stdlib Require Import ZArith Lia.
From stdpp Require Import base list strings.
From S2P Require Import Prelude.

Inductive sysreg :=
  (* EL2 translation and configuration *)
  | MAIR_EL2 | VTCR_EL2 | VTTBR_EL2 | HCR_EL2 | CNTHCTL_EL2
  | TTBR0_EL2 | TCR_EL2 | SCTLR_EL2 | ID_AA64MMFR1_EL1
  (* exception state *)
  | VBAR_EL2 | ESR_EL2 | ELR_EL2 | SPSR_EL2 | FAR_EL2 | HPFAR_EL2
  (* guest EL1 state *)
  | SP (* the stack pointer of the current level, EL2 *)
  | SP_EL1 | VBAR_EL1 | ESR_EL1 | ELR_EL1 | TTBR0_EL1 | TTBR1_EL1 | TCR_EL1 | SCTLR_EL1 | TPIDR_EL1 | CNTKCTL_EL1
  (* generic timer *)
  | CNTPCT_EL0 | CNTVCT_EL0 | CNTVOFF_EL2
  | CNTP_CTL_EL0 | CNTP_CVAL_EL0 | CNTV_CTL_EL0 | CNTV_CVAL_EL0
  (* floating point, pointer authentication *)
  | FPCR | FPSR
  | APIAKEY_EL1 | APIBKEY_EL1 | APDAKEY_EL1 | APDBKEY_EL1
  (* virtual interrupt controller *)
  | ICH_LR (n : nat) | ICH_VTR | ICH_VMCR | ICH_AP0R0.

#[export] Instance sysreg_eq_dec : EqDecision sysreg.
Proof. solve_decision. Defined.

(** What the inline assembly does besides computing values. *)
Inductive event :=
  | Msr (r : sysreg) (v : Z)
  | Isb
  | Dsb (domain : string)
  | Tlbi (op : string)
  | DaifSet (imm : Z)
  | DaifClr (imm : Z)
  | SpSel (imm : Z)
  | Eret.

#[export] Instance event_eq_dec : EqDecision event.
Proof. solve_decision. Defined.

(** [vregs] are the 128-bit SIMD registers as pairs of 64-bit lanes, [gprs] the
    general registers x0-x30, [reads] the number of counter reads so far, [trace]
    what the assembly did, newest first. *)
Record machine := Machine {
  sys : sysreg → Z;
  vregs : list (Z * Z);
  gprs : list Z;
  reads : nat;
  trace : list event;
}.

Definition upd (r : sysreg) (v : Z) (f : sysreg → Z) : sysreg → Z :=
  λ r', if decide (r = r') then v else f r'.

Definition set_sys (f : (sysreg → Z) → sysreg → Z) (m : machine) : machine :=
  Machine (f (sys m)) (vregs m) (gprs m) (reads m) (trace m).
Definition set_vregs (v : list (Z * Z)) (m : machine) : machine :=
  Machine (sys m) v (gprs m) (reads m) (trace m).
Definition set_gprs (g : list Z) (m : machine) : machine :=
  Machine (sys m) (vregs m) g (reads m) (trace m).
Definition tick (m : machine) : machine :=
  Machine (sys m) (vregs m) (gprs m) (S (reads m)) (trace m).
Definition emit (e : event) (m : machine) : machine :=
  Machine (sys m) (vregs m) (gprs m) (reads m) (e :: trace m).

(** The system counter is outside the program: [count_at n] is what the [n]-th
    counter read of the run finds in CNTPCT_EL0, [virt_count pct off] what
    CNTVCT_EL0 reads when the physical count is [pct] and CNTVOFF_EL2 is [off]. *)
Class Counter := {
  count_at : nat → Z;
  virt_count : Z → Z → Z;
}.

(** Documented behaviour (Arm ARM, the generic timer): counters are 64 bits wide
    and the virtual count is the physical count minus the virtual offset. *)
Class CounterArch `{!Counter} : Prop := {
  count_range n : is_u64 (count_at n);
  virt_count_arch pct off : virt_count pct off = u64 (pct - off);
}.

Section ops.
Context `{!Counter}.

Definition mrs (r : sysreg) : M machine Z := λ m,
  match r with
  | CNTPCT_EL0 => Ok (count_at (reads m)) (tick m)
  | CNTVCT_EL0 => Ok (virt_count (count_at (reads m)) (sys m CNTVOFF_EL2)) (tick m)
  | _ => Ok (sys m r) m
  end.

Definition msr (r : sysreg) (v : Z) : M machine () :=
  modify (λ m, emit (Msr r v) (set_sys (upd r v) m)).

Definition isb : M machine () := modify (emit Isb).
Definition dsb (domain : string) : M machine () := modify (emit (Dsb domain)).
Definition tlbi (op : string) : M machine () := modify (emit (Tlbi op)).
Definition daifset (imm : Z) : M machine () := modify (emit (DaifSet imm)).
Definition daifclr (imm : Z) : M machine () := modify (emit (DaifClr imm)).
Definition spsel (imm : Z) : M machine () := modify (emit (SpSel imm)).
Definition eret : M machine () := modify (emit Eret).
End ops.

Section upd.
Lemma upd_eq r v f : upd r v f r = v.
Proof. unfold upd. by rewrite decide_True. Qed.

Lemma upd_ne r r' v f : r ≠ r' → upd r v f r' = f r'.
Proof. intros. unfold upd. by rewrite decide_False. Qed.

(** A register that is not a counter reads back its last value. *)
Lemma mrs_plain `{!Counter} r m :
  r ≠ CNTPCT_EL0 → r ≠ CNTVCT_EL0 → mrs r m = Ok (sys m r) m.
Proof. by destruct r. Qed.
End upd.

#[export] Hint Rewrite upd_eq : schism.
#[export] Hint Rewrite upd_ne using (congruence) : schism.

(** Read registers back through a sequence of writes. *)
Ltac simpl_regs :=
  repeat match goal with
    | |- context [upd ?r ?v ?f ?r] => rewrite (upd_eq r v f)
    | |- context [upd ?r ?v ?f ?r'] => rewrite (upd_ne r r' v f) by (congruence || done)
    end.

(** ** A concrete processor, for the theorems' witnesses

    The counter advances by one at every read. *)

Definition demo_counter : Counter :=
  {| count_at n := u64 (1000 + Z.of_nat n); virt_count pct off := u64 (pct - off) |}.

Lemma demo_counter_arch : @CounterArch demo_counter.
Proof. split; [intros n; apply u64_range | done]. Qed.

Definition demo_machine : machine := Machine (λ _, 0) [] [] 0 [].
