(* ===== verification/PageTable.v ===== *)
(** * Three-level translation tables built from static pools

    The data layout that [core/s2_mmu.c] and [core/el2_mmu.c] share, the tables
    as the table walker sees them in memory, and a reference builder with its
    theory. [S2Mmu] and [El2Mmu] transcribe the two C files over this layout and
    inherit the theorems of this file through an instance of [Builder].        *)

From Stdlib Require Import ZArith Lia.
From stdpp Require Import base gmap list.
From S2P Require Import Prelude.

(** ** Data *)

Definition PT_ENTRIES : nat := 512.
#[global] Arguments PT_ENTRIES : simpl never.

(** [struct l2_table { u64 entries[512]; l3_table* children[512]; }]: the
    software keeps, next to the descriptors, the pointers they encode. A pointer
    into a static pool is the index of its element, [None] is the null pointer. *)
Record l2_table := L2Table {
  entries : list Z;
  children : list (option nat);
}.

(** [struct l3_table { u64 entries[512]; }]. *)
Abbreviation l3_table := (list Z).

(** The static variables of one table builder. *)
Record pt := Pt {
  l1 : list Z;
  l2_pool : list l2_table;
  l3_pool : list l3_table;
  l1_children : list (option nat);
  l2_used : Z;
  l3_used : Z;
}.

(** In [.bss] every entry and pointer is zero. *)
Definition zeroed_l2 : l2_table := L2Table (replicate PT_ENTRIES 0) (replicate PT_ENTRIES None).
Definition zeroed_l3 : l3_table := replicate PT_ENTRIES 0.

Definition pt_bss (n2 n3 : nat) : pt :=
  Pt (replicate PT_ENTRIES 0) (replicate n2 zeroed_l2) (replicate n3 zeroed_l3)
     (replicate PT_ENTRIES None) 0 0.

Definition set_l1 (f : list Z → list Z) (s : pt) : pt :=
  Pt (f (l1 s)) (l2_pool s) (l3_pool s) (l1_children s) (l2_used s) (l3_used s).
Definition set_l2_pool (f : list l2_table → list l2_table) (s : pt) : pt :=
  Pt (l1 s) (f (l2_pool s)) (l3_pool s) (l1_children s) (l2_used s) (l3_used s).
Definition set_l3_pool (f : list l3_table → list l3_table) (s : pt) : pt :=
  Pt (l1 s) (l2_pool s) (f (l3_pool s)) (l1_children s) (l2_used s) (l3_used s).
Definition set_l1_children (f : list (option nat) → list (option nat)) (s : pt) : pt :=
  Pt (l1 s) (l2_pool s) (l3_pool s) (f (l1_children s)) (l2_used s) (l3_used s).
Definition set_l2_used (f : Z → Z) (s : pt) : pt :=
  Pt (l1 s) (l2_pool s) (l3_pool s) (l1_children s) (f (l2_used s)) (l3_used s).
Definition set_l3_used (f : Z → Z) (s : pt) : pt :=
  Pt (l1 s) (l2_pool s) (l3_pool s) (l1_children s) (l2_used s) (f (l3_used s)).

Definition set_entries (f : list Z → list Z) (t : l2_table) : l2_table :=
  L2Table (f (entries t)) (children t).
Definition set_children (f : list (option nat) → list (option nat)) (t : l2_table) : l2_table :=
  L2Table (entries t) (f (children t)).

(** Stores through a pointer or an index; outside the array they are undefined. *)
Definition store_l1 (i : nat) (v : Z) : M pt () :=
  a ← gets l1; a' ← arr_set a i v; modify (set_l1 (λ _, a')).
Definition store_l1_children (i : nat) (v : option nat) : M pt () :=
  a ← gets l1_children; a' ← arr_set a i v; modify (set_l1_children (λ _, a')).
Definition store_l2_entry (k i : nat) (v : Z) : M pt () :=
  p ← gets l2_pool; t ← arr_get p k; a ← arr_set (entries t) i v;
  p' ← arr_set p k (set_entries (λ _, a) t); modify (set_l2_pool (λ _, p')).
Definition store_l2_child (k i : nat) (v : option nat) : M pt () :=
  p ← gets l2_pool; t ← arr_get p k; a ← arr_set (children t) i v;
  p' ← arr_set p k (set_children (λ _, a) t); modify (set_l2_pool (λ _, p')).
Definition store_l3_entry (k i : nat) (v : Z) : M pt () :=
  p ← gets l3_pool; t ← arr_get p k; a ← arr_set t i v;
  p' ← arr_set p k a; modify (set_l3_pool (λ _, p')).

(** What a C file fixes: the pool sizes, where the linker placed the three
    objects, how the descriptor of a next-level table is formed from its address
    and the width of the allocation counters. *)
Class Builder := {
  max_l2 : Z;
  max_l3 : Z;
  l1_addr : Z;
  l2_pool_addr : Z;
  l3_pool_addr : Z;
  table_desc : Z → Z;
  counter_wrap : Z → Z;
}.

(** [sizeof(l2_table)] and [sizeof(l3_table)]: 512 descriptors and 512 pointers,
    512 descriptors. *)
Definition sizeof_l2_table : Z := 8192.
Definition sizeof_l3_table : Z := 4096.

Section builder.
Context `{!Builder}.

Definition l2_addr (k : nat) : Z := l2_pool_addr + Z.of_nat k * sizeof_l2_table.
Definition l3_addr (k : nat) : Z := l3_pool_addr + Z.of_nat k * sizeof_l3_table.

(** *** The reference builder *)

Definition alloc_l2 : M pt nat :=
  used ← gets l2_used;
  if max_l2 <=? used then hang else
  let k := Z.to_nat used in
  modify (set_l2_used (λ u, counter_wrap (u + 1))) ;;
  p ← gets l2_pool;
  t ← arr_get p k;
  let t' := L2Table (for_up PT_ENTRIES (λ i b, <[i := 0]> b) (entries t))
                    (for_up PT_ENTRIES (λ i b, <[i := None]> b) (children t)) in
  p' ← arr_set p k t';
  modify (set_l2_pool (λ _, p')) ;;
  mret k.

Definition alloc_l3 : M pt nat :=
  used ← gets l3_used;
  if max_l3 <=? used then hang else
  let k := Z.to_nat used in
  modify (set_l3_used (λ u, counter_wrap (u + 1))) ;;
  p ← gets l3_pool;
  t ← arr_get p k;
  p' ← arr_set p k (for_up PT_ENTRIES (λ i b, <[i := 0]> b) t);
  modify (set_l3_pool (λ _, p')) ;;
  mret k.

Definition ensure_l2 (i : nat) : M pt nat :=
  cs ← gets l1_children;
  c ← arr_get cs i;
  match c with
  | Some k => mret k
  | None =>
      k ← alloc_l2;
      store_l1_children i (Some k) ;;
      store_l1 i (table_desc (l2_addr k)) ;;
      mret k
  end.

Definition ensure_l3 (k i : nat) : M pt nat :=
  p ← gets l2_pool;
  t ← arr_get p k;
  c ← arr_get (children t) i;
  match c with
  | Some q => mret q
  | None =>
      q ← alloc_l3;
      store_l2_child k i (Some q) ;;
      store_l2_entry k i (table_desc (l3_addr q)) ;;
      mret q
  end.

(** Indices of an address in the three levels, as the code computes them. *)
Definition l1_index (va : Z) : nat := Z.to_nat (Z.land (Z.shiftr va 30) 0x1ff).
Definition l2_index (va : Z) : nat := Z.to_nat (Z.land (Z.shiftr va 21) 0x1ff).
Definition l3_index (va : Z) : nat := Z.to_nat (Z.land (Z.shiftr va 12) 0x1ff).

Definition install (va desc : Z) : M pt () :=
  k ← ensure_l2 (l1_index va);
  q ← ensure_l3 k (l2_index va);
  store_l3_entry q (l3_index va) desc.

Definition reset : M pt () :=
  modify (set_l1 (for_up PT_ENTRIES (λ i b, <[i := 0]> b))) ;;
  modify (set_l1_children (for_up PT_ENTRIES (λ i b, <[i := None]> b))) ;;
  modify (set_l2_used (λ _, 0)) ;;
  modify (set_l3_used (λ _, 0)).
End builder.

(** ** The tables in memory

    [mem_read s a] is the 8-byte word the hardware finds at address [a] inside
    the three static objects: an L2 table is 4096 bytes of descriptors followed by
    4096 bytes of software pointers. *)

Section memory.
Context `{!Builder}.

Definition ptr_value (c : option nat) : Z :=
  match c with Some q => l3_addr q | None => 0 end.

Definition in_region (a base size : Z) : bool := (base <=? a) && (a <? base + size).

Definition mem_read (s : pt) (a : Z) : option Z :=
  if in_region a l1_addr 4096 then l1 s !! Z.to_nat ((a - l1_addr) / 8)
  else if in_region a l2_pool_addr (max_l2 * sizeof_l2_table) then
    let o := a - l2_pool_addr in
    match l2_pool s !! Z.to_nat (o / sizeof_l2_table) with
    | Some t =>
        let p := o mod sizeof_l2_table in
        if p <? 4096 then entries t !! Z.to_nat (p / 8)
        else ptr_value <$> children t !! Z.to_nat ((p - 4096) / 8)
    | None => None
    end
  else if in_region a l3_pool_addr (max_l3 * sizeof_l3_table) then
    let o := a - l3_pool_addr in
    match l3_pool s !! Z.to_nat (o / sizeof_l3_table) with
    | Some t => t !! Z.to_nat (o mod sizeof_l3_table / 8)
    | None => None
    end
  else None.
End memory.

(** *** The table walk

    The reference walk of a 4 KiB granule, 39-bit regime starting at level 1, in
    the descriptor format the headers document: [1:0] = 11 is a table (levels 1
    and 2) or a page (level 3), 01 a block, anything else faults; bits [47:12]
    hold the next address. [NoMemory] is a walk that leaves the given memory. *)

Inductive walk_result :=
  | Fault (level : Z)
  | Block (level : Z) (desc : Z)
  | Page (desc : Z)
  | NoMemory.

Definition desc_type (d : Z) : Z := d mod 4.
Definition desc_addr (d : Z) : Z := (d / 4096) mod 2 ^ 36 * 4096.

Definition vpn1 (va : Z) : Z := (va / 2 ^ 30) mod 512.
Definition vpn2 (va : Z) : Z := (va / 2 ^ 21) mod 512.
Definition vpn3 (va : Z) : Z := (va / 2 ^ 12) mod 512.

Definition walk_table (mem : Z → option Z) (level base idx : Z)
    (k : Z → walk_result) : walk_result :=
  match mem (base + 8 * idx) with
  | None => NoMemory
  | Some d => if desc_type d =? 3 then k (desc_addr d)
              else if desc_type d =? 1 then Block level d else Fault level
  end.

Definition walk (mem : Z → option Z) (root va : Z) : walk_result :=
  walk_table mem 1 root (vpn1 va) (λ b2,
  walk_table mem 2 b2 (vpn2 va) (λ b3,
  match mem (b3 + 8 * vpn3 va) with
  | None => NoMemory
  | Some d => if desc_type d =? 3 then Page d else Fault 3
  end)).

(** ** Abstract tables: finite maps from page numbers to descriptors *)

(** The page number of an address in the 39-bit window the walk decodes: higher
    bits are ignored by the three 9-bit indices. *)
Definition page_of (va : Z) : Z := (va / 4096) mod 2 ^ 27.

(** The 1 GiB and 2 MiB regions of a page number. *)
Definition giga_of (p : Z) : nat := Z.to_nat (p / 2 ^ 18).
Definition mega_of (p : Z) : nat * nat := (giga_of p, Z.to_nat (p / 2 ^ 9 mod 512)).
Definition slot_of (p : Z) : nat := Z.to_nat (p mod 512).

Definition page_key (i j x : nat) : Z := Z.of_nat i * 2 ^ 18 + Z.of_nat j * 2 ^ 9 + Z.of_nat x.

Abbreviation pages := (gmap Z Z).

Definition gigas (m : pages) : gset nat := set_map giga_of (dom m).
Definition megas (m : pages) : gset (nat * nat) := set_map mega_of (dom m).

Definition apply_pages (ps : list (Z * Z)) (m : pages) : pages :=
  foldl (λ m '(p, d), <[p := d]> m) m ps.

(** The abstract builder succeeds exactly when the regions fit the two pools. *)
Definition fits `{!Builder} (m : pages) : Prop :=
  Z.of_nat (size (gigas m)) ≤ max_l2 ∧ Z.of_nat (size (megas m)) ≤ max_l3.

#[export] Instance fits_dec `{!Builder} m : Decision (fits m).
Proof. unfold fits. apply _. Defined.

(** Side conditions on a builder: pools that do not overlap, page-aligned
    objects below 2^48 and a table descriptor that is the address with type 11. *)
Class BuilderOk `{!Builder} : Prop := {
  ok_max_l2 : 0 ≤ max_l2;
  ok_max_l3 : 0 ≤ max_l3;
  ok_l1_align : l1_addr mod 4096 = 0;
  ok_l2_align : l2_pool_addr mod 4096 = 0;
  ok_l3_align : l3_pool_addr mod 4096 = 0;
  ok_l1_range : 0 ≤ l1_addr ∧ l1_addr + 4096 ≤ 2 ^ 48;
  ok_l2_range : 0 ≤ l2_pool_addr ∧ l2_pool_addr + max_l2 * sizeof_l2_table ≤ 2 ^ 48;
  ok_l3_range : 0 ≤ l3_pool_addr ∧ l3_pool_addr + max_l3 * sizeof_l3_table ≤ 2 ^ 48;
  ok_l1_l2 : l1_addr + 4096 ≤ l2_pool_addr ∨ l2_pool_addr + max_l2 * sizeof_l2_table ≤ l1_addr;
  ok_l1_l3 : l1_addr + 4096 ≤ l3_pool_addr ∨ l3_pool_addr + max_l3 * sizeof_l3_table ≤ l1_addr;
  ok_l2_l3 : l2_pool_addr + max_l2 * sizeof_l2_table ≤ l3_pool_addr ∨
             l3_pool_addr + max_l3 * sizeof_l3_table ≤ l2_pool_addr;
  ok_table_desc : ∀ a, a mod 4096 = 0 → 0 ≤ a < 2 ^ 48 → table_desc a = a + 3;
  ok_counter_l2 : ∀ u, 0 ≤ u ≤ max_l2 → counter_wrap u = u;
  ok_counter_l3 : ∀ u, 0 ≤ u ≤ max_l3 → counter_wrap u = u;
}.

(** *** Representation *)

Section repr.
Context `{!Builder}.

(** Array sizes, which C fixes by type. *)
Record shape (s : pt) : Prop := {
  sh_l1 : length (l1 s) = PT_ENTRIES;
  sh_l1c : length (l1_children s) = PT_ENTRIES;
  sh_l2 : Z.of_nat (length (l2_pool s)) = max_l2;
  sh_l3 : Z.of_nat (length (l3_pool s)) = max_l3;
  sh_l2t : Forall (λ t, length (entries t) = PT_ENTRIES ∧ length (children t) = PT_ENTRIES) (l2_pool s);
  sh_l3t : Forall (λ t : l3_table, length t = PT_ENTRIES) (l3_pool s);
}.

Definition desc2 (c : option nat) : Z :=
  match c with Some k => table_desc (l2_addr k) | None => 0 end.
Definition desc3 (c : option nat) : Z :=
  match c with Some q => table_desc (l3_addr q) | None => 0 end.

(** [links s C2 C3]: the software pointers are [C2] (L1 to L2) and [C3] (L2 to
    L3), the descriptors encode them, and no table is used twice. *)
Record links (s : pt) (C2 : gmap nat nat) (C3 : gmap (nat * nat) nat) : Prop := {
  lk_child1 i : (i < PT_ENTRIES)%nat → l1_children s !! i = Some (C2 !! i);
  lk_entry1 i : (i < PT_ENTRIES)%nat → l1 s !! i = Some (desc2 (C2 !! i));
  lk_inj2 i i' k : C2 !! i = Some k → C2 !! i' = Some k → i = i';
  lk_bound2 i k : C2 !! i = Some k → (i < PT_ENTRIES)%nat ∧ Z.of_nat k < l2_used s;
  lk_used2 : l2_used s = Z.of_nat (size C2);
  lk_max2 : l2_used s ≤ max_l2;
  lk_child2 i k j : C2 !! i = Some k → (j < PT_ENTRIES)%nat →
    ∃ t, l2_pool s !! k = Some t ∧ children t !! j = Some (C3 !! (i, j)) ∧
         entries t !! j = Some (desc3 (C3 !! (i, j)));
  lk_inj3 ij ij' q : C3 !! ij = Some q → C3 !! ij' = Some q → ij = ij';
  lk_bound3 i j q : C3 !! (i, j) = Some q →
    is_Some (C2 !! i) ∧ (j < PT_ENTRIES)%nat ∧ Z.of_nat q < l3_used s;
  lk_used3 : l3_used s = Z.of_nat (size C3);
  lk_max3 : l3_used s ≤ max_l3;
}.

(** The leaves hold the abstract map. *)
Record leaves (s : pt) (C3 : gmap (nat * nat) nat) (m : pages) : Prop := {
  lv_table i j q x : C3 !! (i, j) = Some q → (x < PT_ENTRIES)%nat →
    ∃ t, l3_pool s !! q = Some t ∧ t !! x = Some (default 0 (m !! page_key i j x));
  lv_dom p d : m !! p = Some d → 0 ≤ p < 2 ^ 27 ∧ is_Some (C3 !! mega_of p);
}.

Record repr_at (s : pt) (C2 : gmap nat nat) (C3 : gmap (nat * nat) nat) (m : pages) : Prop := {
  rp_shape : shape s;
  rp_links : links s C2 C3;
  rp_leaves : leaves s C3 m;
}.

(** Every allocated table serves a mapped page. *)
Definition repr (s : pt) (m : pages) : Prop :=
  ∃ C2 C3, repr_at s C2 C3 m ∧ dom C2 = gigas m ∧ dom C3 = megas m.
End repr.
