(* ===== verification/PageTableTheory.v ===== *)
(** * Theory of the table builder

    The reference builder of [PageTable] refines the abstract finite map of
    pages: every operation keeps the representation invariant [repr], succeeds
    exactly when the regions fit the pools, and the hardware walk of the tables in
    memory computes the map's lookup.                                           *)

From Stdlib Require Import ZArith Lia.
From stdpp Require Import base gmap list fin_sets.
From S2P Require Import Prelude PageTable.

(** ** Indices *)

Section indices.
Lemma l1_index_vpn va : l1_index va = Z.to_nat (vpn1 va).
Proof. unfold l1_index, vpn1. change 0x1ff with (Z.ones 9). by rewrite shiftr_land_ones. Qed.
Lemma l2_index_vpn va : l2_index va = Z.to_nat (vpn2 va).
Proof. unfold l2_index, vpn2. change 0x1ff with (Z.ones 9). by rewrite shiftr_land_ones. Qed.
Lemma l3_index_vpn va : l3_index va = Z.to_nat (vpn3 va).
Proof. unfold l3_index, vpn3. change 0x1ff with (Z.ones 9). by rewrite shiftr_land_ones. Qed.

Lemma vpn_bounds va : 0 ≤ vpn1 va < 512 ∧ 0 ≤ vpn2 va < 512 ∧ 0 ≤ vpn3 va < 512.
Proof. unfold vpn1, vpn2, vpn3. split_and!; apply Z.mod_pos_bound; lia. Qed.

Lemma page_of_bound va : 0 ≤ page_of va < 2 ^ 27.
Proof. apply Z.mod_pos_bound. lia. Qed.

(** The page number is the three indices in base 512. *)
Lemma page_of_vpn va : page_of va = vpn1 va * 2 ^ 18 + vpn2 va * 2 ^ 9 + vpn3 va.
Proof.
  unfold page_of, vpn1, vpn2, vpn3.
  change (2 ^ 30) with (4096 * 512 * 512). change (2 ^ 21) with (4096 * 512).
  change (2 ^ 12) with 4096. change (2 ^ 27) with (512 * (512 * 512)).
  rewrite <-!Z.div_div by lia. set (p := va / 4096).
  rewrite Z.rem_mul_r by lia. rewrite (Z.rem_mul_r (p / 512)) by lia. lia.
Qed.

Lemma page_key_vpn va :
  page_key (l1_index va) (l2_index va) (l3_index va) = page_of va.
Proof.
  rewrite l1_index_vpn, l2_index_vpn, l3_index_vpn, page_of_vpn. unfold page_key.
  pose proof (vpn_bounds va). rewrite !Z2Nat.id by lia. lia.
Qed.

Lemma page_key_inj i j x i' j' x' :
  (j < 512)%nat → (x < 512)%nat → (j' < 512)%nat → (x' < 512)%nat →
  page_key i j x = page_key i' j' x' → i = i' ∧ j = j' ∧ x = x'.
Proof. unfold page_key. lia. Qed.

Lemma mega_of_key i j x :
  (j < 512)%nat → (x < 512)%nat → mega_of (page_key i j x) = (i, j).
Proof.
  intros. unfold mega_of, giga_of, page_key.
  replace ((Z.of_nat i * 2 ^ 18 + Z.of_nat j * 2 ^ 9 + Z.of_nat x) / 2 ^ 18) with (Z.of_nat i)
    by (apply Z.div_unique with (Z.of_nat j * 2 ^ 9 + Z.of_nat x); lia).
  replace ((Z.of_nat i * 2 ^ 18 + Z.of_nat j * 2 ^ 9 + Z.of_nat x) / 2 ^ 9)
    with (Z.of_nat i * 512 + Z.of_nat j)
    by (apply Z.div_unique with (Z.of_nat x); lia).
  rewrite Z.add_comm, Z.mod_add, Z.mod_small by lia. f_equal; lia.
Qed.

Lemma page_key_of p :
  0 ≤ p → page_key (giga_of p) (mega_of p).2 (slot_of p) = p.
Proof.
  intros Hp. unfold page_key, mega_of, giga_of, slot_of. simpl.
  rewrite !Z2Nat.id by first [apply Z.mod_pos_bound; lia | apply Z.div_pos; lia].
  change (2 ^ 18) with (512 * 512). change (2 ^ 9) with 512.
  rewrite <-Z.div_div by lia.
  pose proof (Z.div_mod p 512). pose proof (Z.div_mod (p / 512) 512). lia.
Qed.

Lemma giga_of_page_of va : giga_of (page_of va) = l1_index va.
Proof.
  rewrite <-page_key_vpn. pose proof (mega_of_key (l1_index va) (l2_index va) (l3_index va)) as H.
  rewrite l2_index_vpn, l3_index_vpn in *. pose proof (vpn_bounds va).
  unfold mega_of in H. specialize (H ltac:(lia) ltac:(lia)). congruence.
Qed.

Lemma mega_of_page_of va : mega_of (page_of va) = (l1_index va, l2_index va).
Proof.
  rewrite <-page_key_vpn. pose proof (vpn_bounds va).
  apply mega_of_key; [rewrite l2_index_vpn | rewrite l3_index_vpn]; lia.
Qed.

Lemma indices_bound va :
  (l1_index va < PT_ENTRIES)%nat ∧ (l2_index va < PT_ENTRIES)%nat ∧
  (l3_index va < PT_ENTRIES)%nat.
Proof.
  pose proof (vpn_bounds va). rewrite l1_index_vpn, l2_index_vpn, l3_index_vpn.
  unfold PT_ENTRIES. lia.
Qed.
End indices.

(** ** Stores and allocation *)

Section alloc.
Context `{!Builder, !BuilderOk}.


Lemma store_l1_eq s i v : (i < length (l1 s))%nat →
  store_l1 i v s = Ok () (set_l1 (λ _, <[i := v]> (l1 s)) s).
Proof. intros Hi. unfold store_l1, arr_set, mbind, M_bind. simpl. by rewrite decide_True. Qed.

Lemma store_l1_children_eq s i v : (i < length (l1_children s))%nat →
  store_l1_children i v s = Ok () (set_l1_children (λ _, <[i := v]> (l1_children s)) s).
Proof. intros Hi. unfold store_l1_children, arr_set, mbind, M_bind. simpl. by rewrite decide_True. Qed.

Lemma store_l2_entry_eq s k i v t :
  l2_pool s !! k = Some t → (i < length (entries t))%nat →
  store_l2_entry k i v s =
    Ok () (set_l2_pool (λ _, <[k := set_entries (λ _, <[i := v]> (entries t)) t]> (l2_pool s)) s).
Proof.
  intros Hk Hi. unfold store_l2_entry, arr_set, arr_get, mbind, M_bind. simpl.
  rewrite Hk. simpl. rewrite decide_True by done. simpl.
  rewrite decide_True by (by eapply lookup_lt_Some). done.
Qed.

Lemma store_l2_child_eq s k i v t :
  l2_pool s !! k = Some t → (i < length (children t))%nat →
  store_l2_child k i v s =
    Ok () (set_l2_pool (λ _, <[k := set_children (λ _, <[i := v]> (children t)) t]> (l2_pool s)) s).
Proof.
  intros Hk Hi. unfold store_l2_child, arr_set, arr_get, mbind, M_bind. simpl.
  rewrite Hk. simpl. rewrite decide_True by done. simpl.
  rewrite decide_True by (by eapply lookup_lt_Some). done.
Qed.

Lemma store_l3_entry_eq s k i v t :
  l3_pool s !! k = Some t → (i < length t)%nat →
  store_l3_entry k i v s = Ok () (set_l3_pool (λ _, <[k := <[i := v]> t]> (l3_pool s)) s).
Proof.
  intros Hk Hi. unfold store_l3_entry, arr_set, arr_get, mbind, M_bind. simpl.
  rewrite Hk. simpl. rewrite decide_True by done. simpl.
  rewrite decide_True by (by eapply lookup_lt_Some). done.
Qed.

Lemma alloc_l2_eq s : shape s → 0 ≤ l2_used s < max_l2 →
  alloc_l2 s = Ok (Z.to_nat (l2_used s))
    (set_l2_pool (λ _, <[Z.to_nat (l2_used s) := zeroed_l2]> (l2_pool s))
      (set_l2_used (λ u, u + 1) s)).
Proof.
  intros Hs Hu. unfold alloc_l2, arr_set, arr_get, mbind, M_bind. simpl.
  rewrite (proj2 (Z.leb_gt _ _)) by lia. simpl.
  destruct (lookup_lt_is_Some_2 (l2_pool s) (Z.to_nat (l2_used s))) as [t Ht].
  { pose proof (sh_l2 _ Hs). lia. }
  rewrite Ht. simpl. rewrite decide_True by (by eapply lookup_lt_Some). simpl.
  pose proof (Forall_lookup_1 _ _ _ _ (sh_l2t _ Hs) Ht) as [He Hc].
  rewrite !for_up_fill by assumption. unfold set_l2_pool, set_l2_used. simpl.
  by rewrite ok_counter_l2 by lia.
Qed.

Lemma alloc_l3_eq s : shape s → 0 ≤ l3_used s < max_l3 →
  alloc_l3 s = Ok (Z.to_nat (l3_used s))
    (set_l3_pool (λ _, <[Z.to_nat (l3_used s) := zeroed_l3]> (l3_pool s))
      (set_l3_used (λ u, u + 1) s)).
Proof.
  intros Hs Hu. unfold alloc_l3, arr_set, arr_get, mbind, M_bind. simpl.
  rewrite (proj2 (Z.leb_gt _ _)) by lia. simpl.
  destruct (lookup_lt_is_Some_2 (l3_pool s) (Z.to_nat (l3_used s))) as [t Ht].
  { pose proof (sh_l3 _ Hs). lia. }
  rewrite Ht. simpl. rewrite decide_True by (by eapply lookup_lt_Some). simpl.
  pose proof (Forall_lookup_1 _ _ _ _ (sh_l3t _ Hs) Ht) as Hl. simpl in Hl.
  rewrite !for_up_fill by assumption. unfold set_l3_pool, set_l3_used. simpl.
  by rewrite ok_counter_l3 by lia.
Qed.

Lemma alloc_l2_hangs s : max_l2 ≤ l2_used s → hangs alloc_l2 s.
Proof.
  intros Hu. exists s. unfold alloc_l2, mbind, M_bind. simpl.
  by rewrite (proj2 (Z.leb_le _ _)).
Qed.

Lemma alloc_l3_hangs s : max_l3 ≤ l3_used s → hangs alloc_l3 s.
Proof.
  intros Hu. exists s. unfold alloc_l3, mbind, M_bind. simpl.
  by rewrite (proj2 (Z.leb_le _ _)).
Qed.

(** The state after [ensure_l2] has linked a fresh table [k] at [i]. *)
Definition linked_l2 (s : pt) (i k : nat) : pt :=
  Pt (<[i := table_desc (l2_addr k)]> (l1 s)) (<[k := zeroed_l2]> (l2_pool s)) (l3_pool s)
     (<[i := Some k]> (l1_children s)) (l2_used s + 1) (l3_used s).

Lemma ensure_l2_fresh s i :
  shape s → (i < PT_ENTRIES)%nat → l1_children s !! i = Some None →
  0 ≤ l2_used s < max_l2 →
  ensure_l2 i s = Ok (Z.to_nat (l2_used s)) (linked_l2 s i (Z.to_nat (l2_used s))).
Proof.
  intros Hs Hi Hc Hu. unfold ensure_l2, arr_get. mstep.
  rewrite Hc. mstep.
  mstep_by ltac:(by apply alloc_l2_eq).
  mstep_by ltac:(apply store_l1_children_eq; simpl; by rewrite (sh_l1c _ Hs)).
  mstep_by ltac:(apply store_l1_eq; simpl; by rewrite (sh_l1 _ Hs)).
  done.
Qed.

(** The state after [ensure_l3] has linked a fresh table [q] at [(k, j)]. *)
Definition linked_l3 (s : pt) (k j q : nat) (t : l2_table) : pt :=
  Pt (l1 s)
     (<[k := L2Table (<[j := table_desc (l3_addr q)]> (entries t)) (<[j := Some q]> (children t))]>
        (l2_pool s))
     (<[q := zeroed_l3]> (l3_pool s)) (l1_children s) (l2_used s) (l3_used s + 1).

Lemma ensure_l3_fresh s k j t :
  shape s → (j < PT_ENTRIES)%nat → l2_pool s !! k = Some t → children t !! j = Some None →
  0 ≤ l3_used s < max_l3 →
  ensure_l3 k j s = Ok (Z.to_nat (l3_used s)) (linked_l3 s k j (Z.to_nat (l3_used s)) t).
Proof.
  intros Hs Hj Hk Hc Hu. unfold ensure_l3, arr_get.
  mstep. rewrite Hk. mstep. rewrite Hc. mstep.
  mstep_by ltac:(by apply alloc_l3_eq).
  pose proof (Forall_lookup_1 _ _ _ _ (sh_l2t _ Hs) Hk) as [He Hl].
  mstep_by ltac:(apply store_l2_child_eq; [exact Hk | lia]).
  mstep_by ltac:(apply store_l2_entry_eq;
    [apply list_lookup_insert_eq; by eapply lookup_lt_Some | simpl; lia]).
  unfold linked_l3, set_l2_pool. simpl. by rewrite list_insert_insert_eq.
Qed.
End alloc.

(** ** Preservation of the representation *)

Section preserve.
Context `{!Builder, !BuilderOk}.

Lemma linked_l2_shape s i k : shape s → shape (linked_l2 s i k).
Proof.
  intros []. split; simpl; rewrite ?length_insert; try done.
  apply Forall_insert; [done|]. split; apply length_replicate.
Qed.

Lemma linked_l3_shape s k j q t :
  shape s → l2_pool s !! k = Some t → shape (linked_l3 s k j q t).
Proof.
  intros Hs Hk. destruct (Forall_lookup_1 _ _ _ _ (sh_l2t _ Hs) Hk) as [He Hc].
  destruct Hs. split; simpl; rewrite ?length_insert; try done.
  - apply Forall_insert; [done|]. simpl. by rewrite !length_insert.
  - apply Forall_insert; [done|]. apply length_replicate.
Qed.

Lemma links_linked_l2 (s : pt) (C2 : gmap nat nat) (C3 : gmap (nat * nat) nat) i :
  shape s → links s C2 C3 → (i < PT_ENTRIES)%nat → C2 !! i = None → l2_used s < max_l2 →
  let k := Z.to_nat (l2_used s) in
  links (linked_l2 s i k) (<[i := k]> C2) C3.
Proof.
  intros Hs Hl Hi Hn Hu k. pose proof (lk_used2 _ _ _ Hl) as Hsz.
  assert (∀ i' k', C2 !! i' = Some k' → k' ≠ k) as Hfresh.
  { intros i' k' Hk'. pose proof (lk_bound2 _ _ _ Hl _ _ Hk'). lia. }
  assert (∀ j, C3 !! (i, j) = None) as Hn3.
  { intros j. destruct (C3 !! (i, j)) as [q|] eqn:Hq; [|done].
    destruct (lk_bound3 _ _ _ Hl _ _ _ Hq) as [[? ?] _]. congruence. }
  split; simpl.
  - intros i' Hi'. rewrite list_lookup_insert, lookup_insert.
    destruct (decide (i = i')) as [->|].
    + rewrite decide_True; [done|]. by rewrite (sh_l1c _ Hs).
    + rewrite decide_False by tauto. by apply (lk_child1 _ _ _ Hl).
  - intros i' Hi'. rewrite list_lookup_insert, lookup_insert.
    destruct (decide (i = i')) as [->|].
    + rewrite decide_True; [done|]. by rewrite (sh_l1 _ Hs).
    + rewrite decide_False by tauto. by apply (lk_entry1 _ _ _ Hl).
  - intros i1 i2 k'. rewrite !lookup_insert. repeat case_decide; try naive_solver.
    apply (lk_inj2 _ _ _ Hl).
  - intros i' k'. rewrite lookup_insert. case_decide.
    + intros [= <-]. subst. lia.
    + intros Hk'. pose proof (lk_bound2 _ _ _ Hl _ _ Hk'). lia.
  - rewrite map_size_insert_None by done. lia.
  - lia.
  - intros i' k' j. rewrite lookup_insert. case_decide as Hii.
    + intros [= <-] Hj. subst i'. eexists. split.
      * apply list_lookup_insert_eq. pose proof (sh_l2 _ Hs). lia.
      * rewrite Hn3. split; by apply lookup_replicate_2.
    + intros Hk' Hj. rewrite list_lookup_insert_ne by (symmetry; by eapply Hfresh).
      by apply (lk_child2 _ _ _ Hl).
  - apply (lk_inj3 _ _ _ Hl).
  - intros i' j' q Hq. destruct (lk_bound3 _ _ _ Hl _ _ _ Hq) as (? & ? & ?).
    split_and!; [|done..]. rewrite lookup_insert. by case_decide.
  - apply (lk_used3 _ _ _ Hl).
  - apply (lk_max3 _ _ _ Hl).
Qed.

Lemma links_linked_l3 (s : pt) (C2 : gmap nat nat) (C3 : gmap (nat * nat) nat) i k j t :
  shape s → links s C2 C3 → C2 !! i = Some k → l2_pool s !! k = Some t →
  (j < PT_ENTRIES)%nat → C3 !! (i, j) = None → l3_used s < max_l3 →
  let q := Z.to_nat (l3_used s) in
  links (linked_l3 s k j q t) C2 (<[(i, j) := q]> C3).
Proof.
  intros Hs Hl Hik Hk Hj Hn Hu q. pose proof (lk_used3 _ _ _ Hl) as Hsz.
  destruct (Forall_lookup_1 _ _ _ _ (sh_l2t _ Hs) Hk) as [He Hc].
  assert (∀ ij q', C3 !! ij = Some q' → q' ≠ q) as Hfresh.
  { intros [i' j'] q' Hq'. pose proof (lk_bound3 _ _ _ Hl _ _ _ Hq'). lia. }
  split; simpl.
  - apply (lk_child1 _ _ _ Hl).
  - apply (lk_entry1 _ _ _ Hl).
  - apply (lk_inj2 _ _ _ Hl).
  - apply (lk_bound2 _ _ _ Hl).
  - apply (lk_used2 _ _ _ Hl).
  - apply (lk_max2 _ _ _ Hl).
  - intros i' k' j' Hk' Hj'.
    destruct (lk_child2 _ _ _ Hl _ _ _ Hk' Hj') as (t' & Ht' & Hc' & He').
    destruct (decide (k = k')) as [->|Hne].
    + assert (i = i') as <- by by eapply (lk_inj2 _ _ _ Hl).
      assert (t = t') as <- by congruence.
      eexists. split; [apply list_lookup_insert_eq; by eapply lookup_lt_Some|]. simpl.
      rewrite !list_lookup_insert, !lookup_insert. destruct (decide (j = j')) as [->|].
      * rewrite !decide_True by (done || lia). done.
      * rewrite !decide_False by first [tauto | congruence]. done.
    + exists t'. rewrite list_lookup_insert_ne by done. rewrite !lookup_insert_ne by naive_solver.
      done.
  - intros ij ij' q'. rewrite !lookup_insert. repeat case_decide; try naive_solver.
    apply (lk_inj3 _ _ _ Hl).
  - intros i' j' q'. rewrite lookup_insert. case_decide as Hij.
    + intros [= <-]. simplify_eq. split_and!; [by eexists|done|lia].
    + intros Hq'. destruct (lk_bound3 _ _ _ Hl _ _ _ Hq') as (? & ? & ?). split_and!; [done..|lia].
  - rewrite map_size_insert_None by done. lia.
  - lia.
Qed.
End preserve.

Section install.
Context `{!Builder, !BuilderOk}.

Lemma leaves_linked_l3 (s : pt) (C2 : gmap nat nat) (C3 : gmap (nat * nat) nat) (m : pages) (i k j : nat) (t : l2_table) :
  shape s → links s C2 C3 → leaves s C3 m → (j < PT_ENTRIES)%nat → C3 !! (i, j) = None →
  l3_used s < max_l3 →
  let q := Z.to_nat (l3_used s) in
  leaves (linked_l3 s k j q t) (<[(i, j) := q]> C3) m.
Proof.
  intros Hs Hl Hv Hj Hn Hu q. split; simpl.
  - intros i' j' q' x. rewrite lookup_insert. case_decide as Hij.
    + intros [= <-] Hx. simplify_eq. eexists. split.
      { apply list_lookup_insert_eq. pose proof (sh_l3 _ Hs).
        pose proof (lk_used3 _ _ _ Hl). lia. }
      destruct (m !! page_key i' j' x) as [d|] eqn:Hd.
      * exfalso. destruct (lv_dom _ _ _ Hv _ _ Hd) as [_ [? Hm]].
        rewrite mega_of_key in Hm by done. congruence.
      * by apply lookup_replicate_2.
    + intros Hq' Hx. destruct (lk_bound3 _ _ _ Hl _ _ _ Hq') as (_ & _ & ?).
      rewrite list_lookup_insert_ne by lia. by apply (lv_table _ _ _ Hv).
  - intros p d Hd. destruct (lv_dom _ _ _ Hv _ _ Hd) as [? ?]. split; [done|].
    rewrite lookup_insert. by case_decide.
Qed.

Lemma ensure_l2_spec (s : pt) (C2 : gmap nat nat) (C3 : gmap (nat * nat) nat) (m : pages) (i : nat) :
  repr_at s C2 C3 m → (i < PT_ENTRIES)%nat →
  Z.of_nat (size ({[i]} ∪ dom C2)) ≤ max_l2 →
  total (ensure_l2 i) s (λ k s', ∃ C2',
    repr_at s' C2' C3 m ∧ C2' !! i = Some k ∧ dom C2' = {[i]} ∪ dom C2).
Proof.
  intros [Hs Hl Hv] Hi Hsize. apply total_Ok.
  pose proof (lk_child1 _ _ _ Hl i Hi) as Hc.
  destruct (C2 !! i) as [k|] eqn:Hk.
  - exists k, s. split.
    { unfold ensure_l2, arr_get. mstep. rewrite Hc. by mstep. }
    exists C2. split_and!; [done|done|].
    by erewrite dom_add_Some.
  - assert (l2_used s < max_l2) as Hu.
    { rewrite size_dom_add_None in Hsize by done. rewrite (lk_used2 _ _ _ Hl). lia. }
    eexists _, _. split.
    { apply ensure_l2_fresh; try done. rewrite (lk_used2 _ _ _ Hl) in *. lia. }
    eexists. split_and!; [| apply lookup_insert_eq | apply dom_insert_L].
    split; [by apply linked_l2_shape | by apply links_linked_l2 | by destruct Hv].
Qed.

Lemma ensure_l2_hangs (s : pt) (C2 : gmap nat nat) (C3 : gmap (nat * nat) nat) (m : pages) (i : nat) :
  repr_at s C2 C3 m → (i < PT_ENTRIES)%nat →
  max_l2 < Z.of_nat (size ({[i]} ∪ dom C2)) → hangs (ensure_l2 i) s.
Proof.
  intros [Hs Hl Hv] Hi Hsize. pose proof (lk_child1 _ _ _ Hl i Hi) as Hc.
  pose proof (lk_used2 _ _ _ Hl) as Hu. pose proof (lk_max2 _ _ _ Hl).
  destruct (C2 !! i) as [k|] eqn:Hk.
  { erewrite dom_add_Some, size_dom in Hsize by done. lia. }
  unfold hangs, ensure_l2, arr_get. mstep. rewrite Hc. mstep.
  apply hangs_bind, alloc_l2_hangs.
  rewrite size_dom_add_None in Hsize by done. lia.
Qed.

Lemma ensure_l3_spec (s : pt) (C2 : gmap nat nat) (C3 : gmap (nat * nat) nat) (m : pages) (i k j : nat) :
  repr_at s C2 C3 m → C2 !! i = Some k → (j < PT_ENTRIES)%nat →
  Z.of_nat (size ({[(i, j)]} ∪ dom C3)) ≤ max_l3 →
  total (ensure_l3 k j) s (λ q s', ∃ C3',
    repr_at s' C2 C3' m ∧ C3' !! (i, j) = Some q ∧ dom C3' = {[(i, j)]} ∪ dom C3).
Proof.
  intros [Hs Hl Hv] Hik Hj Hsize. apply total_Ok.
  destruct (lk_child2 _ _ _ Hl _ _ _ Hik Hj) as (t & Ht & Hc & _).
  destruct (C3 !! (i, j)) as [q|] eqn:Hq.
  - exists q, s. split.
    { unfold ensure_l3, arr_get. mstep. rewrite Ht. mstep. rewrite Hc. by mstep. }
    exists C3. split_and!; [done|done|].
    by erewrite dom_add_Some.
  - assert (l3_used s < max_l3) as Hu.
    { rewrite size_dom_add_None in Hsize by done. rewrite (lk_used3 _ _ _ Hl). lia. }
    eexists _, _. split.
    { apply ensure_l3_fresh; try done. rewrite (lk_used3 _ _ _ Hl) in *. lia. }
    eexists. split_and!; [| apply lookup_insert_eq | apply dom_insert_L].
    split; [by apply linked_l3_shape | by apply links_linked_l3 | by eapply leaves_linked_l3].
Qed.

Lemma ensure_l3_hangs (s : pt) (C2 : gmap nat nat) (C3 : gmap (nat * nat) nat) (m : pages) (i k j : nat) :
  repr_at s C2 C3 m → C2 !! i = Some k → (j < PT_ENTRIES)%nat →
  max_l3 < Z.of_nat (size ({[(i, j)]} ∪ dom C3)) → hangs (ensure_l3 k j) s.
Proof.
  intros [Hs Hl Hv] Hik Hj Hsize.
  destruct (lk_child2 _ _ _ Hl _ _ _ Hik Hj) as (t & Ht & Hc & _).
  pose proof (lk_used3 _ _ _ Hl) as Hu. pose proof (lk_max3 _ _ _ Hl).
  destruct (C3 !! (i, j)) as [q|] eqn:Hq.
  { erewrite dom_add_Some, size_dom in Hsize by done. lia. }
  unfold hangs, ensure_l3, arr_get. mstep. rewrite Ht. mstep. rewrite Hc. mstep.
  apply hangs_bind, alloc_l3_hangs.
  rewrite size_dom_add_None in Hsize by done. lia.
Qed.

Lemma store_leaf_spec (s : pt) (C2 : gmap nat nat) (C3 : gmap (nat * nat) nat) (m : pages) (i j q x : nat) (d : Z) :
  repr_at s C2 C3 m → C3 !! (i, j) = Some q → (x < PT_ENTRIES)%nat →
  total (store_l3_entry q x d) s (λ _ s', repr_at s' C2 C3 (<[page_key i j x := d]> m)).
Proof.
  intros [Hs Hl Hv] Hq Hx. apply total_Ok.
  destruct (lk_bound3 _ _ _ Hl _ _ _ Hq) as ([k Hk] & Hj & _).
  destruct (lk_bound2 _ _ _ Hl _ _ Hk) as [Hi _].
  destruct (lv_table _ _ _ Hv _ _ _ _ Hq Hx) as (t & Ht & _).
  pose proof (Forall_lookup_1 _ _ _ _ (sh_l3t _ Hs) Ht) as Hlen. simpl in Hlen.
  eexists _, _. split; [apply store_l3_entry_eq; [done|lia]|]. split.
  - destruct Hs. split; simpl; rewrite ?length_insert; try done.
    apply Forall_insert; [done|]. by rewrite length_insert.
  - by destruct Hl.
  - split; simpl.
    + intros i' j' q' x' Hq' Hx'. rewrite lookup_insert.
      destruct (lk_bound3 _ _ _ Hl _ _ _ Hq') as (_ & Hj' & _).
      destruct (lv_table _ _ _ Hv _ _ _ _ Hq' Hx') as (t' & Ht' & Hx0).
      destruct (decide (q' = q)) as [->|Hne].
      * assert ((i, j) = (i', j')) by by eapply (lk_inj3 _ _ _ Hl). simplify_eq.
        eexists. split; [apply list_lookup_insert_eq; by eapply lookup_lt_Some|].
        rewrite list_lookup_insert. destruct (decide (x = x')) as [->|Hxx].
        { rewrite !decide_True by (done || lia). done. }
        rewrite !decide_False; [done| |by intros [? _]].
        intros (_ & _ & ?)%page_key_inj; done.
      * exists t'. rewrite list_lookup_insert_ne by done. rewrite decide_False; [done|].
        intros (-> & -> & _)%page_key_inj; [congruence|done..].
    + intros p d'. rewrite lookup_insert. case_decide as Hp.
      * intros _. subst p. rewrite mega_of_key by done. split; [|by eexists].
        unfold page_key, PT_ENTRIES in *. lia.
      * apply (lv_dom _ _ _ Hv).
Qed.
End install.

(** ** Refinement: installing pages *)

Section refine.
Context `{!Builder, !BuilderOk}.

Lemma gigas_insert p d (m : pages) : gigas (<[p := d]> m) = {[giga_of p]} ∪ gigas m.
Proof. unfold gigas. by rewrite dom_insert_L, set_map_union_L, set_map_singleton_L. Qed.

Lemma megas_insert p d (m : pages) : megas (<[p := d]> m) = {[mega_of p]} ∪ megas m.
Proof. unfold megas. by rewrite dom_insert_L, set_map_union_L, set_map_singleton_L. Qed.

Lemma install_refines s (m : pages) va d :
  repr s m → fits (<[page_of va := d]> m) →
  total (install va d) s (λ _ s', repr s' (<[page_of va := d]> m)).
Proof.
  intros (C2 & C3 & Hr & Hd2 & Hd3) [H2 H3]. unfold install.
  rewrite gigas_insert, giga_of_page_of, <-Hd2 in H2.
  rewrite megas_insert, mega_of_page_of, <-Hd3 in H3.
  destruct (indices_bound va) as (Hi & Hj & Hx).
  eapply total_bind; [by eapply ensure_l2_spec|]. cbv beta.
  intros k s1 (C2' & Hr1 & Hk & Hdom2).
  eapply total_bind; [by eapply ensure_l3_spec|]. cbv beta.
  intros q s2 (C3' & Hr2 & Hq & Hdom3).
  eapply total_mono; [by apply (store_leaf_spec _ _ _ _ _ _ _ _ _ Hr2 Hq Hx)|]. cbv beta.
  intros [] s3 Hr3. rewrite page_key_vpn in Hr3. exists C2', C3'. split_and!; [done|..].
  - by rewrite gigas_insert, giga_of_page_of, <-Hd2.
  - by rewrite megas_insert, mega_of_page_of, <-Hd3.
Qed.

Lemma install_hangs s (m : pages) va d :
  repr s m → ¬ fits (<[page_of va := d]> m) → hangs (install va d) s.
Proof.
  intros (C2 & C3 & Hr & Hd2 & Hd3) Hnf. unfold fits, install in *.
  rewrite gigas_insert, giga_of_page_of, <-Hd2 in Hnf.
  rewrite megas_insert, mega_of_page_of, <-Hd3 in Hnf.
  destruct (indices_bound va) as (Hi & Hj & Hx).
  destruct (decide (Z.of_nat (size ({[l1_index va]} ∪ dom C2)) ≤ max_l2)) as [H2|H2].
  - eapply hangs_bind_total; [by eapply ensure_l2_spec|]. cbv beta.
    intros k s1 (C2' & Hr1 & Hk & Hdom2).
    eapply hangs_bind, ensure_l3_hangs; [done..|]. lia.
  - eapply hangs_bind, ensure_l2_hangs; [done..|]. lia.
Qed.

(** Growing the map only grows the regions, so a run that fits at the end fits
    throughout, and one that does not hangs on the way. *)
Lemma gigas_mono (m m' : pages) : dom m ⊆ dom m' → gigas m ⊆ gigas m'.
Proof. unfold gigas. intros Hd r (p & -> & Hp)%elem_of_map. apply elem_of_map. eauto. Qed.
Lemma megas_mono (m m' : pages) : dom m ⊆ dom m' → megas m ⊆ megas m'.
Proof. unfold megas. intros Hd r (p & -> & Hp)%elem_of_map. apply elem_of_map. eauto. Qed.

Lemma fits_mono (m m' : pages) : dom m ⊆ dom m' → fits m' → fits m.
Proof.
  intros Hd [H2 H3]. apply gigas_mono in Hd as Hg. apply megas_mono in Hd as Hm.
  apply subseteq_size in Hg, Hm. unfold fits. lia.
Qed.

Lemma apply_pages_cons p d ps (m : pages) :
  apply_pages ((p, d) :: ps) m = apply_pages ps (<[p := d]> m).
Proof. done. Qed.

Lemma apply_pages_dom ps (m : pages) : dom m ⊆ dom (apply_pages ps m).
Proof.
  revert m. induction ps as [|[p d] ps IH]; intros m; [done|]. rewrite apply_pages_cons.
  etrans; [|apply IH]. rewrite dom_insert_L. apply union_subseteq_r.
Qed.

Fixpoint install_list (l : list (Z * Z)) : M pt () :=
  match l with
  | [] => mret ()
  | (va, d) :: l => install va d ;; install_list l
  end.

Definition page_writes (l : list (Z * Z)) : list (Z * Z) := prod_map page_of id <$> l.

Lemma install_list_refines s (m : pages) l :
  repr s m →
  if decide (fits (apply_pages (page_writes l) m))
  then total (install_list l) s (λ _ s', repr s' (apply_pages (page_writes l) m))
  else fits m → hangs (install_list l) s.
Proof.
  revert s m. induction l as [|[va d] l IH]; intros s m Hr; cbn [install_list page_writes].
  - case_decide; [by apply total_ret|done].
  - change (page_writes ((va, d) :: l)) with ((page_of va, d) :: page_writes l).
    rewrite apply_pages_cons.
    pose proof (apply_pages_dom (page_writes l) (<[page_of va := d]> m)) as Hdom.
    destruct (decide (fits (<[page_of va := d]> m))) as [Hf|Hf].
    + pose proof (install_refines s m va d Hr Hf) as Hi.
      pose proof (λ s', IH s' (<[page_of va := d]> m)) as IH'. case_decide.
      * eapply total_bind; [exact Hi|]. intros [] s'. apply IH'.
      * intros _. eapply hangs_bind_total; [exact Hi|]. intros [] s' Hr'. by apply IH'.
    + rewrite decide_False by (intros ?; by eapply Hf, fits_mono).
      intros _. by eapply hangs_bind, install_hangs.
Qed.

Lemma fits_empty : fits ∅.
Proof.
  unfold fits, gigas, megas. rewrite dom_empty_L, !set_map_empty, !size_empty.
  split; [apply ok_max_l2 | apply ok_max_l3].
Qed.

Lemma reset_eq s : shape s →
  reset s = Ok () (Pt (replicate PT_ENTRIES 0) (l2_pool s) (l3_pool s)
                      (replicate PT_ENTRIES None) 0 0).
Proof.
  intros [H1 H1c _ _ _ _]. unfold reset, mbind, M_bind, modify, set_l1, set_l1_children,
    set_l2_used, set_l3_used. cbn [l1 l2_pool l3_pool l1_children l2_used l3_used].
  by rewrite (for_up_fill 0 _ _ H1), (for_up_fill None _ _ H1c).
Qed.

(** [reset] forgets every mapping, whatever the pools contain. *)
Lemma reset_refines s : shape s → total reset s (λ _ s', repr s' ∅).
Proof.
  intros Hs. apply total_Ok. eexists _, _. split; [by apply reset_eq|].
  exists ∅, ∅. split; [|by unfold gigas, megas; rewrite !dom_empty_L, !set_map_empty].
  destruct Hs as [H1 H1c H2 H3 H2t H3t]. split; [split| |split];
    cbn [l1 l2_pool l3_pool l1_children l2_used l3_used]; rewrite ?length_replicate; try assumption.
  - reflexivity.
  - reflexivity.
  - split; cbn [l1 l2_pool l3_pool l1_children l2_used l3_used]; intros *;
      rewrite ?lookup_empty, ?map_size_empty; try done.
    + intros Hi. by rewrite lookup_replicate_2.
    + intros Hi. by rewrite lookup_replicate_2.
    + apply ok_max_l2.
    + apply ok_max_l3.
  - intros i j q x. by rewrite lookup_empty.
  - intros p d. by rewrite lookup_empty.
Qed.
End refine.

(** ** The hardware walk sees the abstract map *)

Section walk.
Context `{!Builder, !BuilderOk}.

Lemma in_region_true a base size : base ≤ a < base + size → in_region a base size = true.
Proof. unfold in_region. intros. apply andb_true_intro. lia. Qed.
Lemma in_region_false a base size : a < base ∨ base + size ≤ a → in_region a base size = false.
Proof. unfold in_region. intros. apply andb_false_iff. lia. Qed.

Lemma mem_read_l1 s i : 0 ≤ i < 512 → mem_read s (l1_addr + 8 * i) = l1 s !! Z.to_nat i.
Proof.
  intros Hi. unfold mem_read. rewrite in_region_true by lia. do 2 f_equal.
  replace (l1_addr + 8 * i - l1_addr) with (i * 8) by lia. by rewrite Z.div_mul.
Qed.

Lemma mem_read_l2 s k i : Z.of_nat k < max_l2 → 0 ≤ i < 512 →
  mem_read s (l2_addr k + 8 * i) = t ← l2_pool s !! k; entries t !! Z.to_nat i.
Proof.
  intros Hk Hi. pose proof ok_l1_l2. unfold mem_read, l2_addr, sizeof_l2_table in *.
  rewrite in_region_false, in_region_true by lia.
  replace (l2_pool_addr + Z.of_nat k * 8192 + 8 * i - l2_pool_addr)
    with (8 * i + Z.of_nat k * 8192) by lia.
  rewrite Z.div_add, Z.mod_add, Z.div_small, Z.mod_small by lia.
  rewrite Z.add_0_l, Nat2Z.id. rewrite (proj2 (Z.ltb_lt _ _)) by lia.
  replace (8 * i) with (i * 8) by lia. rewrite Z.div_mul by lia.
  by destruct (l2_pool s !! k).
Qed.

Lemma mem_read_l3 s q x : Z.of_nat q < max_l3 → 0 ≤ x < 512 →
  mem_read s (l3_addr q + 8 * x) = t ← l3_pool s !! q; t !! Z.to_nat x.
Proof.
  intros Hq Hx. pose proof ok_l1_l3. pose proof ok_l2_l3.
  unfold mem_read, l3_addr, sizeof_l2_table, sizeof_l3_table in *.
  rewrite !in_region_false, in_region_true by lia.
  replace (l3_pool_addr + Z.of_nat q * 4096 + 8 * x - l3_pool_addr)
    with (8 * x + Z.of_nat q * 4096) by lia.
  rewrite Z.div_add, Z.mod_add, Z.div_small, Z.mod_small by lia.
  rewrite Z.add_0_l, Nat2Z.id. replace (8 * x) with (x * 8) by lia. rewrite Z.div_mul by lia.
  by destruct (l3_pool s !! q).
Qed.

(** A table descriptor decodes to type 11 and the address of the table. *)
Lemma table_desc_decode a : a mod 4096 = 0 → 0 ≤ a < 2 ^ 48 →
  desc_type (table_desc a) = 3 ∧ desc_addr (table_desc a) = a.
Proof.
  intros Ha Hr. rewrite ok_table_desc by done. unfold desc_type, desc_addr.
  pose proof (Z.div_mod a 4096 ltac:(lia)) as Hd. rewrite Ha, Z.add_0_r in Hd.
  set (p := a / 4096) in *. rewrite Hd. split.
  - replace (4096 * p + 3) with (3 + (1024 * p) * 4) by lia. by rewrite Z.mod_add.
  - replace (4096 * p + 3) with (3 + p * 4096) by lia. rewrite Z.div_add by lia.
    change (3 / 4096) with 0. rewrite Z.mod_small by lia. lia.
Qed.

Lemma l2_addr_ok k : Z.of_nat k < max_l2 → l2_addr k mod 4096 = 0 ∧ 0 ≤ l2_addr k < 2 ^ 48.
Proof.
  intros Hk. pose proof ok_l2_range. unfold l2_addr, sizeof_l2_table in *. split; [|lia].
  replace (Z.of_nat k * 8192) with (Z.of_nat k * 2 * 4096) by lia.
  rewrite Z.mod_add by lia. apply ok_l2_align.
Qed.

Lemma l3_addr_ok k : Z.of_nat k < max_l3 → l3_addr k mod 4096 = 0 ∧ 0 ≤ l3_addr k < 2 ^ 48.
Proof.
  intros Hk. pose proof ok_l3_range. unfold l3_addr, sizeof_l3_table in *. split; [|lia].
  rewrite Z.mod_add by lia. apply ok_l3_align.
Qed.

Lemma walk_table_link mem level base idx k a :
  mem (base + 8 * idx) = Some (table_desc a) → a mod 4096 = 0 → 0 ≤ a < 2 ^ 48 →
  walk_table mem level base idx k = k a.
Proof.
  intros Hm Ha Hr. unfold walk_table. rewrite Hm.
  destruct (table_desc_decode a Ha Hr) as [-> ->]. done.
Qed.

Lemma walk_table_zero mem level base idx k :
  mem (base + 8 * idx) = Some 0 → walk_table mem level base idx k = Fault level.
Proof. intros Hm. unfold walk_table. by rewrite Hm. Qed.

(** The walk of [va] finds the descriptor the abstract map holds for its page,
    and faults when it holds none. *)
Theorem walk_repr s (m : pages) va :
  repr s m → (∀ p d, m !! p = Some d → desc_type d = 3) →
  match m !! page_of va with
  | Some d => walk (mem_read s) l1_addr va = Page d
  | None => ∃ level, walk (mem_read s) l1_addr va = Fault level
  end.
Proof.
  intros (C2 & C3 & [Hs Hl Hv] & _ & _) Hty. unfold walk.
  destruct (vpn_bounds va) as (B1 & B2 & B3). destruct (indices_bound va) as (I1 & I2 & I3).
  pose proof (lk_entry1 _ _ _ Hl _ I1) as He1.
  rewrite l1_index_vpn, <-mem_read_l1 in He1 by done.
  destruct (C2 !! Z.to_nat (vpn1 va)) as [k|] eqn:HC2; simpl in He1.
  2: { destruct (m !! page_of va) as [d|] eqn:Hm.
       - exfalso. destruct (lv_dom _ _ _ Hv _ _ Hm) as [_ [q Hq]].
         rewrite mega_of_page_of, l1_index_vpn in Hq.
         destruct (lk_bound3 _ _ _ Hl _ _ _ Hq) as [[? ?] _]. congruence.
       - exists 1. by apply walk_table_zero. }
  destruct (lk_bound2 _ _ _ Hl _ _ HC2) as [_ Hk]. pose proof (lk_max2 _ _ _ Hl).
  destruct (l2_addr_ok k) as [Ha2 Hr2]; [lia|]. rewrite (walk_table_link _ _ _ _ _ _ He1 Ha2 Hr2).
  destruct (lk_child2 _ _ _ Hl _ _ _ HC2 I2) as (t & Ht & _ & He2).
  rewrite l2_index_vpn in He2.
  assert (mem_read s (l2_addr k + 8 * vpn2 va) =
    Some (desc3 (C3 !! (Z.to_nat (vpn1 va), Z.to_nat (vpn2 va))))) as Hm2.
  { rewrite mem_read_l2 by lia. by rewrite Ht. }
  destruct (C3 !! _) as [q|] eqn:HC3; simpl in Hm2.
  2: { destruct (m !! page_of va) as [d|] eqn:Hm.
       - exfalso. destruct (lv_dom _ _ _ Hv _ _ Hm) as [_ [q Hq]].
         rewrite mega_of_page_of, l1_index_vpn, l2_index_vpn in Hq. congruence.
       - exists 2. by apply walk_table_zero. }
  destruct (lk_bound3 _ _ _ Hl _ _ _ HC3) as (_ & _ & Hq). pose proof (lk_max3 _ _ _ Hl).
  destruct (l3_addr_ok q) as [Ha3 Hr3]; [lia|]. rewrite (walk_table_link _ _ _ _ _ _ Hm2 Ha3 Hr3).
  destruct (lv_table _ _ _ Hv _ _ _ _ HC3 I3) as (t3 & Ht3 & Hx).
  rewrite <-l1_index_vpn, <-l2_index_vpn, page_key_vpn, l3_index_vpn in Hx.
  rewrite mem_read_l3 by lia. rewrite Ht3. simpl. rewrite Hx.
  destruct (m !! page_of va) as [d|] eqn:Hm; simpl.
  - by rewrite (Hty _ _ Hm).
  - by exists 3.
Qed.
End walk.

(** ** Ranges of pages *)

Section range.
Context `{!Builder, !BuilderOk}.

(** [n] consecutive pages from [va], the page at [a] mapped with [f a]. *)
Fixpoint range (va : Z) (n : nat) (f : Z → Z) : list (Z * Z) :=
  match n with
  | O => []
  | S n => (va, f va) :: range (va + 4096) n f
  end.

Lemma range_lookup va n f (m : pages) p :
  va mod 4096 = 0 → 0 ≤ va → va + 4096 * Z.of_nat n ≤ 2 ^ 39 →
  apply_pages (page_writes (range va n f)) m !! p =
    if bool_decide (va / 4096 ≤ p < va / 4096 + Z.of_nat n)
    then Some (f (p * 4096)) else m !! p.
Proof.
  revert va m. induction n as [|n IH]; intros va m Hal Hge Hmax.
  { rewrite bool_decide_eq_false_2 by lia. done. }
  change (page_writes (range va (S n) f))
    with ((page_of va, f va) :: page_writes (range (va + 4096) n f)).
  assert ((va + 4096) / 4096 = va / 4096 + 1) as Hd.
  { rewrite <-(Z.mul_1_l 4096) at 1. by rewrite Z.div_add by lia. }
  assert (page_of va = va / 4096) as Hp.
  { apply Z.mod_small. split; [apply Z.div_pos; lia | apply Z.div_lt_upper_bound; lia]. }
  assert (va = va / 4096 * 4096) as Hva.
  { pose proof (Z.div_mod va 4096 ltac:(lia)). lia. }
  rewrite apply_pages_cons, IH, Hp, Hd; [|rewrite <-(Z.mul_1_l 4096) at 1;
    by rewrite Z.mod_add by lia|lia..].
  rewrite lookup_insert. repeat case_bool_decide; try lia; try done.
  - rewrite decide_True by lia. do 2 f_equal. subst. lia.
  - by rewrite decide_False by lia.
Qed.

Lemma page_writes_app l l' : page_writes (l ++ l') = page_writes l ++ page_writes l'.
Proof. apply fmap_app. Qed.

Lemma apply_pages_app ps ps' (m : pages) :
  apply_pages (ps ++ ps') m = apply_pages ps' (apply_pages ps m).
Proof. apply foldl_app. Qed.

Lemma install_list_app l l' s :
  install_list (l ++ l') s = (install_list l ;; install_list l') s.
Proof.
  revert s. induction l as [|[va d] l IH]; intros s; [done|].
  cbn [app install_list]. rewrite bind_assoc. apply bind_ext. intros _ s'. apply IH.
Qed.

(** The page loop of both C files: [for (cur = start; cur < limit; cur += 4096)
    page(cur, pa + (cur - start))], with the step wrapped to 64 bits. *)
Fixpoint page_loop (page : Z → Z → M pt ()) (start pa limit : Z) (fuel : nat) (cur : Z) : M pt () :=
  if cur <? limit then
    match fuel with
    | O => out_of_fuel
    | S fuel =>
        page cur (u64 (pa + u64 (cur - start))) ;;
        page_loop page start pa limit fuel (u64 (cur + 4096))
    end
  else mret ().

Lemma page_loop_range page desc start pa n fuel cur s :
  (∀ va p, page va p = install va (desc p)) →
  0 ≤ start ≤ cur → cur + 4096 * Z.of_nat n < 2 ^ 64 → (n ≤ fuel)%nat →
  page_loop page start pa (cur + 4096 * Z.of_nat n) fuel cur s =
    install_list (range cur n (λ a, desc (u64 (pa + (a - start))))) s.
Proof.
  intros Hpage. revert fuel cur s. induction n as [|n IH]; intros fuel cur s Hs Hlim Hf.
  - destruct fuel; simpl; by rewrite (proj2 (Z.ltb_ge _ _)) by lia.
  - destruct fuel as [|fuel]; [lia|]. cbn [page_loop range install_list].
    rewrite (proj2 (Z.ltb_lt _ _)) by lia. rewrite Hpage, (u64_small (cur - start)) by lia.
    apply bind_ext. intros _ s'. rewrite (u64_small (cur + 4096)) by lia.
    replace (cur + 4096 * Z.of_nat (S n)) with (cur + 4096 + 4096 * Z.of_nat n) by lia.
    apply IH; lia.
Qed.

(** Rounding up to a page in 64-bit arithmetic: [(x + 4095) & ~4095]. *)
Definition page_up (x : Z) : Z := u64 (x + 4095) - u64 (x + 4095) mod 4096.

Lemma page_up_small x : 0 ≤ x → x + 4095 < 2 ^ 64 → page_up x = (x + 4095) / 4096 * 4096.
Proof.
  intros Hx0 Hx. unfold page_up. rewrite u64_small by lia.
  pose proof (Z.div_mod (x + 4095) 4096 ltac:(lia)). lia.
Qed.

Lemma page_up_range x : page_up x mod 4096 = 0 ∧ 0 ≤ page_up x ≤ 2 ^ 64 - 4096.
Proof.
  unfold page_up. pose proof (u64_range (x + 4095)) as Hr. set (y := u64 (x + 4095)) in *.
  split; [by apply floor_mod|]. pose proof (floor_bound y 4096 ltac:(lia) ltac:(lia)) as [Hb _].
  pose proof (Z.div_mod y 4096 ltac:(lia)). pose proof (Z.mod_pos_bound y 4096 ltac:(lia)). lia.
Qed.

(** The page writes of a request of [size] bytes at [va], backed from [pa], for
    any 64-bit arguments. *)
Definition span_writes (desc : Z → Z) (va pa size : Z) : list (Z * Z) :=
  if size =? 0 then [] else
  let start := va - va mod 4096 in
  range start (Z.to_nat ((page_up (u64 (va + size)) - start) / 4096))
    (λ a, desc (u64 (u64 (pa - va mod 4096) + (a - start)))).

Lemma span_loop page desc va pa size s :
  (∀ a p, page a p = install a (desc p)) → is_u64 va → size ≠ 0 →
  let start := va - va mod 4096 in
  let limit := page_up (u64 (va + size)) in
  page_loop page start (u64 (pa - va mod 4096)) limit (Z.to_nat ((limit - start) / 4096)) start s =
    install_list (span_writes desc va pa size) s.
Proof.
  intros Hpage Hva Hsz start limit. unfold span_writes. rewrite (proj2 (Z.eqb_neq size 0)) by done.
  destruct (page_up_range (u64 (va + size))) as [Hm Hr]. cbv zeta. fold start limit in Hm, Hr |- *.
  pose proof (floor_mod va 4096 ltac:(lia)) as Hsm. fold start in Hsm.
  pose proof (floor_bound va 4096 ltac:(lia) ltac:(lia)) as Hsb. fold start in Hsb.
  assert ((limit - start) mod 4096 = 0) as Hd by (by rewrite Zminus_mod, Hm, Hsm).
  pose proof (Z.div_mod (limit - start) 4096 ltac:(lia)) as Hn. rewrite Hd in Hn.
  set (n := (limit - start) / 4096) in *. destruct (decide (n < 0)) as [Hneg|].
  - replace (Z.to_nat n) with O by lia. simpl. by rewrite (proj2 (Z.ltb_ge _ _)) by lia.
  - replace limit with (start + 4096 * Z.of_nat (Z.to_nat n)) by lia.
    apply page_loop_range; [done|lia..].
Qed.

(** Inside the translated window the writes are the pages the bytes touch. *)
Lemma span_lookup desc va pa size (m : pages) p :
  0 < size → 0 ≤ va → va + size ≤ 2 ^ 39 → 0 ≤ pa - va mod 4096 → pa + size < 2 ^ 63 →
  apply_pages (page_writes (span_writes desc va pa size)) m !! p =
    if bool_decide (va / 4096 ≤ p ∧ p * 4096 < va + size)
    then Some (desc (pa + (p * 4096 - va))) else m !! p.
Proof.
  intros Hsz Hva Hmax Hpa Hpmax. unfold span_writes. rewrite (proj2 (Z.eqb_neq size 0)) by lia.
  cbv zeta. rewrite (u64_small (va + size)), page_up_small by lia.
  pose proof (Z.div_mod va 4096 ltac:(lia)) as Hd. pose proof (Z.mod_pos_bound va 4096 ltac:(lia)).
  set (v := va / 4096) in *. set (o := va mod 4096) in *.
  pose proof (Z.div_mod (va + size + 4095) 4096 ltac:(lia)) as He.
  pose proof (Z.mod_pos_bound (va + size + 4095) 4096 ltac:(lia)).
  set (e := (va + size + 4095) / 4096) in *. replace (va - o) with (v * 4096) by lia.
  replace (e * 4096 - v * 4096) with ((e - v) * 4096) by lia. rewrite Z.div_mul by lia.
  assert (v < e) by lia.
  rewrite range_lookup; [|by apply Z.mod_mul|lia..].
  rewrite Z.div_mul by lia. repeat case_bool_decide; try lia; [|done]. do 2 f_equal.
  rewrite !u64_small by (try rewrite u64_small; lia). lia.
Qed.

Lemma install_fuelled va d : fuelled (install va d).
Proof.
  unfold install, ensure_l2, ensure_l3, alloc_l2, alloc_l3, store_l1, store_l1_children,
    store_l2_child, store_l2_entry, store_l3_entry. cbv zeta.
  solve_fuelled.
Qed.

Lemma install_list_fuelled l : fuelled (install_list l).
Proof. induction l as [|[va d] l IH]; simpl; [|apply fuelled_bind; [apply install_fuelled|]]; solve_fuelled. Qed.
End range.

(** ** Capacity *)

Section capacity.
Context `{!Builder}.

Lemma size_intervals {A} `{Countable A} (f : Z → A) (X : gset A) lo hi lo' hi' :
  (∀ x, x ∈ X → ∃ r, x = f r ∧ (lo ≤ r ≤ hi ∨ lo' ≤ r ≤ hi')) →
  Z.of_nat (size X) ≤ Z.max 0 (hi - lo + 1) + Z.max 0 (hi' - lo' + 1).
Proof.
  intros HX.
  set (l := seqZ lo (hi - lo + 1) ++ seqZ lo' (hi' - lo' + 1)).
  assert (X ⊆ list_to_set (f <$> l)) as Hsub.
  { intros x Hx. destruct (HX x Hx) as (r & -> & Hr). apply elem_of_list_to_set.
    apply list_elem_of_fmap. exists r. split; [done|]. subst l.
    rewrite elem_of_app, !elem_of_seqZ. lia. }
  apply subseteq_size in Hsub. pose proof (size_list_to_set_le (f <$> l)) as Hle.
  subst l. rewrite length_fmap, length_app, !length_seqZ in Hle. lia.
Qed.

(** Pages inside one or two windows need no more tables than the windows have
    regions. *)
Lemma fits_windows (m : pages) lo hi lo' hi' :
  (∀ p, p ∈ dom m → lo ≤ p ≤ hi ∨ lo' ≤ p ≤ hi') → 0 ≤ lo → 0 ≤ lo' →
  Z.max 0 (hi / 2 ^ 18 - lo / 2 ^ 18 + 1) + Z.max 0 (hi' / 2 ^ 18 - lo' / 2 ^ 18 + 1) ≤ max_l2 →
  Z.max 0 (hi / 2 ^ 9 - lo / 2 ^ 9 + 1) + Z.max 0 (hi' / 2 ^ 9 - lo' / 2 ^ 9 + 1) ≤ max_l3 →
  fits m.
Proof.
  intros Hdom Hlo Hlo' H2 H3. unfold fits, gigas, megas. split.
  - etrans; [apply (size_intervals Z.to_nat _ (lo / 2 ^ 18) (hi / 2 ^ 18) (lo' / 2 ^ 18) (hi' / 2 ^ 18))|done].
    intros g (p & -> & Hp)%elem_of_map. exists (p / 2 ^ 18). split; [done|].
    apply Hdom in Hp as [?|?]; [left|right]; split; apply Z.div_le_mono; lia.
  - etrans; [apply (size_intervals (λ r, (Z.to_nat (r / 512), Z.to_nat (r mod 512)))
                      _ (lo / 2 ^ 9) (hi / 2 ^ 9) (lo' / 2 ^ 9) (hi' / 2 ^ 9))|done].
    intros g (p & -> & Hp)%elem_of_map. exists (p / 2 ^ 9).
    split; [|apply Hdom in Hp as [?|?]; [left|right]; split; apply Z.div_le_mono; lia].
    unfold mega_of, giga_of. change (2 ^ 18) with (2 ^ 9 * 512). by rewrite Z.div_div by lia.
Qed.

Lemma fits_window (m : pages) lo hi :
  (∀ p, p ∈ dom m → lo ≤ p ≤ hi) → 0 ≤ lo ≤ hi →
  hi / 2 ^ 18 - lo / 2 ^ 18 + 1 ≤ max_l2 → hi / 2 ^ 9 - lo / 2 ^ 9 + 1 ≤ max_l3 → fits m.
Proof.
  intros Hdom Hlo H2 H3. pose proof (Z.div_le_mono lo hi (2 ^ 18)). pose proof (Z.div_le_mono lo hi (2 ^ 9)).
  apply (fits_windows _ lo hi (2 ^ 18) 0); [by eauto|lia|lia| |].
  - change (0 / 2 ^ 18 - 2 ^ 18 / 2 ^ 18 + 1) with 0. lia.
  - change (0 / 2 ^ 9 - 2 ^ 18 / 2 ^ 9 + 1) with (-511). lia.
Qed.
End capacity.

(** ** Masks and descriptor fields *)

Section fields.

Lemma page_mask_eq x : is_u64 x → Z.land x (not64 (0x1000 - 1)) = x - x mod 4096.
Proof. intros Hx. exact (land_clear_low x 12 Hx ltac:(lia)). Qed.

Lemma pa_mask_eq pa : is_u64 pa →
  Z.land pa (Z.land (Z.shiftl 1 48 - 1) (not64 (0x1000 - 1))) = pa mod 2 ^ 48 - pa mod 4096.
Proof.
  intros Hpa. rewrite Z.land_assoc. change (Z.shiftl 1 48 - 1) with (Z.ones 48).
  rewrite Z.land_ones by lia. rewrite page_mask_eq.
  - f_equal. exact (mod_pow2_low pa 12 48 ltac:(lia)).
  - pose proof (Z.mod_pos_bound pa (2 ^ 48)). lia.
Qed.
(** Frames are page-aligned and below 2^48. *)
Lemma frame_ok pa : is_u64 pa →
  (pa mod 2 ^ 48 - pa mod 4096) mod 4096 = 0 ∧ 0 ≤ pa mod 2 ^ 48 - pa mod 4096 < 2 ^ 48.
Proof.
  intros Hpa. rewrite <-(mod_pow2_low pa 12 48 ltac:(lia) : _ = pa mod 4096).
  pose proof (Z.mod_pos_bound pa (2 ^ 48) ltac:(lia)).
  split; [by apply floor_mod|]. pose proof (floor_bound (pa mod 2 ^ 48) (2 ^ 12)). lia.
Qed.

(** The frame and the low and high attribute fields of a descriptor. *)
Lemma desc_fields k b low hi : 48 ≤ k → b mod 4096 = 0 → 0 ≤ b < 2 ^ 48 → 0 ≤ low < 4096 →
  let d := b + low + hi * 2 ^ k in
  d mod 4096 = low ∧ desc_addr d = b ∧ d / 2 ^ k = hi.
Proof.
  intros Hk Hb Hr Hl d. pose proof (Z.div_mod b 4096 ltac:(lia)) as Hd. rewrite Hb, Z.add_0_r in Hd.
  set (p := b / 4096) in *.
  assert (2 ^ k = 2 ^ 48 * 2 ^ (k - 48)) as Hp by (rewrite <-Z.pow_add_r by lia; f_equal; lia).
  pose proof (Z.pow_pos_nonneg 2 (k - 48) ltac:(lia) ltac:(lia)). set (e := 2 ^ (k - 48)) in *.
  assert (d = low + (p + hi * e * 2 ^ 36) * 4096) as -> by (subst d; rewrite Hd, Hp; lia).
  unfold desc_addr. rewrite Z.mod_add, Z.div_add, Z.mod_small, Z.div_small by lia. split_and!.
  - done.
  - rewrite Z.add_0_l, Z.mod_add, Z.mod_small by lia. lia.
  - symmetry. apply Z.div_unique with (low + p * 4096); [left|rewrite Hp; lia]. nia.
Qed.

(** A bit of the high field. *)
Lemma testbit_field d k i hi : 0 ≤ k → 0 ≤ i → d / 2 ^ k = hi →
  Z.testbit d (k + i) = Z.testbit hi i.
Proof. intros Hk Hi <-. rewrite <-Z.shiftr_div_pow2, Z.shiftr_spec by done. f_equal. lia. Qed.

Lemma testbit_low d i : 0 ≤ i < 12 → Z.testbit d i = Z.testbit (d mod 4096) i.
Proof. intros Hi. symmetry. exact (Z.mod_pow2_bits_low d 12 i ltac:(lia)). Qed.

Lemma page_of_small a : 0 ≤ a < 2 ^ 39 → page_of a = a / 4096.
Proof.
  intros Ha. apply Z.mod_small.
  split; [apply Z.div_pos; lia|apply Z.div_lt_upper_bound; lia].
Qed.

End fields.

(** ** The static variables before any call *)

Lemma pt_bss_shape `{!Builder} n2 n3 :
  Z.of_nat n2 = max_l2 → Z.of_nat n3 = max_l3 → shape (pt_bss n2 n3).
Proof.
  intros H2 H3. split; unfold pt_bss; cbn [l1 l2_pool l3_pool l1_children];
    rewrite ?length_replicate; try done.
  - apply Forall_replicate. split; apply length_replicate.
  - apply Forall_replicate. apply length_replicate.
Qed.
