(* ===== verification/S2Mmu.v ===== *)
(** * Stage-2 translation: [core/s2_mmu.c], [include/s2_mmu.h]

    The stage-2 table builder transcribed function by function over the layout of
    [PageTable], and the programming of the stage-2 registers. The theorems are in
    [S2MmuTheory].                                                              *)

From Stdlib Require Import ZArith Lia.
From stdpp Require Import base gmap list strings.
From S2P Require Import Prelude Machine PageTable.

#[local] Open Scope string_scope.
#[local] Open Scope Z_scope.

(** ** Constants of [s2_mmu.h], [mem_attrs.h] and [s2_mmu.c] *)

Definition IPA_BITS : Z := 39.
Definition VMID : Z := 1.

Definition S2_DESC_VALID : Z := Z.shiftl 1 0.
Definition S2_TABLE : Z := 3.
Definition S2_PAGE : Z := 3.
Definition S2_AF : Z := Z.shiftl 1 10.
Definition S2_SH_INNER : Z := Z.shiftl 3 8.
Definition S2_MEMATTR (idx : Z) : Z := Z.shiftl (Z.land idx 7) 2.
Definition S2AP_R : Z := Z.shiftl 1 6.
Definition S2AP_W : Z := Z.shiftl 1 7.
Definition S2_XN : Z := Z.shiftl 1 54.

Definition MAIR_ATTR_NORMAL_WBWA : Z := 0xff.
Definition MAIR_ATTR_DEVICE_nGnRE : Z := 0x04.
Definition MAIR_EL2_VALUE : Z :=
  Z.lor MAIR_ATTR_NORMAL_WBWA (Z.shiftl MAIR_ATTR_DEVICE_nGnRE 8).
Definition NORMAL_WB : Z := 0.
Definition DEVICE_nGnRE : Z := 1.
Definition S2_ATTRIDX_NORMAL : Z := NORMAL_WB.
Definition S2_ATTRIDX_DEVICE : Z := DEVICE_nGnRE.

Definition S2_VM_GUARD_BYTES : Z := 2 * 0x1000.

Definition S2_PT_ENTRIES : nat := PT_ENTRIES.
Definition S2_PAGE_SIZE : Z := 0x1000.
Definition S2_PAGE_MASK : Z := not64 (S2_PAGE_SIZE - 1).
Definition L1_SHIFT : Z := 30.
Definition L2_SHIFT : Z := 21.
Definition L3_SHIFT : Z := 12.
Definition LVL_INDEX_MASK : Z := 0x1ff.
Definition S2_MAX_L2_TABLES : Z := 16.
Definition S2_MAX_L3_TABLES : Z := 1024.
Definition PA_48_MASK : Z := Z.shiftl 1 48 - 1.

(** Where the linker placed [s2_l1], [s2_l2_pool] and [s2_l3_pool]. *)
Class S2Image := {
  s2_l1_sym : Z;
  s2_l2_pool_sym : Z;
  s2_l3_pool_sym : Z;
}.

(** What [aligned(4096)] and the linker guarantee of them. *)
Class S2ImageOk `{!S2Image} : Prop := {
  s2_l1_aligned : s2_l1_sym mod 4096 = 0;
  s2_l2_aligned : s2_l2_pool_sym mod 4096 = 0;
  s2_l3_aligned : s2_l3_pool_sym mod 4096 = 0;
  s2_l1_low : 0 ≤ s2_l1_sym ∧ s2_l1_sym + 4096 ≤ 2 ^ 48;
  s2_l2_low : 0 ≤ s2_l2_pool_sym ∧ s2_l2_pool_sym + 16 * 8192 ≤ 2 ^ 48;
  s2_l3_low : 0 ≤ s2_l3_pool_sym ∧ s2_l3_pool_sym + 1024 * 4096 ≤ 2 ^ 48;
  s2_l1_l2_apart : s2_l1_sym + 4096 ≤ s2_l2_pool_sym ∨ s2_l2_pool_sym + 16 * 8192 ≤ s2_l1_sym;
  s2_l1_l3_apart : s2_l1_sym + 4096 ≤ s2_l3_pool_sym ∨ s2_l3_pool_sym + 1024 * 4096 ≤ s2_l1_sym;
  s2_l2_l3_apart : s2_l2_pool_sym + 16 * 8192 ≤ s2_l3_pool_sym ∨
                   s2_l3_pool_sym + 1024 * 4096 ≤ s2_l2_pool_sym;
}.

(** ** [s2_mmu.c] *)

Definition vtcr_el2_value : Z :=
  let TG0_4K := Z.shiftl 0 14 in
  let SH0_IS := Z.shiftl 3 12 in
  let ORGN0_WB := Z.shiftl 1 10 in
  let IRGN0_WB := Z.shiftl 1 8 in
  let SL0_L1 := Z.shiftl 1 6 in
  let PS_48 := Z.shiftl 5 16 in
  let T0SZ := 64 - IPA_BITS in
  Z.lor (Z.lor (Z.lor (Z.lor (Z.lor (Z.lor TG0_4K SH0_IS) ORGN0_WB) IRGN0_WB) SL0_L1) T0SZ) PS_48.

Definition align_down (val align : Z) : Z := Z.land val (not64 (u64 (align - 1))).
Definition align_up (val align : Z) : Z :=
  Z.land (u64 (u64 (val + align) - 1)) (not64 (u64 (align - 1))).

Section s2_mmu.
Context `{!S2Image}.

Definition s2_pt_panic {A} : M pt A := hang.

Definition zero_qwords (buf : list Z) (count : nat) : list Z :=
  for_up count (λ i b, <[i := 0]> b) buf.

Definition zero_l2_children (tbl : list (option nat)) : list (option nat) :=
  for_up S2_PT_ENTRIES (λ i b, <[i := None]> b) tbl.

Definition s2_tables_reset : M pt () :=
  modify (set_l1 (λ b, zero_qwords b S2_PT_ENTRIES)) ;;
  modify (set_l1_children (for_up S2_PT_ENTRIES (λ i b, <[i := None]> b))) ;;
  modify (set_l2_used (λ _, 0)) ;;
  modify (set_l3_used (λ _, 0)).

Definition alloc_l2 : M pt nat :=
  used ← gets l2_used;
  if S2_MAX_L2_TABLES <=? used then s2_pt_panic else
  let k := Z.to_nat used in
  modify (set_l2_used (λ u, u16 (u + 1))) ;;
  p ← gets l2_pool;
  t ← arr_get p k;
  p' ← arr_set p k (L2Table (zero_qwords (entries t) S2_PT_ENTRIES) (zero_l2_children (children t)));
  modify (set_l2_pool (λ _, p')) ;;
  mret k.

Definition alloc_l3 : M pt nat :=
  used ← gets l3_used;
  if S2_MAX_L3_TABLES <=? used then s2_pt_panic else
  let k := Z.to_nat used in
  modify (set_l3_used (λ u, u16 (u + 1))) ;;
  p ← gets l3_pool;
  t ← arr_get p k;
  p' ← arr_set p k (zero_qwords t S2_PT_ENTRIES);
  modify (set_l3_pool (λ _, p')) ;;
  mret k.

(** [(u64)tbl] for a pointer into a pool. *)
Definition s2_l2_ptr (k : nat) : Z := s2_l2_pool_sym + Z.of_nat k * 8192.
Definition s2_l3_ptr (k : nat) : Z := s2_l3_pool_sym + Z.of_nat k * 4096.

Definition s2_table_desc (tbl : Z) : Z :=
  Z.lor (Z.land (Z.land tbl PA_48_MASK) S2_PAGE_MASK) S2_TABLE.

Definition ensure_l2 (l1_idx : nat) : M pt nat :=
  cs ← gets l1_children;
  tbl ← arr_get cs l1_idx;
  match tbl with
  | Some tbl => mret tbl
  | None =>
      tbl ← alloc_l2;
      store_l1_children l1_idx (Some tbl) ;;
      store_l1 l1_idx (s2_table_desc (s2_l2_ptr tbl)) ;;
      mret tbl
  end.

Definition ensure_l3 (l2 l2_idx : nat) : M pt nat :=
  p ← gets l2_pool;
  t ← arr_get p l2;
  tbl ← arr_get (children t) l2_idx;
  match tbl with
  | Some tbl => mret tbl
  | None =>
      tbl ← alloc_l3;
      store_l2_child l2 l2_idx (Some tbl) ;;
      store_l2_entry l2 l2_idx (s2_table_desc (s2_l3_ptr tbl)) ;;
      mret tbl
  end.

Definition s2_page_desc (pa read write exec : Z) : Z :=
  let desc :=
    Z.lor (Z.lor (Z.lor (Z.lor (Z.lor (Z.lor
      (Z.land pa (Z.land PA_48_MASK S2_PAGE_MASK))
      S2_PAGE) S2_AF) S2_SH_INNER) (S2_MEMATTR S2_ATTRIDX_NORMAL))
      (if read =? 0 then 0 else S2AP_R))
      (if write =? 0 then 0 else S2AP_W) in
  if exec =? 0 then Z.lor desc S2_XN else desc.

Definition s2_map_page (ipa pa read write exec : Z) : M pt () :=
  let l1_idx := Z.to_nat (Z.land (Z.shiftr ipa L1_SHIFT) LVL_INDEX_MASK) in
  let l2_idx := Z.to_nat (Z.land (Z.shiftr ipa L2_SHIFT) LVL_INDEX_MASK) in
  let l3_idx := Z.to_nat (Z.land (Z.shiftr ipa L3_SHIFT) LVL_INDEX_MASK) in
  l2 ← ensure_l2 l1_idx;
  l3 ← ensure_l3 l2 l2_idx;
  store_l3_entry l3 l3_idx (s2_page_desc pa read write exec).

(** [for (cur = map_start; cur < map_end; cur += S2_PAGE_SIZE)]. *)
Fixpoint s2_map_loop (map_start map_end pa read write exec : Z) (fuel : nat) (cur : Z) : M pt () :=
  if cur <? map_end then
    match fuel with
    | O => out_of_fuel
    | S fuel =>
        s2_map_page cur (u64 (pa + u64 (cur - map_start))) read write exec ;;
        s2_map_loop map_start map_end pa read write exec fuel (u64 (cur + S2_PAGE_SIZE))
    end
  else mret ().

Definition s2_map_identity_range (ipa_start pa_start size read write exec : Z) : M pt () :=
  if size =? 0 then mret () else
  let map_start := align_down ipa_start S2_PAGE_SIZE in
  let map_end := align_up (u64 (ipa_start + size)) S2_PAGE_SIZE in
  let pa := u64 (pa_start - u64 (ipa_start - map_start)) in
  let fuel := Z.to_nat ((map_end - map_start) / S2_PAGE_SIZE) in
  s2_map_loop map_start map_end pa read write exec fuel map_start.

Definition s2_build_tables_identity (ipa pa vm_size vm_count guard_bytes read write exec : Z)
    : M (pt * machine) () :=
  if (vm_count =? 0) || (vm_size =? 0) then mret () else
  let guard_bytes := align_up guard_bytes S2_PAGE_SIZE in
  let vm_size := align_up vm_size S2_PAGE_SIZE in
  on_fst s2_tables_reset ;;
  on_fst (for_upM (Z.to_nat vm_count) (λ vm,
    let slot_offset := u64 (Z.of_nat vm * u64 (vm_size + guard_bytes)) in
    let slot_ipa := u64 (ipa + slot_offset) in
    let slot_pa := u64 (pa + slot_offset) in
    s2_map_identity_range slot_ipa slot_pa vm_size read write exec)) ;;
  on_snd (dsb "ishst").
End s2_mmu.

(** ** Stage-2 registers *)

Section s2_regs.
Context `{!S2Image, !Counter}.

(** The mask of the VMID bits the CPU implements: ID_AA64MMFR1_EL1.VMIDBits. *)
Definition vmid_mask_from_cpu : M machine Z :=
  mmfr1 ← mrs ID_AA64MMFR1_EL1;
  let vmidbits := Z.land (Z.shiftr mmfr1 4) 0xF in
  mret (if vmidbits =? 0x2 then 0xFFFF else 0xFF).

Definition s2_program_regs_and_enable : M machine () :=
  msr MAIR_EL2 MAIR_EL2_VALUE ;;
  msr VTCR_EL2 vtcr_el2_value ;;
  let VMID_SHIFT := 48 in
  mmfr1 ← mrs ID_AA64MMFR1_EL1;
  let vmidbits := Z.land (Z.shiftr mmfr1 4) 0xF in
  let mask := if vmidbits =? 0x2 then 0xFFFF else 0xFF in
  let vmid_field := u64 (Z.shiftl (Z.land VMID mask) VMID_SHIFT) in
  let l1_base := s2_l1_sym in
  let baddr_field := Z.land l1_base PA_48_MASK in
  let vttbr := Z.lor vmid_field baddr_field in
  msr VTTBR_EL2 vttbr ;;
  dsb "ish" ;; tlbi "vmalls12e1is" ;; dsb "ish" ;; isb ;;
  hcr ← mrs HCR_EL2;
  let vm := Z.shiftl 1 0 in
  let rw := Z.shiftl 1 31 in
  let twe := Z.shiftl 1 14 in
  let twi := Z.shiftl 1 13 in
  let tsc := Z.shiftl 1 19 in
  let fmo := Z.shiftl 1 3 in
  let imo := Z.shiftl 1 4 in
  let amo := Z.shiftl 1 5 in
  let hcr := Z.lor hcr
    (Z.lor (Z.lor (Z.lor (Z.lor (Z.lor (Z.lor (Z.lor vm rw) twe) twi) tsc) fmo) imo) amo) in
  msr HCR_EL2 hcr ;;
  dsb "ish" ;; tlbi "vmalls12e1is" ;; dsb "ish" ;; isb ;;
  let trap_physical_timers := 0 in
  msr CNTHCTL_EL2 trap_physical_timers.

(** Up to the [eret]: the function does not return to its caller. *)
Definition enter_el1_at (el1_pc sp_el1 : Z) : M machine () :=
  msr SP_EL1 sp_el1 ;;
  let EL1h := 0x5 in
  let DAIF := Z.shiftl 0xF 6 in
  msr SPSR_EL2 (Z.lor EL1h DAIF) ;;
  msr ELR_EL2 el1_pc ;;
  isb ;; eret.
End s2_regs.

(** ** The tables in memory

    The addresses and descriptors of this file's tables, as [PageTable] asks for
    them. *)

#[export] Instance s2_builder `{!S2Image} : Builder := {|
  max_l2 := S2_MAX_L2_TABLES;
  max_l3 := S2_MAX_L3_TABLES;
  l1_addr := s2_l1_sym;
  l2_pool_addr := s2_l2_pool_sym;
  l3_pool_addr := s2_l3_pool_sym;
  table_desc := s2_table_desc;
  counter_wrap := u16;
|}.

(** What a stage-2 translation yields: the output address and the permissions. *)
Record s2_access := S2Access {
  sa_pa : Z;
  sa_read : bool;
  sa_write : bool;
  sa_exec : bool;
}.

(** The translation of [ipa] by the tables in [mem]: a page descriptor with the
    access flag set gives an access, everything else a fault. *)
Definition s2_translate (mem : Z → option Z) (root ipa : Z) : option s2_access :=
  match walk mem root ipa with
  | Page d =>
      if Z.testbit d 10
      then Some (S2Access (desc_addr d + ipa mod 4096) (Z.testbit d 6) (Z.testbit d 7)
                          (negb (Z.testbit d 54)))
      else None
  | _ => None
  end.
