(* ===== verification/S2MmuTheory.v ===== *)
(** * Theorems about stage-2 translation

    [core/s2_mmu.c] builds tables that map exactly the slots of the virtual
    machines, hangs exactly when its pools are exhausted, and programs the stage-2
    registers in an order that never enables an unprogrammed translation.       *)

From Stdlib Require Import ZArith Lia.
From stdpp Require Import base gmap list strings.
From S2P Require Import Prelude Machine PageTable PageTableTheory S2Mmu.

(** ** The builder as an instance of the shared theory *)

Section words.
Lemma align_down_eq x : is_u64 x → align_down x S2_PAGE_SIZE = x - x mod 4096.
Proof. intros Hx. exact (land_clear_low x 12 Hx ltac:(lia)). Qed.

Lemma align_up_eq x : align_up x S2_PAGE_SIZE = page_up x.
Proof.
  unfold align_up. rewrite u64_sub_mod_l.
  replace (x + S2_PAGE_SIZE - 1) with (x + 4095) by (unfold S2_PAGE_SIZE; lia).
  apply (land_clear_low _ 12); [apply u64_range | lia].
Qed.

(** Below the top page [align_up] is rounding up to a multiple of 4096. *)
Lemma align_up_small x : 0 ≤ x → x + 4095 < 2 ^ 64 →
  align_up x S2_PAGE_SIZE = (x + 4095) / 4096 * 4096.
Proof. rewrite align_up_eq. apply page_up_small. Qed.
End words.

#[export] Instance s2_builder_ok `{!S2Image} (Hok : S2ImageOk) : BuilderOk.
Proof.
  destruct Hok.
  split; simpl; unfold S2_MAX_L2_TABLES, S2_MAX_L3_TABLES, sizeof_l2_table, sizeof_l3_table;
    try assumption; try lia.
  - intros a Ha Hr. unfold s2_table_desc. change PA_48_MASK with (Z.ones 48).
    rewrite Z.land_ones, Z.mod_small, page_mask_eq, Ha, Z.sub_0_r by lia.
    by apply (lor_add a 3 12).
  - intros u Hu. apply Z.mod_small. lia.
  - intros u Hu. apply Z.mod_small. lia.
Qed.

(** ** Page descriptors *)

Section descriptors.
Definition flag (b : Z) (v : Z) : Z := if b =? 0 then 0 else v.

(** The descriptor as a sum of its fields: frame, type and attributes (0x703:
    page, access flag, inner shareable, MemAttr 0), permissions, execute-never. *)
Lemma s2_page_desc_sum pa r w x : is_u64 pa →
  s2_page_desc pa r w x =
    (pa mod 2 ^ 48 - pa mod 4096) + (0x703 + flag r 64 + flag w 128) +
    (if x =? 0 then 2 ^ 54 else 0).
Proof.
  intros Hpa. unfold s2_page_desc, flag. rewrite pa_mask_eq by done.
  set (b := pa mod 2 ^ 48 - pa mod 4096). destruct (frame_ok pa Hpa) as [Hb Hr].
  fold b in Hb, Hr.
  match goal with |- context [if _ then Z.lor ?l S2_XN else _] =>
    assert (l = b + (0x703 + flag r 64 + flag w 128)) as -> end.
  { rewrite <-!(Z.lor_assoc b). unfold flag. destruct (r =? 0), (w =? 0);
      by apply (lor_add b _ 12). }
  assert (0 ≤ flag r 64 + flag w 128 < 256) by (unfold flag; destruct (r =? 0), (w =? 0); lia).
  unfold flag in *. destruct (x =? 0); [|lia].
  rewrite Z.lor_comm, (lor_add S2_XN _ 54); [|done..|lia]. change S2_XN with (2 ^ 54). lia.
Qed.

End descriptors.

(** ** The C functions are the reference builder *)

Section bridge.
Context `{!S2Image}.

Lemma s2_map_page_install ipa pa r w x :
  s2_map_page ipa pa r w x = install ipa (s2_page_desc pa r w x).
Proof. reflexivity. Qed.

Lemma s2_tables_reset_eq : s2_tables_reset = reset.
Proof. reflexivity. Qed.

Lemma s2_map_loop_eq map_start map_end pa r w x fuel cur :
  s2_map_loop map_start map_end pa r w x fuel cur =
    page_loop (λ a p, s2_map_page a p r w x) map_start pa map_end fuel cur.
Proof.
  revert cur. induction fuel as [|fuel IH]; intros cur; [done|].
  cbn [s2_map_loop page_loop]. by rewrite IH.
Qed.

(** The page writes of [s2_map_identity_range], for any 64-bit arguments. *)
Definition range_writes (ipa pa size r w x : Z) : list (Z * Z) :=
  span_writes (λ p, s2_page_desc p r w x) ipa pa size.

Lemma s2_map_identity_range_eq ipa pa size r w x s : is_u64 ipa →
  s2_map_identity_range ipa pa size r w x s = install_list (range_writes ipa pa size r w x) s.
Proof.
  intros Hipa. unfold s2_map_identity_range. destruct (Z.eqb_spec size 0) as [->|Hsz]; [done|].
  rewrite align_down_eq, align_up_eq by done. cbv zeta.
  pose proof (Z.mod_pos_bound ipa 4096 ltac:(lia)).
  replace (ipa - (ipa - ipa mod 4096)) with (ipa mod 4096) by lia.
  rewrite (u64_small (ipa mod 4096)) by lia.
  rewrite s2_map_loop_eq. by apply (span_loop _ (λ p, s2_page_desc p r w x)).
Qed.

(** The page writes of the VM loop of [s2_build_tables_identity]. *)
Fixpoint build_writes (ipa pa vm_size guard r w x : Z) (n : nat) : list (Z * Z) :=
  match n with
  | O => []
  | S k =>
      let off := u64 (Z.of_nat k * u64 (vm_size + guard)) in
      build_writes ipa pa vm_size guard r w x k ++
      range_writes (u64 (ipa + off)) (u64 (pa + off)) vm_size r w x
  end.

Lemma build_loop_eq ipa pa vm_size guard r w x n s :
  for_upM n (λ vm,
    let slot_offset := u64 (Z.of_nat vm * u64 (vm_size + guard)) in
    let slot_ipa := u64 (ipa + slot_offset) in
    let slot_pa := u64 (pa + slot_offset) in
    s2_map_identity_range slot_ipa slot_pa vm_size r w x) s =
  install_list (build_writes ipa pa vm_size guard r w x n) s.
Proof.
  revert s. induction n as [|n IH]; intros s; [done|].
  cbn [build_writes]. cbv zeta. rewrite for_upM_S, install_list_app.
  unfold mbind, M_bind. rewrite IH. destruct (install_list _ s); try done.
  apply s2_map_identity_range_eq, u64_range.
Qed.
End bridge.

(** ** Functional correctness of [s2_build_tables_identity] *)

Section build.
Context `{!S2Image, !S2ImageOk}.

Definition build_pages (ipa pa vm_size guard r w x : Z) (n : nat) : pages :=
  apply_pages (page_writes
    (build_writes ipa pa (align_up vm_size S2_PAGE_SIZE) (align_up guard S2_PAGE_SIZE) r w x n)) ∅.

(** Complete behaviour on arguments that are not the early return: the tables
    represent exactly the pages written and the barrier is issued, or the pools
    cannot hold them and the CPU hangs in [s2_pt_panic]. The prior contents of
    the pools do not matter. *)
Lemma s2_build_spec ipa pa vm_size n guard r w x s (m : machine) :
  shape s → n ≠ 0 → vm_size ≠ 0 →
  let ps := build_pages ipa pa vm_size guard r w x (Z.to_nat n) in
  if decide (fits ps)
  then total (s2_build_tables_identity ipa pa vm_size n guard r w x) (s, m)
         (λ _ t, repr (fst t) ps ∧ snd t = emit (Dsb "ishst"%string) m)
  else hangs (s2_build_tables_identity ipa pa vm_size n guard r w x) (s, m).
Proof.
  intros Hs Hn Hsz ps.
  destruct (proj1 (total_Ok _ _ _) (reset_refines s Hs)) as ([] & s1 & Hr & Hrepr).
  pose proof (install_list_refines s1 ∅
    (build_writes ipa pa (align_up vm_size S2_PAGE_SIZE) (align_up guard S2_PAGE_SIZE)
       r w x (Z.to_nat n)) Hrepr) as Hi.
  change (apply_pages _ ∅) with ps in Hi. unfold s2_build_tables_identity, hangs, total, wp, mbind, M_bind, on_fst, zoom.
  rewrite (proj2 (Z.eqb_neq n 0)), (proj2 (Z.eqb_neq vm_size 0)) by done. cbn [orb fst snd].
  rewrite s2_tables_reset_eq, Hr. cbn [fst snd]. rewrite build_loop_eq.
  destruct (decide (fits ps)) as [Hf|Hf].
  - destruct (proj1 (total_Ok _ _ _) Hi) as ([] & s2 & -> & Hrep). done.
  - destruct (Hi fits_empty) as [s2 ->]. by eexists.
Qed.
End build.

(** ** The slots of the virtual machines *)

Section slots.
Context `{!S2Image, !S2ImageOk}.

(** Byte [a] lies in one of [n] slots of [size] bytes, [stride] bytes apart. *)
Definition in_slots (ipa stride size n a : Z) : bool :=
  (ipa <=? a) && ((a - ipa) / stride <? n) && ((a - ipa) mod stride <? size).

Lemma in_slots_succ ipa stride size n a : 0 < size ≤ stride → 0 ≤ n →
  in_slots ipa stride size (n + 1) a =
    in_slots ipa stride size n a || bool_decide (ipa + n * stride ≤ a < ipa + n * stride + size).
Proof.
  intros Hs Hn. unfold in_slots. assert (0 ≤ n * stride) by nia.
  pose proof (Z.div_mod (a - ipa) stride ltac:(lia)) as Hd.
  pose proof (Z.mod_pos_bound (a - ipa) stride ltac:(lia)) as Hm.
  set (k := (a - ipa) / stride) in *. set (r := (a - ipa) mod stride) in *.
  assert (ipa + n * stride ≤ a < ipa + n * stride + size ↔ k = n ∧ r < size) as Hiff.
  { split; [intros Hin|intros [-> ?]; nia]. assert (k = n) by nia. nia. }
  apply eq_bool_prop_intro. rewrite orb_True, bool_decide_spec, Hiff.
  rewrite !andb_True, !Is_true_true, !Z.ltb_lt, !Z.leb_le.
  destruct (decide (k = n)); intuition lia || nia.
Qed.

Lemma build_writes_lookup ipa pa vs g r w x n (m : pages) p :
  ipa mod 4096 = 0 → 0 ≤ ipa → vs mod 4096 = 0 → 0 < vs → g mod 4096 = 0 → 0 ≤ g →
  0 ≤ pa → ipa + Z.of_nat n * (vs + g) ≤ 2 ^ 39 → pa + Z.of_nat n * (vs + g) ≤ 2 ^ 48 →
  apply_pages (page_writes (build_writes ipa pa vs g r w x n)) m !! p =
    if in_slots ipa (vs + g) vs (Z.of_nat n) (p * 4096)
    then Some (s2_page_desc (pa + (p * 4096 - ipa)) r w x) else m !! p.
Proof.
  intros Hi Hge Hv Hvs Hg Hg0 Hpa. induction n as [|n IH]; intros Hmax Hpmax.
  { assert (in_slots ipa (vs + g) vs (Z.of_nat 0) (p * 4096) = false) as ->; [|done].
    unfold in_slots. destruct (Z.leb_spec ipa (p * 4096)); [|done]. simpl.
    rewrite (proj2 (Z.ltb_ge _ _)); [done|]. apply Z.div_pos; lia. }
  assert (Z.of_nat (S n) = Z.of_nat n + 1) as HS by lia. rewrite HS in *.
  rewrite in_slots_succ by lia. specialize (IH ltac:(lia) ltac:(lia)).
  cbn [build_writes]. cbv zeta. set (off := Z.of_nat n * (vs + g)) in *.
  assert (0 ≤ off) by (subst off; nia).
  assert (off mod 4096 = 0) as Hoff.
  { subst off. by apply mod0_mul, mod0_add. }
  rewrite (u64_small (vs + g)), (u64_small (Z.of_nat n * (vs + g))) by (subst off; lia).
  fold off. rewrite (u64_small (ipa + off)) by lia.
  assert ((ipa + off) mod 4096 = 0) as Hio by (by apply mod0_add).
  rewrite page_writes_app, apply_pages_app. unfold range_writes.
  rewrite (u64_small (pa + off)) by (subst off; lia).
  pose proof (Z.div_mod vs 4096 ltac:(lia)) as Hvd. rewrite Hv in Hvd.
  pose proof (Z.div_mod (ipa + off) 4096 ltac:(lia)) as Hod. rewrite Hio in Hod.
  rewrite span_lookup by (rewrite ?Hio; lia). rewrite IH. clear IH.
  case_bool_decide as Hin; case_bool_decide as Hin'; try lia; rewrite ?orb_true_r, ?orb_false_r; [|done].
  do 2 f_equal. lia.
Qed.
End slots.

(** ** Translation through the tables *)

Section translate.
Context `{!S2Image, !S2ImageOk}.

Lemma s2_page_desc_decode pa r w x : pa mod 4096 = 0 → 0 ≤ pa < 2 ^ 48 →
  let d := s2_page_desc pa r w x in
  desc_type d = 3 ∧ desc_addr d = pa ∧ Z.testbit d 10 = true ∧
  Z.testbit d 6 = negb (r =? 0) ∧ Z.testbit d 7 = negb (w =? 0) ∧
  Z.testbit d 54 = (x =? 0).
Proof.
  intros Ha Hr d. assert (0 ≤ flag r 64 + flag w 128 < 256) as Hf
    by (unfold flag; destruct (r =? 0), (w =? 0); lia).
  pose proof (desc_fields 54 pa (0x703 + flag r 64 + flag w 128) (if x =? 0 then 1 else 0)
                ltac:(lia) Ha Hr ltac:(lia)) as (Hlow & Haddr & Hxn).
  assert (d = pa + (0x703 + flag r 64 + flag w 128) + (if x =? 0 then 1 else 0) * 2 ^ 54) as Hd.
  { subst d. rewrite s2_page_desc_sum, Ha, Z.mod_small by lia. destruct (x =? 0); lia. }
  cbv zeta in *. rewrite <-Hd in *. clear Hd.
  assert (desc_type d = 3) as Ht.
  { unfold desc_type. rewrite <-(mod_pow2_low d 2 12 ltac:(lia) : (d mod 4096) mod 4 = d mod 4), Hlow.
    unfold flag. by destruct (r =? 0), (w =? 0). }
  rewrite !(testbit_low d) by lia. rewrite Hlow.
  assert (Z.testbit d 54 = (x =? 0)) as ->.
  { rewrite Z.testbit_odd, Z.shiftr_div_pow2, Hxn by lia. by destruct (x =? 0). }
  unfold flag. split_and!; try done; by destruct (r =? 0), (w =? 0).
Qed.

Lemma s2_page_desc_type pa r w x : is_u64 pa → desc_type (s2_page_desc pa r w x) = 3.
Proof.
  intros Hpa. destruct (frame_ok pa Hpa) as [Hb Hr].
  apply (s2_page_desc_decode (pa mod 2 ^ 48 - pa mod 4096) r w x) in Hb as [Ht _]; [|done].
  rewrite <-Ht. unfold desc_type. f_equal. unfold s2_page_desc. rewrite !pa_mask_eq by lia.
  destruct (frame_ok pa Hpa) as [Hb' _].
  by rewrite Hb', Z.sub_0_r, (Z.mod_small (_ - _) (2 ^ 48)) by done.
Qed.

(** A byte and the base of its page lie in the same slot. *)
Lemma in_slots_page ipa stride size n a :
  ipa mod 4096 = 0 → stride mod 4096 = 0 → size mod 4096 = 0 → 0 < size ≤ stride →
  in_slots ipa stride size n (a / 4096 * 4096) = in_slots ipa stride size n a.
Proof.
  intros Hi Hst Hsz Hs. unfold in_slots.
  pose proof (Z.div_mod a 4096 ltac:(lia)) as Ha. pose proof (Z.mod_pos_bound a 4096 ltac:(lia)).
  set (t := a mod 4096) in *. set (a' := a / 4096 * 4096) in *.
  replace a with (a' + t) by lia.
  pose proof (Z.div_mod (a' - ipa) stride ltac:(lia)) as Hd.
  pose proof (Z.mod_pos_bound (a' - ipa) stride ltac:(lia)) as Hm.
  set (k := (a' - ipa) / stride) in *. set (r := (a' - ipa) mod stride) in *.
  assert (r mod 4096 = 0) as Hr.
  { replace r with (a' + - ipa + (- k) * stride) by lia.
    assert (a' mod 4096 = 0) by (by apply Z.mod_mul).
    assert ((- ipa) mod 4096 = 0) by (by apply Z.mod_opp_l_z).
    by apply mod0_add, mod0_mul; [apply mod0_add|]. }
  pose proof (Z.div_mod r 4096 ltac:(lia)). pose proof (Z.div_mod stride 4096 ltac:(lia)).
  pose proof (Z.div_mod size 4096 ltac:(lia)). pose proof (Z.div_mod ipa 4096 ltac:(lia)).
  assert (a' = a / 4096 * 4096) by done.
  replace ((a' + t - ipa) / stride) with k
    by (apply Z.div_unique with (r + t); [left|]; lia).
  replace ((a' + t - ipa) mod stride) with (r + t)
    by (apply Z.mod_unique with k; [left|]; lia).
  f_equal; [f_equal|]; apply eq_bool_prop_intro; rewrite !Is_true_true;
    rewrite ?Z.leb_le, ?Z.ltb_lt; lia.
Qed.
End translate.

(** ** Properties *)

(** A request [s2_build_tables_identity] can serve: page-aligned bases, slots that
    end inside the 39-bit IPA and 48-bit PA spaces, and a window the 16 L2 and
    1024 L3 tables cover. *)
Record s2_request (ipa pa vm_size n guard : Z) : Prop := {
  rq_ipa : ipa mod 4096 = 0 ∧ 0 ≤ ipa;
  rq_pa : pa mod 4096 = 0 ∧ 0 ≤ pa;
  rq_n : 0 < n;
  rq_size : 0 < vm_size < 2 ^ 40;
  rq_guard : 0 ≤ guard < 2 ^ 40;
  rq_ipa_max : ipa + n * (align_up vm_size S2_PAGE_SIZE + align_up guard S2_PAGE_SIZE) ≤ 2 ^ 39;
  rq_pa_max : pa + n * (align_up vm_size S2_PAGE_SIZE + align_up guard S2_PAGE_SIZE) ≤ 2 ^ 48;
  rq_gigas : (ipa + n * (align_up vm_size S2_PAGE_SIZE + align_up guard S2_PAGE_SIZE) - 1) / 2 ^ 30
             - ipa / 2 ^ 30 + 1 ≤ S2_MAX_L2_TABLES;
  rq_megas : (ipa + n * (align_up vm_size S2_PAGE_SIZE + align_up guard S2_PAGE_SIZE) - 1) / 2 ^ 21
             - ipa / 2 ^ 21 + 1 ≤ S2_MAX_L3_TABLES;
}.

Section build_theory.
Context `{!S2Image, !S2ImageOk}.

Lemma align_up_pos x : 0 ≤ x < 2 ^ 40 →
  align_up x S2_PAGE_SIZE mod 4096 = 0 ∧ x ≤ align_up x S2_PAGE_SIZE < x + 4096.
Proof.
  intros Hx. rewrite align_up_small by lia. split; [by apply Z.mod_mul|].
  pose proof (Z.div_mod (x + 4095) 4096 ltac:(lia)).
  pose proof (Z.mod_pos_bound (x + 4095) 4096 ltac:(lia)). lia.
Qed.

Lemma in_slots_bound ipa stride size n a :
  0 < size ≤ stride → in_slots ipa stride size n a = true →
  ipa ≤ a < ipa + n * stride.
Proof.
  unfold in_slots. intros Hs ((Ha%Z.leb_le & Hk%Z.ltb_lt)%andb_true_iff & _)%andb_true_iff.
  pose proof (Z.div_mod (a - ipa) stride ltac:(lia)).
  pose proof (Z.mod_pos_bound (a - ipa) stride ltac:(lia)). nia.
Qed.

Lemma build_pages_lookup ipa pa vm_size n guard r w x p :
  s2_request ipa pa vm_size n guard →
  let vs := align_up vm_size S2_PAGE_SIZE in
  let g := align_up guard S2_PAGE_SIZE in
  build_pages ipa pa vm_size guard r w x (Z.to_nat n) !! p =
    if in_slots ipa (vs + g) vs n (p * 4096)
    then Some (s2_page_desc (pa + (p * 4096 - ipa)) r w x) else None.
Proof.
  intros [[Hi Hi0] [Hp Hp0] Hn Hsz Hg Hmax Hpmax _ _] vs g.
  destruct (align_up_pos vm_size) as [Hv Hvb]; [lia|].
  destruct (align_up_pos guard) as [Hgm Hgb]; [lia|]. fold vs g in Hv, Hvb, Hgm, Hgb, Hmax, Hpmax.
  unfold build_pages. fold vs g.
  rewrite build_writes_lookup by (rewrite ?Z2Nat.id by lia; nia). rewrite Z2Nat.id by lia.
  destruct (in_slots _ _ _ _ _) eqn:Hin; [|apply lookup_empty].
  apply in_slots_bound in Hin; [|lia]. done.
Qed.

Lemma build_pages_fits ipa pa vm_size n guard r w x :
  s2_request ipa pa vm_size n guard →
  fits (build_pages ipa pa vm_size guard r w x (Z.to_nat n)).
Proof.
  intros Hq. pose proof Hq as [[Hi Hi0] _ Hn Hsz Hg Hmax _ Hgi Hme].
  destruct (align_up_pos vm_size) as [Hv Hvb]; [lia|].
  destruct (align_up_pos guard) as [Hgm Hgb]; [lia|].
  set (last := ipa + n * _) in *.
  assert (ipa < last) by (subst last; nia).
  apply (fits_window _ (ipa / 4096) ((last - 1) / 4096)).
  - intros p [d Hd]%elem_of_dom. rewrite build_pages_lookup in Hd by done.
    destruct (in_slots _ _ _ _ _) eqn:Hin; [|done]. apply in_slots_bound in Hin; [|lia].
    fold last in Hin. split; [apply Z.div_le_upper_bound; lia|apply Z.div_le_lower_bound; lia].
  - split; [apply Z.div_pos; lia|apply Z.div_le_mono; lia].
  - rewrite !Z.div_div by lia. exact Hgi.
  - rewrite !Z.div_div by lia. exact Hme.
Qed.

(** The frame of a page in a slot. *)
Lemma slot_frame ipa pa vm_size n guard q :
  s2_request ipa pa vm_size n guard →
  let vs := align_up vm_size S2_PAGE_SIZE in
  let g := align_up guard S2_PAGE_SIZE in
  in_slots ipa (vs + g) vs n (q * 4096) = true →
  (pa + (q * 4096 - ipa)) mod 4096 = 0 ∧ 0 ≤ pa + (q * 4096 - ipa) < 2 ^ 48.
Proof.
  intros [[Hi Hi0] [Hp Hp0] Hn Hsz Hg Hmax Hpmax _ _] vs g Hin.
  destruct (align_up_pos vm_size) as [_ Hvb]; [lia|].
  destruct (align_up_pos guard) as [_ Hgb]; [lia|]. fold vs g in Hvb, Hgb, Hmax, Hpmax.
  apply in_slots_bound in Hin; [|lia]. split; [|lia].
  apply mod0_add; [done|]. apply (mod0_add (q * 4096) (- ipa));
    [by apply Z.mod_mul | by apply Z.mod_opp_l_z].
Qed.

Lemma build_pages_type ipa pa vm_size n guard r w x p d :
  s2_request ipa pa vm_size n guard →
  build_pages ipa pa vm_size guard r w x (Z.to_nat n) !! p = Some d → desc_type d = 3.
Proof.
  intros Hq. rewrite build_pages_lookup by done.
  destruct (in_slots _ _ _ _ _) eqn:Hin; [|done]. intros [= <-].
  destruct (slot_frame _ _ _ _ _ _ Hq Hin). apply s2_page_desc_type. lia.
Qed.

(** Translation by tables that represent a request. *)
Lemma build_translate ipa pa vm_size n guard r w x s a :
  s2_request ipa pa vm_size n guard → 0 ≤ a < 2 ^ 39 →
  repr s (build_pages ipa pa vm_size guard r w x (Z.to_nat n)) →
  let vs := align_up vm_size S2_PAGE_SIZE in
  let g := align_up guard S2_PAGE_SIZE in
  s2_translate (mem_read s) s2_l1_sym a =
    if in_slots ipa (vs + g) vs n a
    then Some (S2Access (pa + (a - ipa)) (negb (r =? 0)) (negb (w =? 0)) (negb (x =? 0)))
    else None.
Proof.
  intros Hq Ha Hr vs g.
  pose proof (walk_repr s _ a Hr (λ p d, build_pages_type _ _ _ _ _ _ _ _ p d Hq)) as Hw.
  simpl in Hw. rewrite build_pages_lookup, page_of_small in Hw by done. fold vs g in Hw.
  assert (in_slots ipa (vs + g) vs n (a / 4096 * 4096) = in_slots ipa (vs + g) vs n a) as Hpage.
  { destruct Hq as [[Hi Hi0] _ _ Hsz Hg _ _ _ _].
    destruct (align_up_pos vm_size) as [Hv Hvb]; [lia|].
    destruct (align_up_pos guard) as [Hgm Hgb]; [lia|].
    apply in_slots_page; [done|by apply mod0_add|done|subst vs g; lia]. }
  unfold s2_translate. rewrite Hpage in Hw. destruct (in_slots ipa (vs + g) vs n a) eqn:Hin.
  - destruct (slot_frame _ _ _ _ _ _ Hq Hpage) as [Hal Hrange].
    destruct (s2_page_desc_decode _ r w x Hal Hrange) as (Ht & Had & H10 & H6 & H7 & H54).
    rewrite Hw, H10, H6, H7, H54, Had. do 2 f_equal.
    pose proof (Z.div_mod a 4096 ltac:(lia)). lia.
  - by destruct Hw as [level ->].
Qed.

Lemma build_total ipa pa vm_size n guard r w x s m :
  shape s → s2_request ipa pa vm_size n guard →
  total (s2_build_tables_identity ipa pa vm_size n guard r w x) (s, m)
    (λ _ t, repr (fst t) (build_pages ipa pa vm_size guard r w x (Z.to_nat n)) ∧
            snd t = emit (Dsb "ishst") m).
Proof.
  intros Hs Hq. pose proof Hq as [_ _ Hn Hsz _ _ _ _ _].
  pose proof (s2_build_spec ipa pa vm_size n guard r w x s m Hs ltac:(lia) ltac:(lia)) as Hb.
  cbv zeta in Hb. by rewrite decide_True in Hb by by eapply build_pages_fits.
Qed.
End build_theory.

Section regs.
Context `{!S2Image, !Counter}.

Definition HCR_TRAPS : Z := 0x80086039.

Definition s2_vttbr : Z := Z.lor (2 ^ 48) (Z.land s2_l1_sym PA_48_MASK).

(** What [s2_program_regs_and_enable] does, in program order. *)
Definition s2_enable_trace (hcr : Z) : list event :=
  [Msr MAIR_EL2 MAIR_EL2_VALUE; Msr VTCR_EL2 vtcr_el2_value; Msr VTTBR_EL2 s2_vttbr;
   Dsb "ish"; Tlbi "vmalls12e1is"; Dsb "ish"; Isb;
   Msr HCR_EL2 hcr; Dsb "ish"; Tlbi "vmalls12e1is"; Dsb "ish"; Isb; Msr CNTHCTL_EL2 0].

Lemma s2_program_regs_eq m :
  let hcr := Z.lor (sys m HCR_EL2) HCR_TRAPS in
  s2_program_regs_and_enable m = Ok () (Machine
    (upd CNTHCTL_EL2 0 (upd HCR_EL2 hcr (upd VTTBR_EL2 s2_vttbr
      (upd VTCR_EL2 vtcr_el2_value (upd MAIR_EL2 MAIR_EL2_VALUE (sys m))))))
    (vregs m) (gprs m) (reads m) (rev (s2_enable_trace hcr) ++ trace m)).
Proof.
  intros hcr. unfold s2_program_regs_and_enable. unfold mbind, M_bind.
  cbn -[Z.lor Z.land Z.shiftl Z.shiftr vtcr_el2_value MAIR_EL2_VALUE].
  assert (∀ b : bool, u64 (Z.shiftl (Z.land VMID (if b then 0xFFFF else 0xFF)) 48) = 2 ^ 48) as Hv
    by by intros [].
  rewrite Hv. cbn -[Z.lor Z.land Z.shiftl Z.shiftr vtcr_el2_value MAIR_EL2_VALUE].
  fold s2_vttbr. by rewrite !upd_ne by done.
Qed.

(** The VTTBR_EL2 value: VMID 1 above the table base. *)
Lemma s2_vttbr_fields : 0 ≤ s2_l1_sym < 2 ^ 48 →
  s2_vttbr mod 2 ^ 48 = s2_l1_sym ∧ s2_vttbr / 2 ^ 48 = VMID.
Proof.
  intros Hb. unfold s2_vttbr. change PA_48_MASK with (Z.ones 48).
  rewrite Z.land_ones, (Z.mod_small s2_l1_sym), (lor_add (2 ^ 48) s2_l1_sym 48) by (reflexivity || lia).
  split.
  - symmetry. apply Z.mod_unique with 1; lia.
  - symmetry. apply Z.div_unique with s2_l1_sym; [lia|]. unfold VMID. lia.
Qed.
End regs.

(** The request [el2_main] makes. *)
Lemma boot_request : s2_request 0x40000000 0x40000000 0x40000000 1 S2_VM_GUARD_BYTES.
Proof. split; vm_compute; split || idtac; done || (split; discriminate). Qed.

Lemma boot_in_slots a :
  in_slots 0x40000000 (align_up 0x40000000 S2_PAGE_SIZE + align_up S2_VM_GUARD_BYTES S2_PAGE_SIZE)
    (align_up 0x40000000 S2_PAGE_SIZE) 1 a = bool_decide (0x40000000 ≤ a < 0x80000000).
Proof.
  change (align_up 0x40000000 S2_PAGE_SIZE) with 0x40000000.
  change (align_up S2_VM_GUARD_BYTES S2_PAGE_SIZE) with 0x2000.
  change 1 with (0 + 1). rewrite in_slots_succ by lia.
  assert (in_slots 0x40000000 (0x40000000 + 0x2000) 0x40000000 0 a = false) as ->.
  { apply not_true_iff_false. intros Hin%in_slots_bound; lia. }
  simpl. apply bool_decide_ext. lia.
Qed.

(** Two slots that differ share no page frame. *)
Lemma slots_apart ipa pa stride size n a b :
  0 < size ≤ stride → size mod 4096 = 0 → stride mod 4096 = 0 →
  ipa mod 4096 = 0 → pa mod 4096 = 0 → 
  in_slots ipa stride size n a = true → in_slots ipa stride size n b = true →
  (a - ipa) / stride ≠ (b - ipa) / stride →
  (pa + (a - ipa)) / 4096 ≠ (pa + (b - ipa)) / 4096.
Proof.
  unfold in_slots. intros Hs Hsz Hst Hi Hp
    (_ & Ha%Z.ltb_lt)%andb_true_iff (_ & Hb%Z.ltb_lt)%andb_true_iff Hne Heq.
  pose proof (Z.div_mod (a - ipa) stride ltac:(lia)) as Hda.
  pose proof (Z.div_mod (b - ipa) stride ltac:(lia)) as Hdb.
  pose proof (Z.mod_pos_bound (a - ipa) stride ltac:(lia)).
  pose proof (Z.mod_pos_bound (b - ipa) stride ltac:(lia)).
  pose proof (Z.div_mod size 4096 ltac:(lia)) as Hds. pose proof (Z.div_mod stride 4096 ltac:(lia)) as Hdt.
  pose proof (Z.div_mod pa 4096 ltac:(lia)) as Hdp.
  rewrite Hsz in Hds. rewrite Hst in Hdt. rewrite Hp in Hdp.
  set (ka := (a - ipa) / stride) in *. set (kb := (b - ipa) / stride) in *.
  set (ra := (a - ipa) mod stride) in *. set (rb := (b - ipa) mod stride) in *.
  set (T := stride / 4096) in *. set (P := pa / 4096) in *. set (V := size / 4096) in *.
  replace (pa + (a - ipa)) with (ra + (P + T * ka) * 4096) in Heq by lia.
  replace (pa + (b - ipa)) with (rb + (P + T * kb) * 4096) in Heq by lia.
  rewrite !Z.div_add in Heq by lia.
  assert (0 ≤ ra / 4096 < T) by (split; [apply Z.div_pos|apply Z.div_lt_upper_bound]; lia).
  assert (0 ≤ rb / 4096 < T) by (split; [apply Z.div_pos|apply Z.div_lt_upper_bound]; lia).
  nia.
Qed.

Section boot.
Context `{!S2Image, !S2ImageOk}.

Lemma boot_total r w x s m : shape s →
  total (s2_build_tables_identity 0x40000000 0x40000000 0x40000000 1 S2_VM_GUARD_BYTES r w x) (s, m)
    (λ _ t, repr (fst t) (build_pages 0x40000000 0x40000000 0x40000000 S2_VM_GUARD_BYTES r w x 1) ∧
            snd t = emit (Dsb "ishst") m).
Proof. intros Hs. exact (build_total _ _ _ _ _ r w x s m Hs boot_request). Qed.

Lemma boot_translate r w x s a : 0 ≤ a < 2 ^ 39 →
  repr s (build_pages 0x40000000 0x40000000 0x40000000 S2_VM_GUARD_BYTES r w x 1) →
  s2_translate (mem_read s) s2_l1_sym a =
    if bool_decide (0x40000000 ≤ a < 0x80000000)
    then Some (S2Access a (negb (r =? 0)) (negb (w =? 0)) (negb (x =? 0))) else None.
Proof.
  intros Ha Hr. rewrite (build_translate _ _ _ _ _ r w x s a boot_request Ha Hr).
  rewrite boot_in_slots. case_bool_decide; [|done]. do 2 f_equal. lia.
Qed.

Lemma s2_l1_range : 0 ≤ s2_l1_sym < 2 ^ 48.
Proof. pose proof s2_l1_low. lia. Qed.
End boot.

Lemma hcr_traps_bits i : 0 ≤ i →
  Z.testbit HCR_TRAPS i = bool_decide (i ∈ [0; 3; 4; 5; 13; 14; 19; 31]).
Proof. by apply (set_bits_spec HCR_TRAPS _ 32). Qed.

(** A concrete placement of the three objects, for the theorems' witnesses. *)
Definition demo_s2_image : S2Image :=
  {| s2_l1_sym := 0x40010000; s2_l2_pool_sym := 0x40020000; s2_l3_pool_sym := 0x40060000 |}.

Lemma demo_s2_image_ok : @S2ImageOk demo_s2_image.
Proof. split; unfold s2_l1_sym, s2_l2_pool_sym, s2_l3_pool_sym; simpl; first [reflexivity | lia]. Qed.

Section properties.
Context `{!S2Image}.

(** C1. [s2_build_tables_identity] maps exactly the VM slots: started from any
    contents of its static pools, a request it can serve returns, and the tables
    then translate every address of the 39-bit IPA space inside slot [k] of
    [vm_count] to the byte at the same offset from [pa], with the permissions
    asked for, and fault on every other address, guard pages included. *)
Theorem s2_build_exact `{!S2ImageOk} ipa pa vm_size n guard r w x s m :
  shape s → s2_request ipa pa vm_size n guard →
  let vs := align_up vm_size S2_PAGE_SIZE in
  let g := align_up guard S2_PAGE_SIZE in
  total (s2_build_tables_identity ipa pa vm_size n guard r w x) (s, m) (λ _ t,
    ∀ a, 0 ≤ a < 2 ^ 39 →
      s2_translate (mem_read (fst t)) s2_l1_sym a =
        if in_slots ipa (vs + g) vs n a
        then Some (S2Access (pa + (a - ipa)) (negb (r =? 0)) (negb (w =? 0)) (negb (x =? 0)))
        else None).
Proof.
  intros Hs Hq vs g. eapply total_mono; [by apply build_total|].
  intros _ t [Hr _] a Ha. by apply build_translate.
Qed.

(** C16. [s2_build_tables_identity] hangs in [s2_pt_panic] exactly when the pages
    to map need more than 16 L2 or 1024 L3 tables, for all arguments (wrapped
    addresses included); a call with no VM or no memory touches nothing. *)
Theorem s2_build_panics_iff `{!S2ImageOk} ipa pa vm_size n guard r w x s m :
  shape s →
  (n ≠ 0 → vm_size ≠ 0 →
    hangs (s2_build_tables_identity ipa pa vm_size n guard r w x) (s, m) ↔
    ¬ fits (build_pages ipa pa vm_size guard r w x (Z.to_nat n))) ∧
  (n = 0 ∨ vm_size = 0 →
    s2_build_tables_identity ipa pa vm_size n guard r w x (s, m) = Ok () (s, m)).
Proof.
  intros Hs. split.
  - intros Hn Hsz. pose proof (s2_build_spec ipa pa vm_size n guard r w x s m Hs Hn Hsz) as Hb.
    cbv zeta in Hb. destruct (decide (fits _)) as [Hf|Hf]; [|done].
    split; [|done]. intros [s' Hh]. unfold total, wp in Hb. by rewrite Hh in Hb.
  - intros Hz. unfold s2_build_tables_identity.
    by destruct Hz as [-> | ->]; rewrite ?orb_true_r.
Qed.

(** C14. One page: [s2_map_page] adds exactly one entry to the abstract map the
    tables represent, keeping every other mapping and every representation
    invariant, or hangs when the entry needs a table the pools do not have. *)
Theorem s2_map_page_refines `{!S2ImageOk} ipa pa r w x s (ps : pages) :
  repr s ps →
  let ps' := <[page_of ipa := s2_page_desc pa r w x]> ps in
  (fits ps' → total (s2_map_page ipa pa r w x) s (λ _ s', repr s' ps')) ∧
  (¬ fits ps' → hangs (s2_map_page ipa pa r w x) s).
Proof.
  intros Hr ps'. rewrite s2_map_page_install.
  split; intros Hf; [by apply install_refines | by eapply install_hangs].
Qed.

(** C2. Isolation: in tables built for several VMs, addresses of different VMs
    never reach the same page frame, and every address between two slots (the
    guard pages) faults. *)
Theorem s2_slots_isolated `{!S2ImageOk} ipa pa vm_size n guard r w x s m :
  shape s → s2_request ipa pa vm_size n guard →
  let vs := align_up vm_size S2_PAGE_SIZE in
  let stride := vs + align_up guard S2_PAGE_SIZE in
  total (s2_build_tables_identity ipa pa vm_size n guard r w x) (s, m) (λ _ t,
    let tr := s2_translate (mem_read (fst t)) s2_l1_sym in
    (∀ a b A B, 0 ≤ a < 2 ^ 39 → 0 ≤ b < 2 ^ 39 → tr a = Some A → tr b = Some B →
      (a - ipa) / stride ≠ (b - ipa) / stride → sa_pa A / 4096 ≠ sa_pa B / 4096) ∧
    (∀ a, 0 ≤ a < 2 ^ 39 → vs ≤ (a - ipa) mod stride → tr a = None)).
Proof.
  intros Hs Hq vs stride. eapply total_mono; [by apply build_total|].
  intros _ t [Hr _]. cbv zeta. pose proof Hq as [[Hi _] [Hp _] _ Hsz Hg _ _ _ _].
  destruct (align_up_pos vm_size) as [Hv Hvb]; [lia|].
  destruct (align_up_pos guard) as [Hgm Hgb]; [lia|]. fold vs in Hv, Hvb. split.
  - intros a b A B Ha Hb. rewrite !(build_translate _ _ _ _ _ _ _ _ _ _ Hq) by done.
    fold vs stride. destruct (in_slots _ _ _ _ a) eqn:Hia; [|done].
    destruct (in_slots _ _ _ _ b) eqn:Hib; [|done]. intros [= <-] [= <-]. simpl.
    apply (slots_apart ipa pa stride vs n); try done; [subst stride; lia|by apply mod0_add].
  - intros a Ha Hge. rewrite (build_translate _ _ _ _ _ _ _ _ _ _ Hq) by done. fold vs stride.
    unfold in_slots. rewrite (proj2 (Z.ltb_ge ((a - ipa) mod stride) vs)) by done. by rewrite andb_false_r.
Qed.

(** C40. The page loop of [s2_map_identity_range] ends for every argument and
    every state: address wrap-around never makes it run for ever. *)
Theorem s2_map_identity_range_terminates ipa pa size r w x s :
  is_u64 ipa → s2_map_identity_range ipa pa size r w x s ≠ OutOfFuel.
Proof.
  intros Hipa. rewrite s2_map_identity_range_eq by done. apply install_list_fuelled.
Qed.

(** C27. [s2_program_regs_and_enable] points VTTBR_EL2 at [s2_l1] with VMID 1,
    selects a 39-bit IPA space walked from level 1, only adds the eight trap and
    enable bits to HCR_EL2, changes no other register, and sets HCR_EL2.VM after
    the tables, the control register and the TLB invalidation are in place. *)
Theorem s2_program_regs_correct `{!Counter} m :
  0 ≤ s2_l1_sym < 2 ^ 48 →
  ∃ m', s2_program_regs_and_enable m = Ok () m' ∧
    trace m' = rev (s2_enable_trace (sys m' HCR_EL2)) ++ trace m ∧
    sys m' VTTBR_EL2 mod 2 ^ 48 = s2_l1_sym ∧ sys m' VTTBR_EL2 / 2 ^ 48 = VMID ∧
    64 - sys m' VTCR_EL2 mod 64 = IPA_BITS ∧ (sys m' VTCR_EL2 / 64) mod 4 = 1 ∧
    (∀ i, 0 ≤ i → Z.testbit (sys m' HCR_EL2) i =
      Z.testbit (sys m HCR_EL2) i || bool_decide (i ∈ [0; 3; 4; 5; 13; 14; 19; 31])) ∧
    (∀ r, r ∉ [MAIR_EL2; VTCR_EL2; VTTBR_EL2; HCR_EL2; CNTHCTL_EL2] → sys m' r = sys m r).
Proof.
  intros Hb. eexists. split; [apply s2_program_regs_eq|]. destruct (s2_vttbr_fields Hb).
  cbn [trace sys]. simpl_regs. split_and!; try done.
  - intros i Hi. rewrite Z.lor_spec. f_equal. by apply hcr_traps_bits.
  - intros r Hr. rewrite !not_elem_of_cons in Hr. destruct Hr as (? & ? & ? & ? & ? & _).
    by simpl_regs.
Qed.

(** After [el2_main]'s two stage-2 calls, the tables VTTBR_EL2 points at map
    guest physical [0x40000000, 0x80000000) to itself, readable, writable and
    executable, and nothing else. *)
Theorem s2_boot_identity `{!S2ImageOk, !Counter} s m :
  shape s →
  total (s2_build_tables_identity 0x40000000 0x40000000 0x40000000 1 S2_VM_GUARD_BYTES 1 1 1 ;;
         on_snd s2_program_regs_and_enable) (s, m) (λ _ t,
    ∀ a, 0 ≤ a < 2 ^ 39 →
      s2_translate (mem_read (fst t)) (sys (snd t) VTTBR_EL2 mod 2 ^ 48) a =
        if bool_decide (0x40000000 ≤ a < 0x80000000)
        then Some (S2Access a true true true) else None).
Proof.
  intros Hs. eapply total_bind; [exact (boot_total 1 1 1 s m Hs)|].
  intros _ [s' m'] [Hr _]. unfold total, wp, on_snd, zoom. cbn [fst snd] in *.
  rewrite s2_program_regs_eq. intros a Ha. cbn [fst snd sys].
  rewrite !upd_ne, upd_eq by done. rewrite (proj1 (s2_vttbr_fields s2_l1_range)).
  by rewrite (boot_translate 1 1 1).
Qed.

(** C33. The boot tables give the guests write access to the tables themselves:
    when the linker places [s2_l1] in the guest window (it does: the image starts
    at 0x40000000), a guest can rewrite its own stage-2 root. *)
Theorem s2_boot_tables_guest_writable `{!S2ImageOk} s m :
  shape s → 0x40000000 ≤ s2_l1_sym < 0x80000000 →
  total (s2_build_tables_identity 0x40000000 0x40000000 0x40000000 1 S2_VM_GUARD_BYTES 1 1 1)
    (s, m) (λ _ t,
      ∀ k, 0 ≤ k < 4096 → s2_l1_sym + k < 0x80000000 →
        s2_translate (mem_read (fst t)) s2_l1_sym (s2_l1_sym + k) =
          Some (S2Access (s2_l1_sym + k) true true true)).
Proof.
  intros Hs Hl. eapply total_mono; [exact (boot_total 1 1 1 s m Hs)|].
  intros _ t [Hr _] k Hk Hmax. rewrite (boot_translate 1 1 1) by (done || lia).
  by rewrite bool_decide_eq_true_2 by lia.
Qed.
End properties.

(** ** Witnesses: two VMs of 2 MiB with 8 KiB guards, and the boot request *)

#[local] Existing Instance demo_s2_image.
#[local] Existing Instance demo_s2_image_ok.
#[local] Existing Instance demo_counter.

Definition demo_tables : pt := pt_bss 16 1024.

Lemma demo_shape : shape demo_tables.
Proof. by apply pt_bss_shape. Qed.

Lemma demo_request : s2_request 0x40000000 0x80000000 0x200000 2 0x2000.
Proof. split; vm_compute; split || idtac; done || (split; discriminate). Qed.

Lemma s2_build_exact_witness :
  total (s2_build_tables_identity 0x40000000 0x80000000 0x200000 2 0x2000 1 1 0)
    (demo_tables, demo_machine) (λ _ t, ∀ a, 0 ≤ a < 2 ^ 39 →
      s2_translate (mem_read (fst t)) s2_l1_sym a =
        if in_slots 0x40000000 0x202000 0x200000 2 a
        then Some (S2Access (0x80000000 + (a - 0x40000000)) true true false) else None).
Proof.
  exact (s2_build_exact 0x40000000 0x80000000 0x200000 2 0x2000 1 1 0 demo_tables demo_machine
           demo_shape demo_request).
Defined.

Lemma s2_slots_isolated_witness :
  total (s2_build_tables_identity 0x40000000 0x80000000 0x200000 2 0x2000 1 1 0)
    (demo_tables, demo_machine) (λ _ t,
      s2_translate (mem_read (fst t)) s2_l1_sym 0x40201000 = None).
Proof.
  pose proof (s2_slots_isolated 0x40000000 0x80000000 0x200000 2 0x2000 1 1 0
    demo_tables demo_machine demo_shape demo_request) as H. cbv zeta in H.
  eapply total_mono; [exact H|].
  intros _ t [_ Hg]. apply (Hg 0x40201000); [lia|]. vm_compute. discriminate.
Defined.

Lemma s2_boot_identity_witness :
  total (s2_build_tables_identity 0x40000000 0x40000000 0x40000000 1 S2_VM_GUARD_BYTES 1 1 1 ;;
         on_snd s2_program_regs_and_enable) (demo_tables, demo_machine) (λ _ t,
    s2_translate (mem_read (fst t)) (sys (snd t) VTTBR_EL2 mod 2 ^ 48) 0x40080010 =
      Some (S2Access 0x40080010 true true true)).
Proof.
  eapply total_mono; [exact (s2_boot_identity demo_tables demo_machine demo_shape)|].
  intros [] t Ht. apply (Ht 0x40080010). lia.
Defined.

Lemma s2_build_panics_iff_witness :
  s2_build_tables_identity 0x40000000 0 0x1000 0 0 1 1 1 (demo_tables, demo_machine) =
    Ok () (demo_tables, demo_machine).
Proof.
  apply (s2_build_panics_iff 0x40000000 0 0x1000 0 0 1 1 1 demo_tables demo_machine demo_shape).
  by left.
Defined.

Lemma demo_repr : repr (Pt (replicate PT_ENTRIES 0) (replicate 16 zeroed_l2) (replicate 1024 zeroed_l3)
                   (replicate PT_ENTRIES None) 0 0) ∅.
Proof.
  destruct (proj1 (total_Ok _ _ _) (reset_refines demo_tables demo_shape)) as ([] & s & Hs & Hr).
  rewrite (reset_eq demo_tables demo_shape) in Hs. injection Hs as <-. exact Hr.
Qed.

Lemma s2_map_page_refines_witness :
  total (s2_map_page 0x40001000 0x80001000 1 0 0) demo_tables
    (λ _ s', repr s' {[ 0x40001 := s2_page_desc 0x80001000 1 0 0 ]}).
Proof.
  apply (s2_map_page_refines 0x40001000 0x80001000 1 0 0 demo_tables ∅ demo_repr).
  vm_compute. split; discriminate.
Defined.

Lemma s2_map_identity_range_terminates_witness :
  s2_map_identity_range (2 ^ 64 - 4096) 0 8192 1 1 1 demo_tables ≠ OutOfFuel.
Proof. apply (s2_map_identity_range_terminates (2 ^ 64 - 4096) 0 8192 1 1 1 demo_tables). lia. Defined.

Lemma s2_program_regs_correct_witness :
  ∃ m', s2_program_regs_and_enable demo_machine = Ok () m' ∧
    sys m' VTTBR_EL2 mod 2 ^ 48 = 0x40010000 ∧ Z.testbit (sys m' HCR_EL2) 0 = true.
Proof.
  destruct (s2_program_regs_correct demo_machine) as (m' & H1 & _ & H2 & _ & _ & _ & H3 & _);
    [simpl; lia|].
  exists m'. split_and!; [exact H1|exact H2|]. rewrite H3; done.
Defined.

Lemma s2_boot_tables_guest_writable_witness :
  total (s2_build_tables_identity 0x40000000 0x40000000 0x40000000 1 S2_VM_GUARD_BYTES 1 1 1)
    (demo_tables, demo_machine) (λ _ t,
      s2_translate (mem_read (fst t)) s2_l1_sym 0x40010008 =
        Some (S2Access 0x40010008 true true true)).
Proof.
  eapply total_mono; [exact (s2_boot_tables_guest_writable demo_tables demo_machine demo_shape
    ltac:(simpl; lia))|].
  intros [] t Ht. apply (Ht 8); simpl; lia.
Defined.
