(* ===== verification/El2Mmu.v ===== *)
(** * EL2 stage-1 translation: [core/el2_mmu.c]

    The hypervisor's own page tables, transcribed over the layout of [PageTable],
    and the enabling of the EL2 MMU. The theorems are in [El2MmuTheory].        *)

From Stdlib Require Import ZArith Lia.
From stdpp Require Import base gmap list strings.
From S2P Require Import Prelude Machine PageTable S2Mmu.

#[local] Open Scope string_scope.
#[local] Open Scope Z_scope.

(** ** Constants of [el2_mmu.c] *)

Definition EL2_PT_ENTRIES : nat := PT_ENTRIES.
Definition PAGE_SIZE : Z := 0x1000.
Definition PAGE_MASK : Z := not64 (PAGE_SIZE - 1).
Definition L1_SHIFT : Z := 30.
Definition L2_SHIFT : Z := 21.
Definition L3_SHIFT : Z := 12.
Definition LVL_INDEX_MASK : Z := 0x1ff.
Definition PA_48_MASK : Z := Z.shiftl 1 48 - 1.

Definition EL2_DESC_TABLE : Z := 0x3.
Definition EL2_PTE_PAGE : Z := 0x3.
Definition EL2_PTE_ATTR (x : Z) : Z := Z.shiftl (Z.land x 0x7) 2.
Definition EL2_PTE_SH_INNER : Z := Z.shiftl 0x3 8.
Definition EL2_PTE_AF : Z := Z.shiftl 1 10.
Definition EL2_PTE_RDONLY : Z := Z.shiftl 1 7.
Definition EL2_PTE_PXN : Z := Z.shiftl 1 53.
Definition EL2_PTE_UXN : Z := Z.shiftl 1 54.

(** [sizeof(l2_pool) / sizeof(l2_pool[0])] and the same for [l3_pool]. *)
Definition L2_POOL_LEN : Z := 16.
Definition L3_POOL_LEN : Z := 64.

(** Where the linker placed [el2_l1], [l2_pool] and [l3_pool]. *)
Class El2Image := {
  el2_l1_sym : Z;
  el2_l2_pool_sym : Z;
  el2_l3_pool_sym : Z;
}.

Class El2ImageOk `{!El2Image} : Prop := {
  el2_l1_aligned : el2_l1_sym mod 4096 = 0;
  el2_l2_aligned : el2_l2_pool_sym mod 4096 = 0;
  el2_l3_aligned : el2_l3_pool_sym mod 4096 = 0;
  el2_l1_low : 0 ≤ el2_l1_sym ∧ el2_l1_sym + 4096 ≤ 2 ^ 48;
  el2_l2_low : 0 ≤ el2_l2_pool_sym ∧ el2_l2_pool_sym + 16 * 8192 ≤ 2 ^ 48;
  el2_l3_low : 0 ≤ el2_l3_pool_sym ∧ el2_l3_pool_sym + 64 * 4096 ≤ 2 ^ 48;
  el2_l1_l2_apart : el2_l1_sym + 4096 ≤ el2_l2_pool_sym ∨ el2_l2_pool_sym + 16 * 8192 ≤ el2_l1_sym;
  el2_l1_l3_apart : el2_l1_sym + 4096 ≤ el2_l3_pool_sym ∨ el2_l3_pool_sym + 64 * 4096 ≤ el2_l1_sym;
  el2_l2_l3_apart : el2_l2_pool_sym + 16 * 8192 ≤ el2_l3_pool_sym ∨
                    el2_l3_pool_sym + 64 * 4096 ≤ el2_l2_pool_sym;
}.

(** ** Table construction *)

Section el2_mmu.
Context `{!El2Image}.

Definition el2_pt_hang {A} : M pt A := hang.

Definition zero_qword_array (buf : list Z) (count : nat) : list Z :=
  for_up count (λ i b, <[i := 0]> b) buf.

Definition zero_l2_children (tbl : list (option nat)) : list (option nat) :=
  for_up EL2_PT_ENTRIES (λ i b, <[i := None]> b) tbl.

Definition el2_mmu_init : M pt () :=
  modify (set_l1 (λ b, zero_qword_array b EL2_PT_ENTRIES)) ;;
  modify (set_l1_children (for_up EL2_PT_ENTRIES (λ i b, <[i := None]> b))) ;;
  modify (set_l2_used (λ _, 0)) ;;
  modify (set_l3_used (λ _, 0)).

Definition alloc_l2 : M pt nat :=
  used ← gets l2_used;
  if L2_POOL_LEN <=? used then el2_pt_hang else
  let k := Z.to_nat used in
  modify (set_l2_used (λ u, u32 (u + 1))) ;;
  p ← gets l2_pool;
  t ← arr_get p k;
  p' ← arr_set p k (L2Table (zero_qword_array (entries t) EL2_PT_ENTRIES)
                            (zero_l2_children (children t)));
  modify (set_l2_pool (λ _, p')) ;;
  mret k.

Definition alloc_l3 : M pt nat :=
  used ← gets l3_used;
  if L3_POOL_LEN <=? used then el2_pt_hang else
  let k := Z.to_nat used in
  modify (set_l3_used (λ u, u32 (u + 1))) ;;
  p ← gets l3_pool;
  t ← arr_get p k;
  p' ← arr_set p k (zero_qword_array t EL2_PT_ENTRIES);
  modify (set_l3_pool (λ _, p')) ;;
  mret k.

(** [(u64)tbl] for a pointer into a pool. *)
Definition el2_l2_ptr (k : nat) : Z := el2_l2_pool_sym + Z.of_nat k * 8192.
Definition el2_l3_ptr (k : nat) : Z := el2_l3_pool_sym + Z.of_nat k * 4096.

Definition el2_table_desc (tbl : Z) : Z := Z.lor (Z.land tbl PAGE_MASK) EL2_DESC_TABLE.

Definition ensure_l2 (l1_idx : nat) : M pt nat :=
  cs ← gets l1_children;
  tbl ← arr_get cs l1_idx;
  match tbl with
  | Some tbl => mret tbl
  | None =>
      tbl ← alloc_l2;
      store_l1_children l1_idx (Some tbl) ;;
      store_l1 l1_idx (el2_table_desc (el2_l2_ptr tbl)) ;;
      mret tbl
  end.

Definition ensure_l3 (l2 l2_idx : nat) : M pt nat :=
  p ← gets l2_pool;
  t ← arr_get p l2;
  tbl ← arr_get (children t) l2_idx;
  match tbl with
  | Some tbl => mret tbl
  | None =>
      tbl ← alloc_l3;
      store_l2_child l2 l2_idx (Some tbl) ;;
      store_l2_entry l2 l2_idx (el2_table_desc (el2_l3_ptr tbl)) ;;
      mret tbl
  end.

Definition el2_page_desc (pa attr_idx : Z) (ro exec : bool) : Z :=
  let desc :=
    Z.lor (Z.lor (Z.lor (Z.lor
      (Z.land pa (Z.land PA_48_MASK PAGE_MASK))
      EL2_PTE_PAGE) (EL2_PTE_ATTR attr_idx)) EL2_PTE_SH_INNER) EL2_PTE_AF in
  let desc := if ro then Z.lor desc EL2_PTE_RDONLY else desc in
  if exec then desc else Z.lor desc (Z.lor EL2_PTE_PXN EL2_PTE_UXN).

Definition map_page (va pa attr_idx : Z) (ro exec : bool) : M pt () :=
  let l1_idx := Z.to_nat (Z.land (Z.shiftr va L1_SHIFT) LVL_INDEX_MASK) in
  let l2_idx := Z.to_nat (Z.land (Z.shiftr va L2_SHIFT) LVL_INDEX_MASK) in
  let l3_idx := Z.to_nat (Z.land (Z.shiftr va L3_SHIFT) LVL_INDEX_MASK) in
  l2 ← ensure_l2 l1_idx;
  l3 ← ensure_l3 l2 l2_idx;
  store_l3_entry l3 l3_idx (el2_page_desc pa attr_idx ro exec).

(** [for (cur = va; cur < limit; cur += PAGE_SIZE)]. *)
Fixpoint el2_map_loop (va limit pa attr_idx : Z) (ro exec : bool) (fuel : nat) (cur : Z) : M pt () :=
  if cur <? limit then
    match fuel with
    | O => out_of_fuel
    | S fuel =>
        let cur_pa := u64 (pa + u64 (cur - va)) in
        map_page cur cur_pa attr_idx ro exec ;;
        el2_map_loop va limit pa attr_idx ro exec fuel (u64 (cur + PAGE_SIZE))
    end
  else mret ().

Definition el2_map_range (va_start pa_start size attr_idx : Z) (ro exec : bool) : M pt () :=
  if size =? 0 then mret () else
  let offset := Z.land va_start (PAGE_SIZE - 1) in
  let va := u64 (va_start - offset) in
  let pa := u64 (pa_start - offset) in
  let end_ := u64 (va_start + size) in
  let limit := Z.land (u64 (u64 (end_ + PAGE_SIZE) - 1)) PAGE_MASK in
  let fuel := Z.to_nat ((limit - va) / PAGE_SIZE) in
  el2_map_loop va limit pa attr_idx ro exec fuel va.
End el2_mmu.

(** ** Enabling the MMU *)

Section el2_regs.
Context `{!El2Image, !Counter}.

Definition el2_tcr : Z :=
  let TG0_4K := Z.shiftl 0 14 in
  let SH0_INNER := Z.shiftl 3 12 in
  let ORGN0_WB := Z.shiftl 1 10 in
  let IRGN0_WB := Z.shiftl 1 8 in
  let T0SZ := 25 in
  let IPS_48 := Z.shiftl 5 16 in
  Z.lor (Z.lor (Z.lor (Z.lor (Z.lor T0SZ TG0_4K) SH0_INNER) ORGN0_WB) IRGN0_WB) IPS_48.

Definition el2_mmu_enable : M machine () :=
  dsb "ishst" ;;
  let ttbr0 := Z.land el2_l1_sym (Z.land PA_48_MASK PAGE_MASK) in
  msr TTBR0_EL2 ttbr0 ;;
  let tcr := el2_tcr in
  msr TCR_EL2 tcr ;;
  msr MAIR_EL2 MAIR_EL2_VALUE ;;
  dsb "ish" ;; isb ;;
  sctlr ← mrs SCTLR_EL2;
  let sctlr := Z.lor sctlr (Z.lor (Z.lor (Z.shiftl 1 0) (Z.shiftl 1 2)) (Z.shiftl 1 12)) in
  msr SCTLR_EL2 sctlr ;;
  isb.
End el2_regs.
