(* ===== verification/El2MmuTheory.v ===== *)
(** * Theorems about the hypervisor's stage-1 translation

    [el2_map_range] of [core/el2_mmu.c] maps exactly the pages of the range it is
    given, keeps every other mapping, and hangs exactly when its pools are
    exhausted; [el2_mmu_enable] turns the MMU on last.                          *)

From Stdlib Require Import ZArith Lia.
From stdpp Require Import base gmap list strings.
From S2P Require Import Prelude Machine PageTable PageTableTheory S2Mmu El2Mmu.

#[local] Open Scope Z_scope.

(** ** The builder as an instance of the shared theory *)

#[export] Instance el2_builder `{!El2Image} : Builder := {|
  max_l2 := L2_POOL_LEN;
  max_l3 := L3_POOL_LEN;
  l1_addr := el2_l1_sym;
  l2_pool_addr := el2_l2_pool_sym;
  l3_pool_addr := el2_l3_pool_sym;
  table_desc := el2_table_desc;
  counter_wrap := u32;
|}.

#[export] Instance el2_builder_ok `{!El2Image} (Hok : El2ImageOk) : BuilderOk.
Proof.
  destruct Hok.
  split; simpl; unfold L2_POOL_LEN, L3_POOL_LEN, sizeof_l2_table, sizeof_l3_table;
    try assumption; try lia.
  - intros a Ha Hr. unfold el2_table_desc. rewrite page_mask_eq, Ha, Z.sub_0_r by lia.
    by apply (lor_add a 3 12).
  - intros u Hu. apply Z.mod_small. lia.
  - intros u Hu. apply Z.mod_small. lia.
Qed.

(** ** Page descriptors *)

(** What a stage-1 translation yields. *)
Record el2_access := El2Access {
  ea_pa : Z;
  ea_attr : Z;
  ea_write : bool;
  ea_exec : bool;
}.

(** EL2's own regime: AttrIndx in bits 4:2, AP[2] (bit 7) is read-only, bit 54 is
    execute-never, the access flag must be set. *)
Definition el2_translate (mem : Z → option Z) (root va : Z) : option el2_access :=
  match walk mem root va with
  | Page d =>
      if Z.testbit d 10
      then Some (El2Access (desc_addr d + va mod 4096) (d / 4 mod 8) (negb (Z.testbit d 7))
                           (negb (Z.testbit d 54)))
      else None
  | _ => None
  end.

Section descriptors.
Definition el2_low (attr : Z) (ro : bool) : Z := 0x703 + attr mod 8 * 4 + (if ro then 128 else 0).

Lemma el2_low_range attr ro : 0 ≤ el2_low attr ro < 4096.
Proof. unfold el2_low. pose proof (Z.mod_pos_bound attr 8). destruct ro; lia. Qed.

(** The descriptor as a sum of its fields. *)
Lemma el2_page_desc_sum pa attr ro exec : is_u64 pa →
  el2_page_desc pa attr ro exec =
    (pa mod 2 ^ 48 - pa mod 4096) + el2_low attr ro + (if exec then 0 else 3) * 2 ^ 53.
Proof.
  intros Hpa. unfold el2_page_desc, el2_low. rewrite pa_mask_eq by done.
  destruct (frame_ok pa Hpa) as [Hb Hr]. set (b := pa mod 2 ^ 48 - pa mod 4096) in *.
  unfold EL2_PTE_ATTR. change 0x7 with (Z.ones 3). rewrite land_ones_mod by lia.
  change (2 ^ 3) with 8. rewrite Z.shiftl_mul_pow2 by lia. change (2 ^ 2) with 4.
  pose proof (Z.mod_pos_bound attr 8 ltac:(lia)) as Hc. set (c := attr mod 8) in *.
  match goal with |- context [if exec then ?l else _] =>
    assert (l = b + (0x703 + c * 4 + (if ro then 128 else 0))) as -> end.
  { assert (∀ x, 0 ≤ x < 4096 → Z.lor b x = b + x) as Hlor by (intros; by apply (lor_add b x 12)).
    clearbody c. octal c Hc; destruct ro; rewrite <-!(Z.lor_assoc b); by rewrite Hlor. }
  pose proof (el2_low_range attr ro) as Hlow. unfold el2_low in Hlow. fold c in Hlow.
  destruct exec; [lia|]. rewrite Z.lor_comm. change (Z.lor EL2_PTE_PXN EL2_PTE_UXN) with (3 * 2 ^ 53).
  rewrite (lor_add _ _ 53) by (done || lia). lia.
Qed.

Lemma el2_page_desc_decode pa attr ro exec : pa mod 4096 = 0 → 0 ≤ pa < 2 ^ 48 →
  let d := el2_page_desc pa attr ro exec in
  desc_type d = 3 ∧ desc_addr d = pa ∧ Z.testbit d 10 = true ∧ d / 4 mod 8 = attr mod 8 ∧
  Z.testbit d 7 = ro ∧ Z.testbit d 54 = negb exec.
Proof.
  intros Ha Hr d.
  pose proof (desc_fields 53 pa (el2_low attr ro) (if exec then 0 else 3) ltac:(lia) Ha Hr
    (el2_low_range attr ro)) as (Hlow & Haddr & Hxn). cbv zeta in *.
  assert (d = pa + el2_low attr ro + (if exec then 0 else 3) * 2 ^ 53) as Hd.
  { subst d. by rewrite el2_page_desc_sum, Ha, Z.sub_0_r, (Z.mod_small pa) by lia. }
  rewrite <-Hd in *. clear Hd. pose proof (testbit_field d 53 1 _ ltac:(lia) ltac:(lia) Hxn : Z.testbit d 54 = _) as ->.
  rewrite !(testbit_low d) by lia.
  assert (d / 4 mod 8 = (d mod 4096) / 4 mod 8) as ->.
  { pose proof (Z.div_mod d 4096 ltac:(lia)) as Hd. set (q := d / 4096) in *.
    set (r := d mod 4096) in *. replace d with (r + q * 1024 * 4) by lia.
    rewrite Z.div_add by lia. replace (q * 1024) with (q * 128 * 8) by lia.
    by rewrite Z.mod_add by lia. }
  assert (desc_type d = (d mod 4096) mod 4) as ->.
  { unfold desc_type. symmetry. exact (mod_pow2_low d 2 12 ltac:(lia)). }
  rewrite Hlow. unfold el2_low. pose proof (Z.mod_pos_bound attr 8 ltac:(lia)) as Hb.
  clear Hlow. set (c := attr mod 8) in *. clearbody c.
  octal c Hb; destruct ro, exec; by split_and!.
Qed.

Lemma el2_page_desc_type pa attr ro exec : is_u64 pa → desc_type (el2_page_desc pa attr ro exec) = 3.
Proof.
  intros Hpa. destruct (frame_ok pa Hpa) as [Hb Hr].
  apply (el2_page_desc_decode (pa mod 2 ^ 48 - pa mod 4096) attr ro exec) in Hb as [Ht _]; [|done].
  rewrite <-Ht. unfold desc_type. f_equal. unfold el2_page_desc. rewrite !pa_mask_eq by lia.
  destruct (frame_ok pa Hpa) as [Hb' _].
  by rewrite Hb', Z.sub_0_r, (Z.mod_small (_ - _) (2 ^ 48)) by done.
Qed.
End descriptors.

(** ** The C functions are the reference builder *)

Section bridge.
Context `{!El2Image}.

Lemma map_page_install va pa attr ro exec :
  map_page va pa attr ro exec = install va (el2_page_desc pa attr ro exec).
Proof. reflexivity. Qed.

Lemma el2_mmu_init_eq : el2_mmu_init = reset.
Proof. reflexivity. Qed.

Lemma el2_map_loop_eq va limit pa attr ro exec fuel cur :
  el2_map_loop va limit pa attr ro exec fuel cur =
    page_loop (λ a p, map_page a p attr ro exec) va pa limit fuel cur.
Proof.
  revert cur. induction fuel as [|fuel IH]; intros cur; [done|].
  cbn [el2_map_loop page_loop]. cbv zeta. by rewrite IH.
Qed.

Definition el2_writes (va pa size attr : Z) (ro exec : bool) : list (Z * Z) :=
  span_writes (λ p, el2_page_desc p attr ro exec) va pa size.

Lemma el2_map_range_eq va pa size attr ro exec s : is_u64 va →
  el2_map_range va pa size attr ro exec s = install_list (el2_writes va pa size attr ro exec) s.
Proof.
  intros Hva. unfold el2_map_range. destruct (Z.eqb_spec size 0) as [->|Hsz]; [done|].
  change (PAGE_SIZE - 1) with (Z.ones 12). rewrite land_ones_mod by lia. change (2 ^ 12) with 4096.
  cbv zeta. pose proof (floor_bound va 4096 ltac:(lia) ltac:(lia)).
  rewrite (u64_small (va - va mod 4096)) by lia.
  assert (Z.land (u64 (u64 (u64 (va + size) + PAGE_SIZE) - 1)) PAGE_MASK = page_up (u64 (va + size))) as ->.
  { rewrite u64_sub_mod_l. unfold PAGE_MASK, PAGE_SIZE. rewrite page_mask_eq by apply u64_range.
    unfold page_up. by replace (u64 (va + size) + 0x1000 - 1) with (u64 (va + size) + 4095) by lia. }
  rewrite el2_map_loop_eq. by apply (span_loop _ (λ p, el2_page_desc p attr ro exec)).
Qed.

(** The descriptors of an abstract stage-1 map are pages. *)
Definition all_pages (m : pages) : Prop := ∀ p d, m !! p = Some d → desc_type d = 3.

Lemma all_pages_empty : all_pages ∅.
Proof. intros p d. by rewrite lookup_empty. Qed.

Lemma all_pages_apply ps (m : pages) :
  all_pages m → Forall (λ '(_, d), desc_type d = 3) ps → all_pages (apply_pages ps m).
Proof.
  revert m. induction ps as [|[p d] ps IH]; intros m Hm Hps; [done|].
  inversion_clear Hps as [|?? Hd Hl]. rewrite apply_pages_cons. apply IH; [|done].
  intros p' d'. rewrite lookup_insert. case_decide; [by intros [= <-]|apply Hm].
Qed.

Lemma range_descs va n f (P : Z → Prop) :
  (∀ a, P (f a)) → Forall (λ '(_, d), P d) (page_writes (range va n f)).
Proof. intros HP. revert va. induction n as [|n IH]; intros va; constructor; [apply HP|apply IH]. Qed.

Lemma el2_writes_type va pa size attr ro exec :
  Forall (λ '(_, d), desc_type d = 3) (page_writes (el2_writes va pa size attr ro exec)).
Proof.
  unfold el2_writes, span_writes. destruct (size =? 0); [constructor|].
  apply (range_descs _ _ _ (λ d, desc_type d = 3)). intros a. apply el2_page_desc_type, u64_range.
Qed.
End bridge.

(** ** Translation through represented tables *)

Section translate.
Context `{!El2Image, !El2ImageOk}.

(** What the tables of an abstract map translate [a] to. *)
Definition el2_lookup (m : pages) (a : Z) : option el2_access :=
  match m !! (a / 4096) with
  | Some d =>
      if Z.testbit d 10
      then Some (El2Access (desc_addr d + a mod 4096) (d / 4 mod 8) (negb (Z.testbit d 7))
                           (negb (Z.testbit d 54)))
      else None
  | None => None
  end.

Lemma el2_translate_repr s m a : repr s m → all_pages m → 0 ≤ a < 2 ^ 39 →
  el2_translate (mem_read s) el2_l1_sym a = el2_lookup m a.
Proof.
  intros Hr Hp Ha. pose proof (walk_repr s m a Hr Hp) as Hw. rewrite page_of_small in Hw by done.
  unfold el2_translate, el2_lookup. change el2_l1_sym with l1_addr.
  destruct (m !! (a / 4096)); [by rewrite Hw|]. by destruct Hw as [l ->].
Qed.

(** A request the C function can serve without leaving the 39-bit window. *)
Record el2_request (va pa size : Z) : Prop := {
  er_size : 0 < size;
  er_va : 0 ≤ va ∧ va + size ≤ 2 ^ 39;
  er_pa : pa mod 4096 = va mod 4096 ∧ 0 ≤ pa ∧ pa + size ≤ 2 ^ 47;
}.

Lemma el2_lookup_writes va pa size attr ro exec m a :
  el2_request va pa size → 0 ≤ a →
  el2_lookup (apply_pages (page_writes (el2_writes va pa size attr ro exec)) m) a =
    if bool_decide (va / 4096 ≤ a / 4096 ∧ a / 4096 * 4096 < va + size)
    then Some (El2Access (pa + (a - va)) (attr mod 8) (negb ro) exec)
    else el2_lookup m a.
Proof.
  intros [Hsz [Hva Hmax] (Hal & Hpa & Hpmax)] Ha. unfold el2_lookup at 1, el2_writes.
  pose proof (Z.mod_pos_bound pa 4096 ltac:(lia)). pose proof (Z.mod_le pa 4096 ltac:(lia) ltac:(lia)).
  rewrite span_lookup by lia. case_bool_decide as Hin; [|done].
  pose proof (Z.div_mod va 4096 ltac:(lia)) as Hdv. pose proof (Z.div_mod pa 4096 ltac:(lia)) as Hdp.
  pose proof (Z.div_mod a 4096 ltac:(lia)) as Hda. pose proof (Z.mod_pos_bound a 4096 ltac:(lia)).
  set (d := el2_page_desc _ _ _ _).
  assert ((pa + (a / 4096 * 4096 - va)) mod 4096 = 0) as Hm.
  { replace (pa + (a / 4096 * 4096 - va)) with ((pa / 4096 + a / 4096 - va / 4096) * 4096) by lia.
    by apply Z.mod_mul. }
  destruct (el2_page_desc_decode _ attr ro exec Hm ltac:(lia)) as (_ & Had & Haf & Hat & Hro & Hx).
  fold d in Had, Haf, Hat, Hro, Hx. rewrite Haf, Had, Hat, Hro, Hx, negb_involutive.
  do 2 f_equal. lia.
Qed.

Lemma el2_map_range_refines s m va pa size attr ro exec :
  repr s m → is_u64 va →
  let m' := apply_pages (page_writes (el2_writes va pa size attr ro exec)) m in
  if decide (fits m') then total (el2_map_range va pa size attr ro exec) s (λ _ s', repr s' m')
  else fits m → hangs (el2_map_range va pa size attr ro exec) s.
Proof.
  intros Hr Hva. unfold hangs, total, wp. rewrite el2_map_range_eq by done.
  exact (install_list_refines s m (el2_writes va pa size attr ro exec) Hr).
Qed.
End translate.

(** ** Enabling the MMU *)

Section enable.
Context `{!El2Image, !Counter}.

(** The bits of SCTLR_EL2 that enable stage-1: M, C and I. *)
Definition SCTLR_MCI : Z := 0x1005.

(** What the code does, in program order: the last register write, and the only
    one that makes the tables live, is SCTLR_EL2. *)
Definition el2_enable_trace (sctlr : Z) : list event :=
  [ Dsb "ishst"; Msr TTBR0_EL2 (Z.land el2_l1_sym (Z.land PA_48_MASK PAGE_MASK));
    Msr TCR_EL2 el2_tcr; Msr MAIR_EL2 MAIR_EL2_VALUE; Dsb "ish"; Isb;
    Msr SCTLR_EL2 sctlr; Isb ].

Lemma el2_mmu_enable_eq m :
  el2_mmu_enable m =
    Ok () (Machine
      (upd SCTLR_EL2 (Z.lor (sys m SCTLR_EL2) SCTLR_MCI)
        (upd MAIR_EL2 MAIR_EL2_VALUE (upd TCR_EL2 el2_tcr
          (upd TTBR0_EL2 (Z.land el2_l1_sym (Z.land PA_48_MASK PAGE_MASK)) (sys m)))))
      (vregs m) (gprs m) (reads m)
      (rev (el2_enable_trace (Z.lor (sys m SCTLR_EL2) SCTLR_MCI)) ++ trace m)).
Proof. reflexivity. Qed.

Lemma el2_ttbr_fields : el2_l1_sym mod 4096 = 0 → 0 ≤ el2_l1_sym < 2 ^ 48 →
  Z.land el2_l1_sym (Z.land PA_48_MASK PAGE_MASK) = el2_l1_sym.
Proof.
  intros Ha Hr. unfold PA_48_MASK, PAGE_MASK, PAGE_SIZE.
  by rewrite pa_mask_eq, Ha, Z.sub_0_r, Z.mod_small by lia.
Qed.
End enable.

(** ** A concrete image for the witnesses *)

Definition demo_el2_image : El2Image :=
  {| el2_l1_sym := 0x40010000; el2_l2_pool_sym := 0x40020000; el2_l3_pool_sym := 0x40060000 |}.

Lemma demo_el2_image_ok : @El2ImageOk demo_el2_image.
Proof. split; unfold el2_l1_sym, el2_l2_pool_sym, el2_l3_pool_sym; simpl; first [reflexivity | lia]. Qed.

Definition el2_bss : pt := pt_bss 16 64.

Definition el2_empty : pt :=
  Pt (replicate PT_ENTRIES 0) (replicate 16 zeroed_l2) (replicate 64 zeroed_l3)
     (replicate PT_ENTRIES None) 0 0.

(** ** Properties *)

Section properties.
Context `{!El2Image}.

(** C10. [el2_map_range] maps every page the range touches, with the attribute
    index and permissions asked for and the offset of [pa_start], and leaves the
    translation of every other address as it was. *)
Theorem el2_map_range_exact `{!El2ImageOk} s (m : pages) va pa size attr ro exec :
  repr s m → all_pages m → el2_request va pa size →
  fits (apply_pages (page_writes (el2_writes va pa size attr ro exec)) m) →
  total (el2_map_range va pa size attr ro exec) s (λ _ s', ∀ a, 0 ≤ a < 2 ^ 39 →
    el2_translate (mem_read s') el2_l1_sym a =
      if bool_decide (va / 4096 ≤ a / 4096 ∧ a / 4096 * 4096 < va + size)
      then Some (El2Access (pa + (a - va)) (attr mod 8) (negb ro) exec)
      else el2_translate (mem_read s) el2_l1_sym a).
Proof.
  intros Hr Hp Hq Hf. pose proof Hq as [_ [Hva Hmax] _].
  pose proof (el2_map_range_refines s m va pa size attr ro exec Hr ltac:(destruct Hq; lia)) as Ht.
  cbv zeta in Ht. rewrite decide_True in Ht by done. eapply total_mono; [exact Ht|].
  intros [] s' Hr' a Ha. rewrite (el2_translate_repr s m) by done.
  erewrite (el2_translate_repr s'); [|exact Hr'|by apply all_pages_apply, el2_writes_type|done].
  apply el2_lookup_writes; [done|lia].
Qed.

(** C17. For every 64-bit range, wrapped or not, [el2_map_range] either extends the
    abstract map of pages by exactly its page writes, keeping the representation
    invariant, or hangs, which it does exactly when the pages need more than 16 L2
    or 64 L3 tables. *)
Theorem el2_map_range_hangs_iff `{!El2ImageOk} s (m : pages) va pa size attr ro exec :
  repr s m → fits m → is_u64 va →
  let m' := apply_pages (page_writes (el2_writes va pa size attr ro exec)) m in
  (hangs (el2_map_range va pa size attr ro exec) s ↔ ¬ fits m') ∧
  (fits m' → total (el2_map_range va pa size attr ro exec) s (λ _ s', repr s' m')).
Proof.
  intros Hr Hfm Hva m'.
  pose proof (el2_map_range_refines s m va pa size attr ro exec Hr Hva) as Ht.
  cbv zeta in Ht. fold m' in Ht. destruct (decide (fits m')) as [Hf|Hf].
  - split; [|done]. split; [|done]. intros [s' Hh]. unfold total, wp in Ht. by rewrite Hh in Ht.
  - split; [|done]. split; [done|]. intros _. by apply Ht.
Qed.

(** The page loop of [el2_map_range] ends for every argument and state. *)
Theorem el2_map_range_terminates va pa size attr ro exec s :
  is_u64 va → el2_map_range va pa size attr ro exec s ≠ OutOfFuel.
Proof. intros Hva. rewrite el2_map_range_eq by done. apply install_list_fuelled. Qed.

(** C28. [el2_mmu_enable] points TTBR0_EL2 at [el2_l1], selects a 39-bit space
    with a 4 KiB granule, only adds M, C and I to SCTLR_EL2, writes SCTLR_EL2 after
    the root, the control register, the attributes and the barriers, and changes
    nothing else. *)
Theorem el2_mmu_enable_correct `{!Counter} m :
  el2_l1_sym mod 4096 = 0 → 0 ≤ el2_l1_sym < 2 ^ 48 →
  ∃ m', el2_mmu_enable m = Ok () m' ∧
    trace m' = rev (el2_enable_trace (sys m' SCTLR_EL2)) ++ trace m ∧
    sys m' TTBR0_EL2 = el2_l1_sym ∧
    64 - sys m' TCR_EL2 mod 64 = 39 ∧ (sys m' TCR_EL2 / 2 ^ 14) mod 4 = 0 ∧
    (∀ i, 0 ≤ i → Z.testbit (sys m' SCTLR_EL2) i =
      Z.testbit (sys m SCTLR_EL2) i || bool_decide (i ∈ [0; 2; 12])) ∧
    (∀ r, r ∉ [SCTLR_EL2; MAIR_EL2; TCR_EL2; TTBR0_EL2] → sys m' r = sys m r).
Proof.
  intros Ha Hr. eexists. split; [apply el2_mmu_enable_eq|]. cbn [trace sys].
  simpl_regs. split_and!; try done.
  - by apply el2_ttbr_fields.
  - intros i Hi. rewrite Z.lor_spec. f_equal. by apply (set_bits_spec SCTLR_MCI _ 13).
  - intros r Hne. rewrite !not_elem_of_cons in Hne. destruct Hne as (? & ? & ? & ? & _).
    by simpl_regs.
Qed.
End properties.

(** ** Witnesses *)

#[local] Existing Instance demo_el2_image.
#[local] Existing Instance demo_el2_image_ok.
#[local] Existing Instance demo_counter.

Lemma el2_bss_shape : shape el2_bss.
Proof. by apply pt_bss_shape. Qed.

Lemma el2_empty_repr : repr el2_empty ∅.
Proof.
  destruct (proj1 (total_Ok _ _ _) (reset_refines el2_bss el2_bss_shape)) as ([] & s & Hs & Hr).
  rewrite (reset_eq el2_bss el2_bss_shape) in Hs. injection Hs as <-. exact Hr.
Qed.

Lemma el2_map_range_exact_witness :
  total (el2_map_range 0x09000000 0x09000000 0x1000 1 false false) el2_empty (λ _ s',
    el2_translate (mem_read s') el2_l1_sym 0x09000018 = Some (El2Access 0x09000018 1 true false)).
Proof.
  eapply total_mono; [apply (el2_map_range_exact el2_empty ∅ 0x09000000 0x09000000 0x1000 1 false false
    el2_empty_repr all_pages_empty)|].
  - split; [lia|split; lia|split_and!; [done|lia..]].
  - vm_compute. split; discriminate.
  - intros [] s' Hs. apply (Hs 0x09000018). lia.
Defined.

Lemma el2_map_range_hangs_iff_witness :
  ¬ hangs (el2_map_range (2 ^ 64 - 4096) 0 8192 0 true true) el2_empty.
Proof.
  rewrite (proj1 (el2_map_range_hangs_iff el2_empty ∅ (2 ^ 64 - 4096) 0 8192 0 true true
    el2_empty_repr fits_empty ltac:(lia))).
  intros Hn. apply Hn. vm_compute. split; discriminate.
Defined.

Lemma el2_map_range_terminates_witness :
  el2_map_range (2 ^ 64 - 4096) 0 8192 0 true true el2_bss ≠ OutOfFuel.
Proof. apply (el2_map_range_terminates (2 ^ 64 - 4096) 0 8192 0 true true el2_bss). lia. Defined.

Lemma el2_mmu_enable_correct_witness :
  ∃ m', el2_mmu_enable demo_machine = Ok () m' ∧ sys m' TTBR0_EL2 = 0x40010000 ∧
    Z.testbit (sys m' SCTLR_EL2) 0 = true.
Proof.
  destruct (el2_mmu_enable_correct demo_machine) as (m' & H1 & _ & H2 & _ & _ & H3 & _);
    [reflexivity|simpl; lia|].
  exists m'. split_and!; [exact H1|exact H2|]. rewrite H3; done.
Defined.
