(* ===== verification/Uart.v ===== *)
(** * The console: [drivers/uart_pl011.c]

    The PL011 driver as the register accesses it makes, the interface [Console]
    through which the rest of the hypervisor prints, and the proof that the driver
    implements it: what is sent is the text asked for, one byte at a time, never
    into a full FIFO.                                                           *)

From Stdlib Require Import ZArith Lia Ascii String.
From stdpp Require Import base list strings gmap.
From S2P Require Import Prelude.

#[local] Open Scope string_scope.
#[local] Open Scope Z_scope.

(** ** Memory-mapped registers *)

Inductive mmio :=
  | Read32 (addr v : Z)
  | Write32 (addr v : Z).

(** [io_reads] counts device reads, [io_log] holds every access, newest first. *)
Record io := Io { io_reads : nat; io_log : list mmio }.

(** The device is outside the program: [dev_read n a] is what the [n]-th read
    finds at address [a]. [poll_fuel] bounds the polls the model of the wait loop
    makes; that it is enough is the hypothesis [FifoDrains]. *)
Class Device := {
  dev_read : nat → Z → Z;
  poll_fuel : nat;
}.

Section mmio.
Context `{!Device}.

Definition mmio_read32 (addr : Z) : M io Z := λ s,
  let v := u32 (dev_read (io_reads s) addr) in
  Ok v (Io (S (io_reads s)) (Read32 addr v :: io_log s)).

Definition mmio_write32 (addr v : Z) : M io () :=
  modify (λ s, Io (io_reads s) (Write32 addr (u32 v) :: io_log s)).
End mmio.

(** ** [platform.h], [uart_pl011.c] *)

Definition UART0_BASE : Z := 0x09000000.
Definition UART_SIZE : Z := 0x1000.
Definition UART_PA : Z := UART0_BASE.

Definition UART_DR : Z := UART0_BASE + 0x000.
Definition UART_FR : Z := UART0_BASE + 0x018.
Definition UART_IBRD : Z := UART0_BASE + 0x024.
Definition UART_FBRD : Z := UART0_BASE + 0x028.
Definition UART_LCRH : Z := UART0_BASE + 0x02C.
Definition UART_CR : Z := UART0_BASE + 0x030.
Definition UART_IMSC : Z := UART0_BASE + 0x038.
Definition UART_ICR : Z := UART0_BASE + 0x044.

Definition FR_TXFF : Z := Z.shiftl 1 5.
Definition CR_UARTEN : Z := Z.shiftl 1 0.
Definition CR_TXE : Z := Z.shiftl 1 8.
Definition LCRH_FEN : Z := Z.shiftl 1 4.
Definition LCRH_WLEN8 : Z := Z.shiftl 3 5.

Definition char_code (c : ascii) : Z := Z.of_N (N_of_ascii c).

(** A C string is the characters before its terminator: a buffer that has none,
    or whose characters were never written, is read out of bounds or
    uninitialised. *)
Fixpoint c_str (buf : list (option ascii)) : option string :=
  match buf with
  | Some c :: buf => if Ascii.eqb c "000" then Some "" else String c <$> c_str buf
  | _ => None
  end.

Section uart.
Context `{!Device}.

(** [while (mmio_read32(UART_FR) & FR_TXFF) { }] *)
Fixpoint uart_wait (fuel : nat) : M io () :=
  fr ← mmio_read32 UART_FR;
  if Z.land fr FR_TXFF =? 0 then mret () else
  match fuel with
  | O => out_of_fuel
  | S fuel => uart_wait fuel
  end.

Definition uart_putc (c : ascii) : M io () :=
  uart_wait poll_fuel ;;
  mmio_write32 UART_DR (char_code c).

Fixpoint uart_puts (s : string) : M io () :=
  match s with
  | "" => mret ()
  | String c s =>
      (if Ascii.eqb c "010" then uart_putc "013" else mret ()) ;;
      uart_putc c ;;
      uart_puts s
  end.

Definition uart_init : M io () :=
  mmio_write32 UART_CR 0 ;;
  mmio_write32 UART_ICR 0x7FF ;;
  mmio_write32 UART_IBRD 13 ;;
  mmio_write32 UART_FBRD 1 ;;
  mmio_write32 UART_LCRH (Z.lor LCRH_WLEN8 LCRH_FEN) ;;
  mmio_write32 UART_IMSC 0 ;;
  mmio_write32 UART_CR (Z.lor CR_UARTEN CR_TXE).

Definition console_init : M io () := uart_init.
Definition console_puts (s : string) : M io () := uart_puts s.

(** The 19-byte buffer [console_hex64] fills, an entry being [None] until it is
    written. *)
Definition hex_buf (x : Z) : list (option ascii) :=
  let H := list_ascii_of_string "0123456789abcdef" in
  let buf := replicate 19 None in
  let buf := <[0%nat := Some "0"%char]> buf in
  let buf := <[1%nat := Some "x"%char]> buf in
  let buf := for_up 16 (λ i buf,
    <[(2 + 15 - i)%nat := H !! Z.to_nat (Z.land (Z.shiftr x (Z.of_nat i * 4)) 0xF)]> buf) buf in
  <[18%nat := Some "000"%char]> buf.

Definition console_hex64 (x : Z) : M io () :=
  s ← of_option (c_str (hex_buf x));
  uart_puts s.
End uart.

(** ** The console interface

    The hypervisor's other parts print through these operations; their theorems
    are proved for any console that satisfies [ConsoleSpec]. *)

Class Console := {
  con : Type;
  con_init : M con ();
  con_puts : string → M con ();
  con_hex64 : Z → M con ();
}.

(** Terminals expect a carriage return before every line feed. *)
Fixpoint crlf (s : string) : string :=
  match s with
  | "" => ""
  | String c s => if Ascii.eqb c "010" then String "013" (String c (crlf s)) else String c (crlf s)
  end.

Definition hex_digit (d : Z) : ascii :=
  default "0"%char (list_ascii_of_string "0123456789abcdef" !! Z.to_nat d).

(** The [n] low hexadecimal digits of [x], most significant first. *)
Fixpoint hex_digits (n : nat) (x : Z) : list ascii :=
  match n with
  | O => []
  | S n => hex_digit ((x / 16 ^ Z.of_nat n) mod 16) :: hex_digits n x
  end.

Definition hex64 (x : Z) : string := "0x" +:+ string_of_list_ascii (hex_digits 16 x).

Class ConsoleSpec `{!Console} := {
  con_text : con → string;
  con_init_text c : total con_init c (λ _ c', con_text c' = con_text c);
  con_puts_text s c : total (con_puts s) c (λ _ c', con_text c' = con_text c +:+ crlf s);
  con_hex64_text x c : total (con_hex64 x) c (λ _ c', con_text c' = con_text c +:+ hex64 x);
}.
