(* ===== verification/UartTheory.v ===== *)
(** * Theorems about the console

    The PL011 driver sends exactly the text it is given, polls before every byte,
    and implements the [Console] interface.                                     *)

From Stdlib Require Import ZArith Lia Ascii String.
From stdpp Require Import base list strings gmap.
From S2P Require Import Prelude Uart.

#[local] Open Scope string_scope.
#[local] Open Scope Z_scope.

(** ** Strings *)

Section strings.
Lemma app_cons_string c s1 s2 : String c s1 +:+ s2 = String c (s1 +:+ s2).
Proof. reflexivity. Qed.

Lemma app_nil_l_string s : "" +:+ s = s.
Proof. reflexivity. Qed.

Lemma app_nil_r_string s : s +:+ "" = s.
Proof. induction s as [|c s IH]; [done|]. by rewrite app_cons_string, IH. Qed.

Lemma app_assoc_string s1 s2 s3 : (s1 +:+ s2) +:+ s3 = s1 +:+ (s2 +:+ s3).
Proof. induction s1 as [|c s1 IH]; [done|]. by rewrite !app_cons_string, IH. Qed.

Lemma crlf_app s1 s2 : crlf (s1 +:+ s2) = crlf s1 +:+ crlf s2.
Proof.
  induction s1 as [|c s1 IH]; [done|]. rewrite app_cons_string. cbn [crlf].
  case_match; by rewrite !app_cons_string, IH.
Qed.

(** Text without line feeds is sent as it is. *)
Lemma crlf_plain l : Forall (λ c, Ascii.eqb c "010" = false) l →
  crlf (string_of_list_ascii l) = string_of_list_ascii l.
Proof.
  induction 1 as [|c l Hc _ IH]; [done|]. cbn [crlf string_of_list_ascii]. by rewrite Hc, IH.
Qed.

Lemma c_str_some l : Forall (λ c, Ascii.eqb c "000" = false) l → ∀ rest,
  c_str ((Some <$> l) ++ Some "000"%char :: rest)%list = Some (string_of_list_ascii l).
Proof. induction 1 as [|c l Hc _ IH]; intros rest; [done|]. cbn [fmap list_fmap app c_str]. by rewrite Hc, IH. Qed.
End strings.

(** ** Hexadecimal digits *)

Section hex.
Definition nibble (x : Z) (i : nat) : Z := Z.land (Z.shiftr x (Z.of_nat i * 4)) 0xF.

Lemma nibble_eq x i : nibble x i = (x / 16 ^ Z.of_nat i) mod 16.
Proof.
  unfold nibble. change 0xF with (Z.ones 4). rewrite shiftr_land_ones by lia.
  by rewrite Z.mul_comm, Z.pow_mul_r by lia.
Qed.

(** The loop fills the digits from the back of the buffer. *)
Lemma hex_buf_eq x : hex_buf x =
  ((Some <$> list_ascii_of_string (hex64 x)) ++ [Some "000"%char])%list.
Proof.
  assert (∀ i : nat, list_ascii_of_string "0123456789abcdef" !! Z.to_nat (nibble x i) =
    Some (hex_digit ((x / 16 ^ Z.of_nat i) mod 16))) as Hd.
  { intros i. rewrite nibble_eq. unfold hex_digit.
    pose proof (Z.mod_pos_bound (x / 16 ^ Z.of_nat i) 16 ltac:(lia)).
    destruct (lookup_lt_is_Some_2 (list_ascii_of_string "0123456789abcdef")
      (Z.to_nat ((x / 16 ^ Z.of_nat i) mod 16))) as [c Hc]; [cbn; lia|].
    by rewrite Hc. }
  change (hex_buf x) with (Some "0"%char :: Some "x"%char ::
    ((λ i : nat, list_ascii_of_string "0123456789abcdef" !! Z.to_nat (nibble x i)) <$>
      [15; 14; 13; 12; 11; 10; 9; 8; 7; 6; 5; 4; 3; 2; 1; 0]%nat) ++ [Some "000"%char])%list.
  cbn [fmap list_fmap]. rewrite !Hd.
  unfold hex64. change ("0x" +:+ ?s) with (String "0" (String "x" s)).
  cbn [list_ascii_of_string]. rewrite list_ascii_of_string_of_list_ascii. reflexivity.
Qed.

Lemma hex_digit_plain d : 0 ≤ d < 16 →
  Ascii.eqb (hex_digit d) "010" = false ∧ Ascii.eqb (hex_digit d) "000" = false.
Proof.
  intros Hd. assert (∀ n, (n < 16)%nat → Ascii.eqb (hex_digit (Z.of_nat n)) "010" = false ∧
    Ascii.eqb (hex_digit (Z.of_nat n)) "000" = false) as Hn by (do 16 (intros [|n]; [by split|revert n]); lia).
  replace d with (Z.of_nat (Z.to_nat d)) by lia. apply Hn. lia.
Qed.

Lemma hex_digits_plain n x : Forall (λ c, Ascii.eqb c "010" = false ∧ Ascii.eqb c "000" = false) (hex_digits n x).
Proof.
  induction n as [|n IH]; constructor; [|exact IH].
  apply hex_digit_plain, Z.mod_pos_bound. lia.
Qed.

Lemma hex64_plain x :
  Forall (λ c, Ascii.eqb c "010" = false ∧ Ascii.eqb c "000" = false) (list_ascii_of_string (hex64 x)).
Proof.
  unfold hex64. change ("0x" +:+ ?s) with (String "0" (String "x" s)).
  cbn [list_ascii_of_string]. rewrite list_ascii_of_string_of_list_ascii.
  repeat (constructor; [done|]). apply hex_digits_plain.
Qed.

Lemma c_str_hex_buf x : c_str (hex_buf x) = Some (hex64 x).
Proof.
  rewrite hex_buf_eq, c_str_some; [by rewrite string_of_list_ascii_of_string|].
  eapply Forall_impl; [apply hex64_plain|]. by intros c [].
Qed.

Lemma crlf_hex64 x : crlf (hex64 x) = hex64 x.
Proof.
  rewrite <-(string_of_list_ascii_of_string (hex64 x)). apply crlf_plain.
  eapply Forall_impl; [apply hex64_plain|]. by intros c [].
Qed.

(** The reader's side: the value of a string of hexadecimal digits. *)
Definition digit_value (c : ascii) : Z :=
  let n := char_code c in if n <? 58 then n - 48 else n - 87.

Definition parse_digits (l : list ascii) : Z := foldl (λ acc c, acc * 16 + digit_value c) 0 l.

Definition parse_hex64 (s : string) : option Z :=
  match s with
  | String "0" (String "x" s) => Some (parse_digits (list_ascii_of_string s))
  | _ => None
  end.

Lemma digit_value_hex d : 0 ≤ d < 16 → digit_value (hex_digit d) = d.
Proof.
  intros Hd. assert (∀ n, (n < 16)%nat → digit_value (hex_digit (Z.of_nat n)) = Z.of_nat n) as Hn
    by (do 16 (intros [|n]; [done|revert n]); lia).
  replace d with (Z.of_nat (Z.to_nat d)) by lia. apply Hn. lia.
Qed.

Lemma parse_hex_digits n x acc :
  foldl (λ acc c, acc * 16 + digit_value c) acc (hex_digits n x) =
    acc * 16 ^ Z.of_nat n + x mod 16 ^ Z.of_nat n.
Proof.
  revert acc. induction n as [|n IH]; intros acc.
  { simpl. rewrite Z.mod_1_r. lia. }
  cbn [hex_digits foldl]. rewrite IH. rewrite digit_value_hex by (apply Z.mod_pos_bound; lia).
  rewrite Nat2Z.inj_succ, Z.pow_succ_r by lia. set (e := 16 ^ Z.of_nat n).
  assert (0 < e) by (apply Z.pow_pos_nonneg; lia).
  rewrite (Z.mul_comm 16 e), Z.rem_mul_r by lia. lia.
Qed.

Lemma hex64_parse x : is_u64 x → parse_hex64 (hex64 x) = Some x.
Proof.
  intros Hx. unfold hex64. change ("0x" +:+ ?s) with (String "0" (String "x" s)).
  cbn [parse_hex64]. rewrite list_ascii_of_string_of_list_ascii. unfold parse_digits.
  rewrite parse_hex_digits. change (Z.of_nat 16) with 16. change (16 ^ 16) with (2 ^ 64).
  f_equal. rewrite Z.mod_small by lia. lia.
Qed.

Lemma hex64_inj x y : is_u64 x → is_u64 y → hex64 x = hex64 y → x = y.
Proof. intros Hx Hy Heq%(f_equal parse_hex64). rewrite !hex64_parse in Heq by done. by injection Heq. Qed.
End hex.

(** ** The transmitted text *)

Section text.
(** The bytes written to the data register, oldest first. *)
Fixpoint sent (log : list mmio) : string :=
  match log with
  | [] => ""
  | Write32 a v :: log =>
      if a =? UART_DR then sent log +:+ String (ascii_of_N (Z.to_N v)) "" else sent log
  | Read32 _ _ :: log => sent log
  end.

(** Every byte was written right after a poll that found room in the FIFO. *)
Fixpoint polled (log : list mmio) : Prop :=
  match log with
  | [] => True
  | Write32 a _ :: log' =>
      (a = UART_DR → ∃ v rest, log' = Read32 UART_FR v :: rest ∧ Z.testbit v 5 = false) ∧ polled log'
  | Read32 _ _ :: log' => polled log'
  end.
End text.

(** The transmitter makes room within [poll_fuel] polls (the FIFO of a PL011 that
    is enabled drains at the baud rate). *)
Class FifoDrains `{!Device} : Prop :=
  fifo_drains n : ∃ k, (k ≤ poll_fuel)%nat ∧ Z.testbit (dev_read (n + k) UART_FR) 5 = false.

Section driver.
Context `{!Device, !FifoDrains}.

Lemma u32_bit5 v : Z.testbit (u32 v) 5 = Z.testbit v 5.
Proof. by apply Z.mod_pow2_bits_low. Qed.

Lemma txff_bit v : (Z.land (u32 v) FR_TXFF =? 0) = negb (Z.testbit v 5).
Proof.
  rewrite <-u32_bit5.
  destruct (Z.testbit (u32 v) 5) eqn:Hb; simpl.
  - apply Z.eqb_neq. intros Hz. apply (f_equal (λ w, Z.testbit w 5)) in Hz.
    rewrite Z.land_spec, Hb, Z.bits_0 in Hz. discriminate.
  - apply Z.eqb_eq, Z.bits_inj'. intros i Hi. rewrite Z.land_spec, Z.bits_0.
    unfold FR_TXFF. rewrite Z.shiftl_1_l, Z.pow2_bits_eqb by lia.
    destruct (Z.eqb_spec 5 i) as [<-|]; [by rewrite Hb|by rewrite andb_false_r].
Qed.

(** The wait loop ends with a poll that found room. *)
Lemma uart_wait_total fuel s :
  (∃ k, (k ≤ fuel)%nat ∧ Z.testbit (dev_read (io_reads s + k) UART_FR) 5 = false) →
  total (uart_wait fuel) s (λ _ s', sent (io_log s') = sent (io_log s) ∧
    (polled (io_log s) → polled (io_log s')) ∧
    ∃ v rest, io_log s' = Read32 UART_FR v :: rest ∧ Z.testbit v 5 = false).
Proof.
  assert (∀ fuel s, uart_wait fuel s =
    let v := u32 (dev_read (io_reads s) UART_FR) in
    let s' := Io (S (io_reads s)) (Read32 UART_FR v :: io_log s) in
    if Z.testbit (dev_read (io_reads s) UART_FR) 5
    then match fuel with O => OutOfFuel | S fuel => uart_wait fuel s' end else Ok () s') as Heq.
  { intros f s0. destruct f; cbn [uart_wait]; unfold mbind, M_bind, mmio_read32 at 1;
      rewrite txff_bit; by destruct (Z.testbit _ 5). }
  revert s. induction fuel as [|fuel IH]; intros s (k & Hk & Hr); unfold total, wp; rewrite Heq;
    cbv zeta; destruct (Z.testbit (dev_read (io_reads s) UART_FR) 5) eqn:Hb.
  - replace k with O in Hr by lia. rewrite Nat.add_0_r in Hr. congruence.
  - split_and!; [done|done|]. eexists _, _. split; [reflexivity|]. by rewrite u32_bit5.
  - destruct k as [|k]; [rewrite Nat.add_0_r in Hr; congruence|].
    apply (IH (Io (S (io_reads s)) (Read32 UART_FR (u32 (dev_read (io_reads s) UART_FR)) :: io_log s))).
    exists k. cbn [io_reads]. rewrite Nat.add_succ_comm. split; [lia|done].
  - split_and!; [done|done|]. eexists _, _. split; [reflexivity|]. by rewrite u32_bit5.
Qed.

Lemma uart_putc_total c s :
  total (uart_putc c) s (λ _ s', sent (io_log s') = sent (io_log s) +:+ String c "" ∧
    (polled (io_log s) → polled (io_log s'))).
Proof.
  eapply total_bind; [apply uart_wait_total, fifo_drains|]. cbv beta.
  intros [] s' (Hs & Hp & v & rest & Hl & Hv). unfold total, wp, mmio_write32, modify.
  cbn [io_log sent polled]. split.
  - rewrite Z.eqb_refl, Hs. do 2 f_equal. unfold char_code.
    pose proof (N_ascii_bounded c). unfold u32. rewrite Z.mod_small by lia.
    by rewrite N2Z.id, ascii_N_embedding.
  - intros Hl0. split; [|by apply Hp]. intros _. eauto.
Qed.

Lemma uart_puts_total str s :
  total (uart_puts str) s (λ _ s', sent (io_log s') = sent (io_log s) +:+ crlf str ∧
    (polled (io_log s) → polled (io_log s'))).
Proof.
  revert s. induction str as [|c str IH]; intros s; cbn [uart_puts crlf].
  { apply total_ret. by rewrite app_nil_r_string. }
  eapply (total_bind _ _ _ (λ _ s', sent (io_log s') =
      sent (io_log s) +:+ (if Ascii.eqb c "010" then String "013" "" else "") ∧
      (polled (io_log s) → polled (io_log s')))).
  { destruct (Ascii.eqb c "010"); [apply uart_putc_total|].
    apply total_ret. by rewrite app_nil_r_string. }
  intros [] s1 [H1 P1]. eapply total_bind; [apply uart_putc_total|]. cbv beta.
  intros [] s2 [H2 P2]. eapply total_mono; [apply IH|]. cbv beta. intros [] s3 [H3 P3].
  split; [|by auto]. rewrite H3, H2, H1, !app_assoc_string. f_equal.
  by destruct (Ascii.eqb c "010").
Qed.

Lemma console_hex64_total x s :
  total (console_hex64 x) s (λ _ s', sent (io_log s') = sent (io_log s) +:+ hex64 x ∧
    (polled (io_log s) → polled (io_log s'))).
Proof.
  unfold console_hex64, of_option. rewrite c_str_hex_buf.
  pose proof (uart_puts_total (hex64 x) s) as Ht. rewrite crlf_hex64 in Ht. exact Ht.
Qed.
End driver.

(** ** The driver implements the interface *)

#[export] Instance uart_console `{!Device} : Console := {|
  con := io;
  con_init := console_init;
  con_puts := console_puts;
  con_hex64 := console_hex64;
|}.

#[export] Instance uart_console_spec `{!Device, !FifoDrains} : ConsoleSpec.
Proof.
  refine {| con_text := λ c : @con uart_console, sent (io_log c) |}.
  - intros c. reflexivity.
  - intros s c. eapply total_mono; [apply uart_puts_total|]. by intros [] c' [].
  - intros x c. eapply total_mono; [apply console_hex64_total|]. by intros [] c' [].
Defined.

(** ** Initialisation *)

(** The device registers after a log of accesses. *)
Fixpoint dev_regs (log : list mmio) : gmap Z Z :=
  match log with
  | [] => ∅
  | Write32 a v :: log => <[a := v]> (dev_regs log)
  | Read32 _ _ :: log => dev_regs log
  end.

(** The line settings are changed only while the UART is disabled. *)
Fixpoint configured_off (log : list mmio) : Prop :=
  match log with
  | [] => True
  | Write32 a _ :: log =>
      (a ∈ [UART_IBRD; UART_FBRD; UART_LCRH] → dev_regs log !! UART_CR = Some 0) ∧ configured_off log
  | Read32 _ _ :: log => configured_off log
  end.

(** The divisor of a PL011 in 64ths: 64 * IBRD + FBRD = 4 * clock / baud. *)
Definition baud (clock ibrd fbrd : Z) : Z := 4 * clock / (64 * ibrd + fbrd).

(** ** Properties *)

Section properties.
Context `{!Device, !FifoDrains}.

(** C35. [console_puts] returns, what it has sent on the line is exactly the text
    with a carriage return before every line feed, and it never writes a byte
    into a full transmit FIFO. *)
Theorem console_puts_sends str s :
  polled (io_log s) →
  total (console_puts str) s (λ _ s',
    sent (io_log s') = sent (io_log s) +:+ crlf str ∧ polled (io_log s')).
Proof.
  intros Hp. eapply total_mono; [apply uart_puts_total|]. intros [] s' [Hs Hp']. auto.
Qed.

(** C36. [console_hex64] prints [0x] and sixteen digits that read back as the
    64-bit value printed. *)
Theorem console_hex64_roundtrip x s :
  is_u64 x →
  total (console_hex64 x) s (λ _ s', ∃ str,
    sent (io_log s') = sent (io_log s) +:+ str ∧ String.length str = 18%nat ∧
    parse_hex64 str = Some x).
Proof.
  intros Hx. eapply total_mono; [apply console_hex64_total|]. intros [] s' [Hs _].
  exists (hex64 x). split_and!; [exact Hs|reflexivity|by apply hex64_parse].
Qed.

(** [console_init] leaves the UART enabled for transmission with 8-bit words,
    the FIFO on, no interrupt enabled and a baud rate within 1% of 115200 at
    24 MHz, and changes the line settings only while the UART is off. *)
Theorem console_init_configures s :
  ∃ s', console_init s = Ok () s' ∧
    (configured_off (io_log s) → configured_off (io_log s')) ∧
    let r := dev_regs (io_log s') in
    r !! UART_CR = Some (CR_UARTEN + CR_TXE) ∧ r !! UART_IMSC = Some 0 ∧
    (∃ l, r !! UART_LCRH = Some l ∧ (l / 2 ^ 5) mod 4 = 3 ∧ Z.testbit l 4 = true ∧ Z.testbit l 1 = false) ∧
    (∃ i f, r !! UART_IBRD = Some i ∧ r !! UART_FBRD = Some f ∧
       99 * 115200 ≤ 100 * baud 24000000 i f ≤ 101 * 115200).
Proof.
  eexists. split; [reflexivity|]. cbn [io_log]. split.
  - intros Hc. cbn [configured_off]. split_and!; try done; intros Hin;
      first [ exfalso; apply list_elem_of_In in Hin; vm_compute in Hin; by intuition
            | cbn [dev_regs]; rewrite !lookup_insert_ne by done; by rewrite lookup_insert_eq ].
  - cbv zeta. cbn [dev_regs]. split_and!.
    + by simplify_map_eq.
    + by simplify_map_eq.
    + eexists. split; [by simplify_map_eq|done].
    + eexists _, _. split; [by simplify_map_eq|]. split; [by simplify_map_eq|]. by vm_compute.
Qed.
End properties.

(** ** Witnesses: a device whose FIFO is full for two polls out of three *)

Definition demo_device : Device :=
  {| dev_read n _ := if (n mod 3 =? 2)%nat then 0 else 0x20; poll_fuel := 2 |}.

Lemma demo_drains : @FifoDrains demo_device.
Proof.
  intros n. pose proof (Nat.mod_upper_bound n 3 ltac:(lia)) as Hb.
  exists (2 - n mod 3)%nat. split; [simpl; lia|]. cbn [dev_read demo_device].
  assert ((n + (2 - n mod 3)) mod 3 = 2)%nat as ->; [|done].
  pose proof (Nat.div_mod n 3 ltac:(lia)) as Hd.
  rewrite Hd at 1. replace (3 * (n / 3) + n mod 3 + (2 - n mod 3))%nat with (2 + n / 3 * 3)%nat by lia.
  by rewrite Nat.Div0.mod_add.
Qed.

#[local] Existing Instance demo_device.
#[local] Existing Instance demo_drains.

Lemma console_puts_sends_witness :
  total (console_puts (String "A" (String "010" ""))) (Io 0 []) (λ _ s',
    sent (io_log s') = String "A" (String "013" (String "010" "")) ∧ polled (io_log s')).
Proof. exact (console_puts_sends (String "A" (String "010" "")) (Io 0 []) I). Defined.

Lemma console_hex64_roundtrip_witness :
  total (console_hex64 0xdeadbeef) (Io 0 []) (λ _ s', ∃ str,
    sent (io_log s') = str ∧ String.length str = 18%nat ∧ parse_hex64 str = Some 0xdeadbeef).
Proof. apply (console_hex64_roundtrip 0xdeadbeef (Io 0 [])). lia. Defined.
