(* ===== verification/Vcpu.v ===== *)
(** * The virtual CPU and the hypervisor's state: [include/vcpu.h]

    The records of [vcpu.h], the state all EL2 code shares, and the accesses the
    C code makes through [vcpu_t] pointers.                                     *)

From Stdlib Require Import ZArith Lia Ascii String.
From stdpp Require Import base gmap list strings.
From S2P Require Import Prelude Machine PageTable Uart.

#[local] Open Scope Z_scope.

(** ** [trapframe_t] *)

Record trapframe := Tf {
  regs : list Z;
  sp_el1 : Z;
  elr_el1 : Z;
  spsr_el1 : Z;
  ttbr0_el1 : Z;
  ttbr1_el1 : Z;
  tcr_el1 : Z;
  sctlr_el1 : Z;
  tpidr_el1 : Z;
  cntkctl_el1 : Z;
  cntp_ctl_el0 : Z;
  cntp_cval_el0 : Z;
  cntv_ctl_el0 : Z;
  cntv_cval_el0 : Z;
}.

(** The frame as the assembly sees it: 44 consecutive 64-bit words, the field at
    byte offset [8 * k] being word [k]. *)
Definition tf_words (t : trapframe) : list Z :=
  regs t ++ [sp_el1 t; elr_el1 t; spsr_el1 t; ttbr0_el1 t; ttbr1_el1 t; tcr_el1 t; sctlr_el1 t;
             tpidr_el1 t; cntkctl_el1 t; cntp_ctl_el0 t; cntp_cval_el0 t; cntv_ctl_el0 t; cntv_cval_el0 t].

Definition tf_of_words (w : list Z) : trapframe :=
  let f k := w !!! k in
  Tf (take 31 w) (f 31%nat) (f 32%nat) (f 33%nat) (f 34%nat) (f 35%nat) (f 36%nat) (f 37%nat)
     (f 38%nat) (f 39%nat) (f 40%nat) (f 41%nat) (f 42%nat) (f 43%nat).

Definition set_regs f t := Tf (f (regs t)) (sp_el1 t) (elr_el1 t) (spsr_el1 t) (ttbr0_el1 t)
  (ttbr1_el1 t) (tcr_el1 t) (sctlr_el1 t) (tpidr_el1 t) (cntkctl_el1 t) (cntp_ctl_el0 t)
  (cntp_cval_el0 t) (cntv_ctl_el0 t) (cntv_cval_el0 t).
Definition set_elr_el1 v t := Tf (regs t) (sp_el1 t) v (spsr_el1 t) (ttbr0_el1 t)
  (ttbr1_el1 t) (tcr_el1 t) (sctlr_el1 t) (tpidr_el1 t) (cntkctl_el1 t) (cntp_ctl_el0 t)
  (cntp_cval_el0 t) (cntv_ctl_el0 t) (cntv_cval_el0 t).
Definition set_sp_el1 v t := Tf (regs t) v (elr_el1 t) (spsr_el1 t) (ttbr0_el1 t) (ttbr1_el1 t)
  (tcr_el1 t) (sctlr_el1 t) (tpidr_el1 t) (cntkctl_el1 t) (cntp_ctl_el0 t) (cntp_cval_el0 t)
  (cntv_ctl_el0 t) (cntv_cval_el0 t).
Definition set_spsr_el1 v t := Tf (regs t) (sp_el1 t) (elr_el1 t) v (ttbr0_el1 t) (ttbr1_el1 t)
  (tcr_el1 t) (sctlr_el1 t) (tpidr_el1 t) (cntkctl_el1 t) (cntp_ctl_el0 t) (cntp_cval_el0 t)
  (cntv_ctl_el0 t) (cntv_cval_el0 t).
Definition set_ttbr0_el1 v t := Tf (regs t) (sp_el1 t) (elr_el1 t) (spsr_el1 t) v (ttbr1_el1 t)
  (tcr_el1 t) (sctlr_el1 t) (tpidr_el1 t) (cntkctl_el1 t) (cntp_ctl_el0 t) (cntp_cval_el0 t)
  (cntv_ctl_el0 t) (cntv_cval_el0 t).
Definition set_ttbr1_el1 v t := Tf (regs t) (sp_el1 t) (elr_el1 t) (spsr_el1 t) (ttbr0_el1 t) v
  (tcr_el1 t) (sctlr_el1 t) (tpidr_el1 t) (cntkctl_el1 t) (cntp_ctl_el0 t) (cntp_cval_el0 t)
  (cntv_ctl_el0 t) (cntv_cval_el0 t).
Definition set_tcr_el1 v t := Tf (regs t) (sp_el1 t) (elr_el1 t) (spsr_el1 t) (ttbr0_el1 t)
  (ttbr1_el1 t) v (sctlr_el1 t) (tpidr_el1 t) (cntkctl_el1 t) (cntp_ctl_el0 t) (cntp_cval_el0 t)
  (cntv_ctl_el0 t) (cntv_cval_el0 t).
Definition set_sctlr_el1 v t := Tf (regs t) (sp_el1 t) (elr_el1 t) (spsr_el1 t) (ttbr0_el1 t)
  (ttbr1_el1 t) (tcr_el1 t) v (tpidr_el1 t) (cntkctl_el1 t) (cntp_ctl_el0 t) (cntp_cval_el0 t)
  (cntv_ctl_el0 t) (cntv_cval_el0 t).
Definition set_tpidr_el1 v t := Tf (regs t) (sp_el1 t) (elr_el1 t) (spsr_el1 t) (ttbr0_el1 t)
  (ttbr1_el1 t) (tcr_el1 t) (sctlr_el1 t) v (cntkctl_el1 t) (cntp_ctl_el0 t) (cntp_cval_el0 t)
  (cntv_ctl_el0 t) (cntv_cval_el0 t).
Definition set_cntkctl_el1 v t := Tf (regs t) (sp_el1 t) (elr_el1 t) (spsr_el1 t) (ttbr0_el1 t)
  (ttbr1_el1 t) (tcr_el1 t) (sctlr_el1 t) (tpidr_el1 t) v (cntp_ctl_el0 t) (cntp_cval_el0 t)
  (cntv_ctl_el0 t) (cntv_cval_el0 t).
Definition set_cntp_ctl_el0 v t := Tf (regs t) (sp_el1 t) (elr_el1 t) (spsr_el1 t) (ttbr0_el1 t)
  (ttbr1_el1 t) (tcr_el1 t) (sctlr_el1 t) (tpidr_el1 t) (cntkctl_el1 t) v
  (cntp_cval_el0 t) (cntv_ctl_el0 t) (cntv_cval_el0 t).
Definition set_cntp_cval_el0 v t := Tf (regs t) (sp_el1 t) (elr_el1 t) (spsr_el1 t) (ttbr0_el1 t)
  (ttbr1_el1 t) (tcr_el1 t) (sctlr_el1 t) (tpidr_el1 t) (cntkctl_el1 t) (cntp_ctl_el0 t)
  v (cntv_ctl_el0 t) (cntv_cval_el0 t).
Definition set_cntv_ctl_el0 v t := Tf (regs t) (sp_el1 t) (elr_el1 t) (spsr_el1 t) (ttbr0_el1 t)
  (ttbr1_el1 t) (tcr_el1 t) (sctlr_el1 t) (tpidr_el1 t) (cntkctl_el1 t) (cntp_ctl_el0 t)
  (cntp_cval_el0 t) v (cntv_cval_el0 t).
Definition set_cntv_cval_el0 v t := Tf (regs t) (sp_el1 t) (elr_el1 t) (spsr_el1 t) (ttbr0_el1 t)
  (ttbr1_el1 t) (tcr_el1 t) (sctlr_el1 t) (tpidr_el1 t) (cntkctl_el1 t) (cntp_ctl_el0 t)
  (cntp_cval_el0 t) (cntv_ctl_el0 t) v.

(** ** [vcpu_arch_t] and [vcpu_t]

    [vm], [kresume] and its arguments are never read or written by the code and
    are left out. *)

Record fp_state := Fp { fp_used : Z; fpcr : Z; fpsr : Z; fp_vregs : list (Z * Z) }.
Record sve_state := Sve { sve_used : Z }.
Record pauth_state := Pauth { pauth_used : Z; apia : Z; apib : Z; apda : Z; apdb : Z }.
Record vgic_state := Vgic { lrs : list Z; vmcr : Z; apr : Z }.

Record vcpu_arch := Arch {
  vttbr_el2 : Z;
  cntvoff_el2 : Z;
  cntvct_el0 : Z;
  fp : fp_state;
  sve : sve_state;
  pauth : pauth_state;
  vgic : vgic_state;
  tf : trapframe;
}.

Definition set_vttbr_el2 v a :=
  Arch v (cntvoff_el2 a) (cntvct_el0 a) (fp a) (sve a) (pauth a) (vgic a) (tf a).
Definition set_cntvoff_el2 v a :=
  Arch (vttbr_el2 a) v (cntvct_el0 a) (fp a) (sve a) (pauth a) (vgic a) (tf a).
Definition set_cntvct_el0 v a :=
  Arch (vttbr_el2 a) (cntvoff_el2 a) v (fp a) (sve a) (pauth a) (vgic a) (tf a).
Definition set_fp v a :=
  Arch (vttbr_el2 a) (cntvoff_el2 a) (cntvct_el0 a) v (sve a) (pauth a) (vgic a) (tf a).
Definition set_sve v a :=
  Arch (vttbr_el2 a) (cntvoff_el2 a) (cntvct_el0 a) (fp a) v (pauth a) (vgic a) (tf a).
Definition set_pauth v a :=
  Arch (vttbr_el2 a) (cntvoff_el2 a) (cntvct_el0 a) (fp a) (sve a) v (vgic a) (tf a).
Definition set_vgic v a :=
  Arch (vttbr_el2 a) (cntvoff_el2 a) (cntvct_el0 a) (fp a) (sve a) (pauth a) v (tf a).
Definition set_tf (f : trapframe → trapframe) a :=
  Arch (vttbr_el2 a) (cntvoff_el2 a) (cntvct_el0 a) (fp a) (sve a) (pauth a) (vgic a) (f (tf a)).

Record vcpu := Vcpu {
  arch : vcpu_arch;
  vcpu_id : Z;
  request_yield : bool;
}.

Definition set_arch (f : vcpu_arch → vcpu_arch) v := Vcpu (f (arch v)) (vcpu_id v) (request_yield v).
Definition set_vcpu_id i v := Vcpu (arch v) i (request_yield v).
Definition set_request_yield b v := Vcpu (arch v) (vcpu_id v) b.

(** The object whose bytes are all zero. *)
Definition zero_tf : trapframe := Tf (replicate 31 0) 0 0 0 0 0 0 0 0 0 0 0 0 0.
Definition zero_vcpu : vcpu :=
  Vcpu (Arch 0 0 0 (Fp 0 0 0 (replicate 32 (0, 0))) (Sve 0) (Pauth 0 0 0 0 0)
          (Vgic (replicate 16 0) 0 0) zero_tf) 0 false.

(** Array sizes, which C fixes by type. *)
Record vcpu_shape (v : vcpu) : Prop := {
  vs_regs : length (regs (tf (arch v))) = 31%nat;
  vs_vregs : length (fp_vregs (fp (arch v))) = 32%nat;
  vs_lrs : length (lrs (vgic (arch v))) = 16%nat;
}.

(** ** The scheduler's static variables *)

(** A [vcpu_t*] is the index of the object in the pool, [None] is NULL. *)
Abbreviation vptr := (option nat).

Record sched := Sched {
  sched_runqueue : list vptr;
  sched_len : nat;
  sched_idx : nat;
  sched_current : vptr;
}.

(** ** The state of EL2

    [mach] is the processor, [console] the console device, [vcpus] the VCPU
    objects, [current_trapframe] the VCPU whose frame the next exit fills (NULL
    when none), [vgic_cached] the static of [vgic_lr_count], [s2_tables] the stage-2
    tables, [ram] the bytes of memory EL2 can load from that no other component
    models. *)

Section state.
Context `{!Console}.

Record hv := Hv {
  mach : machine;
  console : con;
  vcpus : list vcpu;
  scheduler : sched;
  current_trapframe : vptr;
  host_saved_area : list Z;
  vgic_cached : Z;
  s2_tables : pt;
  ram : gmap Z Z;
}.

Definition set_mach v h := Hv v (console h) (vcpus h) (scheduler h)
  (current_trapframe h) (host_saved_area h) (vgic_cached h) (s2_tables h) (ram h).
Definition set_console v h := Hv (mach h) v (vcpus h) (scheduler h)
  (current_trapframe h) (host_saved_area h) (vgic_cached h) (s2_tables h) (ram h).
Definition set_vcpus v h := Hv (mach h) (console h) v (scheduler h)
  (current_trapframe h) (host_saved_area h) (vgic_cached h) (s2_tables h) (ram h).
Definition set_scheduler v h := Hv (mach h) (console h) (vcpus h) v
  (current_trapframe h) (host_saved_area h) (vgic_cached h) (s2_tables h) (ram h).
Definition set_current_trapframe v h := Hv (mach h) (console h) (vcpus h) (scheduler h)
  v (host_saved_area h) (vgic_cached h) (s2_tables h) (ram h).
Definition set_host_saved_area v h := Hv (mach h) (console h) (vcpus h) (scheduler h)
  (current_trapframe h) v (vgic_cached h) (s2_tables h) (ram h).
Definition set_vgic_cached v h := Hv (mach h) (console h) (vcpus h) (scheduler h)
  (current_trapframe h) (host_saved_area h) v (s2_tables h) (ram h).
Definition set_s2_tables v h := Hv (mach h) (console h) (vcpus h) (scheduler h)
  (current_trapframe h) (host_saved_area h) (vgic_cached h) v (ram h).
Definition set_ram v h := Hv (mach h) (console h) (vcpus h) (scheduler h)
  (current_trapframe h) (host_saved_area h) (vgic_cached h) (s2_tables h) v.

(** Instructions, prints and scheduler calls made from EL2 code. *)
Definition cpu {A} (m : M machine A) : M hv A := zoom mach set_mach m.
Definition print {A} (m : M con A) : M hv A := zoom console set_console m.
Definition on_sched {A} (m : M sched A) : M hv A := zoom scheduler set_scheduler m.

Definition puts (s : string) : M hv () := print (con_puts s).
Definition hex64 (x : Z) : M hv () := print (con_hex64 x).

(** [*p] and [p->field = ...] through a [vcpu_t*]. *)
Definition deref (p : nat) : M hv vcpu := l ← gets vcpus; arr_get l p.
Definition update (p : nat) (f : vcpu → vcpu) : M hv () :=
  l ← gets vcpus;
  v ← arr_get l p;
  modify (set_vcpus (<[p := f v]> l)).
Definition update_arch (p : nat) (f : vcpu_arch → vcpu_arch) : M hv () := update p (set_arch f).
Definition update_tf (p : nat) (f : trapframe → trapframe) : M hv () := update_arch p (set_tf f).

(** Loads by EL2 code; an address outside [ram] is not mapped for EL2. Integers
    are little-endian. *)
Definition load8 (a : Z) : M hv Z := m ← gets ram; of_option (m !! a).

Fixpoint load_le (n : nat) (a : Z) : M hv Z :=
  match n with
  | O => mret 0
  | S n => b ← load8 a; w ← load_le n (a + 1); mret (b + 256 * w)
  end.

Definition load64 (a : Z) : M hv Z := load_le 8 a.

(** The C string at [a]: the bytes before the first zero. *)
Fixpoint load_str (fuel : nat) (a : Z) : M hv string :=
  match fuel with
  | O => out_of_fuel
  | S fuel =>
      b ← load8 a;
      if b =? 0 then mret ""%string else
      s ← load_str fuel (a + 1);
      mret (String (ascii_of_N (Z.to_N b)) s)
  end.

(** A string ends, or leaves the memory, within as many bytes as there are. *)
Definition load_cstr (a : Z) : M hv string :=
  m ← gets ram;
  load_str (S (size m)) a.
End state.
