(* ===== verification/VcpuTheory.v ===== *)
(** * Lemmas about the hypervisor's state

    Equations for dereferencing and updating a VCPU, for instructions and prints,
    and the layout of the trap frame.                                           *)

From Stdlib Require Import ZArith Lia Ascii String.
From stdpp Require Import base gmap list strings fin_sets.
From S2P Require Import Prelude Machine PageTable Uart UartTheory Vcpu.

#[local] Open Scope Z_scope.

(** ** The trap frame *)

Section trapframe.
Lemma tf_words_length t : length (regs t) = 31%nat → length (tf_words t) = 44%nat.
Proof. intros Hr. unfold tf_words. by rewrite length_app, Hr. Qed.

(** The C record and the assembly's words are the same frame. *)
Lemma tf_of_words_words t : length (regs t) = 31%nat → tf_of_words (tf_words t) = t.
Proof.
  destruct t as [r]. cbn [regs]. intros Hr. do 31 (destruct r as [|? r]; [done|]).
  by destruct r.
Qed.

Lemma tf_words_of_words w : length w = 44%nat → tf_words (tf_of_words w) = w.
Proof.
  intros Hw. do 44 (destruct w as [|? w]; [done|]). by destruct w.
Qed.
End trapframe.

(** ** VCPU objects *)

Section state.
Context `{!Console}.

Definition put (p : nat) (v : vcpu) (h : hv) : hv := set_vcpus (<[p := v]> (vcpus h)) h.

Lemma deref_Ok p v h : vcpus h !! p = Some v → deref p h = Ok v h.
Proof. intros Hp. unfold deref, arr_get. mstep. by rewrite Hp. Qed.

Lemma update_Ok p v f h : vcpus h !! p = Some v → update p f h = Ok () (put p (f v) h).
Proof. intros Hp. unfold update, arr_get. mstep. by rewrite Hp. Qed.

Lemma update_arch_Ok p v f h :
  vcpus h !! p = Some v → update_arch p f h = Ok () (put p (set_arch f v) h).
Proof. apply update_Ok. Qed.

Lemma update_tf_Ok p v f h :
  vcpus h !! p = Some v → update_tf p f h = Ok () (put p (set_arch (set_tf f) v) h).
Proof. apply update_Ok. Qed.

Lemma put_lookup p v w h : vcpus h !! p = Some w → vcpus (put p v h) !! p = Some v.
Proof. intros Hp. apply list_lookup_insert_eq. by eapply lookup_lt_Some. Qed.

Lemma put_lookup_ne p q v h : p ≠ q → vcpus (put p v h) !! q = vcpus h !! q.
Proof. apply list_lookup_insert_ne. Qed.

Lemma put_id p v h : vcpus h !! p = Some v → put p v h = h.
Proof. intros Hp. unfold put, set_vcpus. rewrite list_insert_id by done. by destruct h. Qed.

Lemma put_put p v w h : put p v (put p w h) = put p v h.
Proof. unfold put, set_vcpus. cbn. by rewrite list_insert_insert_eq. Qed.

(** An instruction that leaves the processor's state as it is. *)
Lemma cpu_read {A} (m : M machine A) a h : m (mach h) = Ok a (mach h) → cpu m h = Ok a h.
Proof. intros Hm. unfold cpu, zoom. rewrite Hm. by destruct h. Qed.

Lemma cpu_gets {A} (f : machine → A) h : cpu (gets f) h = Ok (f (mach h)) h.
Proof. by apply cpu_read. Qed.

Lemma cpu_mrs `{!Counter} r h : r ≠ CNTPCT_EL0 → r ≠ CNTVCT_EL0 →
  cpu (mrs r) h = Ok (sys (mach h) r) h.
Proof. intros. by apply cpu_read, mrs_plain. Qed.

Lemma cpu_do {A} (m : M machine A) a m' h : m (mach h) = Ok a m' → cpu m h = Ok a (set_mach m' h).
Proof. intros Hm. unfold cpu, zoom. by rewrite Hm. Qed.

Lemma mach_put p v h : mach (put p v h) = mach h.
Proof. done. Qed.

Lemma put_mach p v m h : put p v (set_mach m h) = set_mach m (put p v h).
Proof. done. Qed.

(** The state in which the VCPU [p] is [w], the processor is [m] and the rest is as
    in [h]: statements of EL2 code that work on one VCPU move between these. *)
Definition focus (p : nat) (w : vcpu) (m : machine) (h : hv) : hv := put p w (set_mach m h).

Lemma focus_start p v h : vcpus h !! p = Some v → h = focus p v (mach h) h.
Proof. intros Hp. unfold focus. rewrite put_id by done. by destruct h. Qed.

Lemma focus_deref p v w m h : vcpus h !! p = Some v → deref p (focus p w m h) = Ok w (focus p w m h).
Proof. intros Hp. apply deref_Ok. by apply (put_lookup p w v (set_mach m h)). Qed.

Lemma focus_update p v w m h f : vcpus h !! p = Some v →
  update p f (focus p w m h) = Ok () (focus p (f w) m h).
Proof.
  intros Hp. unfold focus. erewrite update_Ok by (by apply (put_lookup p w v (set_mach m h))).
  by rewrite put_put.
Qed.

Lemma focus_update_arch p v w m h f : vcpus h !! p = Some v →
  update_arch p f (focus p w m h) = Ok () (focus p (set_arch f w) m h).
Proof. apply focus_update. Qed.

Lemma focus_update_tf p v w m h f : vcpus h !! p = Some v →
  update_tf p f (focus p w m h) = Ok () (focus p (set_arch (set_tf f) w) m h).
Proof. apply focus_update. Qed.

Lemma focus_cpu {A} (c : M machine A) a p w m m' h :
  c m = Ok a m' → cpu c (focus p w m h) = Ok a (focus p w m' h).
Proof. intros Hc. unfold cpu, zoom. cbn [mach focus put set_vcpus set_mach]. by rewrite Hc. Qed.

Lemma focus_current p w m h :
  on_sched (gets sched_current) (focus p w m h) = Ok (sched_current (scheduler h)) (focus p w m h).
Proof. done. Qed.

(** [puts] and [hex64] return and change nothing but the console. *)
Lemma puts_total `{!ConsoleSpec} s h :
  total (puts s) h (λ _ h', ∃ c, h' = set_console c h ∧ con_text c = con_text (console h) +:+ crlf s).
Proof.
  pose proof (con_puts_text s (console h)) as Hc. unfold puts, print, zoom, total, wp in *.
  destruct (con_puts s (console h)); try done. by eexists.
Qed.

Lemma hex64_total `{!ConsoleSpec} x h :
  total (Vcpu.hex64 x) h (λ _ h', ∃ c, h' = set_console c h ∧ con_text c = con_text (console h) +:+ Uart.hex64 x).
Proof.
  pose proof (con_hex64_text x (console h)) as Hc. unfold Vcpu.hex64, print, zoom, total, wp in *.
  destruct (con_hex64 x (console h)); try done. by eexists.
Qed.

(** Code that only prints: it returns, and adds a text to the console. *)
Definition prints `{!ConsoleSpec} (m : M hv ()) (s : string) : Prop :=
  ∀ h, ∃ c, m h = Ok () (set_console c h) ∧ con_text c = con_text (console h) +:+ s.

Lemma prints_puts `{!ConsoleSpec} s : prints (puts s) (crlf s).
Proof. intros h. destruct (proj1 (total_Ok _ _ _) (puts_total s h)) as ([] & h' & H1 & c & -> & H2). by exists c. Qed.

Lemma prints_hex64 `{!ConsoleSpec} x : prints (Vcpu.hex64 x) (Uart.hex64 x).
Proof. intros h. destruct (proj1 (total_Ok _ _ _) (hex64_total x h)) as ([] & h' & H1 & c & -> & H2). by exists c. Qed.

Lemma prints_ret `{!ConsoleSpec} : prints (mret ()) "".
Proof. intros h. exists (console h). split; [by destruct h|]. by rewrite app_nil_r_string. Qed.

Lemma prints_seq `{!ConsoleSpec} m1 m2 s1 s2 :
  prints m1 s1 → prints m2 s2 → prints (m1 ;; m2) (s1 +:+ s2).
Proof.
  intros H1 H2 h. destruct (H1 h) as (c1 & E1 & T1). rewrite (bind_Ok _ _ _ _ _ E1).
  destruct (H2 (set_console c1 h)) as (c2 & E2 & T2). exists c2. split; [by rewrite E2|].
  rewrite T2. cbn [console set_console]. by rewrite T1, app_assoc_string.
Qed.
End state.

(** ** Printing code that also reads the state

    [emits h m a s]: in any state that differs from [h] in the console only, [m]
    returns [a], adds [s] to the console and changes nothing else.              *)

Section emits.
Context `{!Console, !ConsoleSpec}.

Definition emits {A} (h : hv) (m : M hv A) (a : A) (s : string) : Prop :=
  ∀ c, ∃ c', m (set_console c h) = Ok a (set_console c' h) ∧ con_text c' = con_text c +:+ s.

Lemma emits_prints h m s : prints m s → emits h m () s.
Proof. intros Hm c. destruct (Hm (set_console c h)) as (c' & Hc & Ht). by exists c'. Qed.

Lemma emits_pure {A} h (m : M hv A) a : (∀ c, m (set_console c h) = Ok a (set_console c h)) → emits h m a "".
Proof. intros Hm c. exists c. split; [apply Hm|]. by rewrite app_nil_r_string. Qed.

Lemma emits_ret {A} h (a : A) : emits h (mret a) a "".
Proof. by apply emits_pure. Qed.

Lemma emits_bind {A B} h (m : M hv A) (k : A → M hv B) a b s1 s2 :
  emits h m a s1 → emits h (k a) b s2 → emits h (m ≫= k) b (s1 +:+ s2).
Proof.
  intros Hm Hk c. destruct (Hm c) as (c1 & E1 & T1). destruct (Hk c1) as (c2 & E2 & T2).
  exists c2. rewrite (bind_Ok _ _ _ _ _ E1). split; [done|]. by rewrite T2, T1, app_assoc_string.
Qed.

Lemma emits_text {A} h (m : M hv A) a s s' : emits h m a s → s = s' → emits h m a s'.
Proof. by intros Hm <-. Qed.

Lemma emits_total {A} h (m : M hv A) a s : emits h m a s →
  ∃ c, m h = Ok a (set_console c h) ∧ con_text c = con_text (console h) +:+ s.
Proof. intros Hm. destruct (Hm (console h)) as (c & Hc & Ht). exists c. by destruct h. Qed.
End emits.

(** ** Memory *)

Section memory.
Context `{!Console}.

(** Memory holds an [n]-byte little-endian number, a terminated string. *)
Fixpoint mem_le (m : gmap Z Z) (n : nat) (a x : Z) : Prop :=
  match n with
  | O => x = 0
  | S n => ∃ b w, m !! a = Some b ∧ mem_le m n (a + 1) w ∧ x = b + 256 * w
  end.

Definition mem_word (m : gmap Z Z) (a x : Z) : Prop := mem_le m 8 a x.

Fixpoint mem_str (m : gmap Z Z) (a : Z) (s : string) : Prop :=
  match s with
  | ""%string => m !! a = Some 0
  | String c s => m !! a = Some (char_code c) ∧ char_code c ≠ 0 ∧ mem_str m (a + 1) s
  end.

Lemma load8_Ok a b h : ram h !! a = Some b → load8 a h = Ok b h.
Proof. intros Ha. unfold load8. mstep. by rewrite Ha. Qed.

Lemma load_le_Ok n a x h : mem_le (ram h) n a x → load_le n a h = Ok x h.
Proof.
  revert a x. induction n as [|n IH]; intros a x; cbn [mem_le load_le]; [by intros ->|].
  intros (b & w & Hb & Hw & ->). mstep_by ltac:(by apply load8_Ok). by mstep_by ltac:(by apply IH).
Qed.

Lemma load64_Ok a x h : mem_word (ram h) a x → load64 a h = Ok x h.
Proof. apply load_le_Ok. Qed.

Lemma consecutive_size (m : gmap Z Z) a n :
  (∀ i : nat, (i < n)%nat → is_Some (m !! (a + Z.of_nat i))) → (n ≤ size m)%nat.
Proof.
  intros Hm. rewrite <-(size_dom (D := gset Z)).
  assert (size (list_to_set (seqZ a (Z.of_nat n)) : gset Z) = n) as <-.
  { rewrite size_list_to_set by apply NoDup_seqZ. rewrite length_seqZ. lia. }
  apply subseteq_size. intros x Hx%elem_of_list_to_set%elem_of_seqZ. apply elem_of_dom.
  replace x with (a + Z.of_nat (Z.to_nat (x - a))) by lia. apply Hm. lia.
Qed.

Lemma mem_str_bytes m a s i : mem_str m a s → (i ≤ String.length s)%nat → is_Some (m !! (a + Z.of_nat i)).
Proof.
  revert a i. induction s as [|c s IH]; intros a i; cbn [mem_str String.length].
  - intros Ha Hi. replace (a + Z.of_nat i) with a by lia. by eexists.
  - intros (Ha & _ & Hs) Hi. destruct i as [|i]; [rewrite Z.add_0_r; by eexists|].
    replace (a + Z.of_nat (S i)) with (a + 1 + Z.of_nat i) by lia. apply IH; [done|lia].
Qed.

Lemma load_str_Ok fuel a s h : mem_str (ram h) a s → (String.length s < fuel)%nat →
  load_str fuel a h = Ok s h.
Proof.
  revert a fuel. induction s as [|c s IH]; intros a fuel Hs Hf;
    (destruct fuel as [|fuel]; [cbn in Hf; lia|]); cbn [load_str mem_str String.length] in *.
  - by mstep_by ltac:(by apply load8_Ok).
  - destruct Hs as (Ha & Hc & Hs). mstep_by ltac:(by apply load8_Ok).
    rewrite (proj2 (Z.eqb_neq _ _)) by done. mstep_by ltac:(apply IH; [done|lia]).
    unfold char_code. by rewrite N2Z.id, ascii_N_embedding.
Qed.

Lemma load_cstr_Ok a s h : mem_str (ram h) a s → load_cstr a h = Ok s h.
Proof.
  intros Hs. unfold load_cstr. mstep. apply load_str_Ok; [done|].
  assert (S (String.length s) ≤ size (ram h))%nat; [|lia].
  apply (consecutive_size _ a). intros i Hi. apply (mem_str_bytes _ _ s); [done|lia].
Qed.

(** The string loop never runs out of fuel. *)
Lemma load_str_fuel fuel a h : load_str fuel a h = OutOfFuel →
  ∀ i : nat, (i < fuel)%nat → is_Some (ram h !! (a + Z.of_nat i)).
Proof.
  revert a. induction fuel as [|fuel IH]; intros a; [lia|]. cbn [load_str].
  unfold load8, mbind, M_bind. cbn. destruct (ram h !! a) as [b|] eqn:Ha; cbn; [|done].
  destruct (b =? 0); [done|]. intros Hl i Hi.
  destruct i as [|i]; [rewrite Z.add_0_r, Ha; by eexists|].
  replace (a + Z.of_nat (S i)) with (a + 1 + Z.of_nat i) by lia. apply IH; [|lia].
  by destruct (load_str fuel (a + 1) h).
Qed.

Lemma load_cstr_fuelled a : fuelled (load_cstr a).
Proof.
  intros h Hl. unfold load_cstr in Hl. change (load_str (S (size (ram h))) a h = OutOfFuel) in Hl.
  pose proof (consecutive_size _ a _ (load_str_fuel _ _ _ Hl)). lia.
Qed.
End memory.

#[export] Hint Resolve prints_puts prints_hex64 prints_ret prints_seq : schism.

(** Run through a statement that reads or writes the VCPU [p]. *)
Ltac vstep :=
  first [ mstep_by ltac:(apply cpu_gets)
        | mstep_by ltac:(apply cpu_mrs; done)
        | mstep_by ltac:(apply deref_Ok; eassumption)
        | mstep_by ltac:(apply update_arch_Ok; eassumption)
        | mstep_by ltac:(apply update_tf_Ok; eassumption)
        | mstep_by ltac:(apply update_Ok; eassumption)
        | mstep_by ltac:(apply deref_Ok; eapply put_lookup; eassumption)
        | mstep_by ltac:(apply update_arch_Ok; eapply put_lookup; eassumption)
        | mstep_by ltac:(apply update_tf_Ok; eapply put_lookup; eassumption)
        | mstep_by ltac:(apply update_Ok; eapply put_lookup; eassumption)
        | mstep ];
  rewrite ?put_put, ?mach_put.

(** Run through a statement from a [focus] state. *)
Ltac fstep :=
  first [ mstep_by ltac:(by eapply focus_deref)
        | mstep_by ltac:(by eapply focus_update_tf)
        | mstep_by ltac:(by eapply focus_update_arch)
        | mstep_by ltac:(by eapply focus_update)
        | mstep_by ltac:(by apply focus_cpu)
        | mstep ].

(** ** A concrete state for the witnesses

    A console that is the text printed so far, two VCPUs registered as [el2_main]
    registers them, the first one current. *)

Definition text_console : Console :=
  {| con := string; con_init := mret (); con_puts s := modify (λ c, c +:+ crlf s);
     con_hex64 x := modify (λ c, c +:+ Uart.hex64 x) |}.

Definition text_console_spec : @ConsoleSpec text_console :=
  @Build_ConsoleSpec text_console (λ c, c) (λ c, eq_refl) (λ s c, eq_refl) (λ x c, eq_refl).

Definition demo_vcpu (id : Z) : vcpu := set_vcpu_id id zero_vcpu.

Definition demo_queue : sched :=
  Sched [Some 0%nat; Some 1%nat; None; None; None; None; None; None] 2 0 (Some 0%nat).

Definition demo_hv (m : machine) : @hv text_console :=
  @Hv text_console m ""%string [demo_vcpu 0; demo_vcpu 1] demo_queue None (replicate 16 0) 0 (Pt [] [] [] [] 0 0) ∅.
