(* ===== verification/Sched.v ===== *)
(** * The VCPU scheduler: [core/vcpu.c], lines 21-88

    The run queue and its operations; the switch itself is in [Switch].         *)

From Stdlib Require Import ZArith Lia.
From stdpp Require Import base list.
From S2P Require Import Prelude Vcpu.

Definition VCPU_SCHED_MAX : nat := 8.

(** The static variables before any call ([.bss]). *)
Definition sched_bss : sched := Sched (replicate VCPU_SCHED_MAX None) 0 0 None.

Definition set_runqueue (q : list vptr) (s : sched) : sched :=
  Sched q (sched_len s) (sched_idx s) (sched_current s).
Definition set_len (n : nat) (s : sched) : sched :=
  Sched (sched_runqueue s) n (sched_idx s) (sched_current s).
Definition set_idx (n : nat) (s : sched) : sched :=
  Sched (sched_runqueue s) (sched_len s) n (sched_current s).
Definition set_current (p : vptr) (s : sched) : sched :=
  Sched (sched_runqueue s) (sched_len s) (sched_idx s) p.

(** [for (i = 0; i < sched_len; ++i) if (sched_runqueue[i] == vcpu) return i;
    return -1;], from [i] with [n] iterations left. *)
Fixpoint sched_find_loop (vcpu : vptr) (n i : nat) : M sched Z :=
  match n with
  | O => mret (-1)%Z
  | S n =>
      q ← gets sched_runqueue;
      e ← arr_get q i;
      if decide (e = vcpu) then mret (Z.of_nat i) else sched_find_loop vcpu n (S i)
  end.

Definition sched_find_slot (vcpu : vptr) : M sched Z :=
  len ← gets sched_len;
  sched_find_loop vcpu len 0.

Definition vcpu_scheduler_register (vcpu : vptr) : M sched () :=
  len ← gets sched_len;
  if bool_decide (vcpu = None) || (VCPU_SCHED_MAX <=? len)%nat then mret () else
  slot ← sched_find_slot vcpu;
  if (0 <=? slot)%Z then mret () else
  q ← gets sched_runqueue;
  q' ← arr_set q len vcpu;
  modify (set_runqueue q') ;;
  modify (set_len (S len)) ;;
  current ← gets sched_current;
  if bool_decide (current = None)
  then modify (set_current vcpu) ;; modify (set_idx (S len - 1))
  else mret ().

Definition vcpu_scheduler_set_current (vcpu : vptr) : M sched () :=
  if bool_decide (vcpu = None) then mret () else
  slot ← sched_find_slot vcpu;
  len ← gets sched_len;
  slot ← (if (slot <? 0)%Z && (len <? VCPU_SCHED_MAX)%nat then
            q ← gets sched_runqueue;
            q' ← arr_set q len vcpu;
            modify (set_runqueue q') ;;
            modify (set_len (S len)) ;;
            mret (Z.of_nat len)
          else mret slot);
  if (0 <=? slot)%Z then modify (set_current vcpu) ;; modify (set_idx (Z.to_nat slot))
  else mret ().

Definition vcpu_scheduler_current : M sched vptr := gets sched_current.

(** The part of [vcpu_scheduler_yield] before the world switch: [None] when it
    returns [false], else the pair [(prev, target)] it switches between. *)
Definition sched_pick : M sched (option (nat * nat)) :=
  len ← gets sched_len;
  current ← gets sched_current;
  match current with
  | Some prev =>
      if (len <=? 1)%nat then mret None else
      idx ← gets sched_idx;
      let next := ((idx + 1) mod len)%nat in
      q ← gets sched_runqueue;
      target ← arr_get q next;
      match target with
      | Some target' =>
          if decide (target' = prev) then mret None else
          modify (set_current target) ;;
          modify (set_idx next) ;;
          mret (Some (prev, target'))
      | None => mret None
      end
  | None => mret None
  end.
