(* ===== verification/SchedTheory.v ===== *)
(** * Theorems about the scheduler

    The run queue refines an abstract round-robin queue: a duplicate-free list of
    VCPUs and a cursor. Its invariant holds in every reachable state, no operation
    ever indexes outside the queue, and every registered VCPU is scheduled within
    one round.                                                                  *)

From Stdlib Require Import ZArith Lia.
From stdpp Require Import base list relations.
From S2P Require Import Prelude Vcpu VcpuTheory Sched.

(** ** The abstract scheduler *)

(** The VCPUs in queue order and the position of the current one; [rr_queue] is
    empty exactly when there is no current VCPU. *)
Record rr := RR { rr_queue : list nat; rr_cursor : nat }.

Definition rr_current (r : rr) : option nat := rr_queue r !! rr_cursor r.

Definition rr_insert (p : nat) (r : rr) : rr :=
  if decide (p ∈ rr_queue r ∨ (VCPU_SCHED_MAX ≤ length (rr_queue r))%nat) then r
  else RR (rr_queue r ++ [p]) (rr_cursor r).

Definition rr_position (p : nat) (r : rr) : nat :=
  default (rr_cursor r) (fst <$> list_find (p =.) (rr_queue r)).

Definition rr_register (p : option nat) (r : rr) : rr :=
  match p with Some p => rr_insert p r | None => r end.

Definition rr_set_current (p : option nat) (r : rr) : rr :=
  match p with
  | Some p => let r := rr_insert p r in RR (rr_queue r) (rr_position p r)
  | None => r
  end.

Definition rr_next (r : rr) : rr :=
  RR (rr_queue r) ((rr_cursor r + 1) mod length (rr_queue r)).

(** The concrete queue holds the list [l]. *)
Record queue_repr (s : sched) (l : list nat) : Prop := {
  sr_len : sched_len s = length l;
  sr_max : (length l ≤ VCPU_SCHED_MAX)%nat;
  sr_size : length (sched_runqueue s) = VCPU_SCHED_MAX;
  sr_queue i : (i < length l)%nat → sched_runqueue s !! i = Some (l !! i);
  sr_nodup : NoDup l;
}.

(** The concrete scheduler holds an abstract one. *)
Record sched_repr (s : sched) (r : rr) : Prop := {
  sr_repr : queue_repr s (rr_queue r);
  sr_cursor : rr_queue r = [] ∧ rr_cursor r = O ∨ (rr_cursor r < length (rr_queue r))%nat;
  sr_idx : sched_idx s = rr_cursor r;
  sr_current : sched_current s = rr_current r;
}.

Section ops.
Lemma sched_bss_repr : sched_repr sched_bss (RR [] 0).
Proof.
  split; simpl; try done; [|by left]. split; simpl; try done; try lia. constructor.
Qed.

Lemma find_loop_eq s (l : list nat) p n i :
  queue_repr s l → (i + n = length l)%nat →
  sched_find_loop (Some p) n i s =
    Ok (match list_find (p =.) (drop i l) with
        | Some (k, _) => Z.of_nat (i + k)
        | None => (-1)%Z
        end) s.
Proof.
  intros Hs. revert i. induction n as [|n IH]; intros i Hi; cbn [sched_find_loop].
  { by rewrite drop_ge by lia. }
  destruct (lookup_lt_is_Some_2 l i ltac:(lia)) as [x Hx].
  unfold arr_get. mstep. rewrite (sr_queue _ _ Hs) by lia. mstep. rewrite Hx.
  rewrite (drop_S _ _ _ Hx). cbn [list_find].
  destruct (decide (p = x)) as [->|Hne].
  - rewrite !decide_True by done. by rewrite Nat.add_0_r.
  - rewrite !decide_False by congruence. rewrite IH by lia.
    destruct (list_find (p =.) (drop (S i) l)) as [[k y]|]; [|done].
    cbn. by rewrite Nat.add_succ_r.
Qed.

Lemma find_slot_eq s (l : list nat) p :
  queue_repr s l →
  sched_find_slot (Some p) s =
    Ok (match list_find (p =.) l with Some (k, _) => Z.of_nat k | None => (-1)%Z end) s.
Proof.
  intros Hs. unfold sched_find_slot. mstep. rewrite (sr_len _ _ Hs). by rewrite (find_loop_eq s l).
Qed.

Lemma list_find_not_in (p : nat) l : list_find (p =.) l = None → p ∉ l.
Proof. intros Hf. rewrite list_find_None in Hf. rewrite Forall_forall in Hf. naive_solver. Qed.

Lemma list_find_in (p : nat) l k y : list_find (p =.) l = Some (k, y) → p ∈ l ∧ l !! k = Some p.
Proof. intros (Hk & -> & _)%list_find_Some. split; [by eapply list_elem_of_lookup_2|done]. Qed.

(** [sched_runqueue[sched_len++] = vcpu]. *)
Definition pushed (p : nat) (s : sched) : sched :=
  Sched (<[sched_len s := Some p]> (sched_runqueue s)) (S (sched_len s)) (sched_idx s) (sched_current s).

Lemma pushed_repr s l p :
  queue_repr s l → p ∉ l → (length l < VCPU_SCHED_MAX)%nat → queue_repr (pushed p s) (l ++ [p]).
Proof.
  intros [Hlen Hmax Hsize Hq Hnd] Hp Hl. split; cbn [sched_len sched_runqueue pushed].
  - rewrite length_app, Hlen. simpl. lia.
  - rewrite length_app. simpl. lia.
  - by rewrite length_insert.
  - intros i. rewrite length_app. simpl. intros Hi. destruct (decide (i = length l)) as [->|Hne].
    + rewrite Hlen, list_lookup_insert_eq by lia. by rewrite list_lookup_middle.
    + rewrite list_lookup_insert_ne by lia. rewrite Hq by lia. by rewrite lookup_app_l by lia.
  - apply NoDup_app. split_and!; [done| |apply NoDup_singleton]. intros x Hx ->%list_elem_of_singleton.
    done.
Qed.

Lemma queue_repr_cursor s l i c :
  queue_repr s l → queue_repr (Sched (sched_runqueue s) (sched_len s) i c) l.
Proof. by intros []. Qed.

Lemma push_eq s l p : queue_repr s l → (sched_len s < VCPU_SCHED_MAX)%nat →
  (q ← gets sched_runqueue;
   q' ← arr_set q (sched_len s) (Some p);
   modify (set_runqueue q') ;;
   modify (set_len (S (sched_len s))) ;;
   mret (Z.of_nat (sched_len s))) s = Ok (Z.of_nat (sched_len s)) (pushed p s).
Proof.
  intros Hq Hl. unfold arr_set. mstep. by rewrite decide_True by (rewrite (sr_size _ _ Hq); lia).
Qed.

(** Run-queue operations on a represented scheduler: they return and implement
    the abstract ones. *)
Lemma register_refines s r p :
  sched_repr s r →
  ∃ s', vcpu_scheduler_register p s = Ok () s' ∧ sched_repr s' (rr_register p r).
Proof.
  intros [Hq Hc Hi Hcur]. unfold vcpu_scheduler_register. mstep.
  destruct p as [p|]; [|by exists s]. rewrite bool_decide_eq_false_2 by done. cbn [orb rr_register].
  rewrite (sr_len _ _ Hq). unfold rr_insert.
  destruct (Nat.leb_spec VCPU_SCHED_MAX (length (rr_queue r))).
  { exists s. rewrite decide_True by auto. by split. }
  mstep_by ltac:(by apply find_slot_eq).
  destruct (list_find (p =.) (rr_queue r)) as [[k y]|] eqn:Hf.
  { apply list_find_in in Hf as [Hin _]. rewrite (proj2 (Z.leb_le _ _)) by lia.
    exists s. rewrite decide_True by auto. by split. }
  apply list_find_not_in in Hf. change (0 <=? -1)%Z with false. cbv iota.
  rewrite decide_False by (intros [?|?]; [done|lia]).
  pose proof (pushed_repr _ _ p Hq Hf ltac:(lia)) as Hpush.
  unfold arr_set. mstep. rewrite decide_True by (rewrite (sr_size _ _ Hq); lia).
  do 4 mstep. cbn [set_len set_runqueue sched_current]. rewrite <-(sr_len _ _ Hq).
  rewrite Hcur. unfold rr_current in *. destruct (rr_queue r !! rr_cursor r) as [c|] eqn:Hlk.
  - rewrite bool_decide_eq_false_2 by done. eexists. split; [reflexivity|].
    apply lookup_lt_Some in Hlk as Hlt.
    split; [exact Hpush|right|exact Hi|]; cbn [rr_queue rr_cursor].
    + rewrite length_app. lia.
    + change (sched_current s = (rr_queue r ++ [p]) !! rr_cursor r). by rewrite Hcur, lookup_app_l.
  - rewrite bool_decide_eq_true_2 by done. eexists. split; [reflexivity|].
    destruct Hc as [[Hnil Hz]|Hlt]; [|by apply lookup_ge_None in Hlk; lia].
    rewrite Hnil, Hz in *. pose proof (sr_len _ _ Hq) as Hl0. cbn [length] in Hl0.
    split; [exact (queue_repr_cursor (pushed p s) _ _ _ Hpush)|right|..]; cbn; rewrite ?Hl0; (lia || done).
Qed.

Lemma set_current_refines s r p :
  sched_repr s r →
  ∃ s', vcpu_scheduler_set_current p s = Ok () s' ∧ sched_repr s' (rr_set_current p r).
Proof.
  intros Hs. pose proof Hs as [Hq Hc Hi Hcur]. unfold vcpu_scheduler_set_current.
  destruct p as [p|]; [|by exists s]. rewrite bool_decide_eq_false_2 by done.
  cbn [rr_set_current]. mstep_by ltac:(by apply find_slot_eq). mstep. rewrite (sr_len _ _ Hq).
  unfold rr_insert, rr_position. destruct (list_find (p =.) (rr_queue r)) as [[k y]|] eqn:Hf.
  - pose proof (list_find_in _ _ _ _ Hf) as [Hin Hk]. rewrite (proj2 (Z.ltb_ge _ _)) by lia.
    rewrite decide_True by auto. cbn [andb]. mstep. rewrite (proj2 (Z.leb_le _ _)) by lia.
    mstep. eexists. split; [reflexivity|]. rewrite Hf. cbn [fst fmap option_fmap option_map default].
    apply lookup_lt_Some in Hk as Hlt. rewrite Nat2Z.id.
    split; [exact (queue_repr_cursor s _ k (Some p) Hq)|by right|done|]. cbn. by rewrite Hk.
  - pose proof (list_find_not_in _ _ Hf) as Hnin. change (-1 <? 0)%Z with true. cbn [andb].
    destruct (Nat.ltb_spec (length (rr_queue r)) VCPU_SCHED_MAX) as [Hlt|Hge].
    + rewrite decide_False by (intros [?|?]; [done|lia]).
      pose proof (pushed_repr _ _ p Hq Hnin Hlt) as Hpush.
      rewrite <-(sr_len _ _ Hq) in Hlt |- *.
      rewrite (bind_Ok _ _ _ _ _ (push_eq _ _ p Hq Hlt)).
      rewrite (proj2 (Z.leb_le _ _)) by lia. mstep. eexists. split; [reflexivity|].
      cbn [rr_queue rr_cursor]. rewrite list_find_app_r by done. cbn [list_find].
      rewrite decide_True by done. cbn [fmap option_fmap option_map prod_map fst default].
      split; cbn [rr_queue rr_cursor id]; rewrite ?Nat.add_0_l.
      * exact (queue_repr_cursor (pushed p s) _ _ _ Hpush).
      * right. rewrite length_app. simpl. lia.
      * cbn. by rewrite Nat2Z.id, (sr_len _ _ Hq).
      * unfold rr_current. cbn. by rewrite list_lookup_middle.
    + rewrite decide_True by auto. mstep. exists s. split; [done|]. rewrite Hf. by destruct r.
Qed.

Lemma pick_refines s r :
  sched_repr s r →
  match rr_current r with
  | Some prev =>
      if (length (rr_queue r) <=? 1)%nat then sched_pick s = Ok None s
      else ∃ target s', sched_pick s = Ok (Some (prev, target)) s' ∧ sched_repr s' (rr_next r) ∧
        rr_current (rr_next r) = Some target ∧ prev ≠ target
  | None => sched_pick s = Ok None s
  end.
Proof.
  intros Hs. pose proof Hs as [Hq Hc Hi Hcur]. unfold sched_pick. do 2 mstep. rewrite Hcur.
  destruct (rr_current r) as [prev|] eqn:Hprev; [|done]. rewrite (sr_len _ _ Hq).
  destruct (Nat.leb_spec (length (rr_queue r)) 1); [done|]. do 2 mstep. rewrite Hi.
  set (next := ((rr_cursor r + 1) mod length (rr_queue r))%nat).
  assert (next < length (rr_queue r))%nat as Hnext by (apply Nat.mod_upper_bound; lia).
  destruct (lookup_lt_is_Some_2 _ _ Hnext) as [target Htarget].
  assert (rr_cursor r < length (rr_queue r))%nat as Hlt by (by eapply lookup_lt_Some).
  assert (target ≠ prev) as Hne.
  { intros ->. pose proof (NoDup_lookup _ _ _ _ (sr_nodup _ _ Hq) Htarget Hprev) as Heq.
    subst next. destruct (decide (rr_cursor r + 1 = length (rr_queue r))%nat) as [He|].
    - rewrite He, Nat.Div0.mod_same in Heq. lia.
    - rewrite Nat.mod_small in Heq by lia. lia. }
  unfold arr_get. rewrite (sr_queue _ _ Hq) by done. mstep. rewrite Htarget.
  rewrite decide_False by done. do 2 mstep. exists target. eexists. split; [reflexivity|].
  split; [|done]. split; [exact (queue_repr_cursor s _ _ _ Hq)|by right|done|].
  unfold rr_current. cbn. fold next. by rewrite Htarget.
Qed.
End ops.

(** ** Sequences of operations *)

Inductive sched_op :=
  | Register (p : vptr)
  | SetCurrent (p : vptr)
  | Yield.

Definition run_op (o : sched_op) : M sched () :=
  match o with
  | Register p => vcpu_scheduler_register p
  | SetCurrent p => vcpu_scheduler_set_current p
  | Yield => sched_pick ;; mret ()
  end.

Fixpoint run_ops (l : list sched_op) : M sched () :=
  match l with
  | [] => mret ()
  | o :: l => run_op o ;; run_ops l
  end.

(** The abstract round-robin scheduler. *)
Definition rr_step (o : sched_op) (r : rr) : rr :=
  match o with
  | Register p => rr_register p r
  | SetCurrent p => rr_set_current p r
  | Yield => if (length (rr_queue r) <=? 1)%nat then r else rr_next r
  end.

(** Transitions of the concrete scheduler and the states they reach. *)
Inductive sched_step : sched → sched → Prop :=
  | sched_step_op o s s' : run_op o s = Ok () s' → sched_step s s'.

Definition sched_reachable (s : sched) : Prop := rtc sched_step sched_bss s.

Section sequences.
Lemma run_op_refines o s r :
  sched_repr s r → ∃ s', run_op o s = Ok () s' ∧ sched_repr s' (rr_step o r).
Proof.
  intros Hs. destruct o as [p|p|]; cbn [run_op rr_step].
  - by apply register_refines.
  - by apply set_current_refines.
  - pose proof (pick_refines s r Hs) as Hp. pose proof (sr_cursor _ _ Hs) as Hc.
    unfold mbind, M_bind. destruct (rr_current r) as [prev|] eqn:Hcur.
    + destruct (Nat.leb_spec (length (rr_queue r)) 1).
      * rewrite Hp. by exists s.
      * destruct Hp as (target & s' & -> & Hs' & _). by exists s'.
    + rewrite Hp. exists s. split; [done|]. apply lookup_ge_None in Hcur.
      destruct Hc as [[Hn _]|?]; [|lia]. by rewrite Hn.
Qed.

Lemma run_ops_refines l s r :
  sched_repr s r →
  ∃ s', run_ops l s = Ok () s' ∧ sched_repr s' (foldl (λ r o, rr_step o r) r l).
Proof.
  revert s r. induction l as [|o l IH]; intros s r Hs; cbn [run_ops foldl]; [by exists s|].
  destruct (run_op_refines o s r Hs) as (s1 & H1 & Hs1).
  rewrite (bind_Ok _ _ _ _ _ H1). by apply IH.
Qed.

Lemma reachable_repr s : sched_reachable s → ∃ r, sched_repr s r.
Proof.
  intros Hr. pose proof (ex_intro _ _ sched_bss_repr) as H0. revert H0.
  induction Hr as [s|s1 s2 s3 [o s1' s2' Ho] _ IH]; [done|]. intros [r Hs]. apply IH.
  destruct (run_op_refines o _ _ Hs) as (s' & Ho' & Hs'). rewrite Ho in Ho'. injection Ho' as <-.
  eauto.
Qed.

Lemma yields_repr k s r : sched_repr s r → (1 < length (rr_queue r))%nat →
  ∃ s', run_ops (replicate k Yield) s = Ok () s' ∧
    sched_repr s' (RR (rr_queue r) ((rr_cursor r + k) mod length (rr_queue r))).
Proof.
  intros Hs Hl. destruct (run_ops_refines (replicate k Yield) s r Hs) as (s' & Hr & Hs').
  exists s'. split; [exact Hr|]. clear Hr.
  enough (foldl (λ r o, rr_step o r) r (replicate k Yield) =
    RR (rr_queue r) ((rr_cursor r + k) mod length (rr_queue r))) as <- by done.
  clear Hs'. destruct (sr_cursor _ _ Hs) as [[Hn _]|Hc]; [rewrite Hn in Hl; simpl in Hl; lia|]. clear Hs.
  revert r Hl Hc. induction k as [|k IH]; intros [q c] Hl Hc; cbn [rr_queue rr_cursor] in *.
  - by rewrite Nat.add_0_r, Nat.mod_small by lia.
  - cbn [replicate foldl rr_step rr_queue]. rewrite (proj2 (Nat.leb_gt _ _)) by lia.
    unfold rr_next. cbn [rr_queue rr_cursor]. rewrite IH; cbn [rr_queue rr_cursor]; [|lia|].
    + replace (c + S k)%nat with (c + 1 + k)%nat by lia. by rewrite Nat.Div0.add_mod_idemp_l.
    + apply Nat.mod_upper_bound. lia.
Qed.
End sequences.

(** ** Properties *)

(** C9. Every sequence of calls, with any pointers, NULL and unregistered ones
    included, runs to the end without touching the run queue out of range, and the
    scheduler ends in the state of the abstract round-robin scheduler after the
    same sequence. *)
Theorem sched_refines_round_robin l :
  ∃ s, run_ops l sched_bss = Ok () s ∧
    sched_repr s (foldl (λ r o, rr_step o r) (RR [] 0) l).
Proof. apply run_ops_refines, sched_bss_repr. Qed.

(** C24. In every reachable state the run queue holds at most 8 VCPUs, each once
    and none NULL, in its first [sched_len] entries, and the current VCPU is the
    entry at [sched_idx], missing exactly when nothing is registered. *)
Theorem sched_invariant s :
  sched_reachable s →
  length (sched_runqueue s) = VCPU_SCHED_MAX ∧ (sched_len s ≤ VCPU_SCHED_MAX)%nat ∧
  (∀ i, (i < sched_len s)%nat → ∃ p, sched_runqueue s !! i = Some (Some p)) ∧
  (∀ i j p, (i < sched_len s)%nat → (j < sched_len s)%nat →
    sched_runqueue s !! i = Some (Some p) → sched_runqueue s !! j = Some (Some p) → i = j) ∧
  (sched_len s = O → sched_current s = None) ∧
  (sched_len s ≠ O → (sched_idx s < sched_len s)%nat ∧
    sched_runqueue s !! sched_idx s = Some (sched_current s) ∧ is_Some (sched_current s)).
Proof.
  intros [r [[Hlen Hmax Hsize Hq Hnd] Hc Hi Hcur]]%reachable_repr. rewrite Hlen, Hcur, Hi.
  unfold rr_current. split_and!; try done.
  - intros i Hlt. destruct (lookup_lt_is_Some_2 _ _ Hlt) as [p Hp]. exists p. by rewrite Hq, Hp.
  - intros i j p Hli Hlj. rewrite !Hq by done. intros [= Hpi] [= Hpj]. by eapply NoDup_lookup.
  - intros Hz. apply lookup_ge_None. lia.
  - intros Hz. destruct Hc as [[Hn _]|Hlt]; [by rewrite Hn in Hz|].
    split_and!; [done|by apply Hq|by apply lookup_lt_is_Some_2].
Qed.

(** C25. Fairness: when several VCPUs are registered, every one of them is the
    current VCPU again after fewer yields than there are VCPUs. *)
Theorem sched_yield_fair s p i :
  sched_reachable s → (1 < sched_len s)%nat → (i < sched_len s)%nat →
  sched_runqueue s !! i = Some (Some p) →
  ∃ k s', (k < sched_len s)%nat ∧ run_ops (replicate k Yield) s = Ok () s' ∧
    sched_current s' = Some p.
Proof.
  intros [r Hs]%reachable_repr Hl Hi Hp. destruct (Hs) as [[Hlen _ _ Hq _] Hc _ _].
  rewrite Hlen in *. set (n := length (rr_queue r)) in *.
  destruct Hc as [[Hn _]|Hc]; [subst n; rewrite Hn in Hl; simpl in Hl; lia|].
  exists ((i + n - rr_cursor r) mod n)%nat.
  destruct (yields_repr ((i + n - rr_cursor r) mod n) s r Hs Hl) as (s' & Hr & Hs').
  exists s'. split_and!; [apply Nat.mod_upper_bound; lia|done|].
  rewrite (sr_current _ _ Hs'). unfold rr_current. cbn [rr_queue rr_cursor]. fold n.
  rewrite Nat.Div0.add_mod_idemp_r. replace (rr_cursor r + (i + n - rr_cursor r))%nat with (i + 1 * n)%nat by lia.
  rewrite Nat.Div0.mod_add, Nat.mod_small by lia. rewrite Hq in Hp by done. by injection Hp.
Qed.

(** ** Witnesses: the two VCPUs [el2_main] registers *)

Lemma demo_reachable : sched_reachable demo_queue.
Proof.
  eapply rtc_l; [by apply (sched_step_op (Register (Some 0%nat)))|].
  eapply rtc_l; [by apply (sched_step_op (Register (Some 1%nat)))|].
  by apply rtc_once, (sched_step_op (SetCurrent (Some 0%nat))).
Qed.

Lemma sched_invariant_witness : (sched_len demo_queue ≤ VCPU_SCHED_MAX)%nat.
Proof. apply (sched_invariant demo_queue demo_reachable). Defined.

Lemma sched_yield_fair_witness :
  ∃ k s', (k < 2)%nat ∧ run_ops (replicate k Yield) demo_queue = Ok () s' ∧ sched_current s' = Some 1%nat.
Proof. apply (sched_yield_fair demo_queue 1 1 demo_reachable); [simpl; lia|simpl; lia|reflexivity]. Defined.
