(* ===== verification/Context.v ===== *)
(** * Saving and restoring a VCPU's register context: [core/vcpu.c], lines 111-347

    Floating point and SIMD, SVE (not implemented by the code), pointer
    authentication and the virtual interrupt controller.                        *)

From Stdlib Require Import ZArith Lia Ascii String.
From stdpp Require Import base gmap list strings.
From S2P Require Import Prelude Machine Uart Vcpu.

#[local] Open Scope string_scope.
#[local] Open Scope Z_scope.

(** Whether the compiler defines [__ARM_FEATURE_PAUTH] (the Makefile's flags
    select the base architecture, where it does not). *)
Class Features := { arm_feature_pauth : bool }.

(** ** The names of the interrupt controller's registers *)

Definition ICH_LR_SYSREG (n : nat) : string :=
  match n with
  | 0%nat => "S3_4_C12_C12_0"
  | 1%nat => "S3_4_C12_C12_1"
  | 2%nat => "S3_4_C12_C12_2"
  | 3%nat => "S3_4_C12_C12_3"
  | 4%nat => "S3_4_C12_C12_4"
  | 5%nat => "S3_4_C12_C12_5"
  | 6%nat => "S3_4_C12_C12_6"
  | 7%nat => "S3_4_C12_C12_7"
  | 8%nat => "S3_4_C12_C13_0"
  | 9%nat => "S3_4_C12_C13_1"
  | 10%nat => "S3_4_C12_C13_2"
  | 11%nat => "S3_4_C12_C13_3"
  | 12%nat => "S3_4_C12_C13_4"
  | 13%nat => "S3_4_C12_C13_5"
  | 14%nat => "S3_4_C12_C13_6"
  | 15%nat => "S3_4_C12_C13_7"
  | _ => ""
  end.
Definition ICH_VTR_SYSREG : string := "S3_4_C12_C11_1".
Definition ICH_VMCR_SYSREG : string := "S3_4_C12_C11_7".
Definition ICH_AP0R0_SYSREG : string := "S3_4_C12_C8_0".

(** What the assembler makes of a generic name: the Arm ARM gives ICH_LR<n>_EL2
    the encoding op0 = 3, op1 = 4, CRn = 12, CRm = 12 + n / 8, op2 = n mod 8. *)
Definition sysreg_of_name (name : string) : option sysreg :=
  if String.eqb name "S3_4_C12_C11_1" then Some ICH_VTR
  else if String.eqb name "S3_4_C12_C11_7" then Some ICH_VMCR
  else if String.eqb name "S3_4_C12_C8_0" then Some ICH_AP0R0
  else
    let digit c := Z.to_nat (char_code c - 48) in
    match list_ascii_of_string name with
    | ["S"; "3"; "_"; "4"; "_"; "C"; "1"; "2"; "_"; "C"; "1"; "2"; "_"; d]%char =>
        Some (ICH_LR (digit d))
    | ["S"; "3"; "_"; "4"; "_"; "C"; "1"; "2"; "_"; "C"; "1"; "3"; "_"; d]%char =>
        Some (ICH_LR (8 + digit d))
    | _ => None
    end.

Section context.
Context `{!Console, !Counter, !Features}.

Definition mrs_name (name : string) : M machine Z := r ← of_option (sysreg_of_name name); mrs r.
Definition msr_name (name : string) (v : Z) : M machine () :=
  r ← of_option (sysreg_of_name name); msr r v.

(** ** Floating point *)

(** [stp q(2i), q(2i+1), [base, #32 * i]], for the sixteen pairs. *)
Definition stp_q (q base : list (Z * Z)) : list (Z * Z) :=
  for_up 16 (λ i b,
    <[(2 * i + 1)%nat := q !!! (2 * i + 1)%nat]> (<[(2 * i)%nat := q !!! (2 * i)%nat]> b)) base.

(** [ldp q(2i), q(2i+1), [base, #32 * i]], for the sixteen pairs. *)
Definition ldp_q (base q : list (Z * Z)) : list (Z * Z) :=
  for_up 16 (λ i b,
    <[(2 * i + 1)%nat := base !!! (2 * i + 1)%nat]> (<[(2 * i)%nat := base !!! (2 * i)%nat]> b)) q.

Definition save_fp (vcpu : vptr) : M hv () :=
  match vcpu with
  | None => mret ()
  | Some p =>
      q ← cpu (gets vregs);
      update_arch p (λ a, set_fp (Fp (fp_used (fp a)) (fpcr (fp a)) (fpsr (fp a))
                                     (stp_q q (fp_vregs (fp a)))) a) ;;
      tmp ← cpu (mrs FPCR);
      update_arch p (λ a, set_fp (Fp (fp_used (fp a)) (u32 tmp) (fpsr (fp a)) (fp_vregs (fp a))) a) ;;
      tmp ← cpu (mrs FPSR);
      update_arch p (λ a, set_fp (Fp (fp_used (fp a)) (fpcr (fp a)) (u32 tmp) (fp_vregs (fp a))) a) ;;
      update_arch p (λ a, set_fp (Fp 1 (fpcr (fp a)) (fpsr (fp a)) (fp_vregs (fp a))) a)
  end.

Definition restore_fp (vcpu : vptr) : M hv () :=
  match vcpu with
  | None => mret ()
  | Some p =>
      v ← deref p;
      let f := fp (arch v) in
      if fp_used f =? 0 then mret () else
      cpu (modify (λ m, set_vregs (ldp_q (fp_vregs f) (vregs m)) m)) ;;
      cpu (msr FPCR (fpcr f)) ;;
      cpu (msr FPSR (fpsr f))
  end.

(** ** SVE *)

Definition save_sve (vcpu : vptr) : M hv () :=
  match vcpu with
  | None => mret ()
  | Some p => update_arch p (set_sve (Sve 0))
  end.

Definition restore_sve (vcpu : vptr) : M hv () := mret ().

(** ** Pointer authentication *)

Definition save_pauth (vcpu : vptr) : M hv () :=
  match vcpu with
  | None => mret ()
  | Some p =>
      let upd f := update_arch p (λ a, set_pauth (f (pauth a)) a) in
      if arm_feature_pauth then
        k ← cpu (mrs APIAKEY_EL1);
        upd (λ u, Pauth (pauth_used u) k (apib u) (apda u) (apdb u)) ;;
        k ← cpu (mrs APIBKEY_EL1);
        upd (λ u, Pauth (pauth_used u) (apia u) k (apda u) (apdb u)) ;;
        k ← cpu (mrs APDAKEY_EL1);
        upd (λ u, Pauth (pauth_used u) (apia u) (apib u) k (apdb u)) ;;
        k ← cpu (mrs APDBKEY_EL1);
        upd (λ u, Pauth (pauth_used u) (apia u) (apib u) (apda u) k) ;;
        cpu (msr APIAKEY_EL1 0) ;;
        cpu (msr APIBKEY_EL1 0) ;;
        cpu (msr APDAKEY_EL1 0) ;;
        cpu (msr APDBKEY_EL1 0) ;;
        cpu isb ;;
        upd (λ u, Pauth 1 (apia u) (apib u) (apda u) (apdb u))
      else upd (λ u, Pauth 0 (apia u) (apib u) (apda u) (apdb u))
  end.

Definition restore_pauth (vcpu : vptr) : M hv () :=
  match vcpu with
  | None => mret ()
  | Some p =>
      v ← deref p;
      let u := pauth (arch v) in
      if pauth_used u =? 0 then mret () else
      if arm_feature_pauth then
        cpu (msr APIAKEY_EL1 (apia u)) ;;
        cpu (msr APIBKEY_EL1 (apib u)) ;;
        cpu (msr APDAKEY_EL1 (apda u)) ;;
        cpu (msr APDBKEY_EL1 (apdb u))
      else mret ()
  end.

(** ** The virtual interrupt controller *)

Definition VGIC_LR_CAPACITY : Z := 16.

Definition vgic_detect_lr_count : M hv Z :=
  vtr ← cpu (mrs_name ICH_VTR_SYSREG);
  let count := u64 (Z.land vtr 0xf + 1) in
  mret (if VGIC_LR_CAPACITY <? count then VGIC_LR_CAPACITY else count).

Definition vgic_lr_count : M hv Z :=
  cached ← gets vgic_cached;
  (if cached =? 0 then
     count ← vgic_detect_lr_count;
     modify (set_vgic_cached count) ;;
     if count =? 0 then modify (set_vgic_cached 1) else mret ()
   else mret ()) ;;
  gets vgic_cached.

Definition set_lr (n : nat) (x : Z) (g : vgic_state) : vgic_state :=
  Vgic (<[n := x]> (lrs g)) (vmcr g) (apr g).

Definition SAVE_VGIC_LR_N (p n : nat) : M hv () :=
  x ← cpu (mrs_name (ICH_LR_SYSREG n));
  update_arch p (λ a, set_vgic (set_lr n x (vgic a)) a).

Definition RESTORE_VGIC_LR_N (p n : nat) : M hv () :=
  v ← deref p;
  x ← arr_get (lrs (vgic (arch v))) n;
  cpu (msr_name (ICH_LR_SYSREG n) x).

Definition SAVE_VGIC_LR_IF (p : nat) (count : Z) (n : nat) : M hv () :=
  if Z.of_nat n <? count then SAVE_VGIC_LR_N p n else mret ().

Definition RESTORE_VGIC_LR_IF (p : nat) (count : Z) (n : nat) : M hv () :=
  if Z.of_nat n <? count then RESTORE_VGIC_LR_N p n else mret ().

(** The sixteen macro calls, 0 to 15. *)
Definition save_vgic (vcpu : vptr) : M hv () :=
  match vcpu with
  | None => mret ()
  | Some p =>
      lr_count ← vgic_lr_count;
      for_upM 16 (SAVE_VGIC_LR_IF p lr_count) ;;
      tmp ← cpu (mrs_name ICH_VMCR_SYSREG);
      update_arch p (λ a, set_vgic (Vgic (lrs (vgic a)) (u32 tmp) (apr (vgic a))) a) ;;
      tmp ← cpu (mrs_name ICH_AP0R0_SYSREG);
      update_arch p (λ a, set_vgic (Vgic (lrs (vgic a)) (vmcr (vgic a)) (u32 tmp)) a)
  end.

Definition restore_vgic (vcpu : vptr) : M hv () :=
  match vcpu with
  | None => mret ()
  | Some p =>
      lr_count ← vgic_lr_count;
      for_upM 16 (RESTORE_VGIC_LR_IF p lr_count) ;;
      v ← deref p;
      cpu (msr_name ICH_VMCR_SYSREG (vmcr (vgic (arch v)))) ;;
      v ← deref p;
      cpu (msr_name ICH_AP0R0_SYSREG (apr (vgic (arch v)))) ;;
      cpu isb
  end.

(** The four saves and the four restores, as [world_switch] orders them. *)
Definition save_context (from : vptr) : M hv () :=
  save_fp from ;; save_sve from ;; save_pauth from ;; save_vgic from.

Definition restore_context (to : vptr) : M hv () :=
  restore_vgic to ;; restore_pauth to ;; restore_sve to ;; restore_fp to.
End context.
