(* ===== verification/ContextTheory.v ===== *)
(** * Theorems about saving and restoring a VCPU's registers

    What each save captures, what each restore puts back, and that the list
    registers of the interrupt controller are detected once and never beyond the
    sixteen the VCPU has room for.                                              *)

From Stdlib Require Import ZArith Lia String.
From stdpp Require Import base gmap list strings.
From S2P Require Import Prelude Machine Uart Vcpu VcpuTheory Context.

#[local] Open Scope Z_scope.

(** ** SIMD registers *)

Section simd.
Lemma stp_ldp_same : stp_q = λ q b, ldp_q q b.
Proof. reflexivity. Qed.

Lemma pair_loop_lookup (q b : list (Z * Z)) n i :
  for_up n (λ i b,
    <[(2 * i + 1)%nat := q !!! (2 * i + 1)%nat]> (<[(2 * i)%nat := q !!! (2 * i)%nat]> b)) b !! i =
    if decide (i < 2 * n ∧ i < length b)%nat then Some (q !!! i) else b !! i.
Proof.
  assert (∀ n, length (for_up n (λ i b,
    <[(2 * i + 1)%nat := q !!! (2 * i + 1)%nat]> (<[(2 * i)%nat := q !!! (2 * i)%nat]> b)) b) = length b) as Hlen.
  { intros k. induction k as [|k IH]; [done|]. unfold for_up; fold @for_up. by rewrite !length_insert. }
  induction n as [|n IH]; [rewrite decide_False by lia; done|].
  change (for_up (S n) ?body b) with (body n (for_up n body b)). cbv beta.
  rewrite !list_lookup_insert, length_insert, !Hlen, IH.
  repeat case_decide; try lia; try done; f_equal; f_equal; lia.
Qed.

(** The sixteen pair stores copy all 32 registers. *)
Lemma stp_q_all q b : length q = 32%nat → length b = 32%nat → stp_q q b = q.
Proof.
  intros Hq Hb. apply list_eq. intros i. unfold stp_q. rewrite pair_loop_lookup, Hb.
  case_decide as Hi.
  - destruct (lookup_lt_is_Some_2 q i ltac:(lia)) as [x Hx]. by rewrite (list_lookup_total_correct _ _ _ Hx), Hx.
  - rewrite !lookup_ge_None_2 by lia. done.
Qed.
End simd.

(** ** Names *)

Section names.
Lemma ich_lr_name n : (n < 16)%nat → sysreg_of_name (ICH_LR_SYSREG n) = Some (ICH_LR n).
Proof. intros Hn. do 16 (destruct n as [|n]; [reflexivity|]). lia. Qed.

Lemma mrs_lr `{!Counter} n m : (n < 16)%nat →
  mrs_name (ICH_LR_SYSREG n) m = Ok (sys m (ICH_LR n)) m.
Proof. intros Hn. unfold mrs_name. by rewrite ich_lr_name. Qed.

Lemma msr_lr `{!Counter} n v m : (n < 16)%nat →
  msr_name (ICH_LR_SYSREG n) v m = msr (ICH_LR n) v m.
Proof. intros Hn. unfold msr_name. by rewrite ich_lr_name. Qed.
End names.

Definition pauth_regs : list sysreg := [APIAKEY_EL1; APIBKEY_EL1; APDAKEY_EL1; APDBKEY_EL1].

Ltac not_listed := unfold pauth_regs; rewrite !not_elem_of_cons; split_and!; [..|apply not_elem_of_nil]; try done.

Section context.
Context `{!Console, !Counter, !Features}.

(** ** Saves *)

(** The floating-point block after a save. *)
Definition saved_fp (m : machine) : fp_state :=
  Fp 1 (u32 (sys m FPCR)) (u32 (sys m FPSR)) (vregs m).

Lemma save_fp_eq p v h :
  vcpus h !! p = Some v → length (vregs (mach h)) = 32%nat → length (fp_vregs (fp (arch v))) = 32%nat →
  save_fp (Some p) h = Ok () (put p (set_arch (set_fp (saved_fp (mach h))) v) h).
Proof.
  intros Hp Hm Hv. unfold save_fp. do 6 vstep. erewrite update_arch_Ok by (by eapply put_lookup).
  rewrite put_put. unfold set_arch, set_fp, saved_fp. cbn -[stp_q put]. by rewrite stp_q_all.
Qed.

Lemma save_sve_eq p v h : vcpus h !! p = Some v →
  save_sve (Some p) h = Ok () (put p (set_arch (set_sve (Sve 0)) v) h).
Proof. intros Hp. by apply update_arch_Ok. Qed.

(** The authentication keys after a save: captured and cleared, or not used. *)
Definition saved_pauth (m : machine) (u : pauth_state) : pauth_state :=
  if arm_feature_pauth
  then Pauth 1 (sys m APIAKEY_EL1) (sys m APIBKEY_EL1) (sys m APDAKEY_EL1) (sys m APDBKEY_EL1)
  else Pauth 0 (apia u) (apib u) (apda u) (apdb u).

Definition cleared_keys (m : machine) : machine :=
  if arm_feature_pauth
  then Machine (upd APDBKEY_EL1 0 (upd APDAKEY_EL1 0 (upd APIBKEY_EL1 0 (upd APIAKEY_EL1 0 (sys m)))))
         (vregs m) (gprs m) (reads m)
         (Isb :: Msr APDBKEY_EL1 0 :: Msr APDAKEY_EL1 0 :: Msr APIBKEY_EL1 0 :: Msr APIAKEY_EL1 0 :: trace m)
  else m.

Lemma save_pauth_eq p v h : vcpus h !! p = Some v →
  save_pauth (Some p) h =
    Ok () (put p (set_arch (set_pauth (saved_pauth (mach h) (pauth (arch v)))) v)
             (set_mach (cleared_keys (mach h)) h)).
Proof.
  intros Hp. unfold save_pauth, saved_pauth, cleared_keys. cbv zeta. destruct arm_feature_pauth.
  - do 8 vstep. do 5 (mstep_by ltac:(by apply cpu_do)).
    erewrite update_arch_Ok by (apply (put_lookup p _ v (set_mach _ h)); exact Hp).
    unfold put, set_vcpus. cbn. by rewrite list_insert_insert_eq.
  - rewrite (update_arch_Ok p v) by done. by destruct h.
Qed.

(** [vgic_lr_count]: the number of list registers, detected once. *)
Definition lr_count (h : hv) : Z :=
  if vgic_cached h =? 0 then Z.min (sys (mach h) ICH_VTR mod 16 + 1) 16 else vgic_cached h.

Lemma vgic_lr_count_eq h : vgic_lr_count h = Ok (lr_count h) (set_vgic_cached (lr_count h) h).
Proof.
  unfold vgic_lr_count, lr_count. mstep. destruct (Z.eqb_spec (vgic_cached h) 0) as [Hz|Hz].
  - pose proof (Z.mod_pos_bound (sys (mach h) ICH_VTR) 16 ltac:(lia)) as Hb.
    unfold vgic_detect_lr_count.
    assert (cpu (mrs_name ICH_VTR_SYSREG) h = Ok (sys (mach h) ICH_VTR) h) as Hr by (by apply cpu_read).
    unfold mbind, M_bind. rewrite Hr. cbv zeta. change 0xf with (Z.ones 4). rewrite land_ones_mod by lia.
    change (2 ^ 4) with 16. set (c := sys (mach h) ICH_VTR mod 16) in *. unfold u64.
    rewrite (Z.mod_small (c + 1)) by lia. unfold VGIC_LR_CAPACITY. cbn.
    rewrite (proj2 (Z.ltb_ge 16 (c + 1))) by lia. rewrite (proj2 (Z.eqb_neq (c + 1) 0)) by lia.
    cbn. by rewrite Z.min_l by lia.
  - mstep. cbn. by destruct h.
Qed.

(** List registers below [k] and [count] replaced by the hardware's. *)
Definition saved_lrs (m : machine) (count : Z) (k : nat) (l : list Z) : list Z :=
  imap (λ n x, if decide ((n < k)%nat ∧ Z.of_nat n < count) then sys m (ICH_LR n) else x) l.

Lemma saved_lrs_0 m count l : saved_lrs m count 0 l = l.
Proof.
  apply list_eq. intros i. unfold saved_lrs. rewrite list_lookup_imap.
  destruct (l !! i); [|done]. cbn. by rewrite decide_False by lia.
Qed.

Lemma saved_lrs_S m count k l :
  saved_lrs m count (S k) l =
    if decide (Z.of_nat k < count) then <[k := sys m (ICH_LR k)]> (saved_lrs m count k l)
    else saved_lrs m count k l.
Proof.
  apply list_eq. intros i. destruct (decide (Z.of_nat k < count)).
  - rewrite list_lookup_insert. unfold saved_lrs. rewrite !list_lookup_imap, length_imap.
    destruct (l !! i) eqn:Hl; cbn.
    + apply lookup_lt_Some in Hl. repeat case_decide; try lia; try done. by replace i with k by lia.
    + apply lookup_ge_None in Hl. by rewrite decide_False by lia.
  - unfold saved_lrs. rewrite !list_lookup_imap. destruct (l !! i); [cbn|done].
    repeat case_decide; try lia; done.
Qed.

Definition set_saved_lrs (m : machine) (count : Z) (k : nat) (v : vcpu) : vcpu :=
  let g := vgic (arch v) in set_arch (set_vgic (Vgic (saved_lrs m count k (lrs g)) (vmcr g) (apr g))) v.

Lemma save_lrs_eq p v count k h : (k ≤ 16)%nat → vcpus h !! p = Some v →
  for_upM k (SAVE_VGIC_LR_IF p count) h = Ok () (put p (set_saved_lrs (mach h) count k v) h).
Proof.
  intros Hk Hp. induction k as [|k IH].
  - change (Ok () h = Ok () (put p (set_saved_lrs (mach h) count 0 v) h)).
    assert (set_saved_lrs (mach h) count 0 v = v) as ->; [|by rewrite put_id].
    destruct v as [[? ? ? ? ? ? [] ?] ? ?]. unfold set_saved_lrs, set_arch, set_vgic.
    cbn -[saved_lrs]. by rewrite saved_lrs_0.
  - rewrite for_upM_S. rewrite (bind_Ok _ _ _ _ _ (IH ltac:(lia))).
    unfold SAVE_VGIC_LR_IF, SAVE_VGIC_LR_N.
    assert (set_saved_lrs (mach h) count (S k) v =
      if decide (Z.of_nat k < count)
      then set_arch (λ a, set_vgic (set_lr k (sys (mach h) (ICH_LR k)) (vgic a)) a) (set_saved_lrs (mach h) count k v)
      else set_saved_lrs (mach h) count k v) as ->.
    { unfold set_saved_lrs. rewrite saved_lrs_S. by case_decide. }
    destruct (Z.ltb_spec (Z.of_nat k) count) as [Hlt|Hge].
    + rewrite decide_True by done.
      mstep_by ltac:(apply cpu_read; rewrite mach_put; apply mrs_lr; lia).
      erewrite update_arch_Ok by (by eapply put_lookup). by rewrite put_put.
    + by rewrite decide_False by lia.
Qed.

(** The interrupt controller block after a save. *)
Definition saved_vgic (m : machine) (count : Z) (g : vgic_state) : vgic_state :=
  Vgic (saved_lrs m count 16 (lrs g)) (u32 (sys m ICH_VMCR)) (u32 (sys m ICH_AP0R0)).

Lemma save_vgic_eq p v h : vcpus h !! p = Some v →
  save_vgic (Some p) h =
    Ok () (put p (set_arch (set_vgic (saved_vgic (mach h) (lr_count h) (vgic (arch v)))) v)
             (set_vgic_cached (lr_count h) h)).
Proof.
  intros Hp. unfold save_vgic. mstep_by ltac:(apply vgic_lr_count_eq).
  set (h1 := set_vgic_cached (lr_count h) h). assert (vcpus h1 !! p = Some v) as Hp1 by done.
  mstep_by ltac:(by apply save_lrs_eq).
  mstep_by ltac:(apply cpu_read; reflexivity). vstep.
  mstep_by ltac:(apply cpu_read; reflexivity).
  erewrite update_arch_Ok by (by eapply put_lookup). by rewrite put_put.
Qed.

(** ** Restores *)

(** Machines that differ only in system registers and in what was done. *)
Record same_core (m m' : machine) : Prop := {
  sc_vregs : vregs m' = vregs m;
  sc_gprs : gprs m' = gprs m;
  sc_reads : reads m' = reads m;
}.

Definition restored_lrs (l : list Z) (count : Z) (k : nat) (f : sysreg → Z) (r : sysreg) : Z :=
  match r with
  | ICH_LR n => if decide ((n < k)%nat ∧ Z.of_nat n < count) then l !!! n else f r
  | _ => f r
  end.

Definition restored_vgic (g : vgic_state) (count : Z) (f : sysreg → Z) (r : sysreg) : Z :=
  match r with
  | ICH_VMCR => vmcr g
  | ICH_AP0R0 => apr g
  | _ => restored_lrs (lrs g) count 16 f r
  end.

Lemma restore_lrs_total p v count h :
  vcpus h !! p = Some v → length (lrs (vgic (arch v))) = 16%nat →
  total (for_upM 16 (RESTORE_VGIC_LR_IF p count)) h (λ _ h', ∃ m', h' = set_mach m' h ∧
    same_core (mach h) m' ∧ ∀ r, sys m' r = restored_lrs (lrs (vgic (arch v))) count 16 (sys (mach h)) r).
Proof.
  intros Hp Hl. apply (total_for_upM 16 _ (λ k h', ∃ m', h' = set_mach m' h ∧
    same_core (mach h) m' ∧ ∀ r, sys m' r = restored_lrs (lrs (vgic (arch v))) count k (sys (mach h)) r)).
  - exists (mach h). split; [by destruct h|]. split; [done|].
    intros []; cbn; try done.
  - intros k h' Hk (m' & -> & Hsc & Hr). unfold RESTORE_VGIC_LR_IF, RESTORE_VGIC_LR_N.
    destruct (Z.ltb_spec (Z.of_nat k) count) as [Hlt|Hge].
    + destruct (lookup_lt_is_Some_2 (lrs (vgic (arch v))) k ltac:(lia)) as [x Hx].
      unfold total, wp. mstep_by ltac:(by apply deref_Ok).
      unfold arr_get. rewrite Hx. mstep. erewrite cpu_do; [|cbn [mach set_mach]; by apply msr_lr].
      exists (emit (Msr (ICH_LR k) x) (set_sys (upd (ICH_LR k) x) m')). split; [done|].
      destruct Hsc. split; [done|]. intros r. cbn [emit set_sys sys].
      destruct (decide (ICH_LR k = r)) as [<-|Hne].
      * rewrite upd_eq. cbn. rewrite decide_True by lia. by rewrite (list_lookup_total_correct _ _ _ Hx).
      * rewrite upd_ne by done. rewrite Hr. destruct r; try done. cbn.
        repeat case_decide; try done; try lia. exfalso. apply Hne. f_equal. lia.
    + exists m'. split_and!; try done. intros r. rewrite Hr. destruct r; try done. cbn.
      repeat case_decide; try done; lia.
Qed.

Lemma restore_vgic_total p v h :
  vcpus h !! p = Some v → length (lrs (vgic (arch v))) = 16%nat →
  total (restore_vgic (Some p)) h (λ _ h', ∃ m',
    h' = set_mach m' (set_vgic_cached (lr_count h) h) ∧ same_core (mach h) m' ∧
    ∀ r, sys m' r = restored_vgic (vgic (arch v)) (lr_count h) (sys (mach h)) r).
Proof.
  intros Hp Hl. unfold restore_vgic, total, wp. mstep_by ltac:(apply vgic_lr_count_eq).
  set (h1 := set_vgic_cached (lr_count h) h). assert (vcpus h1 !! p = Some v) as Hp1 by done.
  destruct (proj1 (total_Ok _ _ _) (restore_lrs_total p v (lr_count h) h1 Hp1 Hl))
    as ([] & h2 & E & m' & -> & Hsc & Hr). rewrite (bind_Ok _ _ _ _ _ E).
  assert (∀ m, vcpus (set_mach m h1) !! p = Some v) as Hpm by done.
  mstep_by ltac:(apply deref_Ok, Hpm). mstep_by ltac:(by apply cpu_do).
  mstep_by ltac:(apply deref_Ok, Hpm). mstep_by ltac:(by apply cpu_do).
  erewrite cpu_do by done. eexists. split; [reflexivity|]. destruct Hsc as [Hv Hg Hrd].
  split; [done|]. intros r. cbn [sys emit set_sys mach set_mach].
  destruct r; simpl_regs; try done; rewrite Hr; done.
Qed.

Lemma ldp_q_all b q : length b = 32%nat → length q = 32%nat → ldp_q b q = b.
Proof. intros Hb Hq. exact (stp_q_all b q Hb Hq). Qed.

Definition restored_fp (f : fp_state) (m : machine) : machine :=
  if fp_used f =? 0 then m else
  Machine (upd FPSR (fpsr f) (upd FPCR (fpcr f) (sys m))) (ldp_q (fp_vregs f) (vregs m)) (gprs m) (reads m)
    (Msr FPSR (fpsr f) :: Msr FPCR (fpcr f) :: trace m).

Lemma restore_fp_eq p v h : vcpus h !! p = Some v →
  restore_fp (Some p) h = Ok () (set_mach (restored_fp (fp (arch v)) (mach h)) h).
Proof.
  intros Hp. unfold restore_fp, restored_fp. mstep_by ltac:(by apply deref_Ok). cbv zeta.
  destruct (fp_used (fp (arch v)) =? 0); [by destruct h|]. done.
Qed.

Definition restored_pauth (u : pauth_state) (m : machine) : machine :=
  if (pauth_used u =? 0) || negb arm_feature_pauth then m else
  Machine (upd APDBKEY_EL1 (apdb u) (upd APDAKEY_EL1 (apda u) (upd APIBKEY_EL1 (apib u)
            (upd APIAKEY_EL1 (apia u) (sys m))))) (vregs m) (gprs m) (reads m)
    (Msr APDBKEY_EL1 (apdb u) :: Msr APDAKEY_EL1 (apda u) :: Msr APIBKEY_EL1 (apib u) ::
     Msr APIAKEY_EL1 (apia u) :: trace m).

Lemma restore_pauth_eq p v h : vcpus h !! p = Some v →
  restore_pauth (Some p) h = Ok () (set_mach (restored_pauth (pauth (arch v)) (mach h)) h).
Proof.
  intros Hp. unfold restore_pauth, restored_pauth. mstep_by ltac:(by apply deref_Ok). cbv zeta.
  destruct (pauth_used (pauth (arch v)) =? 0); [by destruct h|].
  destruct arm_feature_pauth; [done|by destruct h].
Qed.

(** ** The whole context *)

(** The VCPU after its context has been saved. *)
Definition saved_context (h : hv) (v : vcpu) : vcpu :=
  let m := mach h in
  set_arch (λ a, Arch (vttbr_el2 a) (cntvoff_el2 a) (cntvct_el0 a) (saved_fp m) (Sve 0)
    (saved_pauth m (pauth a)) (saved_vgic m (lr_count h) (vgic a)) (tf a)) v.

Lemma saved_vgic_keys m count g : saved_vgic (cleared_keys m) count g = saved_vgic m count g.
Proof.
  unfold saved_vgic, saved_lrs, cleared_keys. destruct arm_feature_pauth; [|done].
  cbn [sys]. by simpl_regs.
Qed.

Lemma save_context_eq p v h :
  vcpus h !! p = Some v → length (vregs (mach h)) = 32%nat → vcpu_shape v →
  save_context (Some p) h = Ok () (put p (saved_context h v)
    (set_vgic_cached (lr_count h) (set_mach (cleared_keys (mach h)) h))).
Proof.
  intros Hp Hm Hs. unfold save_context.
  mstep_by ltac:(apply save_fp_eq; [done..|apply (vs_vregs _ Hs)]).
  mstep_by ltac:(apply save_sve_eq; by eapply put_lookup). rewrite put_put.
  mstep_by ltac:(apply save_pauth_eq; by eapply put_lookup). rewrite <-put_mach, put_put, mach_put.
  erewrite save_vgic_eq by (eapply put_lookup; exact Hp).
  rewrite mach_put. cbn [mach set_mach]. rewrite saved_vgic_keys.
  f_equal. unfold put. cbn. rewrite list_insert_insert_eq.
  assert (lr_count (put p v (set_mach (cleared_keys (mach h)) h)) = lr_count h) as Hc.
  { unfold lr_count, cleared_keys. destruct arm_feature_pauth; [|done].
    cbn [mach put set_vcpus set_mach sys vgic_cached]. by simpl_regs. }
  unfold lr_count, put in Hc |- *. cbn in Hc |- *. by rewrite Hc.
Qed.

(** The registers a context switch restores. *)
Definition context_reg (r : sysreg) : bool :=
  match r with
  | FPCR | FPSR | APIAKEY_EL1 | APIBKEY_EL1 | APDAKEY_EL1 | APDBKEY_EL1
  | ICH_LR _ | ICH_VMCR | ICH_AP0R0 => true
  | _ => false
  end.

(** The machine [m'] after the context of [v] has been restored over [m]. *)
Record context_is (v : vcpu) (count : Z) (m m' : machine) : Prop := {
  ci_vregs : fp_used (fp (arch v)) ≠ 0 → vregs m' = fp_vregs (fp (arch v));
  ci_fpcr : fp_used (fp (arch v)) ≠ 0 → sys m' FPCR = fpcr (fp (arch v));
  ci_fpsr : fp_used (fp (arch v)) ≠ 0 → sys m' FPSR = fpsr (fp (arch v));
  ci_lrs n : (n < 16)%nat → Z.of_nat n < count → sys m' (ICH_LR n) = lrs (vgic (arch v)) !!! n;
  ci_vmcr : sys m' ICH_VMCR = vmcr (vgic (arch v));
  ci_apr : sys m' ICH_AP0R0 = apr (vgic (arch v));
  ci_keys : pauth_used (pauth (arch v)) ≠ 0 → arm_feature_pauth = true →
    sys m' APIAKEY_EL1 = apia (pauth (arch v)) ∧ sys m' APIBKEY_EL1 = apib (pauth (arch v)) ∧
    sys m' APDAKEY_EL1 = apda (pauth (arch v)) ∧ sys m' APDBKEY_EL1 = apdb (pauth (arch v));
  ci_len : length (vregs m') = 32%nat;
  ci_gprs : gprs m' = gprs m;
  ci_reads : reads m' = reads m;
  ci_other r : context_reg r = false → sys m' r = sys m r;
}.

Lemma restored_pauth_fields u m :
  (pauth_used u ≠ 0 → arm_feature_pauth = true →
    sys (restored_pauth u m) APIAKEY_EL1 = apia u ∧ sys (restored_pauth u m) APIBKEY_EL1 = apib u ∧
    sys (restored_pauth u m) APDAKEY_EL1 = apda u ∧ sys (restored_pauth u m) APDBKEY_EL1 = apdb u) ∧
  same_core m (restored_pauth u m) ∧
  (∀ r, r ∉ pauth_regs → sys (restored_pauth u m) r = sys m r).
Proof.
  unfold restored_pauth, pauth_regs. destruct (Z.eqb_spec (pauth_used u) 0), arm_feature_pauth; try done.
  cbn [orb negb sys vregs gprs reads]. split_and!; [by intros; simpl_regs|done|].
  intros r. rewrite !not_elem_of_cons. intros (? & ? & ? & ? & _). by simpl_regs.
Qed.

Lemma restored_fp_fields f m :
  length (fp_vregs f) = 32%nat → length (vregs m) = 32%nat →
  (fp_used f ≠ 0 → vregs (restored_fp f m) = fp_vregs f ∧ sys (restored_fp f m) FPCR = fpcr f ∧
    sys (restored_fp f m) FPSR = fpsr f) ∧
  length (vregs (restored_fp f m)) = 32%nat ∧ gprs (restored_fp f m) = gprs m ∧
  reads (restored_fp f m) = reads m ∧
  (∀ r, r ≠ FPCR → r ≠ FPSR → sys (restored_fp f m) r = sys m r).
Proof.
  intros Hf Hm. unfold restored_fp. destruct (Z.eqb_spec (fp_used f) 0); [done|].
  cbn [sys vregs gprs reads]. rewrite ldp_q_all by done.
  split_and!; try done; intros; simpl_regs; done.
Qed.

Lemma restore_context_total p v h :
  vcpus h !! p = Some v → vcpu_shape v → length (vregs (mach h)) = 32%nat →
  total (restore_context (Some p)) h (λ _ h', ∃ m',
    h' = set_mach m' (set_vgic_cached (lr_count h) h) ∧ context_is v (lr_count h) (mach h) m').
Proof.
  intros Hp [_ Hv Hl] Hm. unfold restore_context, total, wp.
  destruct (proj1 (total_Ok _ _ _) (restore_vgic_total p v h Hp Hl))
    as ([] & h2 & E & m' & -> & [Hvr Hg Hrd] & Hr). rewrite (bind_Ok _ _ _ _ _ E).
  mstep_by ltac:(by apply restore_pauth_eq). mstep. erewrite restore_fp_eq by done.
  eexists. split; [reflexivity|]. cbn [mach set_mach set_vgic_cached].
  set (m1 := restored_pauth (pauth (arch v)) m').
  destruct (restored_pauth_fields (pauth (arch v)) m') as (Pk & [Pv Pg Prd] & Po). fold m1 in Pk, Pv, Pg, Prd, Po.
  destruct (restored_fp_fields (fp (arch v)) m1 Hv ltac:(by rewrite Pv, Hvr)) as (Fu & Fl & Fg & Frd & Fo).
  assert (∀ r, r ≠ FPCR → r ≠ FPSR → r ∉ pauth_regs → sys (restored_fp (fp (arch v)) m1) r =
    restored_vgic (vgic (arch v)) (lr_count h) (sys (mach h)) r) as Hs.
  { intros r ? ? ?. by rewrite Fo, Po, Hr. }
  split; try (by intros; apply Fu).
  - intros n Hn Hc. rewrite Hs by (done || not_listed). cbn. by rewrite decide_True.
  - by rewrite Hs by (done || not_listed).
  - by rewrite Hs by (done || not_listed).
  - intros Hu Hf. rewrite !Fo by done. by apply Pk.
  - exact Fl.
  - by rewrite Fg, Pg.
  - by rewrite Frd, Prd.
  - intros r Hc. rewrite Hs; [by destruct r|by intros ->|by intros ->|].
    not_listed; by intros ->.
Qed.
End context.

(** ** Properties *)

(** What a guest can observe of the context: SIMD registers, FPCR, FPSR, the
    implemented list registers, VMCR, AP0R0 and, with the feature, the keys. *)
Record same_context `{!Features} (count : Z) (m m' : machine) : Prop := {
  se_vregs : vregs m' = vregs m;
  se_fpcr : sys m' FPCR = sys m FPCR;
  se_fpsr : sys m' FPSR = sys m FPSR;
  se_lrs n : (n < 16)%nat → Z.of_nat n < count → sys m' (ICH_LR n) = sys m (ICH_LR n);
  se_vmcr : sys m' ICH_VMCR = sys m ICH_VMCR;
  se_apr : sys m' ICH_AP0R0 = sys m ICH_AP0R0;
  se_keys : arm_feature_pauth = true → ∀ r, r ∈ pauth_regs → sys m' r = sys m r;
}.

(** The registers C truncates to 32 bits are 32 bits wide. *)
Record context_width (m : machine) : Prop := {
  cw_vregs : length (vregs m) = 32%nat;
  cw_fpcr : is_u32 (sys m FPCR);
  cw_fpsr : is_u32 (sys m FPSR);
  cw_vmcr : is_u32 (sys m ICH_VMCR);
  cw_apr : is_u32 (sys m ICH_AP0R0);
}.

Section properties.
Context `{!Console, !Counter, !Features}.

Lemma saved_context_shape h v :
  vcpu_shape v → length (vregs (mach h)) = 32%nat → vcpu_shape (saved_context h v).
Proof.
  intros [Hr Hv Hl] Hm. split; [exact Hr|exact Hm|]. cbn. unfold saved_lrs. by rewrite length_imap.
Qed.

Lemma saved_context_is h v count m m' :
  context_width (mach h) → vcpu_shape v → lr_count h = count →
  context_is (saved_context h v) count m m' → same_context count (mach h) m'.
Proof.
  intros [Wv W1 W2 W3 W4] [_ _ Hl] Hc [Cv C1 C2 Cl C3 C4 Ck _ _ _ _].
  cbn in Cv, C1, C2, C3, C4. unfold u32 in *.
  rewrite !Z.mod_small in C1, C2, C3, C4 by done. split; auto.
  - intros n Hn Hcn. rewrite Cl by done. cbn. rewrite list_lookup_total_alt.
    unfold saved_lrs. rewrite list_lookup_imap.
    destruct (lookup_lt_is_Some_2 (lrs (vgic (arch v))) n ltac:(lia)) as [x ->]. cbn.
    by rewrite decide_True by (rewrite Hc; lia).
  - intros Hf r Hin. assert (pauth_used (pauth (arch (saved_context h v))) ≠ 0) as Hu.
    { cbn. unfold saved_pauth. by rewrite Hf. }
    destruct (Ck Hu Hf) as (K1 & K2 & K3 & K4). cbn in K1, K2, K3, K4. unfold saved_pauth in *.
    rewrite Hf in *. cbn in K1, K2, K3, K4. unfold pauth_regs in Hin.
    rewrite !elem_of_cons, elem_of_nil in Hin. by destruct Hin as [->|[->|[->|[->|[]]]]].
Qed.

(** C13. What [world_switch] saves of a descheduled VCPU it restores unchanged:
    after the saves and whatever EL2 and other VCPUs do in between, as long as
    they leave the VCPU's own record alone, the restores put back every SIMD
    register, FPCR, FPSR, every implemented list register, VMCR, AP0R0 and the
    authentication keys. *)
Theorem context_roundtrip p v h h1 h2 :
  vcpus h !! p = Some v → vcpu_shape v → context_width (mach h) →
  save_context (Some p) h = Ok () h1 →
  vcpus h2 !! p = vcpus h1 !! p → vgic_cached h2 = vgic_cached h1 → vgic_cached h1 ≠ 0 →
  length (vregs (mach h2)) = 32%nat →
  total (restore_context (Some p)) h2 (λ _ h3, same_context (lr_count h) (mach h) (mach h3)).
Proof.
  intros Hp Hs Hw Hsave Hsame Hc Hn0 Hm2.
  rewrite (save_context_eq p v) in Hsave by (done || apply Hw). injection Hsave as <-.
  assert (vcpus h2 !! p = Some (saved_context h v)) as Hp2.
  { rewrite Hsame. by eapply put_lookup. }
  assert (lr_count h2 = lr_count h) as Hlr.
  { unfold lr_count at 1. rewrite Hc. cbn in Hn0 |- *. by rewrite (proj2 (Z.eqb_neq _ _)) by done. }
  eapply total_mono; [apply (restore_context_total p (saved_context h v) h2 Hp2); [|done]|].
  - apply saved_context_shape; [done|apply Hw].
  - intros [] h3 (m' & -> & Hctx). rewrite Hlr in Hctx. by eapply saved_context_is.
Qed.

(** C38. The number of list registers is ICH_VTR_EL2.ListRegs plus one, between 1
    and the 16 the VCPU has room for; it is detected at the first call and the
    later calls return the same number. *)
Theorem vgic_lr_count_bounds h :
  vgic_cached h = 0 →
  ∃ h', vgic_lr_count h = Ok (sys (mach h) ICH_VTR mod 16 + 1) h' ∧
    1 ≤ sys (mach h) ICH_VTR mod 16 + 1 ≤ VGIC_LR_CAPACITY ∧
    ∀ m, vgic_lr_count (set_mach m h') = Ok (sys (mach h) ICH_VTR mod 16 + 1) (set_mach m h').
Proof.
  intros Hz. pose proof (Z.mod_pos_bound (sys (mach h) ICH_VTR) 16 ltac:(lia)) as Hb.
  eexists. rewrite vgic_lr_count_eq. unfold lr_count. rewrite Hz. cbn [Z.eqb].
  rewrite Z.min_l by lia. split_and!; [reflexivity|lia|unfold VGIC_LR_CAPACITY; lia|].
  intros m. rewrite vgic_lr_count_eq. unfold lr_count. cbn [vgic_cached set_mach set_vgic_cached mach].
  by rewrite (proj2 (Z.eqb_neq _ 0)) by lia.
Qed.
End properties.

(** ** Witnesses *)

#[local] Existing Instance text_console.
#[local] Existing Instance demo_counter.
#[local] Instance demo_features : Features := {| arm_feature_pauth := true |}.

Definition context_machine : machine :=
  Machine (λ r, match r with FPCR => 7 | APIAKEY_EL1 => 99 | ICH_VTR => 3 | ICH_LR 2 => 5 | _ => 0 end)
    ((1, 2) :: replicate 31 (0, 0)) [] 0 [].

Lemma context_roundtrip_witness :
  ∃ h1, save_context (Some 0%nat) (demo_hv context_machine) = Ok () h1 ∧ sys (mach h1) APIAKEY_EL1 = 0 ∧
    total (restore_context (Some 0%nat)) h1 (λ _ h3,
      sys (mach h3) FPCR = 7 ∧ sys (mach h3) APIAKEY_EL1 = 99 ∧ sys (mach h3) (ICH_LR 2) = 5).
Proof.
  assert (save_context (Some 0%nat) (demo_hv context_machine) = Ok () (put 0 (saved_context (demo_hv context_machine) (demo_vcpu 0))
    (set_vgic_cached (lr_count (demo_hv context_machine)) (set_mach (cleared_keys context_machine) (demo_hv context_machine))))) as E
    by (apply save_context_eq; [done|done|by split]).
  eexists. split; [exact E|]. split; [reflexivity|].
  eapply total_mono; [eapply (context_roundtrip 0 (demo_vcpu 0) (demo_hv context_machine) _ _ eq_refl)|].
  - by split.
  - split; cbn; lia.
  - exact E.
  - reflexivity.
  - reflexivity.
  - discriminate.
  - reflexivity.
  - intros [] h3 [_ E1 _ E2 _ _ E3]. split; [exact E1|]. split; [exact (E3 eq_refl APIAKEY_EL1 ltac:(by left))|].
    apply (E2 2%nat); [lia|reflexivity].
Defined.

Lemma vgic_lr_count_bounds_witness :
  ∃ h', vgic_lr_count (demo_hv context_machine) = Ok 4 h' ∧ vgic_lr_count (set_mach context_machine h') = Ok 4 h'.
Proof.
  destruct (vgic_lr_count_bounds (demo_hv context_machine) eq_refl) as (h' & H1 & _ & H2). exists h'.
  split; [exact H1|]. rewrite H2. injection H1 as <-. reflexivity.
Defined.
