(* ===== verification/Trap.v ===== *)
(** * Exceptions from the guests: [core/trap.c]

    Decoding of ESR_EL2, emulation of the generic timer's registers, hypercalls
    and the top-level handler.                                                  *)

From Stdlib Require Import ZArith Lia Ascii String.
From stdpp Require Import base gmap list strings.
From S2P Require Import Prelude Machine PageTable S2Mmu Uart Vcpu Sched.

#[local] Open Scope string_scope.
#[local] Open Scope Z_scope.

(** ** System register encodings *)

Definition SYS_REG_ENCODE (op0 op1 crn crm op2 : Z) : Z :=
  u32 (Z.lor (Z.lor (Z.lor (Z.lor (Z.shiftl op0 14) (Z.shiftl op1 10)) (Z.shiftl crn 6))
                    (Z.shiftl crm 2)) op2).

Definition SYS_CNTPCT_EL0 : Z := SYS_REG_ENCODE 3 3 14 0 1.
Definition SYS_CNTVCT_EL0 : Z := SYS_REG_ENCODE 3 3 14 0 2.
Definition SYS_CNTP_TVAL_EL0 : Z := SYS_REG_ENCODE 3 3 14 2 0.
Definition SYS_CNTP_CTL_EL0 : Z := SYS_REG_ENCODE 3 3 14 2 1.
Definition SYS_CNTP_CVAL_EL0 : Z := SYS_REG_ENCODE 3 3 14 2 2.
Definition SYS_CNTV_TVAL_EL0 : Z := SYS_REG_ENCODE 3 3 14 3 0.
Definition SYS_CNTV_CTL_EL0 : Z := SYS_REG_ENCODE 3 3 14 3 1.
Definition SYS_CNTV_CVAL_EL0 : Z := SYS_REG_ENCODE 3 3 14 3 2.

Definition esr_sys64_sysreg (esr : Z) : Z :=
  let iss := Z.land esr 0x1ffffff in
  let op0 := u32 (Z.land (Z.shiftr iss 20) 0x3) in
  let op1 := u32 (Z.land (Z.shiftr iss 16) 0xf) in
  let crn := u32 (Z.land (Z.shiftr iss 12) 0xf) in
  let crm := u32 (Z.land (Z.shiftr iss 8) 0xf) in
  let op2 := u32 (Z.land (Z.shiftr iss 5) 0x7) in
  SYS_REG_ENCODE op0 op1 crn crm op2.

Definition esr_sys64_rt (esr : Z) : Z := u32 (Z.land esr 0x1f).

Definition esr_sys64_is_read (esr : Z) : bool := negb (Z.land (Z.shiftr esr 21) 0x1 =? 0).

(** [struct guest_task_result]: byte offsets of its fields. *)
Definition res_id : Z := 0.
Definition res_desc : Z := 8.
Definition res_data0 : Z := 40.
Definition res_data1 : Z := 48.
Definition res_time_before : Z := 56.
Definition res_time_after : Z := 64.
Definition res_time_target : Z := 72.
Definition res_memwalk_time : Z := 80.

Definition newline : string := String "010" "".

Section trap.
Context `{!Console, !Counter, !S2Image}.

Definition vcpu_current : M hv vptr := on_sched vcpu_scheduler_current.

Definition virtual_counter_now : M hv Z := cpu (mrs CNTVCT_EL0).

Definition advance_guest_elr (current : vptr) (elr : Z) : M hv () :=
  let next := u64 (elr + 4) in
  cpu (msr ELR_EL2 next) ;;
  match current with
  | Some p => update_tf p (set_elr_el1 next)
  | None => mret ()
  end.

(** [current->arch.tf.regs[i]]. *)
Definition get_reg (p : nat) (i : Z) : M hv Z :=
  v ← deref p;
  arr_get (regs (tf (arch v))) (Z.to_nat i).

(** [if (rt < 31) current->arch.tf.regs[rt] = x]. *)
Definition set_guest_reg (p : nat) (rt x : Z) : M hv () :=
  if rt <? 31 then update_tf p (set_regs (<[Z.to_nat rt := x]>)) else mret ().

(** [(rt < 31) ? current->arch.tf.regs[rt] : 0]. *)
Definition guest_reg (p : nat) (rt : Z) : M hv Z :=
  if rt <? 31 then get_reg p rt else mret 0.

(** ** Task reports: HVC #0x60 *)

(** The telemetry line, printed when any of the four times is set. *)
Definition report_timers (before after target walk : Z) : M hv () :=
  if negb (before =? 0) || negb (after =? 0) || negb (target =? 0) || negb (walk =? 0) then
    puts "  timers: before=" ;; hex64 before ;;
    puts " after=" ;; hex64 after ;;
    puts " target=" ;; hex64 target ;;
    puts " memwalk_time=" ;; hex64 walk ;;
    puts newline
  else mret ().

Definition handle_guest_task_report (elr : Z) : M hv bool :=
  current ← vcpu_current;
  match current with
  | None => mret false
  | Some p =>
      ptr ← get_reg p 1;
      if ptr =? 0 then mret true else
      puts "[guest" ;;
      v ← deref p;
      suffix ← of_option (c_str [Some (ascii_of_N (Z.to_N (u8 (48 + u8 (vcpu_id v))))); Some "]"%char;
                                Some "000"%char]);
      puts suffix ;;
      puts " " ;;
      desc ← load_cstr (ptr + res_desc);
      puts desc ;;
      puts " data0=" ;;
      data0 ← load64 (ptr + res_data0);
      hex64 data0 ;;
      puts " data1=" ;;
      data1 ← load64 (ptr + res_data1);
      hex64 data1 ;;
      puts newline ;;
      before ← load64 (ptr + res_time_before);
      after ← load64 (ptr + res_time_after);
      target ← load64 (ptr + res_time_target);
      walk ← load64 (ptr + res_memwalk_time);
      report_timers before after target walk ;;
      mret true
  end.

(** ** Timer registers: EC = 0x18 *)

Section timer.
Variables (p : nat) (rt elr virt_now : Z) (is_read : bool).

(** The end of the cases from CNTP_CVAL on. *)
Definition timer_done : M hv bool :=
  advance_guest_elr (Some p) elr ;;
  cpu isb ;;
  mret true.

Definition timer_counter : M hv bool :=
  (if is_read && (rt <? 31) then set_guest_reg p rt virt_now else mret ()) ;;
  advance_guest_elr (Some p) elr ;;
  mret true.

Definition timer_cntp_cval : M hv bool :=
  (if is_read then
     phys ← cpu (mrs CNTP_CVAL_EL0);
     v ← deref p;
     let virt_val := u64 (phys + cntvoff_el2 (arch v)) in
     update_tf p (set_cntp_cval_el0 virt_val) ;;
     set_guest_reg p rt virt_val
   else
     virt_val ← guest_reg p rt;
     update_tf p (set_cntp_cval_el0 virt_val) ;;
     v ← deref p;
     let phys_val := u64 (virt_val - cntvoff_el2 (arch v)) in
     cpu (msr CNTP_CVAL_EL0 phys_val)) ;;
  timer_done.

Definition timer_cntp_ctl : M hv bool :=
  (if is_read then
     ctl ← cpu (mrs CNTP_CTL_EL0);
     update_tf p (set_cntp_ctl_el0 ctl) ;;
     set_guest_reg p rt ctl
   else
     ctl ← guest_reg p rt;
     let ctl := Z.land ctl 0x3 in
     update_tf p (set_cntp_ctl_el0 ctl) ;;
     cpu (msr CNTP_CTL_EL0 ctl)) ;;
  timer_done.

Definition timer_cntp_tval : M hv bool :=
  (if is_read then
     v ← deref p;
     let virt_cval := cntp_cval_el0 (tf (arch v)) in
     let delta := u64 (virt_cval - virt_now) in
     set_guest_reg p rt delta
   else
     raw ← guest_reg p rt;
     let delta := s32 raw in
     let target := u64 (virt_now + delta) in
     update_tf p (set_cntp_cval_el0 target) ;;
     v ← deref p;
     let phys_target := u64 (target - cntvoff_el2 (arch v)) in
     cpu (msr CNTP_CVAL_EL0 phys_target)) ;;
  timer_done.

Definition timer_cntv_cval : M hv bool :=
  (if is_read then
     val ← cpu (mrs CNTV_CVAL_EL0);
     update_tf p (set_cntv_cval_el0 val) ;;
     set_guest_reg p rt val
   else
     val ← guest_reg p rt;
     update_tf p (set_cntv_cval_el0 val) ;;
     cpu (msr CNTV_CVAL_EL0 val)) ;;
  timer_done.

Definition timer_cntv_ctl : M hv bool :=
  (if is_read then
     ctl ← cpu (mrs CNTV_CTL_EL0);
     update_tf p (set_cntv_ctl_el0 ctl) ;;
     set_guest_reg p rt ctl
   else
     ctl ← guest_reg p rt;
     let ctl := Z.land ctl 0x3 in
     update_tf p (set_cntv_ctl_el0 ctl) ;;
     cpu (msr CNTV_CTL_EL0 ctl)) ;;
  timer_done.

Definition timer_cntv_tval : M hv bool :=
  (if is_read then
     val ← cpu (mrs CNTV_CVAL_EL0);
     update_tf p (set_cntv_cval_el0 val) ;;
     let delta := u64 (val - virt_now) in
     set_guest_reg p rt delta
   else
     raw ← guest_reg p rt;
     let delta := s32 raw in
     let target := u64 (virt_now + delta) in
     update_tf p (set_cntv_cval_el0 target) ;;
     cpu (msr CNTV_CVAL_EL0 target)) ;;
  timer_done.
End timer.

Definition handle_timer_sysreg (esr elr : Z) : M hv bool :=
  current ← vcpu_current;
  match current with
  | None => mret false
  | Some p =>
      let sysreg := esr_sys64_sysreg esr in
      let rt := esr_sys64_rt esr in
      let is_read := esr_sys64_is_read esr in
      virt_now ← virtual_counter_now;
      if (sysreg =? SYS_CNTPCT_EL0) || (sysreg =? SYS_CNTVCT_EL0) then timer_counter p rt elr virt_now is_read
      else if sysreg =? SYS_CNTP_CVAL_EL0 then timer_cntp_cval p rt elr is_read
      else if sysreg =? SYS_CNTP_CTL_EL0 then timer_cntp_ctl p rt elr is_read
      else if sysreg =? SYS_CNTP_TVAL_EL0 then timer_cntp_tval p rt elr virt_now is_read
      else if sysreg =? SYS_CNTV_CVAL_EL0 then timer_cntv_cval p rt elr is_read
      else if sysreg =? SYS_CNTV_CTL_EL0 then timer_cntv_ctl p rt elr is_read
      else if sysreg =? SYS_CNTV_TVAL_EL0 then timer_cntv_tval p rt elr virt_now is_read
      else mret false
  end.

(** ** Virtual time: HVC #0x61 *)

Definition handle_guest_time_override : M hv bool :=
  current ← vcpu_current;
  match current with
  | None => mret false
  | Some p =>
      desired ← get_reg p 0;
      phys_counter ← cpu (mrs CNTPCT_EL0);
      let offset := u64 (desired - phys_counter) in
      update_arch p (set_cntvct_el0 desired) ;;
      update_arch p (set_cntvoff_el2 offset) ;;
      cpu (msr CNTVOFF_EL2 offset) ;;
      v ← deref p;
      let phys_cval := u64 (cntp_cval_el0 (tf (arch v)) - offset) in
      cpu (msr CNTP_CVAL_EL0 phys_cval) ;;
      cpu (msr CNTP_CTL_EL0 (cntp_ctl_el0 (tf (arch v)))) ;;
      cpu (msr CNTV_CVAL_EL0 (cntv_cval_el0 (tf (arch v)))) ;;
      cpu (msr CNTV_CTL_EL0 (cntv_ctl_el0 (tf (arch v)))) ;;
      cpu isb ;;
      update_tf p (set_regs (<[0%nat := desired]>)) ;;
      mret true
  end.

(** ** Hypercalls *)

(** [console_puts(label); console_hex64(x); console_puts("\n");] *)
Definition put_line (label : string) (x : Z) : M hv () :=
  puts label ;; hex64 x ;; puts newline.

Definition handle_guest_hvc (esr elr : Z) : M hv bool :=
  let imm16 := Z.land esr 0xFFFF in
  if imm16 =? 0x60 then handle_guest_task_report elr
  else if imm16 =? 0x61 then handle_guest_time_override
  else if imm16 =? 0x63 then
    current ← vcpu_current;
    puts ("EL2: guest synchronous exception report" +:+ newline) ;;
    (match current with
     | Some p =>
         guest_esr ← get_reg p 0;
         guest_elr ← get_reg p 1;
         put_line "  guest ESR_EL1: " guest_esr ;;
         put_line "  guest ELR_EL1: " guest_elr
     | None => mret ()
     end) ;;
    hang
  else mret false.

(** ** The top-level handler *)

(** [l1[ipa_index]]: a load that finds the stage-2 tables where they are. *)
Definition load_entry (a : Z) : M hv Z :=
  t ← gets s2_tables;
  match @mem_read s2_builder t a with
  | Some entry => mret entry
  | None => load64 a
  end.

(** The dump of an instruction or data abort. *)
Definition dump_abort (esr far ec : Z) : M hv () :=
  (if ec =? 0x20 then puts ("Instruction Abort from lower EL detected." +:+ newline)
   else if ec =? 0x21 then puts ("Instruction Abort from same EL detected." +:+ newline)
   else if ec =? 0x24 then puts ("Data Abort from lower EL detected." +:+ newline)
   else puts ("Data Abort from same EL detected." +:+ newline)) ;;
  vtcr ← cpu (mrs VTCR_EL2);
  vttbr ← cpu (mrs VTTBR_EL2);
  hpfar ← cpu (mrs HPFAR_EL2);
  put_line "VTTBR_EL2: " vttbr ;;
  put_line "VTCR_EL2 : " vtcr ;;
  put_line "HPFAR_EL2 : " hpfar ;;
  let iss := Z.land esr 0xFFFFFF in
  let ifsc := Z.land iss 0x3F in
  put_line "ISS: " iss ;;
  put_line "  IFSC: " ifsc ;;
  (if (ifsc =? 0x4) || (ifsc =? 0x5) || (ifsc =? 0x6)
   then put_line "  LVL: " (u64 (ifsc - 0x4)) else mret ()) ;;
  let fnv := Z.land (Z.shiftr iss 10) 1 in
  let ea := Z.land (Z.shiftr iss 9) 1 in
  let s1ptw := Z.land (Z.shiftr iss 7) 1 in
  put_line "  S1PTW: " s1ptw ;;
  put_line "  FnV: " fnv ;;
  put_line "  EA: " ea ;;
  let ipa_index := Z.land (Z.shiftr far 30) 0x1FF in
  put_line "S2 L1 idx for FAR: " ipa_index ;;
  let l1_base := Z.land vttbr (Z.shiftl 1 48 - 1) in
  entry ← load_entry (l1_base + 8 * ipa_index);
  put_line "S2 L1 entry value : " entry ;;
  if Z.land entry 0x1 =? 0
  then puts ("S2 L1 entry NOT VALID -> translation fault" +:+ newline)
  else puts ("S2 L1 entry valid." +:+ newline).

(** The dump of an exception nothing handled, after which EL2 stops for ever. *)
Definition dump_exception (esr elr spsr far code ec : Z) : M hv () :=
  puts (newline +:+ "=== EL2 Exception ===" +:+ newline) ;;
  put_line "ESR: " esr ;;
  put_line "ELR: " elr ;;
  put_line "SPSR: " spsr ;;
  put_line "FAR: " far ;;
  put_line "Code: " code ;;
  puts ("====================" +:+ newline) ;;
  put_line "Exception Class (EC): " ec ;;
  (if (ec =? 0x20) || (ec =? 0x21) || (ec =? 0x24) || (ec =? 0x25)
   then dump_abort esr far ec else mret ()) ;;
  hang.

Definition el2_exception_common (esr elr spsr far code : Z) : M hv () :=
  let ec := Z.land (Z.shiftr esr 26) 0x3F in
  if ec =? 0x01 then
    puts ("EL2: WFI/WFE from guest detected, yielding..." +:+ newline) ;;
    let next := u64 (elr + 4) in
    cpu (msr ELR_EL2 next) ;;
    current ← vcpu_current;
    match current with
    | Some p => update_tf p (set_elr_el1 next) ;; update p (set_request_yield true)
    | None => mret ()
    end
  else
  handled ← (if ec =? 0x16 then handle_guest_hvc esr elr else mret false);
  if handled : bool then mret () else
  handled ← (if ec =? 0x18 then handle_timer_sysreg esr elr else mret false);
  if handled : bool then mret () else
  dump_exception esr elr spsr far code ec.
End trap.
