(* ===== verification/TrapTheory.v ===== *)
(** * Theorems about exceptions from the guests

    Decoding, the emulation of the timer registers on every reachable branch,
    hypercalls, and what makes the handler return to the guest.                 *)

From Stdlib Require Import ZArith Lia Ascii String.
From stdpp Require Import base gmap list strings.
From S2P Require Import Prelude Machine S2Mmu S2MmuTheory Uart UartTheory Vcpu VcpuTheory Sched Trap.

#[local] Open Scope string_scope.
#[local] Open Scope Z_scope.

(** ** Decoding *)

Definition timer_sysregs : list Z :=
  [SYS_CNTPCT_EL0; SYS_CNTVCT_EL0; SYS_CNTP_CVAL_EL0; SYS_CNTP_CTL_EL0; SYS_CNTP_TVAL_EL0;
   SYS_CNTV_CVAL_EL0; SYS_CNTV_CTL_EL0; SYS_CNTV_TVAL_EL0].

(** The Arm ARM's ISS for a trapped MSR or MRS (EC = 0x18): Op0 [21:20], Op2
    [19:17], Op1 [16:14], CRn [13:10], Rt [9:5], CRm [4:1], Direction [0]. *)
Definition arch_iss (op0 op1 crn crm op2 rt dir : Z) : Z :=
  op0 * 2 ^ 20 + op2 * 2 ^ 17 + op1 * 2 ^ 14 + crn * 2 ^ 10 + rt * 2 ^ 5 + crm * 2 + dir.

Definition arch_esr (op0 op1 crn crm op2 rt dir : Z) : Z :=
  0x18 * 2 ^ 26 + 2 ^ 25 + arch_iss op0 op1 crn crm op2 rt dir.

(** The encodings (CRm, op2) of the eight timer registers; op0 = 3, op1 = 3 and
    CRn = 14 for all of them. *)
Definition timer_encodings : list (Z * Z) :=
  [(0, 1); (0, 2); (2, 0); (2, 1); (2, 2); (3, 0); (3, 1); (3, 2)].

(** The timer register the code takes an access for, when the syndrome is laid out as
    the architecture defines it: CRm and the direction are what it reads as the
    transfer register, and its CRm and op2 come from the transfer register. *)
Definition taken_for (op0 op1 crn op2 rt : Z) : option Z :=
  if (op0 =? 3) && (op1 =? 7) && (crn =? 8) && (op2 =? 1) then
    if rt =? 1 then Some SYS_CNTPCT_EL0
    else if rt =? 2 then Some SYS_CNTVCT_EL0
    else if rt =? 16 then Some SYS_CNTP_TVAL_EL0
    else if rt =? 17 then Some SYS_CNTP_CTL_EL0
    else if rt =? 18 then Some SYS_CNTP_CVAL_EL0
    else if (rt =? 20) || (rt =? 24) || (rt =? 28) then Some SYS_CNTV_TVAL_EL0
    else if (rt =? 21) || (rt =? 25) || (rt =? 29) then Some SYS_CNTV_CTL_EL0
    else if (rt =? 22) || (rt =? 26) || (rt =? 30) then Some SYS_CNTV_CVAL_EL0
    else None
  else None.

Section decode.
Lemma esr_op0_bit esr : Z.testbit (esr_sys64_sysreg esr) 15 = Z.testbit esr 21.
Proof.
  unfold esr_sys64_sysreg, SYS_REG_ENCODE. cbv zeta.
  assert (∀ x s w i, 0 ≤ s → 0 < w ≤ 32 → w ≤ i →
    Z.testbit (u32 (Z.land (Z.shiftr x s) (Z.ones w))) i = false) as Hhigh.
  { intros x s w i Hs Hw Hi. rewrite land_ones_mod by lia. apply (testbit_high _ w); [|lia].
    pose proof (Z.mod_pos_bound (Z.shiftr x s) (2 ^ w) ltac:(apply Z.pow_pos_nonneg; lia)).
    pose proof (Z.pow_le_mono_r 2 w 32 ltac:(lia) ltac:(lia)). unfold u32. rewrite Z.mod_small; lia. }
  unfold u32 at 1. rewrite Z.mod_pow2_bits_low by lia. rewrite !Z.lor_spec, !Z.shiftl_spec by lia.
  change (Z.land ?x 0xf) with (Z.land x (Z.ones 4)). change (Z.land ?x 0x7) with (Z.land x (Z.ones 3)).
  rewrite (Hhigh _ 16 4), (Hhigh _ 12 4), (Hhigh _ 8 4), (Hhigh _ 5 3) by lia. rewrite !orb_false_r. unfold u32. rewrite Z.mod_pow2_bits_low by lia.
  rewrite !Z.land_spec, Z.shiftr_spec, Z.land_spec by lia. simpl (15 - 14 + 20). 
  change (Z.testbit 0x1ffffff 21) with true. change (Z.testbit 0x3 (15 - 14)) with true.
  by rewrite !andb_true_r.
Qed.

(** The bit the code takes for the direction of the access is the upper bit of
    its op0 field, which is set for every register it knows. *)
Lemma known_sysreg_is_read esr :
  esr_sys64_sysreg esr ∈ timer_sysregs → esr_sys64_is_read esr = true.
Proof.
  intros Hin. assert (Z.testbit (esr_sys64_sysreg esr) 15 = true) as Hb.
  { revert Hin. generalize (esr_sys64_sysreg esr). apply Forall_forall. by repeat constructor. }
  rewrite esr_op0_bit in Hb. unfold esr_sys64_is_read. change 0x1 with (Z.ones 1).
  rewrite shiftr_land_ones by lia. rewrite <-Z.shiftr_div_pow2 by lia. change (2 ^ 1) with 2.
  rewrite <-Z.bit0_mod, Z.shiftr_spec by lia. change (0 + 21) with 21. by rewrite Hb.
Qed.

(** No genuine timer trap decodes to a register the code knows. *)
Lemma genuine_traps_unknown crm op2 rt dir :
  (crm, op2) ∈ timer_encodings → 0 ≤ rt < 32 → 0 ≤ dir < 2 →
  esr_sys64_sysreg (arch_esr 3 3 14 crm op2 rt dir) ∉ timer_sysregs.
Proof.
  intros He Hr Hd Hin.
  assert (forallb (λ e : Z * Z, forallb (λ rt, forallb (λ dir,
    negb (bool_decide (esr_sys64_sysreg (arch_esr 3 3 14 e.1 e.2 rt dir) ∈ timer_sysregs)))
    (seqZ 0 2)) (seqZ 0 32)) timer_encodings = true) as Hall by by vm_compute.
  rewrite forallb_forall in Hall. specialize (Hall _ (proj1 (list_elem_of_In _ _) He)).
  rewrite forallb_forall in Hall. specialize (Hall rt). cbv beta in Hall.
  rewrite <-list_elem_of_In, elem_of_seqZ in Hall. specialize (Hall ltac:(lia)).
  rewrite forallb_forall in Hall. specialize (Hall dir). cbv beta in Hall.
  rewrite <-list_elem_of_In, elem_of_seqZ in Hall. specialize (Hall ltac:(lia)).
  cbn [fst snd] in Hall. by rewrite bool_decide_eq_true_2 in Hall.
Qed.

Lemma forallb_seqZ f n k : forallb f (seqZ 0 n) = true → 0 ≤ k < n → f k = true.
Proof. rewrite forallb_forall. intros Hf Hk. apply Hf, list_elem_of_In, elem_of_seqZ. lia. Qed.

(** The register number the code computes from a syndrome of the architecture: its
    fields are one or two bits off, and the last two overlap. *)
Definition code_sysreg (op0 op1 crn op2 rt : Z) : Z :=
  64 * (op0 * 2 ^ 8 + (2 * op2 + op1 / 4) * 2 ^ 4 + (op1 mod 4) * 4 + crn / 4) +
  Z.lor (Z.shiftl (4 * (crn mod 4) + rt / 8) 2) (rt mod 8).

(** A field of [w] bits at bit [s], with [q] above it and [l] below. *)
Lemma field_eq x s w q r l : 0 ≤ s → 0 ≤ w ≤ 32 → x = (q * 2 ^ w + r) * 2 ^ s + l →
  0 ≤ r < 2 ^ w → 0 ≤ l < 2 ^ s → u32 (Z.land (Z.shiftr x s) (Z.ones w)) = r.
Proof.
  intros Hs Hw Hx Hr Hl. rewrite Z.land_ones, Z.shiftr_div_pow2 by lia.
  assert (x / 2 ^ s = q * 2 ^ w + r) as -> by (symmetry; apply Z.div_unique_pos with l; lia).
  rewrite Z.add_comm, Z.mod_add, (Z.mod_small r) by lia. apply Z.mod_small.
  pose proof (Z.pow_le_mono_r 2 w 32 ltac:(lia) ltac:(lia)). lia.
Qed.

Lemma arch_code_sysreg op0 op1 crn crm op2 rt dir :
  0 ≤ op0 < 4 → 0 ≤ op1 < 8 → 0 ≤ crn < 16 → 0 ≤ crm < 16 → 0 ≤ op2 < 8 → 0 ≤ rt < 32 → 0 ≤ dir < 2 →
  esr_sys64_sysreg (arch_esr op0 op1 crn crm op2 rt dir) = code_sysreg op0 op1 crn op2 rt.
Proof.
  intros H1 H2 H3 H4 H5 H6 H7. unfold esr_sys64_sysreg. cbv zeta.
  change 0x1ffffff with (Z.ones 25). change 0x3 with (Z.ones 2). change 0xf with (Z.ones 4). change 0x7 with (Z.ones 3).
  assert (Z.land (arch_esr op0 op1 crn crm op2 rt dir) (Z.ones 25) = arch_iss op0 op1 crn crm op2 rt dir) as ->.
  { rewrite Z.land_ones by lia. symmetry. apply Z.mod_unique_pos with (0x18 * 2 + 1); unfold arch_esr, arch_iss; lia. }
  unfold code_sysreg, arch_iss. pose proof (Z.div_mod op1 4 ltac:(lia)) as D1.
  pose proof (Z.div_mod crn 4 ltac:(lia)) as D2. pose proof (Z.div_mod rt 8 ltac:(lia)) as D3.
  pose proof (Z.mod_pos_bound op1 4 ltac:(lia)) as M1. pose proof (Z.mod_pos_bound crn 4 ltac:(lia)) as M2.
  pose proof (Z.mod_pos_bound rt 8 ltac:(lia)) as M3.
  set (a := op1 / 4) in *. set (b := op1 mod 4) in *. set (c := crn / 4) in *. set (d := crn mod 4) in *.
  set (e := rt / 8) in *. set (f := rt mod 8) in *. clearbody a b c d e f. subst op1 crn rt.
  rewrite (field_eq _ 20 2 0 op0 (op2 * 2 ^ 17 + (4 * a + b) * 2 ^ 14 + (4 * c + d) * 2 ^ 10 + (8 * e + f) * 2 ^ 5 + crm * 2 + dir)) by lia.
  rewrite (field_eq _ 16 4 op0 (2 * op2 + a) (b * 2 ^ 14 + (4 * c + d) * 2 ^ 10 + (8 * e + f) * 2 ^ 5 + crm * 2 + dir)) by lia.
  rewrite (field_eq _ 12 4 (op0 * 16 + 2 * op2 + a) (b * 4 + c) (d * 2 ^ 10 + (8 * e + f) * 2 ^ 5 + crm * 2 + dir)) by lia.
  rewrite (field_eq _ 8 4 ((op0 * 16 + 2 * op2 + a) * 16 + b * 4 + c) (4 * d + e) (f * 2 ^ 5 + crm * 2 + dir)) by lia.
  rewrite (field_eq _ 5 3 (((op0 * 16 + 2 * op2 + a) * 16 + b * 4 + c) * 16 + 4 * d + e) f (crm * 2 + dir)) by lia.
  unfold SYS_REG_ENCODE. rewrite <-Z.lor_assoc.
  assert (0 ≤ Z.lor (Z.shiftl (4 * d + e) 2) f < 2 ^ 6) as Hlo by (apply lor_range; rewrite ?Z.shiftl_mul_pow2; lia).
  rewrite (Z.shiftl_mul_pow2 op0), (Z.shiftl_mul_pow2 (2 * op2 + a)), (Z.shiftl_mul_pow2 (b * 4 + c)) by lia.
  rewrite (lor_add (op0 * 2 ^ 14) _ 14) by first [lia | apply Z.mod_mul; lia].
  replace (op0 * 2 ^ 14 + (2 * op2 + a) * 2 ^ 10) with ((op0 * 2 ^ 4 + (2 * op2 + a)) * 2 ^ 10) by lia.
  rewrite (lor_add (_ * 2 ^ 10) _ 10) by first [lia | apply Z.mod_mul; lia].
  replace (_ * 2 ^ 10 + _ * 2 ^ 6) with (((op0 * 2 ^ 4 + (2 * op2 + a)) * 2 ^ 4 + (b * 4 + c)) * 2 ^ 6) by lia.
  rewrite (lor_add (_ * 2 ^ 6) _ 6) by first [lia | apply Z.mod_mul; lia].
  unfold u32. rewrite Z.mod_small; lia.
Qed.

(** The codes of the timer registers have the same upper ten bits. *)
Definition low_codes : list Z := [1; 2; 10; 9; 8; 14; 13; 12].

Lemma timer_sysregs_low : timer_sysregs = (λ l, 64 * 830 + l) <$> low_codes.
Proof. reflexivity. Qed.

(** A decision over the fields that reach the lower six bits. *)
Lemma low_fields_decoded crn rt : 0 ≤ crn < 4 → 0 ≤ rt < 32 →
  match taken_for 3 7 (8 + crn) 1 rt with
  | Some r => 64 * 830 + Z.lor (Z.shiftl (4 * crn + rt / 8) 2) (rt mod 8) = r
  | None => 64 * 830 + Z.lor (Z.shiftl (4 * crn + rt / 8) 2) (rt mod 8) ∉ timer_sysregs
  end.
Proof.
  intros Hc Hr.
  assert (forallb (λ crn, forallb (λ rt, match taken_for 3 7 (8 + crn) 1 rt with
    | Some r => bool_decide (64 * 830 + Z.lor (Z.shiftl (4 * crn + rt / 8) 2) (rt mod 8) = r)
    | None => bool_decide (64 * 830 + Z.lor (Z.shiftl (4 * crn + rt / 8) 2) (rt mod 8) ∉ timer_sysregs)
    end) (seqZ 0 32)) (seqZ 0 4) = true) as Hall by by vm_compute.
  apply (forallb_seqZ _ 4 crn) in Hall; [|done]. apply (forallb_seqZ _ 32 rt) in Hall; [|done].
  cbv beta in Hall. destruct (taken_for 3 7 (8 + crn) 1 rt); by apply bool_decide_eq_true in Hall.
Qed.

(** What every trapped MSR or MRS is taken for. *)
Lemma arch_sysreg op0 op1 crn crm op2 rt dir :
  0 ≤ op0 < 4 → 0 ≤ op1 < 8 → 0 ≤ crn < 16 → 0 ≤ crm < 16 → 0 ≤ op2 < 8 → 0 ≤ rt < 32 → 0 ≤ dir < 2 →
  match taken_for op0 op1 crn op2 rt with
  | Some r => esr_sys64_sysreg (arch_esr op0 op1 crn crm op2 rt dir) = r
  | None => esr_sys64_sysreg (arch_esr op0 op1 crn crm op2 rt dir) ∉ timer_sysregs
  end.
Proof.
  intros H1 H2 H3 H4 H5 H6 H7. rewrite arch_code_sysreg by done. unfold code_sysreg.
  pose proof (Z.div_mod op1 4 ltac:(lia)). pose proof (Z.div_mod crn 4 ltac:(lia)). pose proof (Z.div_mod rt 8 ltac:(lia)).
  pose proof (Z.mod_pos_bound op1 4 ltac:(lia)). pose proof (Z.mod_pos_bound crn 4 ltac:(lia)).
  pose proof (Z.mod_pos_bound rt 8 ltac:(lia)).
  destruct (decide (op0 = 3 ∧ op2 = 1 ∧ op1 = 7 ∧ crn / 4 = 2)) as [(-> & -> & -> & Hd)|Hne].
  - pose proof (low_fields_decoded (crn mod 4) rt ltac:(lia) H6) as Hl.
    replace (8 + crn mod 4) with crn in Hl by lia. rewrite Hd. exact Hl.
  - assert (taken_for op0 op1 crn op2 rt = None) as ->.
    { unfold taken_for. destruct (Z.eqb_spec op0 3); [|done]. destruct (Z.eqb_spec op1 7); [|done].
      destruct (Z.eqb_spec crn 8); [|done]. destruct (Z.eqb_spec op2 1); [|done].
      exfalso. apply Hne. subst. by split_and!. }
    rewrite timer_sysregs_low. intros (l & Hl & Hin)%list_elem_of_fmap.
    assert (0 ≤ l < 64) as Hl64.
    { revert Hin. unfold low_codes. rewrite !elem_of_cons, elem_of_nil. lia. }
    assert (0 ≤ Z.lor (Z.shiftl (4 * (crn mod 4) + rt / 8) 2) (rt mod 8) < 2 ^ 6) as Hlo
      by (apply lor_range; rewrite ?Z.shiftl_mul_pow2; lia).
    apply Hne. lia.
Qed.

Lemma arch_rt op0 op1 crn crm op2 rt dir : 0 ≤ crm < 16 → 0 ≤ dir < 2 →
  esr_sys64_rt (arch_esr op0 op1 crn crm op2 rt dir) = 2 * crm + dir.
Proof.
  intros Hc Hd. unfold esr_sys64_rt, arch_esr, arch_iss, u32. change 0x1f with (Z.ones 5).
  rewrite Z.land_ones by lia. rewrite <-(Z.mod_unique_pos _ (2 ^ 5)
    (0x18 * 2 ^ 21 + 2 ^ 20 + op0 * 2 ^ 15 + op2 * 2 ^ 12 + op1 * 2 ^ 9 + crn * 2 ^ 5 + rt) (2 * crm + dir)) by lia.
  apply Z.mod_small. lia.
Qed.

(** Exception class and immediate. *)
Definition esr_ec (esr : Z) : Z := (esr / 2 ^ 26) mod 64.
Definition esr_imm16 (esr : Z) : Z := esr mod 2 ^ 16.

Lemma ec_eq esr : Z.land (Z.shiftr esr 26) 0x3F = esr_ec esr.
Proof. change 0x3F with (Z.ones 6). by rewrite shiftr_land_ones by lia. Qed.

Lemma imm16_eq esr : Z.land esr 0xFFFF = esr_imm16 esr.
Proof. change 0xFFFF with (Z.ones 16). by rewrite land_ones_mod by lia. Qed.

Lemma arch_esr_ec op0 op1 crn crm op2 rt dir :
  0 ≤ arch_iss op0 op1 crn crm op2 rt dir < 2 ^ 25 → esr_ec (arch_esr op0 op1 crn crm op2 rt dir) = 0x18.
Proof.
  intros Hi. unfold esr_ec, arch_esr.
  replace ((0x18 * 2 ^ 26 + 2 ^ 25 + arch_iss op0 op1 crn crm op2 rt dir) / 2 ^ 26) with 0x18; [done|].
  apply Z.div_unique with (2 ^ 25 + arch_iss op0 op1 crn crm op2 rt dir); lia.
Qed.
End decode.

(** ** Emulation of the timer registers *)

Section timer.
Context `{!Console, !Counter}.

(** The value a read of a timer register is given, from the processor's state
    [m], the VCPU [v] and the virtual count [now] read on entry. *)
Definition timer_value (sysreg : Z) (m : machine) (v : vcpu) (now : Z) : option Z :=
  if (sysreg =? SYS_CNTPCT_EL0) || (sysreg =? SYS_CNTVCT_EL0) then Some now
  else if sysreg =? SYS_CNTP_CVAL_EL0 then Some (u64 (sys m CNTP_CVAL_EL0 + cntvoff_el2 (arch v)))
  else if sysreg =? SYS_CNTP_CTL_EL0 then Some (sys m CNTP_CTL_EL0)
  else if sysreg =? SYS_CNTP_TVAL_EL0 then Some (u64 (cntp_cval_el0 (tf (arch v)) - now))
  else if sysreg =? SYS_CNTV_CVAL_EL0 then Some (sys m CNTV_CVAL_EL0)
  else if sysreg =? SYS_CNTV_CTL_EL0 then Some (sys m CNTV_CTL_EL0)
  else if sysreg =? SYS_CNTV_TVAL_EL0 then Some (u64 (sys m CNTV_CVAL_EL0 - now))
  else None.

(** The copy of the register the frame keeps. *)
Definition timer_frame (sysreg : Z) (m : machine) (v : vcpu) (t : trapframe) : trapframe :=
  if (sysreg =? SYS_CNTPCT_EL0) || (sysreg =? SYS_CNTVCT_EL0) then t
  else if sysreg =? SYS_CNTP_CVAL_EL0 then
    set_cntp_cval_el0 (u64 (sys m CNTP_CVAL_EL0 + cntvoff_el2 (arch v))) t
  else if sysreg =? SYS_CNTP_CTL_EL0 then set_cntp_ctl_el0 (sys m CNTP_CTL_EL0) t
  else if sysreg =? SYS_CNTP_TVAL_EL0 then t
  else if sysreg =? SYS_CNTV_CTL_EL0 then set_cntv_ctl_el0 (sys m CNTV_CTL_EL0) t
  else set_cntv_cval_el0 (sys m CNTV_CVAL_EL0) t.

(** The frame after a completed read: the value in [x_rt] unless that is XZR, and
    the return address moved past the instruction. *)
Definition read_done (rt x elr : Z) (t : trapframe) : trapframe :=
  set_elr_el1 (u64 (elr + 4)) (if rt <? 31 then set_regs (<[Z.to_nat rt := x]>) t else t).

Lemma set_guest_reg_focus p v w m h rt x : vcpus h !! p = Some v →
  set_guest_reg p rt x (focus p w m h) =
    Ok () (focus p (if rt <? 31 then set_arch (set_tf (set_regs (<[Z.to_nat rt := x]>))) w else w) m h).
Proof.
  intros Hp. unfold set_guest_reg. destruct (rt <? 31); [by eapply focus_update_tf|done].
Qed.

Definition elr_written (elr : Z) (m : machine) : machine :=
  emit (Msr ELR_EL2 (u64 (elr + 4))) (set_sys (upd ELR_EL2 (u64 (elr + 4))) m).

Lemma timer_done_focus p v w m h elr : vcpus h !! p = Some v →
  timer_done p elr (focus p w m h) =
    Ok true (focus p (set_arch (set_tf (set_elr_el1 (u64 (elr + 4)))) w) (emit Isb (elr_written elr m)) h).
Proof.
  intros Hp. unfold timer_done, advance_guest_elr. cbv zeta.
  rewrite bind_assoc. do 2 fstep. by fstep.
Qed.

Lemma timer_value_known sysreg m v now x : timer_value sysreg m v now = Some x → sysreg ∈ timer_sysregs.
Proof.
  unfold timer_value, timer_sysregs. rewrite !elem_of_cons.
  repeat match goal with |- context [?a =? ?b] => destruct (Z.eqb_spec a b) end; tauto || discriminate.
Qed.

Definition virt_now (m : machine) : Z := virt_count (count_at (reads m)) (sys m CNTVOFF_EL2).

Lemma mrs_virt m : mrs CNTVCT_EL0 m = Ok (virt_now m) (tick m).
Proof. done. Qed.

Ltac read_branch Hp Hx :=
  injection Hx as <-; eexists; split;
  [ cbv iota zeta; repeat first [rewrite bind_assoc | fstep];
    mstep_by ltac:(eapply set_guest_reg_focus; exact Hp);
    erewrite timer_done_focus by exact Hp; unfold read_done; destruct (_ <? 31); reflexivity
  | done ].

(** A trapped read of a register the code knows, from any state with a current
    VCPU. *)
Lemma timer_read_focus esr elr p v v0 m h x :
  sched_current (scheduler h) = Some p → vcpus h !! p = Some v0 →
  timer_value (esr_sys64_sysreg esr) m v (virt_now m) = Some x →
  ∃ m', handle_timer_sysreg esr elr (focus p v m h) =
    Ok true (focus p (set_arch (set_tf (λ t, read_done (esr_sys64_rt esr) x elr
      (timer_frame (esr_sys64_sysreg esr) m v t))) v) m' h) ∧
    sys m' = upd ELR_EL2 (u64 (elr + 4)) (sys m) ∧ vregs m' = vregs m ∧ gprs m' = gprs m.
Proof.
  intros Hc Hp Hx. pose proof (known_sysreg_is_read esr (timer_value_known _ _ _ _ _ Hx)) as Hr.
  unfold handle_timer_sysreg, vcpu_current.
  mstep_by ltac:(apply focus_current). rewrite Hc. cbv zeta. rewrite Hr.
  unfold virtual_counter_now. mstep_by ltac:(apply focus_cpu, mrs_virt).
  set (now := virt_now m) in *. set (rt := esr_sys64_rt esr). set (sr := esr_sys64_sysreg esr) in *.
  unfold timer_value, timer_frame in *.
  destruct ((sr =? SYS_CNTPCT_EL0) || (sr =? SYS_CNTVCT_EL0)).
  { injection Hx as <-. unfold timer_counter, read_done. eexists. split.
    - rewrite (bind_Ok _ _ (focus p v (tick m) h) ()
        (focus p (if rt <? 31 then set_arch (set_tf (set_regs (<[Z.to_nat rt := now]>))) v else v) (tick m) h)).
      2: { cbn [andb]. destruct (rt <? 31) eqn:Hrt; [|done].
           erewrite set_guest_reg_focus by done. by rewrite Hrt. }
      unfold advance_guest_elr. cbv zeta. rewrite bind_assoc. do 2 fstep. destruct (rt <? 31); reflexivity.
    - done. }
  destruct (sr =? SYS_CNTP_CVAL_EL0); [unfold timer_cntp_cval; read_branch Hp Hx|].
  destruct (sr =? SYS_CNTP_CTL_EL0); [unfold timer_cntp_ctl; read_branch Hp Hx|].
  destruct (sr =? SYS_CNTP_TVAL_EL0); [unfold timer_cntp_tval; read_branch Hp Hx|].
  destruct (sr =? SYS_CNTV_CVAL_EL0) eqn:Hcval.
  { rewrite (Z.eqb_eq _ _) in Hcval. rewrite Hcval. unfold timer_cntv_cval. read_branch Hp Hx. }
  destruct (sr =? SYS_CNTV_CTL_EL0); [unfold timer_cntv_ctl; read_branch Hp Hx|].
  destruct (sr =? SYS_CNTV_TVAL_EL0); [unfold timer_cntv_tval; read_branch Hp Hx|discriminate].
Qed.
End timer.

(** ** Hypercalls and dumps *)

(** Code that never gives control back to its caller. *)
Definition never_returns {S A} (m : M S A) : Prop := ∀ s a s', m s ≠ Ok a s'.

Lemma never_returns_bind {S A B} (m : M S A) (k : A → M S B) :
  (∀ a, never_returns (k a)) → never_returns (m ≫= k).
Proof. intros Hk s b s'. unfold mbind, M_bind. destruct (m s); try done. apply Hk. Qed.

Lemma never_returns_hang {S A} : never_returns (hang : M S A).
Proof. done. Qed.

#[export] Hint Resolve never_returns_bind never_returns_hang : schism.

Section handler.
Context `{!Console, !ConsoleSpec, !Counter, !S2Image}.

Lemma prints_hangs (m : M hv ()) s h : prints m s → hangs (m ;; hang : M hv ()) h.
Proof. intros Hm. destruct (Hm h) as (c & Hc & _). exists (set_console c h). by rewrite (bind_Ok _ _ _ _ _ Hc). Qed.

Lemma prints_then {A} (m : M hv ()) (k : M hv A) s h :
  prints m s → (∀ c, con_text c = con_text (console h) +:+ s → hangs k (set_console c h)) → hangs (m ;; k) h.
Proof.
  intros Hm Hk. destruct (Hm h) as (c & Hc & Ht). destruct (Hk c Ht) as [h' Hh]. exists h'.
  by rewrite (bind_Ok _ _ _ _ _ Hc).
Qed.

Lemma prints_line l x : prints (put_line l x) (crlf l +:+ (Uart.hex64 x +:+ crlf newline)).
Proof. unfold put_line. auto with schism. Qed.

Lemma dump_never_returns esr elr spsr far code ec : never_returns (dump_exception esr elr spsr far code ec).
Proof. unfold dump_exception. do 9 (apply never_returns_bind; intros ?). apply never_returns_hang. Qed.

Definition is_abort (ec : Z) : bool := (ec =? 0x20) || (ec =? 0x21) || (ec =? 0x24) || (ec =? 0x25).

Lemma dump_hangs esr elr spsr far code ec h :
  is_abort ec = false → hangs (dump_exception esr elr spsr far code ec) h.
Proof.
  intros Ha. unfold dump_exception. fold (is_abort ec). rewrite Ha.
  do 8 (eapply prints_then; [apply prints_puts || apply prints_line|intros ? _]).
  eapply prints_then; [apply prints_ret|]. intros ? _. by eexists.
Qed.

Lemma current_eq h : vcpu_current h = Ok (sched_current (scheduler h)) h.
Proof. unfold vcpu_current, on_sched, zoom. cbn. by destruct h. Qed.


(** ** Task reports *)

(** A report as the guest leaves it in memory. *)
Record report := Report {
  r_desc : string;
  r_data0 : Z;
  r_data1 : Z;
  r_before : Z;
  r_after : Z;
  r_target : Z;
  r_walk : Z;
}.

Record report_at (m : gmap Z Z) (a : Z) (r : report) : Prop := {
  ra_desc : mem_str m (a + res_desc) (r_desc r);
  ra_data0 : mem_word m (a + res_data0) (r_data0 r);
  ra_data1 : mem_word m (a + res_data1) (r_data1 r);
  ra_before : mem_word m (a + res_time_before) (r_before r);
  ra_after : mem_word m (a + res_time_after) (r_after r);
  ra_target : mem_word m (a + res_time_target) (r_target r);
  ra_walk : mem_word m (a + res_memwalk_time) (r_walk r);
}.

(** What EL2 prints for it. *)
Definition timers_text (before after target walk : Z) : string :=
  if (before =? 0) && (after =? 0) && (target =? 0) && (walk =? 0) then "" else
  "  timers: before=" +:+ Uart.hex64 before +:+ " after=" +:+ Uart.hex64 after +:+
  " target=" +:+ Uart.hex64 target +:+ " memwalk_time=" +:+ Uart.hex64 walk +:+ crlf newline.

Definition report_text (id : Z) (r : report) : string :=
  "[guest" +:+ String (ascii_of_N (Z.to_N (48 + id))) "] " +:+ crlf (r_desc r) +:+
  " data0=" +:+ Uart.hex64 (r_data0 r) +:+ " data1=" +:+ Uart.hex64 (r_data1 r) +:+ crlf newline +:+
  timers_text (r_before r) (r_after r) (r_target r) (r_walk r).

Lemma emits_puts h s : emits h (puts s) () (crlf s).
Proof. apply emits_prints, prints_puts. Qed.
Lemma emits_hex64 h x : emits h (Vcpu.hex64 x) () (Uart.hex64 x).
Proof. apply emits_prints, prints_hex64. Qed.
Lemma emits_load64 h a x : mem_word (ram h) a x → emits h (load64 a) x "".
Proof. intros Ha. apply emits_pure. intros c. by apply load64_Ok. Qed.
Lemma emits_cstr h a s : mem_str (ram h) a s → emits h (load_cstr a) s "".
Proof. intros Ha. apply emits_pure. intros c. by apply load_cstr_Ok. Qed.
Lemma emits_deref h p v : vcpus h !! p = Some v → emits h (deref p) v "".
Proof. intros Hp. apply emits_pure. intros c. by apply deref_Ok. Qed.
Lemma get_reg_at p v i x h : vcpus h !! p = Some v → regs (tf (arch v)) !! Z.to_nat i = Some x →
  get_reg p i h = Ok x h.
Proof. intros Hp Hx. unfold get_reg, arr_get. mstep_by ltac:(by apply deref_Ok). by rewrite Hx. Qed.

Lemma emits_get_reg h p v i x : vcpus h !! p = Some v → regs (tf (arch v)) !! Z.to_nat i = Some x →
  emits h (get_reg p i) x "".
Proof.
  intros Hp Hx. apply emits_pure. intros c. by apply (get_reg_at p v).
Qed.
Lemma emits_current h : emits h vcpu_current (sched_current (scheduler h)) "".
Proof. by apply emits_pure. Qed.
Lemma emits_of_option {A} h (o : option A) a : o = Some a → emits h (of_option o) a "".
Proof. intros ->. apply emits_ret. Qed.

Lemma suffix_str id : 0 ≤ id < 10 →
  c_str [Some (ascii_of_N (Z.to_N (u8 (48 + u8 id)))); Some "]"%char; Some "000"%char] =
    Some (String (ascii_of_N (Z.to_N (48 + id))) "]") ∧
  crlf (String (ascii_of_N (Z.to_N (48 + id))) "]") = String (ascii_of_N (Z.to_N (48 + id))) "]".
Proof.
  intros Hid. unfold u8. rewrite (Z.mod_small id), (Z.mod_small (48 + id)) by lia.
  assert (id = 0 ∨ id = 1 ∨ id = 2 ∨ id = 3 ∨ id = 4 ∨ id = 5 ∨ id = 6 ∨ id = 7 ∨ id = 8 ∨ id = 9) as Hc by lia.
  by repeat (destruct Hc as [->|Hc]; [by split|]); subst.
Qed.

Lemma emits_timers h before after target walk :
  emits h (report_timers before after target walk) () (timers_text before after target walk).
Proof.
  unfold report_timers, timers_text. rewrite <-!negb_andb.
  destruct ((before =? 0) && _ && _ && _); cbn [negb]; [apply emits_ret|].
  repeat (eapply emits_bind; [apply emits_puts || apply emits_hex64|]). apply emits_puts.
Qed.

Lemma task_report_emits h p v elr ptr r :
  sched_current (scheduler h) = Some p → vcpus h !! p = Some v →
  regs (tf (arch v)) !! 1%nat = Some ptr → ptr ≠ 0 → 0 ≤ vcpu_id v < 10 →
  report_at (ram h) ptr r →
  emits h (handle_guest_task_report elr) true (report_text (vcpu_id v) r).
Proof.
  intros Hc Hp Hptr Hnz Hid [R1 R2 R3 R4 R5 R6 R7]. destruct (suffix_str _ Hid) as [Hsuf Hcr].
  unfold handle_guest_task_report. eapply emits_text.
  - eapply emits_bind; [apply emits_current|]. rewrite Hc. cbv iota beta.
    eapply emits_bind; [by eapply emits_get_reg|]. rewrite (proj2 (Z.eqb_neq _ _)) by done. cbv iota.
    eapply emits_bind; [apply emits_puts|]. eapply emits_bind; [by apply emits_deref|].
    eapply emits_bind; [by apply emits_of_option|]. eapply emits_bind; [apply emits_puts|].
    eapply emits_bind; [apply emits_puts|]. eapply emits_bind; [by apply emits_cstr|].
    eapply emits_bind; [apply emits_puts|]. eapply emits_bind; [apply emits_puts|].
    eapply emits_bind; [by apply emits_load64|]. eapply emits_bind; [apply emits_hex64|].
    eapply emits_bind; [apply emits_puts|]. eapply emits_bind; [by apply emits_load64|].
    eapply emits_bind; [apply emits_hex64|]. eapply emits_bind; [apply emits_puts|].
    do 4 (eapply emits_bind; [by apply emits_load64|]).
    eapply emits_bind; [apply emits_timers|apply emits_ret].
  - rewrite Hcr. unfold report_text. rewrite !app_nil_r_string, !app_nil_l_string.
    rewrite !app_cons_string, !app_nil_l_string. reflexivity.
Qed.
End handler.

(** ** The top-level handler *)

Section dispatch.
Context `{!Console, !ConsoleSpec, !Counter, !S2Image}.

(** The scheduler's current VCPU, when there is one, is a well-formed object. *)
Definition current_ok (h : hv) : Prop :=
  ∀ p, sched_current (scheduler h) = Some p → ∃ v, vcpus h !! p = Some v ∧ vcpu_shape v.

Lemma get_reg_Ok p v i h : vcpus h !! p = Some v → vcpu_shape v → 0 ≤ i < 31 →
  ∃ x, regs (tf (arch v)) !! Z.to_nat i = Some x ∧ get_reg p i h = Ok x h.
Proof.
  intros Hp [Hr _ _] Hi. destruct (lookup_lt_is_Some_2 (regs (tf (arch v))) (Z.to_nat i)) as [x Hx]; [lia|].
  exists x. split; [done|]. by apply (get_reg_at p v).
Qed.

Lemma timer_unknown esr elr h :
  esr_sys64_sysreg esr ∉ timer_sysregs →
  ∃ m', handle_timer_sysreg esr elr h = Ok false (set_mach m' h).
Proof.
  intros Hn. unfold handle_timer_sysreg. mstep_by ltac:(apply current_eq).
  destruct (sched_current (scheduler h)) as [p|]; [|exists (mach h); by destruct h].
  cbv zeta. unfold timer_sysregs in Hn. rewrite !not_elem_of_cons in Hn.
  destruct Hn as (N1 & N2 & N3 & N4 & N5 & N6 & N7 & N8 & _).
  rewrite !(proj2 (Z.eqb_neq _ _)) by done. cbn [orb].
  eexists. unfold virtual_counter_now. mstep_by ltac:(by apply cpu_do). reflexivity.
Qed.

(** A handler that declines and leaves the registers to be dumped. *)
Lemma exception_falls_through esr elr spsr far code h :
  esr_ec esr ≠ 0x01 → is_abort (esr_ec esr) = false →
  (esr_ec esr = 0x16 → ∃ h', handle_guest_hvc esr elr h = Ok false h') →
  (esr_ec esr = 0x18 → ∃ h', handle_timer_sysreg esr elr h = Ok false h') →
  hangs (el2_exception_common esr elr spsr far code) h.
Proof.
  intros Hne Ha H16 H18. unfold el2_exception_common. rewrite ec_eq. cbv zeta.
  rewrite (proj2 (Z.eqb_neq _ _) Hne).
  destruct (Z.eqb_spec (esr_ec esr) 0x16) as [E|E].
  - destruct (H16 E) as [h' Hh]. unfold hangs. rewrite (bind_Ok _ _ _ _ _ Hh). cbv iota beta. rewrite E. cbn [Z.eqb].
    mstep. cbv iota. by apply dump_hangs.
  - unfold hangs. mstep. destruct (Z.eqb_spec (esr_ec esr) 0x18) as [E'|E'].
    + destruct (H18 E') as [h' Hh]. rewrite (bind_Ok _ _ _ _ _ Hh). by apply dump_hangs.
    + mstep. by apply dump_hangs.
Qed.

(** The registers whose value is a time still to go. *)
Definition tval_reg (r : Z) : bool := (r =? SYS_CNTP_TVAL_EL0) || (r =? SYS_CNTV_TVAL_EL0).

Lemma taken_for_value op0 op1 crn op2 rt r m v now :
  taken_for op0 op1 crn op2 rt = Some r → ∃ x, timer_value r m v now = Some x.
Proof.
  unfold taken_for. repeat case_match; intros [= <-]; by eexists.
Qed.

(** A 64-bit value is a sign-extended 32-bit one only close to zero. *)
Lemma u64_s32_iff x : is_u64 x → x = u64 (s32 x) ↔ x < 2 ^ 31 ∨ 2 ^ 64 - 2 ^ 31 ≤ x.
Proof.
  unfold s32, u64. intros Hx. pose proof (Z.div_mod (x + 2 ^ 31) (2 ^ 32) ltac:(lia)) as Hd.
  pose proof (Z.mod_pos_bound (x + 2 ^ 31) (2 ^ 32) ltac:(lia)) as Hm. set (y := (x + 2 ^ 31) mod 2 ^ 32) in *.
  destruct (Z.le_gt_cases (2 ^ 31) y).
  - rewrite Z.mod_small by lia. lia.
  - replace (y - 2 ^ 31) with (y - 2 ^ 31 + 2 ^ 64 + (-1) * 2 ^ 64) by lia.
    rewrite Z.mod_add, Z.mod_small by lia. lia.
Qed.

Lemma tval_u64 r m v now x : tval_reg r = true → timer_value r m v now = Some x → is_u64 x.
Proof.
  unfold tval_reg. intros [->%Z.eqb_eq| ->%Z.eqb_eq]%orb_true_iff [= <-]; apply u64_range.
Qed.

(** C18. What a trapped MSR or MRS does, for every register the architecture can
    name and with the syndrome laid out as it defines it. The handler takes an access
    to S3_7_C8_Cm_1, with one of the transfer registers listed in [taken_for],
    for a read of a timer register: it writes that timer's value not to the
    instruction's own register but to the one numbered [2 * CRm + direction] (unless
    that is 31), updates the frame's copy, moves past the instruction in the frame and
    in ELR_EL2, and changes no other VCPU; a remaining time is the 64-bit difference,
    which is a sign-extended 32-bit number only within 2^31 ticks of the deadline. Any
    other access is not handled and EL2 stops. *)
Theorem sysreg_traps_emulated op0 op1 crn crm op2 rt dir elr spsr far code p v h :
  0 ≤ op0 < 4 → 0 ≤ op1 < 8 → 0 ≤ crn < 16 → 0 ≤ crm < 16 → 0 ≤ op2 < 8 → 0 ≤ rt < 32 → 0 ≤ dir < 2 →
  sched_current (scheduler h) = Some p → vcpus h !! p = Some v →
  let esr := arch_esr op0 op1 crn crm op2 rt dir in
  match taken_for op0 op1 crn op2 rt with
  | Some r => ∃ x h', el2_exception_common esr elr spsr far code h = Ok () h' ∧
      timer_value r (mach h) v (virt_now (mach h)) = Some x ∧
      (tval_reg r = true → x = u64 (s32 x) ↔ x < 2 ^ 31 ∨ 2 ^ 64 - 2 ^ 31 ≤ x) ∧
      vcpus h' = <[p := set_arch (set_tf (λ t, read_done (2 * crm + dir) x elr
        (timer_frame r (mach h) v t))) v]> (vcpus h) ∧
      sys (mach h') = upd ELR_EL2 (u64 (elr + 4)) (sys (mach h)) ∧
      vregs (mach h') = vregs (mach h) ∧ scheduler h' = scheduler h ∧ ram h' = ram h
  | None => hangs (el2_exception_common esr elr spsr far code) h
  end.
Proof.
  intros B1 B2 B3 B4 B5 B6 B7 Hc Hp esr.
  pose proof (arch_sysreg op0 op1 crn crm op2 rt dir B1 B2 B3 B4 B5 B6 B7) as Hr. fold esr in Hr.
  assert (esr_ec esr = 0x18) as Hec by (apply arch_esr_ec; unfold arch_iss; lia).
  destruct (taken_for op0 op1 crn op2 rt) as [r|] eqn:Ht.
  - destruct (taken_for_value _ _ _ _ _ _ (mach h) v (virt_now (mach h)) Ht) as [x Hx].
    pose proof Hx as Hx'. rewrite <-Hr in Hx'.
    destruct (timer_read_focus esr elr p v v (mach h) h x Hc Hp Hx') as (m' & E & Hs & Hv & _).
    rewrite <-(focus_start p v h Hp) in E. unfold esr in E at 2. rewrite arch_rt, Hr in E by done.
    eexists x, _. split; [|split; [done|split]].
    + unfold el2_exception_common. rewrite ec_eq, Hec. cbn [Z.eqb Pos.eqb]. cbv zeta. mstep.
      rewrite (bind_Ok _ _ _ _ _ E). reflexivity.
    + intros Htv. eapply u64_s32_iff, tval_u64; done.
    + by split_and!.
  - apply exception_falls_through; rewrite ?Hec; try done.
    intros _. destruct (timer_unknown esr elr h Hr) as [m' Hm]. by eexists.
Qed.

(** The handler never takes a write for a write: for every ESR whose register
    it knows, the bit it reads as the direction is set, so the branches that
    program the timers from the guest's registers are unreachable. *)
Theorem timer_writes_unreachable esr :
  esr_sys64_sysreg esr ∈ timer_sysregs → esr_sys64_is_read esr = true.
Proof. apply known_sysreg_is_read. Qed.

(** C19. No genuine trap of a timer register is emulated: for every timer register,
    transfer register and direction, with the syndrome laid out as the
    architecture defines it, the handler does not recognise the register, and EL2
    dumps the exception and stops. *)
Theorem timer_traps_unrecognised crm op2 rt dir elr spsr far code h :
  (crm, op2) ∈ timer_encodings → 0 ≤ rt < 32 → 0 ≤ dir < 2 →
  (∃ m', handle_timer_sysreg (arch_esr 3 3 14 crm op2 rt dir) elr h = Ok false (set_mach m' h)) ∧
  hangs (el2_exception_common (arch_esr 3 3 14 crm op2 rt dir) elr spsr far code) h.
Proof.
  intros He Hr Hd. pose proof (genuine_traps_unknown _ _ _ _ He Hr Hd) as Hn.
  assert (esr_ec (arch_esr 3 3 14 crm op2 rt dir) = 0x18) as Hec.
  { apply arch_esr_ec. unfold arch_iss, timer_encodings in *. rewrite !elem_of_cons, elem_of_nil in He.
    by repeat (destruct He as [[= -> ->]|He]; [lia|]). }
  split; [by apply timer_unknown|]. apply exception_falls_through; rewrite ?Hec; try done.
  intros _. destruct (timer_unknown _ elr h Hn) as [m' Hm]. by eexists.
Qed.

(** C8. The exception handler returns to the guest only for what it has handled:
    WFI and WFE, the hypercalls 0x60 and 0x61, and reads of timer registers;
    everything else stops EL2. *)
Theorem exception_returns_only_if_handled esr elr spsr far code h h' :
  el2_exception_common esr elr spsr far code h = Ok () h' →
  esr_ec esr = 0x01 ∨
  (sched_current (scheduler h) ≠ None ∧
    (esr_ec esr = 0x16 ∧ (esr_imm16 esr = 0x60 ∨ esr_imm16 esr = 0x61) ∨
     esr_ec esr = 0x18 ∧ esr_sys64_sysreg esr ∈ timer_sysregs)).
Proof.
  unfold el2_exception_common. rewrite ec_eq. cbv zeta.
  destruct (Z.eqb_spec (esr_ec esr) 0x01) as [|Hne]; [by left|]. intros Hret. right.
  assert (∀ s s', dump_exception esr elr spsr far code (esr_ec esr) s ≠ Ok () s') as Hd.
  { intros s s'. apply dump_never_returns. }
  destruct (Z.eqb_spec (esr_ec esr) 0x16) as [E|E].
  - unfold mbind at 1, M_bind at 1 in Hret. destruct (handle_guest_hvc esr elr h) as [[] h1|h1| |] eqn:Hh; try done.
    + unfold handle_guest_hvc in Hh. rewrite imm16_eq in Hh. cbv zeta in Hh.
      destruct (Z.eqb_spec (esr_imm16 esr) 0x60) as [I|I].
      { split; [|left; auto]. intros Hn. unfold handle_guest_task_report in Hh.
        rewrite (bind_Ok _ _ _ _ _ (current_eq h)), Hn in Hh. done. }
      destruct (Z.eqb_spec (esr_imm16 esr) 0x61) as [I'|I'].
      { split; [|left; auto]. intros Hn. unfold handle_guest_time_override in Hh.
        rewrite (bind_Ok _ _ _ _ _ (current_eq h)), Hn in Hh. done. }
      destruct (Z.eqb_spec (esr_imm16 esr) 0x63); [|done]. exfalso. revert Hh.
      do 3 (apply never_returns_bind; intros ?). apply never_returns_hang.
    + rewrite E in Hret, Hd. exfalso. exact (Hd _ _ Hret).
  - unfold mbind at 1, M_bind at 1, mret, M_ret in Hret.
    destruct (Z.eqb_spec (esr_ec esr) 0x18) as [E'|E'].
    + unfold mbind, M_bind in Hret.
      destruct (decide (esr_sys64_sysreg esr ∈ timer_sysregs)) as [Hin|Hin].
      * split; [|by right; auto]. intros Hn. unfold handle_timer_sysreg in Hret.
        rewrite (bind_Ok _ _ _ _ _ (current_eq h)), Hn in Hret. exact (Hd _ _ Hret).
      * destruct (timer_unknown esr elr h Hin) as [m' Hm]. rewrite Hm in Hret. destruct (Hd _ _ Hret).
    + destruct (Hd _ _ Hret).
Qed.
End dispatch.

Section calls.
Context `{!Console, !ConsoleSpec, !Counter, !S2Image}.

(** The VCPU after the time override with offset [off]. *)
Definition overridden (desired off : Z) (v : vcpu) : vcpu :=
  set_arch (λ a, set_tf (set_regs (<[0%nat := desired]>)) (set_cntvoff_el2 off (set_cntvct_el0 desired a))) v.

Definition override_sys (off : Z) (t : trapframe) (f : sysreg → Z) : sysreg → Z :=
  upd CNTV_CTL_EL0 (cntv_ctl_el0 t) (upd CNTV_CVAL_EL0 (cntv_cval_el0 t)
    (upd CNTP_CTL_EL0 (cntp_ctl_el0 t) (upd CNTP_CVAL_EL0 (u64 (cntp_cval_el0 t - off))
      (upd CNTVOFF_EL2 off f)))).

Lemma time_override_focus h p v v0 m desired :
  sched_current (scheduler h) = Some p → vcpus h !! p = Some v0 →
  regs (tf (arch v)) !! 0%nat = Some desired →
  let off := u64 (desired - count_at (reads m)) in
  ∃ m', handle_guest_time_override (focus p v m h) = Ok true (focus p (overridden desired off v) m' h) ∧
    sys m' = override_sys off (tf (arch v)) (sys m) ∧ reads m' = S (reads m).
Proof.
  intros Hc Hp H0r off. eexists. split.
  - unfold handle_guest_time_override. mstep_by ltac:(apply focus_current). rewrite Hc. cbv iota.
    mstep_by ltac:(apply (get_reg_at p v); [by apply (put_lookup p v v0 (set_mach m h))|done]).
    mstep_by ltac:(apply (focus_cpu _ (count_at (reads m)) _ _ _ (tick m)); reflexivity).
    cbv zeta. fold off. do 4 fstep. do 5 (mstep_by ltac:(by apply focus_cpu)). fstep. reflexivity.
  - split; reflexivity.
Qed.

Lemma time_override_eq h p v desired :
  sched_current (scheduler h) = Some p → vcpus h !! p = Some v →
  regs (tf (arch v)) !! 0%nat = Some desired →
  let off := u64 (desired - count_at (reads (mach h))) in
  ∃ m', handle_guest_time_override h = Ok true (focus p (overridden desired off v) m' h) ∧
    sys m' = override_sys off (tf (arch v)) (sys (mach h)) ∧ reads m' = S (reads (mach h)).
Proof.
  intros Hc Hp Hr off. destruct (time_override_focus h p v v (mach h) desired Hc Hp Hr) as (m' & E & Hs).
  rewrite <-(focus_start p v h Hp) in E. by exists m'.
Qed.

(** C20. WFI and WFE: the handler returns with the return address past the
    instruction in ELR_EL2 and in the frame, and the current VCPU marked to yield;
    apart from a message nothing else changes. *)
Theorem wfi_requests_yield esr elr spsr far code p v h :
  esr_ec esr = 0x01 → sched_current (scheduler h) = Some p → vcpus h !! p = Some v →
  total (el2_exception_common esr elr spsr far code) h (λ _ h',
    vcpus h' = <[p := set_request_yield true (set_arch (set_tf (set_elr_el1 (u64 (elr + 4)))) v)]> (vcpus h) ∧
    sys (mach h') = upd ELR_EL2 (u64 (elr + 4)) (sys (mach h)) ∧ vregs (mach h') = vregs (mach h) ∧
    scheduler h' = scheduler h ∧ ram h' = ram h ∧
    con_text (console h') =
      con_text (console h) +:+ crlf ("EL2: WFI/WFE from guest detected, yielding..." +:+ newline)).
Proof.
  intros He Hc Hp. unfold el2_exception_common. rewrite ec_eq, He. cbn [Z.eqb Pos.eqb]. cbv zeta.
  unfold total, wp. destruct (prints_puts ("EL2: WFI/WFE from guest detected, yielding..." +:+ newline) h)
    as (c & E & Ht). rewrite (bind_Ok _ _ _ _ _ E).
  rewrite (focus_start p v (set_console c h) Hp). fstep.
  mstep_by ltac:(apply current_eq). cbn [scheduler focus put set_vcpus set_mach set_console]. rewrite Hc.
  fstep. erewrite focus_update by exact Hp. by split_and!.
Qed.

(** A trap with hypercall 0x60 prints what the report handler prints and returns. *)
Lemma report_trap_runs esr elr spsr far code h s :
  esr_ec esr = 0x16 → esr_imm16 esr = 0x60 → emits h (handle_guest_task_report elr) true s →
  ∃ c, el2_exception_common esr elr spsr far code h = Ok () (set_console c h) ∧
    con_text c = con_text (console h) +:+ s.
Proof.
  intros He Hi Hrep. destruct (emits_total _ _ _ _ Hrep) as (c & E & Ht).
  exists c. split; [|done]. unfold el2_exception_common. rewrite ec_eq, He. cbn [Z.eqb Pos.eqb]. cbv zeta.
  unfold handle_guest_hvc. rewrite imm16_eq, Hi. cbn [Z.eqb Pos.eqb]. cbv zeta.
  by rewrite (bind_Ok _ _ _ _ _ E).
Qed.

(** Hypercall 0x60: for a report the guest has laid out in memory EL2 can
    read, with a terminated description, the handler prints the guest's number,
    the description, both data words and, when any is set, the four times, and
    returns with every other part of the state unchanged. *)
Theorem task_report_printed esr elr spsr far code p v h ptr r :
  esr_ec esr = 0x16 → esr_imm16 esr = 0x60 →
  sched_current (scheduler h) = Some p → vcpus h !! p = Some v →
  regs (tf (arch v)) !! 1%nat = Some ptr → ptr ≠ 0 → 0 ≤ vcpu_id v < 10 → report_at (ram h) ptr r →
  ∃ c, el2_exception_common esr elr spsr far code h = Ok () (set_console c h) ∧
    con_text c = con_text (console h) +:+ report_text (vcpu_id v) r.
Proof.
  intros He Hi Hc Hp Hr Hz Hid Hrep. apply report_trap_runs; [done..|].
  by apply (task_report_emits h p v elr ptr r).
Qed.

(** C31. Hypercall 0x61: the offset register, the VCPU's offset and snapshot and
    the compare registers are reprogrammed for the virtual time in x0, which is
    returned in x0. *)
Theorem time_override_reprograms h p v desired :
  sched_current (scheduler h) = Some p → vcpus h !! p = Some v →
  regs (tf (arch v)) !! 0%nat = Some desired → is_u64 desired →
  let pct := count_at (reads (mach h)) in
  let off := u64 (desired - pct) in
  ∃ h', handle_guest_time_override h = Ok true h' ∧
    vcpus h' = <[p := overridden desired off v]> (vcpus h) ∧
    sys (mach h') = override_sys off (tf (arch v)) (sys (mach h)) ∧
    u64 (pct + sys (mach h') CNTVOFF_EL2) = desired ∧
    u64 (sys (mach h') CNTP_CVAL_EL0 + sys (mach h') CNTVOFF_EL2) = u64 (cntp_cval_el0 (tf (arch v))).
Proof.
  intros Hc Hp Hr Hd pct off. destruct (time_override_eq h p v desired Hc Hp Hr) as (m' & E & Hs & _).
  fold pct off in E, Hs. eexists. split; [exact E|]. split; [done|].
  assert (mach (focus p (overridden desired off v) m' h) = m') as -> by done. rewrite Hs.
  split; [done|]. unfold override_sys. simpl_regs. split.
  - subst off. rewrite u64_add_mod_r. replace (pct + (desired - pct)) with desired by lia.
    by apply u64_small.
  - apply u64_add_sub.
Qed.


End calls.

(** ** Witnesses *)

#[local] Existing Instance text_console.
#[local] Existing Instance text_console_spec.
#[local] Existing Instance demo_counter.
#[local] Existing Instance demo_counter_arch.
#[local] Existing Instance demo_s2_image.

(** MRS X2, S3_7_C8_C2_1: taken for a read of CNTVCT_EL0 into X5. *)
Definition demo_timer_esr : Z := arch_esr 3 7 8 2 1 2 1.

Lemma sysreg_traps_emulated_witness :
  ∃ h', el2_exception_common demo_timer_esr 0x40001000 0 0 0x20 (demo_hv demo_machine) = Ok () h' ∧
    (λ v, regs (tf (arch v)) !! 5%nat) <$> vcpus h' !! 0%nat = Some (Some 1000) ∧
    sys (mach h') ELR_EL2 = 0x40001004.
Proof.
  destruct (sysreg_traps_emulated 3 7 8 2 1 2 1 0x40001000 0 0 0x20 0 (demo_vcpu 0) (demo_hv demo_machine)
    ltac:(lia) ltac:(lia) ltac:(lia) ltac:(lia) ltac:(lia) ltac:(lia) ltac:(lia) eq_refl eq_refl)
    as (x & h' & E & Hx & _ & Hv & Hs & _).
  injection Hx as <-. exists h'. split; [exact E|]. rewrite Hv, Hs. split; reflexivity.
Defined.

Lemma timer_writes_unreachable_witness : esr_sys64_is_read demo_timer_esr = true.
Proof. apply (timer_writes_unreachable demo_timer_esr). by apply (bool_decide_unpack _). Defined.

Lemma timer_traps_unrecognised_witness :
  hangs (el2_exception_common (arch_esr 3 3 14 2 2 1 1) 0x40001000 0 0 0x20) (demo_hv demo_machine).
Proof.
  apply (timer_traps_unrecognised 2 2 1 1 0x40001000 0 0 0x20 (demo_hv demo_machine)); [|lia|lia].
  by apply (bool_decide_unpack _).
Defined.

(** A hypercall nobody handles, and a handled one whose pointer is null. *)
Lemma exception_returns_only_if_handled_witness :
  esr_ec (0x16 * 2 ^ 26 + 0x60) = 0x01 ∨ sched_current demo_queue ≠ None.
Proof.
  destruct (exception_returns_only_if_handled (0x16 * 2 ^ 26 + 0x60) 0 0 0 0x20 (demo_hv demo_machine)
    (demo_hv demo_machine) eq_refl) as [E|[E _]]; [by left|by right].
Defined.

Lemma wfi_requests_yield_witness :
  total (el2_exception_common 0x07E00000 0x40001000 0 0 0x20) (demo_hv demo_machine) (λ _ h',
    request_yield <$> vcpus h' !! 0%nat = Some true ∧ sys (mach h') ELR_EL2 = 0x40001004).
Proof.
  eapply total_mono; [apply (wfi_requests_yield 0x07E00000 0x40001000 0 0 0x20 0 (demo_vcpu 0)
    (demo_hv demo_machine)); reflexivity|].
  intros [] h' (Hv & Hs & _). rewrite Hv, Hs. by split.
Defined.

(** A report with description "ok" at address 0x1000. *)
Definition demo_report_ram : gmap Z Z :=
  list_to_map (zip (seqZ 0x1000 88)
    (replicate 8 0 ++ [111; 107] ++ replicate 30 0 ++ [7] ++ replicate 7 0 ++ [1; 2] ++ replicate 38 0)%list).

Definition demo_report : report := Report "ok" 7 0x201 0 0 0 0.

Definition report_vcpu : vcpu :=
  set_arch (set_tf (set_regs (<[1%nat := 0x1000]>))) (demo_vcpu 0).

Definition report_hv : hv := set_ram demo_report_ram (set_vcpus [report_vcpu] (demo_hv demo_machine)).

Ltac solve_mem_le :=
  first [ reflexivity
        | eexists _, _; split; [vm_compute; reflexivity|split; [solve_mem_le|reflexivity]] ].

Lemma task_report_printed_witness :
  ∃ c : string, el2_exception_common (0x16 * 2 ^ 26 + 0x60) 0x40001000 0 0 0x20 report_hv =
    Ok () (set_console c report_hv) ∧
    c = "[guest0] ok data0=0x0000000000000007 data1=0x0000000000000201" +:+ crlf newline.
Proof.
  assert (report_at demo_report_ram 0x1000 demo_report) as Hr.
  { split; [by vm_compute|unfold mem_word; cbn [mem_le]; solve_mem_le..]. }
  destruct (task_report_printed (0x16 * 2 ^ 26 + 0x60) 0x40001000 0 0 0x20 0 report_vcpu report_hv 0x1000
    demo_report eq_refl eq_refl eq_refl eq_refl eq_refl ltac:(lia) ltac:(cbn; lia) Hr) as (c & E & Ht).
  exists c. split; [exact E|]. etrans; [exact Ht|]. vm_compute. reflexivity.
Defined.

Definition override_vcpu : vcpu := set_arch (set_tf (set_regs (<[0%nat := 5000]>))) (demo_vcpu 0).

Definition override_hv : hv := set_vcpus [override_vcpu] (demo_hv demo_machine).

Lemma time_override_reprograms_witness :
  ∃ h', handle_guest_time_override override_hv = Ok true h' ∧ sys (mach h') CNTVOFF_EL2 = 4000.
Proof.
  destruct (time_override_reprograms override_hv 0 override_vcpu 5000 eq_refl eq_refl eq_refl ltac:(lia))
    as (h' & E & _ & Hs & _). exists h'. split; [exact E|]. by rewrite Hs.
Defined.

