(* ===== verification/Isolation.v ===== *)
(** * What a trap leaves alone

    Whatever a guest traps with, EL2's handlers touch the running VCPU only: its
    frame, its timer fields and its yield flag. The scheduler, the other VCPUs, the
    SIMD state and the registers that decide what memory the guests and EL2 can
    reach stay as they are.                                                     *)

From Stdlib Require Import ZArith Lia Ascii String.
From stdpp Require Import base gmap list strings.
From S2P Require Import Prelude Machine PageTable S2Mmu Uart UartTheory Vcpu VcpuTheory Trap TrapTheory.

#[local] Open Scope Z_scope.

(** The registers that decide which memory the guests and EL2 can reach and where
    exceptions to EL2 go. *)
Definition protection_reg (r : sysreg) : bool :=
  match r with
  | VTTBR_EL2 | VTCR_EL2 | HCR_EL2 | TTBR0_EL2 | TCR_EL2 | SCTLR_EL2 | MAIR_EL2 | CNTHCTL_EL2
  | VBAR_EL2 => true
  | _ => false
  end.

Section frame.
Context `{!Console, !Counter}.

(** What only a switch writes in a VCPU's record. *)
Definition switch_state (v : vcpu) : Z * fp_state * sve_state * pauth_state * vgic_state * Z :=
  (vttbr_el2 (arch v), fp (arch v), sve (arch v), pauth (arch v), vgic (arch v), vcpu_id v).

(** From [h] to [h'] the scheduler, the record of the VCPU [a], the switched state
    of all VCPUs, the static variables, the stage-2 tables, memory, the general, SIMD and protection
    registers are as they were. *)
Record untouched (a : nat) (h h' : hv) : Prop := {
  un_sched : scheduler h' = scheduler h;
  un_vcpu : vcpus h' !! a = vcpus h !! a;
  un_switch : switch_state <$> vcpus h' = switch_state <$> vcpus h;
  un_shape : Forall vcpu_shape (vcpus h) → Forall vcpu_shape (vcpus h');
  un_host : host_saved_area h' = host_saved_area h;
  un_vgic : vgic_cached h' = vgic_cached h;
  un_s2 : s2_tables h' = s2_tables h;
  un_ram : ram h' = ram h;
  un_frame : current_trapframe h' = current_trapframe h;
  un_gprs : gprs (mach h') = gprs (mach h);
  un_vregs : vregs (mach h') = vregs (mach h);
  un_prot r : protection_reg r = true → sys (mach h') r = sys (mach h) r;
}.

#[export] Instance untouched_preorder a : PreOrder (untouched a).
Proof.
  split; [by intros h; split|]. intros h1 h2 h3 H12 H23. split; destruct H12, H23; try congruence; [auto|].
  intros r Hr. rewrite <-un_prot0 by done. by apply un_prot1.
Qed.

(** Code that touches nothing of [a] while [a] is not the current VCPU. *)
Definition leaves_alone {A} (a : nat) (m : M hv A) : Prop :=
  ∀ h x h', sched_current (scheduler h) ≠ Some a → m h = Ok x h' → untouched a h h'.

Lemma la_bind {A B} a (m : M hv A) (k : A → M hv B) :
  leaves_alone a m → (∀ x, leaves_alone a (k x)) → leaves_alone a (m ≫= k).
Proof.
  intros Hm Hk h y h' Hc. unfold mbind, M_bind. destruct (m h) as [x h1| | |] eqn:E; try done.
  intros E'. pose proof (Hm _ _ _ Hc E) as Hu. etrans; [exact Hu|].
  apply (Hk x h1 y h'); [|done]. by rewrite (un_sched _ _ _ Hu).
Qed.

Lemma la_ret {A} a (x : A) : leaves_alone a (mret x).
Proof. by intros h y h' _ [= _ <-]. Qed.

Lemma la_hang {A} a : leaves_alone a (hang : M hv A).
Proof. done. Qed.

Lemma la_if {A} a (b : bool) (m1 m2 : M hv A) :
  leaves_alone a m1 → leaves_alone a m2 → leaves_alone a (if b then m1 else m2).
Proof. by destruct b. Qed.

Lemma la_cpu {A} a (c : M machine A) :
  (∀ m x m', c m = Ok x m' → gprs m' = gprs m ∧ vregs m' = vregs m ∧
    ∀ r, protection_reg r = true → sys m' r = sys m r) →
  leaves_alone a (cpu c).
Proof.
  intros Hc h x h' _. unfold cpu, zoom. destruct (c (mach h)) as [y m| | |] eqn:E; try done.
  intros [= -> <-]. destruct (Hc _ _ _ E) as (? & ? & ?). by split.
Qed.

Lemma la_mrs a r : leaves_alone a (cpu (mrs r)).
Proof. apply la_cpu. intros m x m'. by destruct r; intros [= _ <-]. Qed.

Lemma la_msr a r v : protection_reg r = false → leaves_alone a (cpu (msr r v)).
Proof.
  intros Hr. apply la_cpu. intros m [] m' [= <-]. split; [done|]. split; [done|].
  intros r' Hr'. cbn [emit set_sys sys].
  rewrite upd_ne; [done|]. congruence.
Qed.

Lemma la_isb a : leaves_alone a (cpu isb).
Proof. apply la_cpu. by intros m [] m' [= <-]. Qed.

Lemma la_print {A} a (c : M con A) : leaves_alone a (print c).
Proof.
  intros h x h' _. unfold print, zoom. destruct (c (console h)); try done. by intros [= _ <-].
Qed.

Lemma la_deref a p : leaves_alone a (deref p).
Proof.
  intros h x h' _. unfold deref, arr_get, mbind, M_bind. cbn.
  destruct (vcpus h !! p); [|done]. by intros [= _ <-].
Qed.

(** An update that keeps the shape and the switched state of a VCPU. *)
Definition small_update (f : vcpu → vcpu) : Prop :=
  ∀ v, switch_state (f v) = switch_state v ∧ (vcpu_shape v → vcpu_shape (f v)).

Lemma la_update a p f : p ≠ a → small_update f → leaves_alone a (update p f).
Proof.
  intros Hp Hf h [] h' _. unfold update, arr_get, mbind, M_bind. cbn.
  destruct (vcpus h !! p) as [v|] eqn:E; [|done]. intros [= <-]. destruct (Hf v) as [Hs Hv].
  split; try done; cbn [vcpus set_vcpus].
  - by apply list_lookup_insert_ne.
  - rewrite list_fmap_insert, Hs. apply list_insert_id. by rewrite list_lookup_fmap, E.
  - intros Ha. apply Forall_insert; [done|]. by apply Hv, (Forall_lookup_1 _ _ _ _ Ha E).
Qed.

Lemma la_of_option {A} a (o : option A) : leaves_alone a (of_option o).
Proof. destruct o; [apply la_ret|done]. Qed.

Lemma la_load8 a x : leaves_alone a (load8 x).
Proof. unfold load8. apply la_bind; [by intros h y h' _ [= _ <-]|]. intros m. apply la_of_option. Qed.

Lemma la_load_le a n x : leaves_alone a (load_le n x).
Proof.
  revert x. induction n as [|n IH]; intros x; cbn [load_le]; [apply la_ret|].
  apply la_bind; [apply la_load8|]. intros b. apply la_bind; [apply IH|]. intros w. apply la_ret.
Qed.

Lemma la_load_str a n x : leaves_alone a (load_str n x).
Proof.
  revert x. induction n as [|n IH]; intros x; cbn [load_str]; [done|].
  apply la_bind; [apply la_load8|]. intros b. apply la_if; [apply la_ret|].
  apply la_bind; [apply IH|]. intros s. apply la_ret.
Qed.

Lemma la_load_entry `{!S2Image} a x : leaves_alone a (load_entry x).
Proof.
  apply la_bind; [by intros h y h' _ [= _ <-]|]. intros t. case_match; [apply la_ret|apply la_load_le].
Qed.

Lemma la_load_cstr a x : leaves_alone a (load_cstr x).
Proof. apply la_bind; [by intros h y h' _ [= _ <-]|]. intros m. apply la_load_str. Qed.

(** Reading the current VCPU gives anything but [a]. *)
Lemma la_current {A} a (k : vptr → M hv A) :
  (∀ p, p ≠ Some a → leaves_alone a (k p)) → leaves_alone a (vcpu_current ≫= k).
Proof.
  intros Hk h x h' Hc. rewrite (bind_Ok _ _ _ _ _ (current_eq h)). by apply Hk.
Qed.
End frame.

Create HintDb alone.
#[export] Hint Resolve la_ret la_hang la_mrs la_isb la_print la_deref la_of_option la_load8 la_load_le
  la_load_str la_load_cstr la_load_entry : alone.

(** An update of the frame, of the timer's fields or of the yield flag is small. *)
Ltac solve_small := intros ?; split; [done|intros []; split; cbn; rewrite ?length_insert; done].

(** Go through the statements of a function. *)
Ltac solve_alone :=
  cbv zeta;
  repeat first
    [ solve [auto with alone]
    | apply la_current; intros
    | apply la_msr; reflexivity
    | apply la_update; [congruence|solve_small]
    | apply la_bind; [|intros ?]
    | apply la_if
    | progress cbv zeta
    | case_match ].

Section trap_frame.
Context `{!Console, !Counter, !S2Image}.

Lemma la_get_reg a p i : leaves_alone a (get_reg p i).
Proof. unfold get_reg, arr_get. solve_alone. Qed.

Lemma la_puts a s : leaves_alone a (puts s).
Proof. apply la_print. Qed.
Lemma la_hex64 a x : leaves_alone a (Vcpu.hex64 x).
Proof. apply la_print. Qed.
Hint Resolve la_get_reg la_puts la_hex64 : alone.

Lemma la_put_line a l x : leaves_alone a (put_line l x).
Proof. unfold put_line. solve_alone. Qed.
Hint Resolve la_put_line : alone.

Lemma la_set_guest_reg a p rt x : p ≠ a → leaves_alone a (set_guest_reg p rt x).
Proof. intros Hp. unfold set_guest_reg, update_tf, update_arch. solve_alone. Qed.

Lemma la_guest_reg a p rt : leaves_alone a (guest_reg p rt).
Proof. unfold guest_reg. solve_alone. Qed.
Hint Resolve la_set_guest_reg la_guest_reg : alone.

Lemma la_timer_done a p elr : p ≠ a → leaves_alone a (timer_done p elr).
Proof. intros Hp. unfold timer_done, advance_guest_elr, update_tf, update_arch. solve_alone. Qed.
Hint Resolve la_timer_done : alone.

Lemma la_handle_timer_sysreg a esr elr : leaves_alone a (handle_timer_sysreg esr elr).
Proof.
  unfold handle_timer_sysreg, virtual_counter_now. apply la_current. intros [p|] Hp; [|solve_alone].
  assert (p ≠ a) by congruence.
  unfold timer_counter, timer_cntp_cval, timer_cntp_ctl, timer_cntp_tval, timer_cntv_cval,
    timer_cntv_ctl, timer_cntv_tval, advance_guest_elr, update_tf, update_arch.
  solve_alone.
Qed.

Lemma la_handle_guest_hvc a esr elr : leaves_alone a (handle_guest_hvc esr elr).
Proof.
  unfold handle_guest_hvc, handle_guest_task_report, handle_guest_time_override, report_timers,
    update_tf, update_arch. solve_alone.
Qed.
Hint Resolve la_handle_timer_sysreg la_handle_guest_hvc : alone.

(** No trap, handled or not, touches a VCPU that is not running. *)
Lemma la_exception a esr elr spsr far code : leaves_alone a (el2_exception_common esr elr spsr far code).
Proof.
  unfold el2_exception_common, dump_exception, dump_abort, update_tf, update_arch. solve_alone.
Qed.
End trap_frame.
