(* ===== verification/Layout.v ===== *)
(** * The layout of the image: [linker.ld]

    The addresses the linker script gives the sections, their guard pages and the
    stack, from the sizes of the sections' contents.                            *)

From Stdlib Require Import ZArith Lia.
From stdpp Require Import base numbers.
From S2P Require Import Prelude.

#[local] Open Scope Z_scope.

(** ** The image *)

(** The sizes of the sections' contents are the compiler's. *)
Class Sections := {
  text_bytes : Z;
  rodata_bytes : Z;
  data_bytes : Z;
  bss_bytes : Z;
}.

Class SectionsOk `{!Sections} : Prop := {
  text_pos : 0 < text_bytes;
  rodata_pos : 0 ≤ rodata_bytes;
  data_pos : 0 ≤ data_bytes;
  bss_pos : 0 ≤ bss_bytes;
}.

(** [ALIGN(0x1000)] of the location counter. *)
Definition ld_align (x : Z) : Z := (x + 0xfff) / 0x1000 * 0x1000.

(** [. = ALIGN(0x1000); . += 0x1000;] *)
Definition after_guard (x : Z) : Z := ld_align x + 0x1000.

Section image.
Context `{!Sections}.

Definition text_start : Z := 0x40000000.
Definition text_end : Z := ld_align text_start + text_bytes.
Definition rodata_start : Z := after_guard text_end.
Definition rodata_end : Z := ld_align rodata_start + rodata_bytes.
Definition data_start : Z := after_guard rodata_end.
Definition data_end : Z := ld_align data_start + data_bytes.
Definition bss_start : Z := after_guard data_end.
Definition bss_end : Z := ld_align bss_start + bss_bytes.
Definition stack_guard : Z := ld_align bss_end.
Definition stack_bottom : Z := stack_guard + 0x1000.
Definition stack_top : Z := stack_bottom + 0x8000.

(** The memory of the hypervisor: its code, its constants, its static variables
    (both sets of tables, the VCPUs, the run queue) and its stack. *)
Definition in_image (a : Z) : Prop := text_start <= a < stack_top.
End image.

(** An image with the sizes of a debug build, for the witnesses. *)
Definition demo_sections : Sections :=
  {| text_bytes := 0x5a34; rodata_bytes := 0x8f1; data_bytes := 0; bss_bytes := 0x4a8000 |}.

Lemma demo_sections_ok : @SectionsOk demo_sections.
Proof. split; cbn; lia. Qed.
