(* ===== verification/Switch.v ===== *)
(** * Switching between EL2 and the guests

    The assembly of [arch/arm64/switch_el2.S] and [arch/arm64/vectors_el2.S] around
    one run of a guest, [world_switch], the yield and the main loop of
    [core/vcpu.c].                                                              *)

From Stdlib Require Import ZArith Lia String.
From stdpp Require Import base gmap list strings.
From S2P Require Import Prelude Machine PageTable S2Mmu Layout Uart Vcpu Sched Context Trap.

#[local] Open Scope string_scope.
#[local] Open Scope Z_scope.

(** The guest is whatever EL1 executes between an [eret] and the next exception
    taken to EL2. [guest_run h] is the state the exception finds, with ESR_EL2,
    ELR_EL2, SPSR_EL2 and FAR_EL2 as it leaves them, and the code of the vector
    taken. Nothing keeps a guest from EL2's own data but the translation: whatever
    part of the state lies in memory it can store to, it can change. The address of
    [guest_el1_vectors] is the linker's. *)
Class Guest `{!Console} := {
  guest_run : hv → hv * Z;
  guest_el1_vectors : Z;
}.

(** What EL1 cannot change (Arm ARM): EL2's registers, and the sizes of the register
    files. *)
Definition el2_owned (r : sysreg) : bool :=
  match r with
  | VTTBR_EL2 | VTCR_EL2 | HCR_EL2 | TTBR0_EL2 | TCR_EL2 | SCTLR_EL2 | MAIR_EL2 | CNTHCTL_EL2
  | CNTVOFF_EL2 | VBAR_EL2 | SP | ICH_VTR => true
  | _ => false
  end.

(** ** What stage 2 lets a guest store to *)

Section shield.
Context `{!S2Image, !Sections, !Console}.

(** The processor translates with the format the tables are written in. *)
Definition stage2_on (m : machine) : Prop :=
  Z.testbit (sys m HCR_EL2) 0 = true ∧ sys m VTCR_EL2 = vtcr_el2_value.

(** The tables at [vttbr] keep a guest out of the hypervisor's memory: the walk of every
    address of the 39-bit window faults or ends in a page, and no page that can be
    written is one of the hypervisor's. *)
Definition shields (t : pt) (vttbr : Z) : Prop := ∀ ipa, 0 ≤ ipa < 2 ^ 39 →
  match walk (@mem_read s2_builder t) (vttbr mod 2 ^ 48) ipa with
  | Fault _ => True
  | Page d => Z.testbit d 7 = true → ¬ in_image (desc_addr d + ipa mod 4096)
  | Block _ _ | NoMemory => False
  end.

(** The part of the state that lies in the hypervisor's memory. *)
Definition el2_data (h : hv) :=
  (vcpus h, scheduler h, current_trapframe h, host_saved_area h, vgic_cached h, s2_tables h).

(** A guest that of its own accord leaves the hypervisor's memory alone. *)
Definition leaves_el2 `{!Guest} : Prop := ∀ h h' c, guest_run h = (h', c) → el2_data h' = el2_data h.
End shield.

(** Documented behaviour: EL1 has no access to EL2's registers, and with stage 2 on
    it stores only where the translation lets it. *)
Class GuestArch `{!S2Image, !Sections, !Console, !Guest} : Prop := {
  guest_el2 h h' c x : guest_run h = (h', c) → el2_owned x = true → sys (mach h') x = sys (mach h) x;
  guest_gprs h h' c : guest_run h = (h', c) → length (gprs (mach h')) = length (gprs (mach h));
  guest_vregs h h' c : guest_run h = (h', c) → length (vregs (mach h')) = length (vregs (mach h));
  guest_confined h h' c : guest_run h = (h', c) → stage2_on (mach h) →
    shields (s2_tables h) (sys (mach h) VTTBR_EL2) → el2_data h' = el2_data h;
}.

Section switch.
Context `{!Console, !Counter, !Features, !S2Image, !Guest}.

(** ** [switch_el2.S] *)

(** Load the guest's registers from the 44 words of the frame. *)
Definition load_frame (w : list Z) : M machine () :=
  msr SP_EL1 (w !!! 31%nat) ;;
  msr ELR_EL2 (w !!! 32%nat) ;;
  msr SPSR_EL2 (w !!! 33%nat) ;;
  isb ;;
  msr TTBR0_EL1 (w !!! 34%nat) ;;
  msr TTBR1_EL1 (w !!! 35%nat) ;;
  msr TCR_EL1 (w !!! 36%nat) ;;
  msr SCTLR_EL1 (w !!! 37%nat) ;;
  msr TPIDR_EL1 (w !!! 38%nat) ;;
  msr CNTKCTL_EL1 (w !!! 39%nat) ;;
  x3 ← mrs CNTVOFF_EL2;
  let x2 := u64 (w !!! 41%nat - x3) in
  let x1 := Z.land (w !!! 40%nat) 0x3 in
  msr CNTP_CVAL_EL0 x2 ;;
  msr CNTP_CTL_EL0 x1 ;;
  let x1 := Z.land (w !!! 42%nat) 0x3 in
  msr CNTV_CVAL_EL0 (w !!! 43%nat) ;;
  msr CNTV_CTL_EL0 x1 ;;
  isb ;;
  modify (set_gprs (take 31 w)) ;;
  eret.

(** [stp x19, x20, [x2, #0]] to [str x3, [x2, #96]]. *)
Definition save_host : M hv () :=
  g ← cpu (gets gprs);
  sp ← cpu (mrs SP);
  a ← gets host_saved_area;
  modify (set_host_saved_area (take 12 (drop 19 g) ++ sp :: drop 13 a)).

(** ** [vectors_el2.S] *)

(** Capture the guest's registers in the 44 words of the frame. *)
Definition capture_frame : M machine (list Z) :=
  g ← gets gprs;
  w31 ← mrs SP_EL1;
  w32 ← mrs ELR_EL2;
  w33 ← mrs SPSR_EL2;
  w34 ← mrs TTBR0_EL1;
  w35 ← mrs TTBR1_EL1;
  w36 ← mrs TCR_EL1;
  w37 ← mrs SCTLR_EL1;
  w38 ← mrs TPIDR_EL1;
  w39 ← mrs CNTKCTL_EL1;
  w40 ← mrs CNTP_CTL_EL0;
  x1 ← mrs CNTP_CVAL_EL0;
  x2 ← mrs CNTVOFF_EL2;
  let w41 := u64 (x1 + x2) in
  w42 ← mrs CNTV_CTL_EL0;
  w43 ← mrs CNTV_CVAL_EL0;
  mret (g ++ [w31; w32; w33; w34; w35; w36; w37; w38; w39; w40; w41; w42; w43])%list.

(** [ldp x19, x20, [x2, #0]] to [mov sp, x1]. *)
Definition restore_host : M hv () :=
  a ← gets host_saved_area;
  cpu (modify (λ m, set_gprs (take 19 (gprs m) ++ take 12 a) m)) ;;
  cpu (modify (set_sys (upd SP (a !!! 12%nat)))).

Definition el2_vector_common (code : Z) : M hv () :=
  t ← gets current_trapframe;
  (match t with
   | Some p =>
       w ← cpu capture_frame;
       update_tf p (λ _, tf_of_words w) ;;
       modify (set_current_trapframe None)
   | None => mret ()
   end) ;;
  esr ← cpu (mrs ESR_EL2);
  elr ← cpu (mrs ELR_EL2);
  spsr ← cpu (mrs SPSR_EL2);
  far ← cpu (mrs FAR_EL2);
  el2_exception_common esr elr spsr far code ;;
  restore_host.

(** One run of the guest, up to the vector. *)
Definition run_guest : M hv Z := λ h, let '(h', code) := guest_run h in Ok code h'.

(** [vcpu_switch_asm(&to->arch.tf)], up to the [eret] and as a whole: it returns
    to its caller through the vector. *)
Definition vcpu_enter (p : nat) : M hv () :=
  save_host ;;
  v ← deref p;
  cpu (load_frame (tf_words (tf (arch v)))).

Definition vcpu_switch_asm (p : nat) : M hv () :=
  vcpu_enter p ;;
  code ← run_guest;
  el2_vector_common code.

(** ** [world_switch] *)

(** Lines 352 to 363: mask interrupts and save the outgoing VCPU. *)
Definition switch_out (from : vptr) : M hv () :=
  cpu (daifset 2) ;;
  cpu isb ;;
  match from with
  | Some f =>
      vct ← cpu (mrs CNTVCT_EL0);
      update_arch f (set_cntvct_el0 vct) ;;
      save_context from
  | None => mret ()
  end.

(** Lines 365 to 387: install the incoming VCPU. *)
Definition switch_in (to : nat) : M hv () :=
  v ← deref to;
  cpu (msr VTTBR_EL2 (vttbr_el2 (arch v))) ;;
  cpu isb ;;
  phys_cnt ← cpu (mrs CNTPCT_EL0);
  v ← deref to;
  let offset := u64 (cntvct_el0 (arch v) - phys_cnt) in
  update_arch to (set_cntvoff_el2 offset) ;;
  cpu (msr CNTVOFF_EL2 offset) ;;
  restore_context (Some to) ;;
  cpu (msr VBAR_EL1 guest_el1_vectors) ;;
  modify (set_current_trapframe (Some to)) ;;
  puts "Switching to VCPU " ;;
  v ← deref to;
  hex64 (u64 (vcpu_id v)) ;;
  puts newline.

Definition world_switch (from to : vptr) : M hv () :=
  switch_out from ;;
  to ← of_option to;
  switch_in to ;;
  vcpu_switch_asm to ;;
  cpu (daifclr 2) ;;
  cpu isb.

(** ** Yield and the main loop *)

Definition vcpu_scheduler_yield : M hv bool :=
  pick ← on_sched sched_pick;
  match pick with
  | Some (prev, target) => world_switch (Some prev) (Some target) ;; mret true
  | None => mret false
  end.

(** The body of the loop of [vcpu_run]; [false] when it breaks out. *)
Definition vcpu_run_body : M hv bool :=
  current ← vcpu_current;
  match current with
  | None => mret false
  | Some p =>
      world_switch None (Some p) ;;
      v ← deref p;
      (if request_yield v then
         update p (set_request_yield false) ;;
         vcpu_scheduler_yield ;;
         mret ()
       else mret ()) ;;
      mret true
  end.

(** [while (1)], up to [fuel] iterations. *)
Fixpoint vcpu_run_loop (fuel : nat) : M hv () :=
  match fuel with
  | O => out_of_fuel
  | S fuel => go ← vcpu_run_body; if go : bool then vcpu_run_loop fuel else mret ()
  end.

Definition vcpu_run (fuel : nat) (vcpu : vptr) : M hv () :=
  if bool_decide (vcpu = None) then mret () else
  on_sched (vcpu_scheduler_set_current vcpu) ;;
  vcpu_run_loop fuel.
End switch.
