(* ===== verification/Shield.v ===== *)
(** * Keeping the guests out of the hypervisor

    Which tables built by [s2_build_tables_identity] keep a guest from the memory of the
    hypervisor, and a guest that makes use of tables that do not.               *)

From Stdlib Require Import ZArith Lia String.
From stdpp Require Import base gmap list strings.
From S2P Require Import Prelude Machine PageTable PageTableTheory S2Mmu S2MmuTheory Layout Uart Vcpu Sched Switch.

#[local] Open Scope Z_scope.

Section shield.
Context `{!S2Image, !S2ImageOk, !Sections}.

(** For tables that represent a map of pages, shielding is a property of the map. *)
Lemma repr_shields s (m : pages) vttbr :
  @repr s2_builder s m → (∀ p d, m !! p = Some d → desc_type d = 3) → vttbr mod 2 ^ 48 = s2_l1_sym →
  shields s vttbr ↔ ∀ ipa d, 0 ≤ ipa < 2 ^ 39 → m !! (ipa / 4096) = Some d → Z.testbit d 7 = true →
    ¬ in_image (desc_addr d + ipa mod 4096).
Proof.
  intros Hr Ht Hv. unfold shields. rewrite Hv. split; intros Hs ipa.
  - intros d Hi Hd Hw. specialize (Hs ipa Hi). pose proof (walk_repr s m ipa Hr Ht) as Hwalk. cbn in Hwalk.
    rewrite page_of_small, Hd in Hwalk by done. rewrite Hwalk in Hs. auto.
  - intros Hi. pose proof (walk_repr s m ipa Hr Ht) as Hwalk. cbn in Hwalk. rewrite page_of_small in Hwalk by done.
    destruct (m !! (ipa / 4096)) as [d|] eqn:Hd.
    + rewrite Hwalk. by apply Hs.
    + by destruct Hwalk as [level ->].
Qed.

(** Slot [k] of a request, byte [o]. *)
Lemma in_slots_iff ipa stride size n a : 0 < size ≤ stride →
  in_slots ipa stride size n a = true ↔
    ∃ k o, 0 ≤ k < n ∧ 0 ≤ o < size ∧ a = ipa + k * stride + o.
Proof.
  intros Hs. split.
  - intros Hin. pose proof (in_slots_bound _ _ _ _ _ Hs Hin) as Hb. unfold in_slots in Hin.
    apply andb_true_iff in Hin as [[_ Hk%Z.ltb_lt]%andb_true_iff Ho%Z.ltb_lt].
    pose proof (Z.div_mod (a - ipa) stride ltac:(lia)). pose proof (Z.mod_pos_bound (a - ipa) stride ltac:(lia)).
    exists ((a - ipa) / stride), ((a - ipa) mod stride). split_and!; try lia. apply Z.div_pos; lia.
  - intros (k & o & Hk & Ho & ->). unfold in_slots.
    replace (ipa + k * stride + o - ipa) with (o + k * stride) by lia.
    rewrite Z.div_add, Z.mod_add, (Z.div_small o), (Z.mod_small o) by lia.
    rewrite !andb_true_iff, Z.leb_le, !Z.ltb_lt. nia.
Qed.

Lemma build_shields ipa pa vm_size n guard r w x s m vttbr :
  @shape s2_builder s → s2_request ipa pa vm_size n guard → vttbr mod 2 ^ 48 = s2_l1_sym →
  let vs := align_up vm_size S2_PAGE_SIZE in
  let stride := vs + align_up guard S2_PAGE_SIZE in
  total (s2_build_tables_identity ipa pa vm_size n guard r w x) (s, m) (λ _ t,
    shields (fst t) vttbr ↔
      w = 0 ∨ ∀ k o, 0 ≤ k < n → 0 ≤ o < vs → ¬ in_image (pa + k * stride + o)).
Proof.
  intros Hs Hq Hv vs stride. eapply total_mono; [by apply build_total|].
  intros _ t [Hr _]. rewrite (repr_shields _ _ _ Hr (λ p d, build_pages_type _ _ _ _ _ _ _ _ p d Hq) Hv).
  pose proof Hq as [[Hi Hi0] [Hp _] _ Hsz Hg Hmax _ _ _].
  destruct (align_up_pos vm_size) as [Hvm Hvb]; [lia|]. destruct (align_up_pos guard) as [Hgm Hgb]; [lia|].
  fold vs stride in Hmax, Hvm, Hvb. assert (0 < vs ≤ stride) as Hvs by (unfold stride; lia).
  assert (stride mod 4096 = 0) as Hst by (by apply mod0_add).
  assert (∀ a, in_slots ipa stride vs n (a / 4096 * 4096) = in_slots ipa stride vs n a) as Hpage
    by (intros a; by apply in_slots_page).
  assert (∀ a d, build_pages ipa pa vm_size guard r w x (Z.to_nat n) !! (a / 4096) = Some d →
    in_slots ipa stride vs n a = true ∧ desc_addr d + a mod 4096 = pa + (a - ipa) ∧
    Z.testbit d 7 = negb (w =? 0)) as Hd.
  { intros a d. rewrite build_pages_lookup by done. fold vs stride.
    destruct (in_slots _ _ _ _ _) eqn:Hin; [|done]. intros [= <-]. rewrite <-Hpage. split; [done|].
    destruct (slot_frame _ _ _ _ _ _ Hq Hin) as [Hal Hrange].
    destruct (s2_page_desc_decode _ r w x Hal Hrange) as (_ & -> & _ & _ & -> & _).
    split; [|done]. pose proof (Z.div_mod a 4096 ltac:(lia)). lia. }
  split.
  - intros Hsh. destruct (Z.eqb_spec w 0) as [->|Hw]; [by left|]. right. intros k o Hk Ho.
    set (a := ipa + k * stride + o).
    assert (in_slots ipa stride vs n a = true) as Hin by (apply in_slots_iff; eauto).
    pose proof (in_slots_bound _ _ _ _ _ Hvs Hin) as Hb. assert (0 ≤ a < 2 ^ 39) as Ha by lia.
    pose proof (build_pages_lookup ipa pa vm_size n guard r w x (a / 4096) Hq) as Hl. cbv zeta in Hl.
    fold vs stride in Hl. rewrite Hpage, Hin in Hl. destruct (Hd _ _ Hl) as (_ & Hpa & H7).
    replace (pa + k * stride + o) with (pa + (a - ipa)) by (unfold a; lia). rewrite <-Hpa.
    apply Hsh; [done|done|]. by rewrite H7.
  - intros Hor a d Ha Hl Hw. destruct (Hd _ _ Hl) as (Hin & -> & H7). rewrite H7 in Hw.
    destruct Hor as [->|Hno]; [done|]. apply in_slots_iff in Hin as (k & o & Hk & Ho & ->); [|done].
    replace (pa + (ipa + k * stride + o - ipa)) with (pa + k * stride + o) by lia. by apply Hno.
Qed.

(** C15. Which requests keep the guests out of the hypervisor: after
    [s2_build_tables_identity] has served a request, from any contents of its pools,
    a guest on these tables cannot store to the hypervisor's memory exactly when the
    request asks for no write permission or places no slot over the image. *)
Theorem s2_slots_shield_el2 ipa pa vm_size n guard r w x s m vttbr :
  @shape s2_builder s → s2_request ipa pa vm_size n guard → vttbr mod 2 ^ 48 = s2_l1_sym →
  let vs := align_up vm_size S2_PAGE_SIZE in
  let stride := vs + align_up guard S2_PAGE_SIZE in
  total (s2_build_tables_identity ipa pa vm_size n guard r w x) (s, m) (λ _ t,
    shields (fst t) vttbr ↔
      w = 0 ∨ ∀ k o, 0 ≤ k < n → 0 ≤ o < vs → ¬ in_image (pa + k * stride + o)).
Proof. apply build_shields. Qed.
End shield.

(** ** A guest that stores where it can

    It uses the SIMD registers, tries to clear the variable at the address [sym],
    which is [sched_current] of [core/vcpu.c], and waits for an interrupt. *)
Section guest.
Context `{!S2Image, !Console}.

(** The translation of the intermediate address [ipa] reaches [pa] for writing. *)
Definition can_store (h : hv) (ipa pa : Z) : bool :=
  match walk (@mem_read s2_builder (s2_tables h)) (sys (mach h) VTTBR_EL2 mod 2 ^ 48) ipa with
  | Page d => Z.testbit d 7 && (desc_addr d + ipa mod 4096 =? pa)
  | _ => false
  end.

Definition clear_current (s : sched) : sched := Sched (sched_runqueue s) (sched_len s) (sched_idx s) None.

Definition used_and_waiting (m : machine) : machine :=
  set_sys (upd ESR_EL2 0x07E00000) (set_vregs ((λ _, (9, 9)) <$> vregs m) m).

Definition storing_guest (sym vectors : Z) : Guest := {|
  guest_run h :=
    let h' := set_mach (used_and_waiting (mach h)) h in
    (if can_store h sym sym then set_scheduler (clear_current (scheduler h)) h' else h', 0x20);
  guest_el1_vectors := vectors;
|}.

(** It is a guest as the architecture has them. *)
Lemma storing_guest_arch `{!Sections} sym vectors :
  0 ≤ sym < 2 ^ 39 → in_image sym → @GuestArch _ _ _ (storing_guest sym vectors).
Proof.
  intros Hr Hs. split; cbn [guest_run storing_guest]; intros h h' c.
  - intros x [= <- _] Hx. destruct (can_store h sym sym); cbn; by rewrite upd_ne by (by intros <-).
  - intros [= <- _]. by destruct (can_store h sym sym).
  - intros [= <- _]. destruct (can_store h sym sym); cbn; by rewrite length_map.
  - intros [= <- _] _ Hsh. destruct (can_store h sym sym) eqn:Hc; [|done]. exfalso. unfold can_store in Hc.
    specialize (Hsh sym Hr). destruct (walk _ _ _); try done.
    apply andb_true_iff in Hc as [Hw Ha%Z.eqb_eq]. rewrite Ha in Hsh. by apply Hsh.
Qed.
End guest.

(** ** Witnesses: a machine with memory above the image *)

#[local] Existing Instance demo_s2_image.
#[local] Existing Instance demo_s2_image_ok.
#[local] Existing Instance demo_sections.

Lemma demo_image_low a : in_image a → a < 0x80000000.
Proof. unfold in_image. intros [_ Ha]. etrans; [exact Ha|]. by vm_compute. Qed.

(** Tables of one VM of two pages above the image. *)
Definition high_tables : pt := fst (final (demo_tables, demo_machine)
  (s2_build_tables_identity 0x80000000 0x80000000 0x2000 1 0 1 1 1 (demo_tables, demo_machine))).

Lemma high_tables_shield : shields high_tables s2_l1_sym.
Proof.
  assert (s2_request 0x80000000 0x80000000 0x2000 1 0) as Hq
    by (split; vm_compute; split || idtac; done || (split; discriminate)).
  pose proof (build_shields 0x80000000 0x80000000 0x2000 1 0 1 1 1 demo_tables demo_machine s2_l1_sym demo_shape Hq
    eq_refl) as Hb. destruct (proj1 (total_Ok _ _ _) Hb) as ([] & t & E & Ht). unfold high_tables. rewrite E. cbn [final].
  apply Ht. right. intros k o Hk Ho Hin%demo_image_low.
  change (align_up 0x2000 S2_PAGE_SIZE) with 0x2000 in *. change (align_up 0 S2_PAGE_SIZE) with 0 in *. lia.
Qed.

Lemma high_request : s2_request 0x40000000 0x80000000 0x200000 2 0x2000.
Proof. split; vm_compute; split || idtac; done || (split; discriminate). Qed.

(** Two writable slots from 0x80000000 on keep the guests out; over the image they do
    not. *)
Lemma s2_slots_shield_el2_witness :
  total (s2_build_tables_identity 0x40000000 0x80000000 0x200000 2 0x2000 1 1 0)
    (demo_tables, demo_machine) (λ _ t, shields (fst t) s2_l1_sym) ∧
  total (s2_build_tables_identity 0x40000000 0x40000000 0x200000 2 0x2000 1 1 0)
    (demo_tables, demo_machine) (λ _ t, ¬ shields (fst t) s2_l1_sym).
Proof.
  assert (s2_l1_sym mod 2 ^ 48 = s2_l1_sym) as Hv by reflexivity.
  assert (s2_request 0x40000000 0x40000000 0x200000 2 0x2000) as Hq
    by (split; vm_compute; split || idtac; done || (split; discriminate)).
  split.
  - eapply total_mono; [apply (s2_slots_shield_el2 0x40000000 0x80000000 0x200000 2 0x2000 1 1 0 demo_tables
      demo_machine s2_l1_sym demo_shape high_request Hv)|].
    intros [] t Ht. apply Ht. right. intros k o Hk Ho Hin%demo_image_low.
    change (align_up 0x200000 S2_PAGE_SIZE) with 0x200000 in *. change (align_up 0x2000 S2_PAGE_SIZE) with 0x2000 in *. lia.
  - eapply total_mono; [apply (s2_slots_shield_el2 0x40000000 0x40000000 0x200000 2 0x2000 1 1 0 demo_tables
      demo_machine s2_l1_sym demo_shape Hq Hv)|].
    intros [] t Ht Hsh. apply Ht in Hsh as [Hw|Hno]; [discriminate Hw|].
    apply (Hno 0 0); [lia|by vm_compute|]. split; [done|by vm_compute].
Defined.
