(* ===== verification/SwitchTheory.v ===== *)
(** * Lemmas about switching between EL2 and the guests

    The state in which a guest is entered, and what is true again when
    [world_switch] returns.                                                     *)

From Stdlib Require Import ZArith Lia Ascii String.
From stdpp Require Import base gmap list strings.
From S2P Require Import Prelude Machine PageTable S2Mmu Layout Uart UartTheory Vcpu VcpuTheory Sched SchedTheory.
From S2P Require Import Context ContextTheory Trap TrapTheory Isolation Switch.

#[local] Open Scope Z_scope.

(** ** The frame *)

(** The registers the frame keeps as they are. *)
Definition frame_reg (r : sysreg) : bool :=
  match r with
  | SP_EL1 | ELR_EL2 | SPSR_EL2 | TTBR0_EL1 | TTBR1_EL1 | TCR_EL1 | SCTLR_EL1 | TPIDR_EL1
  | CNTKCTL_EL1 | CNTV_CVAL_EL0 => true
  | _ => false
  end.

(** The registers written when a frame is loaded. *)
Definition loaded_sys (t : trapframe) (f : sysreg → Z) : sysreg → Z := λ r,
  match r with
  | SP_EL1 => sp_el1 t
  | ELR_EL2 => elr_el1 t
  | SPSR_EL2 => spsr_el1 t
  | TTBR0_EL1 => ttbr0_el1 t
  | TTBR1_EL1 => ttbr1_el1 t
  | TCR_EL1 => tcr_el1 t
  | SCTLR_EL1 => sctlr_el1 t
  | TPIDR_EL1 => tpidr_el1 t
  | CNTKCTL_EL1 => cntkctl_el1 t
  | CNTP_CVAL_EL0 => u64 (cntp_cval_el0 t - f CNTVOFF_EL2)
  | CNTP_CTL_EL0 => Z.land (cntp_ctl_el0 t) 3
  | CNTV_CVAL_EL0 => cntv_cval_el0 t
  | CNTV_CTL_EL0 => Z.land (cntv_ctl_el0 t) 3
  | _ => f r
  end.

Section frame.
Context `{!Counter}.

Lemma load_frame_eq t m : length (regs t) = 31%nat →
  ∃ m', load_frame (tf_words t) m = Ok () m' ∧ gprs m' = regs t ∧ vregs m' = vregs m ∧
    reads m' = reads m ∧ ∀ r, sys m' r = loaded_sys t (sys m) r.
Proof.
  destruct t as [g]. cbn [regs]. intros Hg. do 31 (destruct g as [|? g]; [done|]).
  destruct g; [|done]. eexists. split; [unfold load_frame; repeat mstep; reflexivity|]. split_and!; try reflexivity.
  by intros [].
Qed.

(** The 44 words captured from a processor. *)
Definition captured (m : machine) : list Z :=
  gprs m ++ [sys m SP_EL1; sys m ELR_EL2; sys m SPSR_EL2; sys m TTBR0_EL1; sys m TTBR1_EL1;
    sys m TCR_EL1; sys m SCTLR_EL1; sys m TPIDR_EL1; sys m CNTKCTL_EL1; sys m CNTP_CTL_EL0;
    u64 (sys m CNTP_CVAL_EL0 + sys m CNTVOFF_EL2); sys m CNTV_CTL_EL0; sys m CNTV_CVAL_EL0].

Lemma capture_frame_eq m : capture_frame m = Ok (captured m) m.
Proof. reflexivity. Qed.

Lemma captured_length m : length (gprs m) = 31%nat → length (captured m) = 44%nat.
Proof. intros Hg. unfold captured. by rewrite length_app, Hg. Qed.

Definition captured_frame (m : machine) : trapframe := tf_of_words (captured m).

Lemma captured_frame_eq m : length (gprs m) = 31%nat →
  captured_frame m = Tf (gprs m) (sys m SP_EL1) (sys m ELR_EL2) (sys m SPSR_EL2) (sys m TTBR0_EL1)
    (sys m TTBR1_EL1) (sys m TCR_EL1) (sys m SCTLR_EL1) (sys m TPIDR_EL1) (sys m CNTKCTL_EL1)
    (sys m CNTP_CTL_EL0) (u64 (sys m CNTP_CVAL_EL0 + sys m CNTVOFF_EL2)) (sys m CNTV_CTL_EL0)
    (sys m CNTV_CVAL_EL0).
Proof. intros Hg. exact (tf_of_words_words (Tf (gprs m) _ _ _ _ _ _ _ _ _ _ _ _ _) Hg). Qed.

(** C12. What the vector captures of a guest, the next entry loads: all 31 general
    registers, the stack pointer, return address and state, the EL1 translation
    registers, TPIDR, CNTKCTL and the virtual timer are as the guest left them; of
    the timers' control registers the two writable bits are; and the physical
    timer's deadline is the same in virtual time whatever CNTVOFF_EL2 is now. *)
Theorem frame_roundtrip m m1 :
  length (gprs m) = 31%nat → is_u64 (sys m CNTP_CVAL_EL0) →
  total capture_frame m (λ w _, total (load_frame (tf_words (tf_of_words w))) m1 (λ _ m2,
    gprs m2 = gprs m ∧
    (∀ r, frame_reg r = true → sys m2 r = sys m r) ∧
    sys m2 CNTP_CTL_EL0 = sys m CNTP_CTL_EL0 mod 4 ∧ sys m2 CNTV_CTL_EL0 = sys m CNTV_CTL_EL0 mod 4 ∧
    u64 (sys m2 CNTP_CVAL_EL0 + sys m2 CNTVOFF_EL2) = u64 (sys m CNTP_CVAL_EL0 + sys m CNTVOFF_EL2) ∧
    (sys m1 CNTVOFF_EL2 = sys m CNTVOFF_EL2 → sys m2 CNTP_CVAL_EL0 = sys m CNTP_CVAL_EL0) ∧
    (∀ r, protection_reg r = true → sys m2 r = sys m1 r))).
Proof.
  intros Hg Hc. unfold total at 1, wp. rewrite capture_frame_eq. fold (captured_frame m).
  assert (length (regs (captured_frame m)) = 31%nat) as Hl by (by rewrite captured_frame_eq).
  destruct (load_frame_eq (captured_frame m) m1 Hl) as (m2 & E & Hg2 & _ & _ & Hs).
  apply total_Ok. exists (), m2. split; [exact E|]. rewrite captured_frame_eq in Hg2, Hs by done.
  cbn [regs] in Hg2. assert (∀ x, Z.land x 3 = x mod 4) as Hland by (intros; apply (Z.land_ones _ 2); lia).
  split_and!; [done|..]; rewrite ?Hs; cbn; rewrite ?Hland; try done.
  - intros r Hr. rewrite Hs. by destruct r.
  - by rewrite u64_add_sub, u64_u64.
  - intros ->. rewrite u64_sub_add. by apply u64_small.
  - intros r Hr. rewrite Hs. by destruct r.
Qed.
End frame.

(** ** Entering a guest *)

Section entry.
Context `{!Console, !ConsoleSpec, !Counter, !Features, !S2Image, !Guest}.

(** A [world_switch] up to the [eret], and from there on. *)
Definition guest_entry (from : vptr) (to : nat) : M hv () :=
  switch_out from ;; switch_in to ;; vcpu_enter to.

Definition guest_exit : M hv () :=
  code ← run_guest;
  el2_vector_common code ;;
  cpu (daifclr 2) ;;
  cpu isb.

Lemma world_switch_eq from to h :
  world_switch from (Some to) h = (guest_entry from to ;; guest_exit) h.
Proof.
  unfold world_switch, guest_entry, guest_exit, vcpu_switch_asm, mbind, M_bind.
  destruct (switch_out from h); [|done..]. cbn [of_option mret M_ret].
  destruct (switch_in to s); [|done..]. destruct (vcpu_enter to s0); [|done..].
  by destruct (run_guest s1).
Qed.

(** All VCPUs and the processor's register files have their sizes. *)
Record hv_shape (h : hv) : Prop := {
  hs_vcpus : Forall vcpu_shape (vcpus h);
  hs_gprs : length (gprs (mach h)) = 31%nat;
  hs_vregs : length (vregs (mach h)) = 32%nat;
}.

(** Saving the outgoing VCPU: the processor after the save, and the VCPU saved. *)
Definition masked (m : machine) : machine := emit Isb (emit (DaifSet 2) m).

Definition switched_out (h : hv) (v : vcpu) : vcpu :=
  saved_context h (set_arch (set_cntvct_el0 (virt_now (mach h))) v).

Lemma switch_out_eq f v h :
  vcpus h !! f = Some v → vcpu_shape v → length (vregs (mach h)) = 32%nat →
  switch_out (Some f) h = Ok () (put f (switched_out h v)
    (set_vgic_cached (lr_count h) (set_mach (cleared_keys (tick (masked (mach h)))) h))).
Proof.
  intros Hf Hs Hv. unfold switch_out. rewrite (focus_start f v h Hf) at 1.
  do 3 fstep. fstep.
  rewrite (save_context_eq f (set_arch (set_cntvct_el0 (virt_now (mach h))) v)).
  - unfold focus. rewrite <-put_mach. cbn [mach set_mach put set_vcpus].
    unfold put, set_vcpus, set_mach, set_vgic_cached. cbn. by rewrite list_insert_insert_eq.
  - by apply (put_lookup f _ v (set_mach _ h)).
  - done.
  - by destruct Hs.
Qed.

(** The registers [world_switch] itself sets for the incoming VCPU. *)
Definition installed_sys (v : vcpu) (off : Z) (f : sysreg → Z) : sysreg → Z := λ r,
  match r with
  | VTTBR_EL2 => vttbr_el2 (arch v)
  | CNTVOFF_EL2 => off
  | VBAR_EL1 => guest_el1_vectors
  | _ => f r
  end.

(** The processor [m] with the context of [v] restored over the registers [f] and
    the general registers [g]. *)
Definition restored_over (v : vcpu) (count : Z) (f : sysreg → Z) (g : list Z) (n : nat) (m : machine) : Prop :=
  context_is v count (Machine f (vregs m) g n []) m.

Lemma restored_over_step v count f f' g g' n n' m m' :
  restored_over v count f g n m → vregs m' = vregs m → gprs m' = g' → reads m' = n' →
  (∀ r, context_reg r = true → sys m' r = sys m r) →
  (∀ r, context_reg r = false → sys m r = f r → sys m' r = f' r) →
  restored_over v count f' g' n' m'.
Proof.
  intros [Cv C1 C2 Cl C3 C4 Ck Cn Cg Cr Co] Hv Hg Hr Hs Ho.
  split; try rewrite Hv; try done; intros; rewrite ?Hs by done; auto.
Qed.

Definition offset_for (v : vcpu) (m : machine) : Z := u64 (cntvct_el0 (arch v) - count_at (reads m)).

Definition installed (v : vcpu) (off : Z) (m : machine) : machine :=
  Machine (upd CNTVOFF_EL2 off (upd VTTBR_EL2 (vttbr_el2 (arch v)) (sys m))) (vregs m) (gprs m)
    (S (reads m)) (Msr CNTVOFF_EL2 off :: Isb :: Msr VTTBR_EL2 (vttbr_el2 (arch v)) :: trace m).

(** Lines after the restores. *)
Definition announce (to : nat) : M hv () :=
  cpu (msr VBAR_EL1 guest_el1_vectors) ;;
  modify (set_current_trapframe (Some to)) ;;
  puts "Switching to VCPU " ;;
  v ← deref to;
  Vcpu.hex64 (u64 (vcpu_id v)) ;;
  puts newline.

Lemma switch_in_eq p v h :
  vcpus h !! p = Some v →
  let off := offset_for v (mach h) in
  switch_in p h = (restore_context (Some p) ;; announce p)
    (focus p (set_arch (set_cntvoff_el2 off) v) (installed v off (mach h)) h).
Proof.
  intros Hp off. unfold switch_in. rewrite (focus_start p v h Hp) at 1.
  do 4 fstep. fstep. cbv zeta. do 2 fstep. reflexivity.
Qed.

Lemma announce_total p v h : vcpus h !! p = Some v →
  total (announce p) h (λ _ h', ∃ c, h' = set_current_trapframe (Some p) (set_console c
    (set_mach (emit (Msr VBAR_EL1 guest_el1_vectors) (set_sys (upd VBAR_EL1 guest_el1_vectors) (mach h))) h))).
Proof.
  intros Hp. unfold announce, total, wp. mstep_by ltac:(by apply cpu_do). mstep.
  set (h1 := set_current_trapframe _ _). destruct (prints_puts "Switching to VCPU " h1) as (c & E & _).
  rewrite (bind_Ok _ _ _ _ _ E). mstep_by ltac:(by apply (deref_Ok p v)).
  destruct (prints_hex64 (u64 (vcpu_id v)) (set_console c h1)) as (c' & E' & _).
  rewrite (bind_Ok _ _ _ _ _ E'). destruct (prints_puts newline (set_console c' (set_console c h1))) as (c2 & E2 & _).
  rewrite E2. by exists c2.
Qed.

Lemma switch_in_total p v h :
  vcpus h !! p = Some v → vcpu_shape v → length (vregs (mach h)) = 32%nat →
  let off := offset_for v (mach h) in
  total (switch_in p) h (λ _ h', ∃ m c,
    h' = put p (set_arch (set_cntvoff_el2 off) v) (set_current_trapframe (Some p) (set_console c
             (set_vgic_cached (lr_count h) (set_mach m h)))) ∧
    restored_over v (lr_count h) (installed_sys v off (sys (mach h)))
      (gprs (mach h)) (S (reads (mach h))) m).
Proof.
  intros Hp Hs Hv off. unfold total at 1, wp at 1. rewrite (switch_in_eq p v h Hp). fold off.
  set (v' := set_arch (set_cntvoff_el2 off) v). set (h1 := focus p v' (installed v off (mach h)) h).
  assert (vcpus h1 !! p = Some v') as Hp1 by (by apply (put_lookup p v' v (set_mach _ h))).
  assert (vcpu_shape v') as Hs1 by (by destruct Hs).
  destruct (proj1 (total_Ok _ _ _) (restore_context_total p v' h1 Hp1 Hs1 Hv)) as ([] & h2 & E & m & -> & Hc).
  rewrite (bind_Ok _ _ _ _ _ E).
  destruct (proj1 (total_Ok _ _ _) (announce_total p v' (set_mach m (set_vgic_cached (lr_count h1) h1)) Hp1))
    as ([] & h3 & E3 & c & ->). rewrite E3. eexists _, c. split; [reflexivity|].
  destruct Hc as [Cv C1 C2 Cl C3 C4 Ck Cn Cg Cr Co].
  split; cbn [sys emit set_sys vregs gprs reads mach set_mach]; intros; simpl_regs; try (by auto).
  destruct (decide (VBAR_EL1 = r)) as [<-|Hr]; [by simpl_regs|]. rewrite upd_ne, Co by done.
  unfold h1. cbn [mach focus put set_vcpus set_mach]. unfold installed. cbn [sys].
  destruct r; cbn [installed_sys]; simpl_regs; done.
Qed.

(** The state after the first half of a switch. *)
Definition after_out (from : vptr) (h : hv) : hv :=
  match from with
  | Some f =>
      match vcpus h !! f with
      | Some v => put f (switched_out h v)
          (set_vgic_cached (lr_count h) (set_mach (cleared_keys (tick (masked (mach h)))) h))
      | None => h
      end
  | None => set_mach (masked (mach h)) h
  end.

Definition from_ok (from : vptr) (h : hv) : Prop :=
  match from with Some f => is_Some (vcpus h !! f) | None => True end.

Lemma switched_out_shape h v : vcpu_shape v → length (vregs (mach h)) = 32%nat → vcpu_shape (switched_out h v).
Proof. intros Hs Hv. apply saved_context_shape; [by destruct Hs|done]. Qed.

Lemma cleared_keys_same m : vregs (cleared_keys m) = vregs m ∧ gprs (cleared_keys m) = gprs m ∧
  reads (cleared_keys m) = reads m ∧ ∀ r, r ∉ pauth_regs → sys (cleared_keys m) r = sys m r.
Proof.
  unfold cleared_keys, pauth_regs. destruct arm_feature_pauth; [|done]. split_and!; try done.
  intros r. rewrite !not_elem_of_cons. intros (? & ? & ? & ? & _). cbn [sys]. by simpl_regs.
Qed.

Lemma after_out_ok from h : hv_shape h → from_ok from h →
  switch_out from h = Ok () (after_out from h) ∧ hv_shape (after_out from h) ∧
  lr_count (after_out from h) = lr_count h ∧ gprs (mach (after_out from h)) = gprs (mach h) ∧
  vregs (mach (after_out from h)) = vregs (mach h) ∧
  (∀ r, r ∉ pauth_regs → sys (mach (after_out from h)) r = sys (mach h) r).
Proof.
  intros [Hs Hg Hv] Hf. destruct from as [f|].
  - cbn [from_ok] in Hf. destruct Hf as [v Hf]. pose proof (Forall_lookup_1 _ _ _ _ Hs Hf) as Hsv.
    destruct (cleared_keys_same (tick (masked (mach h)))) as (K1 & K2 & _ & K3).
    unfold after_out. rewrite Hf. split; [by apply switch_out_eq|].
    cbn [mach put set_vcpus set_vgic_cached set_mach]. rewrite K1, K2.
    split_and!; try done.
    + split; cbn [mach vcpus put set_vcpus set_vgic_cached set_mach]; rewrite ?K1, ?K2; try done.
      apply Forall_insert; [done|]. by apply switched_out_shape.
    + unfold lr_count. cbn [vgic_cached mach put set_vcpus set_vgic_cached set_mach].
      rewrite K3 by not_listed. cbn [sys tick masked emit]. repeat case_match; (done || lia).
  - by split_and!.
Qed.

Lemma after_out_vcpu from h q : from ≠ Some q → vcpus (after_out from h) !! q = vcpus h !! q.
Proof.
  intros Hq. unfold after_out. destruct from as [f|]; [|done]. destruct (vcpus h !! f); [|done].
  cbn [put set_vcpus vcpus]. apply list_lookup_insert_ne. congruence.
Qed.

(** What [vcpu_switch_asm] saves of EL2's own registers. *)
Definition host_saved (m : machine) (a : list Z) : list Z :=
  (take 12 (drop 19 (gprs m)) ++ sys m SP :: drop 13 a)%list.

Lemma save_host_eq h :
  save_host h = Ok () (set_host_saved_area (host_saved (mach h) (host_saved_area h)) h).
Proof.
  unfold save_host. mstep_by ltac:(apply cpu_gets). mstep_by ltac:(by apply cpu_mrs). by mstep.
Qed.

Lemma vcpu_enter_total p v h : vcpus h !! p = Some v → vcpu_shape v →
  total (vcpu_enter p) h (λ _ h', ∃ m,
    h' = set_mach m (set_host_saved_area (host_saved (mach h) (host_saved_area h)) h) ∧
    gprs m = regs (tf (arch v)) ∧ vregs m = vregs (mach h) ∧ reads m = reads (mach h) ∧
    ∀ r, sys m r = loaded_sys (tf (arch v)) (sys (mach h)) r).
Proof.
  intros Hp [Hr _ _]. unfold vcpu_enter, total, wp.
  destruct (load_frame_eq (tf (arch v)) (mach h) Hr) as (m & E & Hm).
  mstep_by ltac:(apply save_host_eq). mstep_by ltac:(by apply (deref_Ok p v)). rewrite (cpu_do _ () m) by done. by exists m.
Qed.

(** The machine in which a guest is entered. *)
Definition entry_regs (v : vcpu) (off : Z) (f : sysreg → Z) : sysreg → Z :=
  loaded_sys (tf (arch v)) (installed_sys v off f).

Lemma guest_entry_total from p v h :
  hv_shape h → from_ok from h → from ≠ Some p → vcpus h !! p = Some v →
  let h1 := after_out from h in
  let off := offset_for v (mach h1) in
  total (guest_entry from p) h (λ _ h', ∃ m c,
    h' = put p (set_arch (set_cntvoff_el2 off) v)
           (set_host_saved_area (host_saved (mach h) (host_saved_area h))
             (set_current_trapframe (Some p) (set_console c (set_vgic_cached (lr_count h) (set_mach m h1))))) ∧
    restored_over v (lr_count h) (entry_regs v off (sys (mach h))) (regs (tf (arch v)))
      (S (reads (mach h1))) m).
Proof.
  intros Hh Hf Hne Hp h1 off. destruct (after_out_ok from h Hh Hf) as (E & Hh1 & Hlr & Hg & _ & Hsys). fold h1 in E, Hh1, Hlr, Hg, Hsys.
  assert (vcpus h1 !! p = Some v) as Hp1 by (unfold h1; by rewrite after_out_vcpu).
  assert (vcpu_shape v) as Hs by (by eapply (Forall_lookup_1 _ _ _ _ (hs_vcpus _ Hh))).
  unfold guest_entry, total, wp. rewrite (bind_Ok _ _ _ _ _ E).
  destruct (proj1 (total_Ok _ _ _) (switch_in_total p v h1 Hp1 Hs (hs_vregs _ Hh1)))
    as ([] & h2 & E2 & m & c & -> & Hm). rewrite (bind_Ok _ _ _ _ _ E2). fold off in Hm |- *.
  set (v' := set_arch (set_cntvoff_el2 off) v).
  set (h2 := put p v' _). assert (vcpus h2 !! p = Some v') as Hp2 by (by apply (put_lookup p v' v (set_current_trapframe _ _))).
  destruct (proj1 (total_Ok _ _ _) (vcpu_enter_total p v' h2 Hp2 ltac:(by destruct Hs)))
    as ([] & h3 & E3 & m' & -> & G1 & G2 & G3 & G4). rewrite E3. exists m', c.
  assert (∀ r, r ∉ pauth_regs → context_reg r = false → sys m r = installed_sys v off (sys (mach h)) r) as Hin.
  { intros r Hr Hc. destruct Hm as [_ _ _ _ _ _ _ _ _ _ Hm]. rewrite Hm by done. cbn.
    destruct r; cbn; (done || by apply Hsys). }
  split.
  - unfold host_saved, h2. rewrite Hlr. cbn [mach host_saved_area put set_vcpus set_current_trapframe set_console set_vgic_cached set_mach].
    assert (gprs m = gprs (mach h)) as -> by (destruct Hm; cbn in *; congruence).
    rewrite Hin by (done || not_listed). cbn [installed_sys].
    assert (host_saved_area h1 = host_saved_area h) as ->; [|done].
    unfold h1, after_out. by repeat case_match.
  - rewrite <-Hlr. eapply restored_over_step; [exact Hm|done|done| | |].
    + rewrite G3. by destruct Hm.
    + intros r Hr. rewrite G4. by destruct r.
    + intros r Hr Hmr. rewrite G4. unfold entry_regs, h2. cbn [mach put set_vcpus set_current_trapframe set_console set_vgic_cached set_mach].
      destruct r; try done; cbn [loaded_sys]; try (apply Hin; [not_listed|done]).
      rewrite Hin by (done || not_listed). done.
Qed.

(** ** Leaving a guest *)

(** From [h], where the guest of [p] runs, to [h'], where EL2 runs again: what a
    run does and leaves alone, seen from another VCPU [a]. *)
Record exited (p a : nat) (h h' : hv) : Prop := {
  ex_sched : scheduler h' = scheduler h;
  ex_vcpu : vcpus h' !! a = vcpus h !! a;
  ex_switch : switch_state <$> vcpus h' = switch_state <$> vcpus h;
  ex_shape : hv_shape h';
  ex_vgic : vgic_cached h' = vgic_cached h;
  ex_frame : current_trapframe h' = None;
  ex_area : host_saved_area h' = host_saved_area h;
  ex_s2 : s2_tables h' = s2_tables h;
  ex_host : drop 19 (gprs (mach h')) = take 12 (host_saved_area h);
  ex_sp : sys (mach h') SP = host_saved_area h !!! 12%nat;
  ex_prot r : protection_reg r = true → sys (mach h') r = sys (mach h) r;
}.

(** A guest that runs on the translation root [vttbr], with the tables and the
    stage-2 configuration of [h], leaves the hypervisor's memory alone. *)
Definition contained (h : hv) (vttbr : Z) : Prop := ∀ g g' c,
  s2_tables g = s2_tables h → sys (mach g) HCR_EL2 = sys (mach h) HCR_EL2 →
  sys (mach g) VTCR_EL2 = sys (mach h) VTCR_EL2 → sys (mach g) VTTBR_EL2 = vttbr →
  guest_run g = (g', c) → el2_data g' = el2_data g.

(** Because the tables shield it, *)
Lemma shields_contained `{!Sections, !GuestArch} h vttbr :
  stage2_on (mach h) → shields (s2_tables h) vttbr → contained h vttbr.
Proof.
  intros [Hvm Hvt] Hs g g' c Et Eh Ev Er E. apply (guest_confined g g' c E).
  - split; congruence.
  - by rewrite Et, Er.
Qed.

(** or because it does not try. *)
Lemma leaves_el2_contained h vttbr : leaves_el2 → contained h vttbr.
Proof. intros Hl g g' c _ _ _ _. apply Hl. Qed.

Lemma contained_mono h h' vttbr :
  s2_tables h' = s2_tables h → sys (mach h') HCR_EL2 = sys (mach h) HCR_EL2 →
  sys (mach h') VTCR_EL2 = sys (mach h) VTCR_EL2 → contained h vttbr → contained h' vttbr.
Proof. intros Et Eh Ev Hc g g' c G1 G2 G3. apply Hc; congruence. Qed.

Lemma run_guest_Ok `{!Sections, !GuestArch} h : ∃ h' c, run_guest h = Ok c h' ∧ guest_run h = (h', c) ∧
  length (gprs (mach h')) = length (gprs (mach h)) ∧ length (vregs (mach h')) = length (vregs (mach h)) ∧
  ∀ x, el2_owned x = true → sys (mach h') x = sys (mach h) x.
Proof.
  unfold run_guest. destruct (guest_run h) as [h' c] eqn:E. exists h', c. split; [done|]. split; [done|].
  split; [by eapply guest_gprs|]. split; [by eapply guest_vregs|]. intros x. by eapply guest_el2.
Qed.

(** The first statements of the vector: the frame is captured and the latch is
    cleared. *)
Lemma capture_eq p v h : vcpus h !! p = Some v →
  (w ← cpu capture_frame;
   update_tf p (λ _, tf_of_words w) ;;
   modify (set_current_trapframe None)) h =
    Ok () (set_current_trapframe None (put p (set_arch (set_tf (λ _, captured_frame (mach h))) v) h)).
Proof. intros Hp. mstep_by ltac:(apply cpu_read, capture_frame_eq). by mstep_by ltac:(by apply (update_tf_Ok p v)). Qed.

Lemma restore_host_eq h : restore_host h = Ok () (set_mach
  (set_sys (upd SP (host_saved_area h !!! 12%nat))
    (set_gprs (take 19 (gprs (mach h)) ++ take 12 (host_saved_area h)) (mach h))) h).
Proof. unfold restore_host. mstep. by mstep. Qed.

(** The state in which the C handler is called. *)
Definition handler_state (p : nat) (v : vcpu) (h : hv) : hv :=
  set_current_trapframe None (put p (set_arch (set_tf (λ _, captured_frame (mach h))) v) h).

Lemma el2_vector_common_eq p v code h : vcpus h !! p = Some v → current_trapframe h = Some p →
  let s := sys (mach h) in
  el2_vector_common code h =
    (el2_exception_common (s ESR_EL2) (s ELR_EL2) (s SPSR_EL2) (s FAR_EL2) code ;; restore_host)
      (handler_state p v h).
Proof.
  intros Hp Ht s. unfold el2_vector_common. mstep. rewrite Ht.
  rewrite (bind_Ok _ _ _ _ _ (capture_eq p v h Hp)). fold (handler_state p v h).
  do 4 (mstep_by ltac:(by apply cpu_mrs)). done.
Qed.

Lemma captured_vcpu_shape m v : length (gprs m) = 31%nat → vcpu_shape v →
  vcpu_shape (set_arch (set_tf (λ _, captured_frame m)) v).
Proof. intros Hg [_ Hv Hl]. split; [|done..]. by cbn [arch set_arch tf set_tf]; rewrite captured_frame_eq. Qed.

(** The statements after the handler. *)
Lemma back_in_el2 h : (restore_host ;; cpu (daifclr 2) ;; cpu isb) h = Ok () (set_mach
  (emit Isb (emit (DaifClr 2) (set_sys (upd SP (host_saved_area h !!! 12%nat))
    (set_gprs (take 19 (gprs (mach h)) ++ take 12 (host_saved_area h)) (mach h))))) h).
Proof. by mstep_by ltac:(apply restore_host_eq). Qed.

Lemma guest_exit_facts `{!Sections, !GuestArch} p v a h h' :
  hv_shape h → vcpus h !! p = Some v → current_trapframe h = Some p → (13 ≤ length (host_saved_area h))%nat →
  a ≠ p → sched_current (scheduler h) ≠ Some a → contained h (sys (mach h) VTTBR_EL2) →
  guest_exit h = Ok () h' → exited p a h h'.
Proof.
  intros [Hs Hg Hv] Hp Ht Ha Hap Hc Hct. unfold guest_exit.
  destruct (run_guest_Ok h) as (h1 & code & E & Eg & Lg & Lv & Lo). rewrite (bind_Ok _ _ _ _ _ E).
  pose proof (Hct h h1 code eq_refl eq_refl eq_refl eq_refl Eg) as Hd.
  unfold el2_data in Hd. injection Hd as D1 D2 D3 D4 D5 D6.
  unfold mbind at 1, M_bind at 1.
  rewrite (el2_vector_common_eq p v code h1) by congruence. cbv zeta.
  set (h2 := handler_state p v h1). unfold mbind at 1, M_bind at 1.
  destruct (el2_exception_common _ _ _ _ code h2) as [[] h3| | |] eqn:Ex; try done.
  assert (sched_current (scheduler h2) ≠ Some a) as Hc2 by (unfold h2; cbn; by rewrite D2).
  pose proof (la_exception a _ _ _ _ _ h2 () h3 Hc2 Ex) as [U1 U2 U3 U4 U5 U6 U7 U8 U9 U10 U11 U12].
  rewrite restore_host_eq. intros [= <-].
  assert (vcpus h2 = <[p := set_arch (set_tf (λ _, captured_frame (mach h1))) v]> (vcpus h)) as Hv2
    by (unfold h2; cbn; by rewrite D1).
  assert (host_saved_area h2 = host_saved_area h) as Ha2 by done.
  assert (Forall vcpu_shape (vcpus h2)) as Hs2.
  { rewrite Hv2. apply Forall_insert; [done|]. apply captured_vcpu_shape; [by etrans|].
    by apply (Forall_lookup_1 _ _ _ _ Hs Hp). }
  assert (length (gprs (mach h3)) = 31%nat) as Hg3 by (rewrite U10; cbn; congruence).
  split; cbn [scheduler vcpus vgic_cached current_trapframe host_saved_area s2_tables mach set_mach emit set_sys set_gprs sys gprs vregs].
  - by rewrite U1.
  - rewrite U2, Hv2. by apply list_lookup_insert_ne.
  - rewrite U3, Hv2, list_fmap_insert. apply list_insert_id. rewrite list_lookup_fmap. cbn. by rewrite Hp.
  - split; cbn [vcpus mach set_mach gprs vregs emit set_sys set_gprs]; [by apply U4| |].
    + rewrite U5, Ha2, length_app, !length_take, Hg3. lia.
    + rewrite U11. unfold h2. cbn. congruence.
  - by rewrite U6.
  - by rewrite U9.
  - by rewrite U5.
  - by rewrite U7.
  - rewrite U5, Ha2. rewrite drop_app_ge by (rewrite length_take; lia). rewrite length_take, Hg3. done.
  - rewrite U5, Ha2. by simpl_regs.
  - intros x Hx. rewrite upd_ne by (by intros <-). rewrite U12 by done. unfold h2. cbn.
    apply Lo. by destruct x.
Qed.

(** ** A whole switch *)

Section whole.
Context `{!Sections, !GuestArch}.

(** [vcpu_switch_asm]'s save area has room for what it saves. *)
Definition area_ok (h : hv) : Prop := (13 ≤ length (host_saved_area h))%nat.

Lemma host_saved_fields m l : length (gprs m) = 31%nat → (13 ≤ length l)%nat →
  length (host_saved m l) = length l ∧ take 12 (host_saved m l) = drop 19 (gprs m) ∧
  host_saved m l !!! 12%nat = sys m SP.
Proof.
  intros Hg Hl. unfold host_saved.
  assert (length (take 12 (drop 19 (gprs m))) = 12%nat) as Ht by (rewrite length_take, length_drop; lia).
  split_and!.
  - rewrite length_app, Ht. cbn [length]. rewrite length_drop. lia.
  - rewrite take_app_le by lia. rewrite take_take. apply take_ge. rewrite length_drop. lia.
  - apply list_lookup_total_correct. by rewrite list_lookup_middle.
Qed.

(** A completed switch into [p], seen from another VCPU [a]. *)
Record switched (from : vptr) (p a : nat) (v : vcpu) (h h' : hv) : Prop := {
  sw_sched : scheduler h' = scheduler h;
  sw_vcpu : vcpus h' !! a = vcpus (after_out from h) !! a;
  sw_state : switch_state <$> vcpus h' = switch_state <$> vcpus (after_out from h);
  sw_shape : hv_shape h';
  sw_vgic : vgic_cached h' = lr_count h;
  sw_frame : current_trapframe h' = None;
  sw_area : area_ok h';
  sw_s2 : s2_tables h' = s2_tables h;
  sw_host : drop 19 (gprs (mach h')) = drop 19 (gprs (mach h));
  sw_sp : sys (mach h') SP = sys (mach h) SP;
  sw_vttbr : sys (mach h') VTTBR_EL2 = vttbr_el2 (arch v);
  sw_prot r : protection_reg r = true → r ≠ VTTBR_EL2 → sys (mach h') r = sys (mach h) r;
}.

Lemma world_switch_facts from p v a h h' :
  hv_shape h → area_ok h → from_ok from h → from ≠ Some p → vcpus h !! p = Some v →
  a ≠ p → sched_current (scheduler h) ≠ Some a → contained h (vttbr_el2 (arch v)) →
  world_switch from (Some p) h = Ok () h' → switched from p a v h h'.
Proof.
  intros Hh Ha Hf Hne Hp Hap Hc Hct. rewrite world_switch_eq.
  destruct (after_out_ok from h Hh Hf) as (_ & Hh1 & _ & _ & _ & Hs1).
  destruct (proj1 (total_Ok _ _ _) (guest_entry_total from p v h Hh Hf Hne Hp)) as ([] & h2 & E & m & c & E2 & Hm).
  rewrite (bind_Ok _ _ _ _ _ E). set (h1 := after_out from h) in *. set (v' := set_arch _ v) in E2.
  destruct (host_saved_fields (mach h) (host_saved_area h) (hs_gprs _ Hh) Ha) as (F1 & F2 & F3).
  assert (vcpus h1 !! p = Some v) as Hp1 by (unfold h1; by rewrite after_out_vcpu).
  pose proof (Forall_lookup_1 _ _ _ _ (hs_vcpus _ Hh) Hp) as Hsv.
  assert (scheduler h2 = scheduler h) as Hsch.
  { rewrite E2. cbn. unfold h1, after_out. by repeat case_match. }
  assert (hv_shape h2) as Hh2.
  { rewrite E2. split; cbn [vcpus mach put set_vcpus set_mach set_vgic_cached set_console set_current_trapframe set_host_saved_area].
    - apply Forall_insert; [apply Hh1|by destruct Hsv].
    - destruct Hm as [_ _ _ _ _ _ _ _ Hg _ _]. rewrite Hg. apply Hsv.
    - by destruct Hm. }
  assert (∀ r, protection_reg r = true ∨ r = SP → sys (mach h2) r = installed_sys v (offset_for v (mach h1)) (sys (mach h)) r) as Hpr.
  { intros r Hr. rewrite E2. destruct Hm as [_ _ _ _ _ _ _ _ _ _ Ho]. cbn. rewrite Ho by (by destruct r, Hr).
    cbn. unfold entry_regs. by destruct r, Hr. }
  assert (s2_tables h2 = s2_tables h) as Ht2.
  { rewrite E2. cbn. unfold h1, after_out. by repeat case_match. }
  assert (contained h2 (sys (mach h2) VTTBR_EL2)) as Hct2.
  { rewrite Hpr by auto. cbn [installed_sys]. eapply contained_mono; [done| | |exact Hct]; by rewrite Hpr by auto. }
  intros Hex. destruct (guest_exit_facts p v' a h2 h' Hh2) as [X1 X2 X3 X4 X5 X6 X7 X11 X8 X9 X10]; try done.
  - rewrite E2. by apply (put_lookup p v' v (set_host_saved_area _ _)).
  - by rewrite E2.
  - rewrite E2. cbn [host_saved_area put set_vcpus set_host_saved_area]. unfold area_ok in Ha. lia.
  - by rewrite Hsch.
  - split; try done.
    + congruence.
    + rewrite X2, E2. by apply list_lookup_insert_ne.
    + rewrite X3, E2. cbn [vcpus put set_vcpus]. rewrite list_fmap_insert. apply list_insert_id.
      rewrite list_lookup_fmap. exact (f_equal (fmap switch_state) Hp1).
    + rewrite X5. by rewrite E2.
    + unfold area_ok. rewrite X7, E2. cbn [host_saved_area put set_vcpus set_host_saved_area]. by rewrite F1.
    + congruence.
    + rewrite X8, E2. exact F2.
    + rewrite X9, E2. exact F3.
    + rewrite X10, Hpr by auto. done.
    + intros r Hr Hv. rewrite X10, Hpr by auto. by destruct r.
Qed.
End whole.
End entry.

(** ** Witnesses *)

#[local] Existing Instance demo_counter.

Definition frame_machine : machine :=
  Machine (λ r, match r with CNTVOFF_EL2 => 100 | CNTP_CVAL_EL0 => 50 | TPIDR_EL1 => 6 | _ => 0 end)
    (replicate 32 (0, 0)) (seqZ 0 31) 0 [].

(** A deadline of 150 in virtual time is 150 in physical time when the offset is 0. *)
Lemma frame_roundtrip_witness :
  total capture_frame frame_machine (λ w _, total (load_frame (tf_words (tf_of_words w))) demo_machine (λ _ m2,
    sys m2 TPIDR_EL1 = 6 ∧ u64 (sys m2 CNTP_CVAL_EL0 + sys m2 CNTVOFF_EL2) = 150)).
Proof.
  assert (is_u64 (sys frame_machine CNTP_CVAL_EL0)) as Hr by (cbn; lia).
  eapply total_mono; [apply (frame_roundtrip frame_machine demo_machine eq_refl Hr)|].
  intros w m Hw. eapply total_mono; [exact Hw|]. intros [] m2 (_ & Hf & _ & _ & Ht & _).
  split; [exact (Hf TPIDR_EL1 eq_refl)|]. etrans; [exact Ht|]. reflexivity.
Defined.
