(* ===== verification/SwitchSpec.v ===== *)
(** * Theorems about switching and the main loop

    A guest is entered with its own state and nothing else's. When the tables it runs
    on keep the hypervisor's memory from it, EL2 gets its data, registers and
    protection back, a descheduled VCPU resumes where it stopped, and the main loop
    never ends.                                                                 *)

From Stdlib Require Import ZArith Lia Ascii String.
From stdpp Require Import base gmap list strings relations.
From S2P Require Import Prelude Machine PageTable S2Mmu S2MmuTheory Layout Uart UartTheory Vcpu VcpuTheory Sched SchedTheory.
From S2P Require Import Context ContextTheory Trap TrapTheory Isolation Switch Shield SwitchTheory.

#[local] Open Scope string_scope.
#[local] Open Scope Z_scope.

Section entry.
Context `{!Console, !ConsoleSpec, !Counter, !Features, !S2Image, !Guest}.

(** The value a frame register is loaded with. *)
Definition frame_value (t : trapframe) (off : Z) (r : sysreg) : Z := loaded_sys t (upd CNTVOFF_EL2 off (λ _, 0)) r.

(** C7. Every switch reaches the guest, whoever was running before: the incoming
    VCPU is entered with the general registers and EL1 registers of its frame, its
    translation root, its SIMD, interrupt and authentication context, the guests'
    vectors, and the latch set so that its exit is captured in its own frame; the
    other protection registers and the other VCPUs but the outgoing one are
    untouched. *)
Theorem guest_entered from p v h :
  hv_shape h → from_ok from h → from ≠ Some p → vcpus h !! p = Some v →
  total (guest_entry from p) h (λ _ h',
    let m := mach h' in
    let off := sys m CNTVOFF_EL2 in
    gprs m = regs (tf (arch v)) ∧
    (∀ r, frame_reg r = true ∨ r ∈ [CNTP_CVAL_EL0; CNTP_CTL_EL0; CNTV_CTL_EL0] →
      sys m r = frame_value (tf (arch v)) off r) ∧
    sys m VTTBR_EL2 = vttbr_el2 (arch v) ∧ sys m VBAR_EL1 = guest_el1_vectors ∧
    (fp_used (fp (arch v)) ≠ 0 → vregs m = fp_vregs (fp (arch v)) ∧ sys m FPCR = fpcr (fp (arch v)) ∧
      sys m FPSR = fpsr (fp (arch v))) ∧
    (∀ n, (n < 16)%nat → Z.of_nat n < lr_count h → sys m (ICH_LR n) = lrs (vgic (arch v)) !!! n) ∧
    sys m ICH_VMCR = vmcr (vgic (arch v)) ∧ sys m ICH_AP0R0 = apr (vgic (arch v)) ∧
    (pauth_used (pauth (arch v)) ≠ 0 → arm_feature_pauth = true →
      sys m APIAKEY_EL1 = apia (pauth (arch v)) ∧ sys m APIBKEY_EL1 = apib (pauth (arch v)) ∧
      sys m APDAKEY_EL1 = apda (pauth (arch v)) ∧ sys m APDBKEY_EL1 = apdb (pauth (arch v))) ∧
    current_trapframe h' = Some p ∧
    (∀ r, protection_reg r = true → r ≠ VTTBR_EL2 → sys m r = sys (mach h) r) ∧
    ∀ q, q ≠ p → from ≠ Some q → vcpus h' !! q = vcpus h !! q).
Proof.
  intros Hh Hf Hne Hp. eapply total_mono; [by apply guest_entry_total|].
  intros [] h' (m & c & -> & [Cv C1 C2 Cl C3 C4 Ck _ Cg _ Co]).
  cbn [mach current_trapframe vcpus put set_vcpus set_mach set_vgic_cached set_console set_current_trapframe set_host_saved_area].
  cbn [gprs sys] in Cg, Co. cbv zeta. split_and!; try done.
  - intros r Hr. rewrite !Co; [|done|]; unfold entry_regs, frame_value; (destruct Hr as [Hr|Hr]; [by destruct r|]);
      rewrite !elem_of_cons, elem_of_nil in Hr; by destruct Hr as [->|[->|[->|[]]]].
  - by rewrite Co.
  - by rewrite Co.
  - auto.
  - intros r Hr Hv. rewrite Co by (by destruct r). unfold entry_regs. by destruct r.
  - intros q Hq Hfq. rewrite list_lookup_insert_ne by done. by apply after_out_vcpu.
Qed.

(** C30. The guest's virtual counter: the time [world_switch] means to give a VCPU
    is its snapshot, [CNTVOFF_EL2] being chosen so that physical time plus offset
    is the snapshot. On the architecture's counter, which subtracts the offset, the
    guest reads [pct' + pct - snapshot] at its first instruction, with [pct] and
    [pct'] the physical counts at the switch and then. *)
Theorem virtual_time_at_entry `{!CounterArch} from p v h :
  hv_shape h → from_ok from h → from ≠ Some p → vcpus h !! p = Some v → is_u64 (cntvct_el0 (arch v)) →
  let n := reads (mach (after_out from h)) in
  total (guest_entry from p) h (λ _ h',
    u64 (count_at n + sys (mach h') CNTVOFF_EL2) = cntvct_el0 (arch v) ∧
    virt_now (mach h') = u64 (count_at (S n) + count_at n - cntvct_el0 (arch v))).
Proof.
  intros Hh Hf Hne Hp Hr n. eapply total_mono; [by apply guest_entry_total|].
  intros [] h' (m & c & -> & [_ _ _ _ _ _ _ _ _ Cr Co]). cbn [reads sys] in Cr, Co.
  assert (∀ w x, mach (put p w x) = mach x) as Hm by done. rewrite Hm.
  cbn [mach set_mach set_vgic_cached set_console set_current_trapframe set_host_saved_area].
  unfold virt_now. rewrite Cr, Co by done. fold n.
  unfold entry_regs. cbn [loaded_sys installed_sys]. unfold offset_for. fold n. split.
  - rewrite u64_add_mod_r. replace (count_at n + (cntvct_el0 (arch v) - count_at n)) with (cntvct_el0 (arch v)) by lia.
    by apply u64_small.
  - rewrite virt_count_arch, u64_sub_mod_r. f_equal. lia.
Qed.
End entry.

Section switches.
Context `{!Console, !ConsoleSpec, !Counter, !Features, !S2Image, !Sections, !Guest, !GuestArch}.

(** ** Shielding

    Stage 2 is on and no VCPU's tables let it store to the hypervisor's memory. *)
Definition shielded (h : hv) : Prop :=
  stage2_on (mach h) ∧ ∀ q v, vcpus h !! q = Some v → shields (s2_tables h) (vttbr_el2 (arch v)).

(** What follows for the guests' runs. *)
Definition all_contained (h : hv) : Prop := ∀ q v, vcpus h !! q = Some v → contained h (vttbr_el2 (arch v)).

Lemma shielded_contained h : shielded h → all_contained h.
Proof. intros [Hon Hs] q v Hq. apply shields_contained; [done|by eapply Hs]. Qed.

(** The translation roots, the tables and the registers that turn translation on. *)
Definition roots (h : hv) : list Z := (λ v, vttbr_el2 (arch v)) <$> vcpus h.

Record same_translation (h h' : hv) : Prop := {
  st_roots : roots h' = roots h;
  st_s2 : s2_tables h' = s2_tables h;
  st_hcr : sys (mach h') HCR_EL2 = sys (mach h) HCR_EL2;
  st_vtcr : sys (mach h') VTCR_EL2 = sys (mach h) VTCR_EL2;
}.

#[export] Instance same_translation_preorder : PreOrder same_translation.
Proof. split; [by intros h; split|]. intros h1 h2 h3 [] []. split; congruence. Qed.

Lemma all_contained_same h h' : same_translation h h' → all_contained h → all_contained h'.
Proof.
  intros [Hr Ht Hh Hv] Hc q v' Hq. assert (roots h' !! q = Some (vttbr_el2 (arch v'))) as Hq'.
  { unfold roots. by rewrite list_lookup_fmap, Hq. }
  rewrite Hr in Hq'. unfold roots in Hq'. rewrite list_lookup_fmap in Hq'.
  destruct (vcpus h !! q) as [v|] eqn:E; [|done]. injection Hq' as <-.
  eapply contained_mono; [..|by eapply Hc]; done.
Qed.

Lemma roots_after_out from h : roots (after_out from h) = roots h.
Proof.
  unfold roots, after_out. destruct from as [f|]; [|done]. destruct (vcpus h !! f) as [v|] eqn:E; [|done].
  cbn [vcpus put set_vcpus]. rewrite list_fmap_insert. apply list_insert_id. by rewrite list_lookup_fmap, E.
Qed.

(** A switch keeps them. *)
Lemma switched_translation from p a v h h' : switched from p a v h h' → same_translation h h'.
Proof.
  intros Hsw. split; [|apply Hsw|by apply (sw_prot _ _ _ _ _ _ Hsw)..].
  rewrite <-(roots_after_out from h). pose proof (sw_state _ _ _ _ _ _ Hsw) as Hs.
  apply (f_equal (fmap (λ x : Z * fp_state * sve_state * pauth_state * vgic_state * Z, x.1.1.1.1.1))) in Hs.
  rewrite <-!list_fmap_compose in Hs. exact Hs.
Qed.

(** C5. Isolation: with stage 2 on, and when the tables [b] runs on map no writable
    page to the hypervisor's memory, then whatever the guest of [b] stores, does and
    traps with, once [world_switch] from [a] to [b] returns the record of [a] is the
    one saved before the guest ran, every third VCPU's record is as it was, and so are
    the scheduler, the stage-2 tables, EL2's callee-saved registers and stack pointer,
    and the registers that decide which memory guests and EL2 reach, but for
    VTTBR_EL2, which is [b]'s. *)
Theorem world_switch_isolates a b va vb h h' :
  hv_shape h → area_ok h → a ≠ b → vcpus h !! a = Some va → vcpus h !! b = Some vb →
  sched_current (scheduler h) = Some b →
  stage2_on (mach h) → shields (s2_tables h) (vttbr_el2 (arch vb)) →
  world_switch (Some a) (Some b) h = Ok () h' →
  vcpus h' !! a = Some (switched_out h va) ∧
  (∀ q, q ≠ a → q ≠ b → vcpus h' !! q = vcpus h !! q) ∧
  scheduler h' = scheduler h ∧ s2_tables h' = s2_tables h ∧
  drop 19 (gprs (mach h')) = drop 19 (gprs (mach h)) ∧ sys (mach h') SP = sys (mach h) SP ∧
  sys (mach h') VTTBR_EL2 = vttbr_el2 (arch vb) ∧
  ∀ r, protection_reg r = true → r ≠ VTTBR_EL2 → sys (mach h') r = sys (mach h) r.
Proof.
  intros Hh Har Hab Ha Hb Hc Hon Hsh E.
  assert (∀ q, q ≠ b → switched (Some a) b q vb h h') as Hsw.
  { intros q Hq. apply world_switch_facts; try done; [by eexists|congruence|congruence|by apply shields_contained]. }
  destruct (Hsw a Hab) as [S1 S2 S3 S4 S5 S6 S7 S12 S8 S9 S10 S11]. split_and!; try done.
  - rewrite S2. unfold after_out. rewrite Ha. by apply (put_lookup a _ va (set_vgic_cached _ _)).
  - intros q Hqa Hqb. rewrite (sw_vcpu _ _ _ _ _ _ (Hsw q Hqb)). apply after_out_vcpu. congruence.
Qed.

(** ** While a VCPU is descheduled *)

(** What EL2 does while [a] is not running: other VCPUs are switched between and
    run, the scheduler moves, yield requests are cleared. *)
Inductive other_step (a : nat) : hv → hv → Prop :=
  | other_switch from p h h' :
      from_ok from h → from ≠ Some p → from ≠ Some a → p ≠ a → is_Some (vcpus h !! p) →
      sched_current (scheduler h) ≠ Some a → world_switch from (Some p) h = Ok () h' →
      other_step a h h'
  | other_sched s h : other_step a h (set_scheduler s h)
  | other_yielded q h h' : q ≠ a → update q (set_request_yield false) h = Ok () h' → other_step a h h'.

(** What they keep. *)
Record kept (a : nat) (h h' : hv) : Prop := {
  kp_shape : hv_shape h';
  kp_area : area_ok h';
  kp_vgic : vgic_cached h' = vgic_cached h;
  kp_translation : same_translation h h';
  kp_vcpu : vcpus h' !! a = vcpus h !! a;
}.

Lemma other_step_kept a h h' :
  hv_shape h → area_ok h → vgic_cached h ≠ 0 → all_contained h → other_step a h h' → kept a h h'.
Proof.
  intros Hh Ha Hn Hct. inversion 1 as [from p h1 h2 Hf Hne Hfa Hpa [v Hp] Hc E|s h1|q h1 h2 Hq E]; subst.
  - pose proof (world_switch_facts from p v a h h' Hh Ha Hf Hne Hp ltac:(done) Hc (Hct p v Hp) E) as Hsw.
    pose proof Hsw as [S1 S2 S3 S4 S5 S6 S7 S12 S8 S9 S10 S11].
    split; try done; [|by eapply switched_translation|by rewrite S2, after_out_vcpu].
    rewrite S5. unfold lr_count. by rewrite (proj2 (Z.eqb_neq _ _)) by done.
  - by destruct Hh.
  - unfold update, arr_get, mbind, M_bind in E. cbn in E.
    destruct (vcpus h !! q) as [v|] eqn:Hv; [|done]. injection E as <-. destruct Hh as [Hs Hg Hr].
    split; try done; [split; try done| |].
    + apply Forall_insert; [done|]. destruct (Forall_lookup_1 _ _ _ _ Hs Hv). by split.
    + split; try done. unfold roots. cbn [vcpus set_vcpus]. rewrite list_fmap_insert. apply list_insert_id.
      by rewrite list_lookup_fmap, Hv.
    + by apply list_lookup_insert_ne.
Qed.

Lemma other_steps_kept a h h' :
  hv_shape h → area_ok h → vgic_cached h ≠ 0 → all_contained h → rtc (other_step a) h h' → kept a h h'.
Proof.
  intros Hh Ha Hn Hct Hr. induction Hr as [h|h h1 h2 Hs _ IH]; [by split|].
  destruct (other_step_kept _ _ _ Hh Ha Hn Hct Hs) as [K1 K2 K3 K5 K4].
  destruct IH as [L1 L2 L3 L5 L4]; [done|done|by rewrite K3|by eapply all_contained_same|].
  split; try done; [congruence|by etrans|congruence].
Qed.

Lemma lr_count_nonzero h : lr_count h ≠ 0.
Proof.
  unfold lr_count. pose proof (Z.mod_pos_bound (sys (mach h) ICH_VTR) 16 ltac:(lia)).
  destruct (Z.eqb_spec (vgic_cached h) 0); lia.
Qed.

(** C6. A descheduled VCPU resumes where it stopped: with stage 2 on and every VCPU's
    tables keeping it from the hypervisor's memory, after [world_switch] from [a] to
    [b] and any number of runs of other VCPUs, whatever they do, the next switch back
    to [a] reaches its guest with the SIMD registers, list registers, interrupt state and
    authentication keys [a] had when it was switched out, and with the registers,
    translation root and EL1 state of its frame. *)
Theorem descheduled_vcpu_resumes a b va vb from h h1 h2 :
  hv_shape h → area_ok h → context_width (mach h) → a ≠ b →
  vcpus h !! a = Some va → vcpus h !! b = Some vb → sched_current (scheduler h) ≠ Some a →
  shielded h → world_switch (Some a) (Some b) h = Ok () h1 → rtc (other_step a) h1 h2 →
  from_ok from h2 → from ≠ Some a →
  total (guest_entry from a) h2 (λ _ h3,
    same_context (lr_count h) (mach h) (mach h3) ∧
    gprs (mach h3) = regs (tf (arch va)) ∧
    (∀ r, frame_reg r = true → sys (mach h3) r = frame_value (tf (arch va)) 0 r) ∧
    sys (mach h3) VTTBR_EL2 = vttbr_el2 (arch va)).
Proof.
  intros Hh Har Hw Hab Ha Hb Hc Hsh%shielded_contained E Hrun Hf Hne.
  assert (switched (Some a) b a vb h h1) as Hsw
    by (apply world_switch_facts; try done; [by eexists|congruence|by eapply Hsh]).
  pose proof Hsw as [S1 S2 S3 S4 S5 S6 S7 S12 S8 S9 S10 S11].
  destruct (other_steps_kept a h1 h2) as [K1 K2 K3 _ K4]; try done;
    [rewrite S5; apply lr_count_nonzero|by eapply all_contained_same, Hsh; eapply switched_translation|].
  assert (vcpus h2 !! a = Some (switched_out h va)) as Ha2.
  { rewrite K4, S2. unfold after_out. rewrite Ha. by apply (put_lookup a _ va (set_vgic_cached _ _)). }
  assert (lr_count h2 = lr_count h) as Hlr.
  { unfold lr_count at 1. rewrite K3, S5. rewrite (proj2 (Z.eqb_neq _ _)) by apply lr_count_nonzero. done. }
  eapply total_mono; [by apply (guest_entry_total from a (switched_out h va) h2)|].
  intros [] h3 (m & c & -> & Hm). pose proof Hm as [_ _ _ _ _ _ _ _ Cg _ Co]. rewrite Hlr in Hm.
  assert (∀ w x, mach (put a w x) = mach x) as Hmach by done. rewrite !Hmach.
  cbn [mach set_mach set_vgic_cached set_console set_current_trapframe set_host_saved_area].
  cbn [gprs sys] in Cg, Co. split_and!.
  - unfold switched_out, restored_over in Hm.
    apply (saved_context_is h (set_arch (set_cntvct_el0 (virt_now (mach h))) va) (lr_count h)) in Hm; try done.
    by destruct (Forall_lookup_1 _ _ _ _ (hs_vcpus _ Hh) Ha).
  - done.
  - intros r Hr. rewrite Co by (by destruct r). unfold entry_regs, frame_value. by destruct r.
  - by rewrite Co.
Qed.

(** C29. Re-entry without a save: when the main loop runs the same VCPU again,
    [world_switch(NULL, p)] restores the SIMD and interrupt state in [p]'s record
    before that run: what the guest changed in the meantime is lost (the guest having
    left [p]'s record itself alone, as [contained] says). *)
Theorem reentry_restores_stale_context p v h h1 :
  hv_shape h → area_ok h → vcpus h !! p = Some v → sched_current (scheduler h) = Some p →
  fp_used (fp (arch v)) ≠ 0 → contained h (vttbr_el2 (arch v)) →
  world_switch None (Some p) h = Ok () h1 →
  total (guest_entry None p) h1 (λ _ h2,
    vregs (mach h2) = fp_vregs (fp (arch v)) ∧ sys (mach h2) FPCR = fpcr (fp (arch v)) ∧
    sys (mach h2) ICH_VMCR = vmcr (vgic (arch v)) ∧
    (∀ n, (n < 16)%nat → Z.of_nat n < lr_count h1 → sys (mach h2) (ICH_LR n) = lrs (vgic (arch v)) !!! n)).
Proof.
  intros Hh Har Hp Hc Hu Hct E.
  destruct (world_switch_facts None p v (S p) h h1) as [S1 S2 S3 S4 S5 S6 S7 S12 S8 S9 S10 S11];
    try done; [rewrite Hc; intros [=]; lia|].
  assert (∃ v1, vcpus h1 !! p = Some v1 ∧ switch_state v1 = switch_state v) as (v1 & Hp1 & Hv1).
  { assert ((switch_state <$> vcpus h1) !! p = Some (switch_state v)) as Hl.
    { rewrite S3, list_lookup_fmap. cbn. by rewrite Hp. }
    rewrite list_lookup_fmap in Hl. destruct (vcpus h1 !! p) as [v1|]; [|done].
    exists v1. split; [done|]. exact (inj Some _ _ Hl). }
  unfold switch_state in Hv1. injection Hv1 as _ Hfp _ _ Hvg _.
  eapply total_mono; [by apply (guest_entry_total None p v1 h1)|].
  intros [] h3 (m & c & -> & [Cv C1 C2 Cl C3 _ _ _ _ _ _]).
  assert (∀ w x, mach (put p w x) = mach x) as Hmach by done. rewrite !Hmach.
  cbn [mach set_mach set_vgic_cached set_console set_current_trapframe set_host_saved_area].
  rewrite Hfp in Cv, C1. rewrite Hvg in C3, Cl. auto.
Qed.

(** ** The main loop *)

(** The states at the head of the loop; [r] is the abstract scheduler. The guests'
    runs leave the hypervisor's memory alone ([all_contained]), whether their tables
    see to it or they do. *)
Record loop_inv (r : rr) (h : hv) : Prop := {
  li_shape : hv_shape h;
  li_area : area_ok h;
  li_repr : sched_repr (scheduler h) r;
  li_pool q : q ∈ rr_queue r → (q < length (vcpus h))%nat;
  li_current : is_Some (rr_current r);
  li_contained : all_contained h;
}.

Lemma loop_inv_vcpu r h p : loop_inv r h → rr_current r = Some p → is_Some (vcpus h !! p).
Proof. intros Hi Hp. apply lookup_lt_is_Some_2, (li_pool _ _ Hi). by eapply list_elem_of_lookup_2. Qed.

(** A switch into the current VCPU stays in the loop's states. *)
Lemma loop_inv_switch from r p h h' :
  loop_inv r h → rr_current r = Some p → from_ok from h → from ≠ Some p →
  world_switch from (Some p) h = Ok () h' → loop_inv r h'.
Proof.
  intros Hi Hp Hf Hne E. destruct (loop_inv_vcpu _ _ _ Hi Hp) as [v Hv].
  pose proof Hi as [Hs Ha Hr Hq Hc Hct]. pose proof (sr_current _ _ Hr) as Hcur.
  assert (switched from p (S p) v h h') as Hsw.
  { apply world_switch_facts; try done; [rewrite Hcur, Hp; intros [=]; lia|by eapply Hct]. }
  pose proof (switched_translation _ _ _ _ _ _ Hsw) as Hst.
  split; [by apply Hsw|by apply Hsw|by rewrite (sw_sched _ _ _ _ _ _ Hsw)| |done|by eapply all_contained_same].
  assert (length (vcpus h') = length (vcpus h)) as ->; [|done].
  pose proof (f_equal length (st_roots _ _ Hst)) as Hl. unfold roots in Hl. by rewrite !length_fmap in Hl.
Qed.

Lemma loop_inv_flag r p v h : loop_inv r h → vcpus h !! p = Some v →
  loop_inv r (put p (set_request_yield false v) h).
Proof.
  intros [[Hs Hg Hv] Ha Hr Hq Hc Hct] Hp. split; try done; [split; try done| |].
  - apply Forall_insert; [done|]. destruct (Forall_lookup_1 _ _ _ _ Hs Hp). by split.
  - intros q Hin. cbn [vcpus put set_vcpus]. rewrite length_insert. by apply Hq.
  - eapply all_contained_same; [|exact Hct]. split; try done. unfold roots. cbn [vcpus put set_vcpus].
    rewrite list_fmap_insert. apply list_insert_id. by rewrite list_lookup_fmap, Hp.
Qed.

(** Once the flag is cleared, [vcpu_scheduler_yield] switches to the next VCPU. *)
Lemma yield_eq r p h : loop_inv r h → rr_current r = Some p →
  if (length (rr_queue r) <=? 1)%nat then vcpu_scheduler_yield h = Ok false h
  else ∃ target s, rr_current (rr_next r) = Some target ∧ p ≠ target ∧
    loop_inv (rr_next r) (set_scheduler s h) ∧
    vcpu_scheduler_yield h = (world_switch (Some p) (Some target) ;; mret true) (set_scheduler s h).
Proof.
  intros [[Hs Hg Hv] Ha Hr Hq Hc Hct] Hp. pose proof (pick_refines _ _ Hr) as Hpick. rewrite Hp in Hpick.
  unfold vcpu_scheduler_yield. destruct (Nat.leb_spec (length (rr_queue r)) 1).
  { mstep_by ltac:(unfold on_sched, zoom; rewrite Hpick; reflexivity). by destruct h. }
  destruct Hpick as (target & s & E & Hr' & Ht & Hne). exists target, s. split_and!; try done.
  by mstep_by ltac:(unfold on_sched, zoom; rewrite E; reflexivity).
Qed.

Lemma body_cases r p h b h' :
  loop_inv r h → rr_current r = Some p → vcpu_run_body h = Ok b h' →
  b = true ∧ ∃ h1 v1, world_switch None (Some p) h = Ok () h1 ∧ vcpus h1 !! p = Some v1 ∧
    loop_inv (if request_yield v1 && (1 <? length (rr_queue r))%nat then rr_next r else r) h' ∧
    if request_yield v1 && (1 <? length (rr_queue r))%nat
    then ∃ target h2, rr_current (rr_next r) = Some target ∧ p ≠ target ∧
      vcpus h2 = <[p := set_request_yield false v1]> (vcpus h1) ∧
      sched_current (scheduler h2) = Some target ∧ world_switch (Some p) (Some target) h2 = Ok () h'
    else h' = (if request_yield v1 then put p (set_request_yield false v1) h1 else h1).
Proof.
  intros Hi Hp. unfold vcpu_run_body. rewrite (bind_Ok _ _ _ _ _ (current_eq h)).
  rewrite (sr_current _ _ (li_repr _ _ Hi)), Hp. unfold mbind at 1, M_bind at 1.
  destruct (world_switch None (Some p) h) as [[] h1| | |] eqn:E; try done.
  pose proof (loop_inv_switch None r p h h1 Hi Hp I ltac:(done) E) as Hi1.
  destruct (loop_inv_vcpu _ _ _ Hi1 Hp) as [v1 Hv1]. mstep_by ltac:(by apply (deref_Ok p v1)).
  destruct (request_yield v1) eqn:Hy; cbn [andb].
  2: { intros [= <- <-]. split; [done|]. exists h1, v1. rewrite Hy. by split_and!. }
  set (h2 := put p (set_request_yield false v1) h1).
  assert (loop_inv r h2) as Hi2 by (by apply loop_inv_flag).
  assert (update p (set_request_yield false) h1 = Ok () h2) as Hu by (by apply update_Ok).
  pose proof (yield_eq r p h2 Hi2 Hp) as Hyield. unfold mbind at 1, M_bind at 1. rewrite (bind_Ok _ _ _ _ _ Hu).
  rewrite Nat.ltb_antisym. destruct (length (rr_queue r) <=? 1)%nat; cbn [negb].
  - rewrite (bind_Ok _ _ _ _ _ Hyield). intros [= <- <-]. split; [done|]. exists h1, v1. rewrite Hy. by split_and!.
  - destruct Hyield as (target & s & Ht & Hne & Hi3 & Hyield). unfold mbind at 1, M_bind at 1. rewrite Hyield.
    unfold mbind, M_bind. destruct (world_switch (Some p) (Some target) _) as [[] h4| | |] eqn:E2; try done.
    intros [= <- <-]. split; [done|]. exists h1, v1. rewrite Hy. split_and!; try done.
    + eapply (loop_inv_switch (Some p) _ target); [exact Hi3|done| |congruence|done].
      exists (set_request_yield false v1). by apply (put_lookup p _ v1 h1).
    + exists target, (set_scheduler s h2). split_and!; try done. by rewrite (sr_current _ _ (li_repr _ _ Hi3)).
Qed.

(** A run of the loop that has not broken out is in one of its states. *)
Lemma body_stays r h b h' : loop_inv r h → vcpu_run_body h = Ok b h' → b = true ∧ ∃ r', loop_inv r' h'.
Proof.
  intros Hi E. destruct (li_current _ _ Hi) as [p Hp].
  destruct (body_cases _ _ _ _ _ Hi Hp E) as (-> & h1 & v1 & _ & _ & Hi' & _). eauto.
Qed.

Lemma loop_never_returns fuel r h h' : loop_inv r h → vcpu_run_loop fuel h ≠ Ok () h'.
Proof.
  revert r h. induction fuel as [|fuel IH]; intros r h Hi; [done|]. cbn [vcpu_run_loop].
  unfold mbind, M_bind. destruct (vcpu_run_body h) as [b h1| | |] eqn:E; try done.
  destruct (body_stays _ _ _ _ Hi E) as [-> [r' Hi']]. by eapply IH.
Qed.

(** C11. One iteration of the main loop: the current VCPU runs; if it has asked to
    yield, its request is cleared and, when there are others, the next VCPU in
    round-robin order is switched to; otherwise it stays current. The loop does not
    break, and every queued VCPU stays valid. *)
Theorem vcpu_run_body_round_robin r p h b h' :
  loop_inv r h → rr_current r = Some p → vcpu_run_body h = Ok b h' →
  b = true ∧ ∃ h1 v1, world_switch None (Some p) h = Ok () h1 ∧ vcpus h1 !! p = Some v1 ∧
    loop_inv (if request_yield v1 && (1 <? length (rr_queue r))%nat then rr_next r else r) h' ∧
    if request_yield v1 && (1 <? length (rr_queue r))%nat
    then ∃ target h2, rr_current (rr_next r) = Some target ∧ p ≠ target ∧
      vcpus h2 = <[p := set_request_yield false v1]> (vcpus h1) ∧
      sched_current (scheduler h2) = Some target ∧ world_switch (Some p) (Some target) h2 = Ok () h'
    else h' = (if request_yield v1 then put p (set_request_yield false v1) h1 else h1).
Proof. apply body_cases. Qed.

Lemma run_never_returns fuel p h h' :
  hv_shape h → area_ok h → sched_reachable (scheduler h) → (p < length (vcpus h))%nat →
  (∀ i q, sched_runqueue (scheduler h) !! i = Some (Some q) → (q < length (vcpus h))%nat) → all_contained h →
  vcpu_run fuel (Some p) h ≠ Ok () h'.
Proof.
  intros Hs Ha [r Hr]%reachable_repr Hp Hq Hct.
  unfold vcpu_run. rewrite bool_decide_eq_false_2 by done.
  destruct (set_current_refines _ _ (Some p) Hr) as (s' & E & Hr').
  rewrite (bind_Ok _ _ h () (set_scheduler s' h)) by (unfold on_sched, zoom; by rewrite E).
  apply (loop_never_returns fuel (rr_set_current (Some p) r)). split; [by destruct Hs|done|done| | |done].
  - intros q Hin. cbn in Hin. unfold rr_insert in Hin. assert (∀ q, q ∈ rr_queue r → (q < length (vcpus h))%nat) as Hqr.
    { intros q' [i Hi]%list_elem_of_lookup. apply (Hq i). destruct (sr_repr _ _ Hr) as [_ _ _ Hl _].
      rewrite Hl by (by eapply lookup_lt_Some). by rewrite Hi. }
    case_decide; [by apply Hqr|]. cbn in Hin. apply elem_of_app in Hin as [Hin|Hin%list_elem_of_singleton]; [by apply Hqr|by subst].
  - apply lookup_lt_is_Some_2. destruct (sr_cursor _ _ Hr') as [[Hn _]|Hc]; [|done]. exfalso.
    revert Hn. cbn. unfold rr_insert. case_decide as Hd; cbn; [|by intros Hn%app_eq_nil; destruct Hn].
    intros Hn. rewrite Hn in Hd. cbn in Hd. unfold VCPU_SCHED_MAX in Hd.
    destruct Hd as [Hin|]; [by apply elem_of_nil in Hin|lia].
Qed.

(** C26. [vcpu_run] of a VCPU never returns to its caller, whatever the guests do,
    when no VCPU's tables let it store to the hypervisor's memory: from a scheduler
    state the program can reach, with the registered VCPUs in the pool, no number of
    iterations breaks out of the loop. For NULL it returns at once. *)
Theorem vcpu_run_never_returns fuel p h h' :
  hv_shape h → area_ok h → sched_reachable (scheduler h) → (p < length (vcpus h))%nat →
  (∀ i q, sched_runqueue (scheduler h) !! i = Some (Some q) → (q < length (vcpus h))%nat) → shielded h →
  vcpu_run fuel (Some p) h ≠ Ok () h' ∧ vcpu_run fuel None h = Ok () h.
Proof. intros Hs Ha Hr Hp Hq Hsh. split; [by apply run_never_returns, shielded_contained|done]. Qed.

End switches.

(** ** Witnesses

    Two VCPUs registered as [el2_main] registers them, on tables that map two pages
    above the image, and the guest of [Shield] that changes the SIMD registers, clears
    [sched_current] if it can, and waits for an interrupt. *)

#[local] Existing Instance text_console.
#[local] Existing Instance text_console_spec.
#[local] Existing Instance demo_counter.
#[local] Existing Instance demo_counter_arch.
#[local] Existing Instance demo_s2_image.
#[local] Existing Instance demo_s2_image_ok.
#[local] Existing Instance demo_sections.
#[local] Instance switch_features : Features := {| arm_feature_pauth := true |}.

#[local] Instance wfi_guest : Guest := storing_guest 0x40400000 0x40010000.

#[local] Instance wfi_guest_arch : GuestArch.
Proof. apply storing_guest_arch; [lia|]. split; [done|by vm_compute]. Defined.

Definition switch_machine : machine :=
  Machine (λ r, match r with FPCR => 7 | SP => 0x40020000 | ICH_VTR => 3 | ICH_LR 2 => 5
    | HCR_EL2 => 1 | VTCR_EL2 => vtcr_el2_value | _ => 0 end) (replicate 32 (1, 2)) (seqZ 0 31) 0 [].

Definition switch_vcpu1 : vcpu := set_arch (set_vttbr_el2 s2_l1_sym) (demo_vcpu 1).

Definition switch_vcpu : vcpu :=
  set_arch (set_fp (Fp 1 3 0 (replicate 32 (4, 4))))
    (set_arch (set_cntvct_el0 5000) (set_arch (set_vttbr_el2 s2_l1_sym) (demo_vcpu 0))).

Definition switch_hv : hv :=
  set_s2_tables high_tables (set_vcpus [switch_vcpu; switch_vcpu1] (demo_hv switch_machine)).

Lemma switch_hv_shape : hv_shape switch_hv.
Proof. split; [|done..]. by repeat constructor. Qed.

Lemma switch_hv_area : area_ok switch_hv.
Proof. unfold area_ok. cbn. lia. Qed.

Lemma switch_stage2_on : stage2_on (mach switch_hv).
Proof. by split. Qed.

Lemma switch_shielded : shielded switch_hv.
Proof.
  split; [exact switch_stage2_on|]. intros [|[|q]] v; [intros [= <-]; exact high_tables_shield..|done].
Qed.

Lemma guest_entered_witness :
  total (guest_entry (Some 1%nat) 0) switch_hv (λ _ h',
    vregs (mach h') = replicate 32 (4, 4) ∧ sys (mach h') FPCR = 3 ∧ current_trapframe h' = Some 0%nat).
Proof.
  assert (Some 1%nat ≠ Some 0%nat) as Hne by done.
  eapply total_mono; [apply (guest_entered (Some 1%nat) 0 switch_vcpu switch_hv switch_hv_shape
    (ex_intro _ _ eq_refl) Hne eq_refl)|].
  intros [] h' (_ & _ & _ & _ & Hfp & _ & _ & _ & _ & Ht & _). destruct Hfp as (Hv & Hf & _); [discriminate|].
  by split_and!.
Defined.

(** A VCPU whose snapshot is 5000 reads a count below its own snapshot. *)
Lemma virtual_time_at_entry_witness :
  total (guest_entry None 0) switch_hv (λ _ h', virt_now (mach h') = 2 ^ 64 - 2999).
Proof.
  assert (None ≠ Some 0%nat) as Hne by done. assert (is_u64 5000) as Hr by lia.
  eapply total_mono; [apply (virtual_time_at_entry None 0 switch_vcpu switch_hv switch_hv_shape I Hne eq_refl Hr)|].
  intros [] h' [_ Hv]. etrans; [exact Hv|]. reflexivity.
Defined.

Definition switched_hv : hv := final switch_hv (world_switch (Some 1%nat) (Some 0%nat) switch_hv).

Lemma switched_hv_eq : world_switch (Some 1%nat) (Some 0%nat) switch_hv = Ok () switched_hv.
Proof. apply is_ok_final. by vm_compute. Qed.

Lemma world_switch_isolates_witness :
  vcpus switched_hv !! 1%nat = Some (switched_out switch_hv switch_vcpu1) ∧ sys (mach switched_hv) SP = 0x40020000.
Proof.
  assert (1%nat ≠ 0%nat) as Hne by lia.
  destruct (world_switch_isolates 1 0 switch_vcpu1 switch_vcpu switch_hv switched_hv switch_hv_shape switch_hv_area
    Hne eq_refl eq_refl eq_refl switch_stage2_on high_tables_shield switched_hv_eq) as (Hv & _ & _ & _ & _ & Hs & _).
  by split.
Defined.

Definition run_again_hv : hv := final switched_hv (world_switch None (Some 0%nat) switched_hv).

Lemma run_again_eq : world_switch None (Some 0%nat) switched_hv = Ok () run_again_hv.
Proof. apply is_ok_final. by vm_compute. Qed.

Lemma run_again_step : other_step 1 switched_hv run_again_hv.
Proof.
  apply (other_switch 1 None 0); [exact I|discriminate..| | |exact run_again_eq].
  - apply lookup_lt_is_Some_2. vm_compute. lia.
  - vm_compute. discriminate.
Qed.

(** The VCPU that had FPCR 7 resumes with it, after another VCPU's two runs. *)
Lemma descheduled_vcpu_resumes_witness :
  total (guest_entry (Some 0%nat) 1) run_again_hv (λ _ h3,
    sys (mach h3) FPCR = 7 ∧ vregs (mach h3) = replicate 32 (1, 2) ∧ sys (mach h3) (ICH_LR 2) = 5).
Proof.
  assert (1%nat ≠ 0%nat) as Hne by lia. assert (Some 0%nat ≠ Some 1%nat) as Hf by done.
  assert (sched_current (scheduler switch_hv) ≠ Some 1%nat) as Hc by done.
  assert (context_width (mach switch_hv)) as Hw by (split; cbn; (lia || done)).
  assert (from_ok (Some 0%nat) run_again_hv) as Hok by (apply lookup_lt_is_Some_2; vm_compute; lia).
  eapply total_mono; [apply (descheduled_vcpu_resumes 1 0 switch_vcpu1 switch_vcpu (Some 0%nat) switch_hv switched_hv
    run_again_hv switch_hv_shape switch_hv_area Hw Hne eq_refl eq_refl Hc switch_shielded switched_hv_eq
    (rtc_once _ _ run_again_step) Hok Hf)|].
  intros [] h3 ([E1 E2 _ E3 _ _ _] & _). split; [exact E2|]. split; [exact E1|]. apply (E3 2%nat); [lia|reflexivity].
Defined.

(** The guest has set every SIMD register to 9; it resumes with 4. *)
Lemma reentry_restores_stale_context_witness :
  let h1 := final switch_hv (world_switch None (Some 0%nat) switch_hv) in
  vregs (mach h1) = replicate 32 (9, 9) ∧
  total (guest_entry None 0) h1 (λ _ h2, vregs (mach h2) = replicate 32 (4, 4)).
Proof.
  intros h1. assert (world_switch None (Some 0%nat) switch_hv = Ok () h1) as E by (apply is_ok_final; by vm_compute).
  assert (fp_used (fp (arch switch_vcpu)) ≠ 0) as Hu by done.
  split; [by vm_compute|]. eapply total_mono;
    [apply (reentry_restores_stale_context 0 switch_vcpu switch_hv h1 switch_hv_shape switch_hv_area eq_refl eq_refl Hu
      (shielded_contained _ switch_shielded 0%nat _ eq_refl) E)|].
  by intros [] h2 (Hv & _).
Defined.

Definition switch_rr : rr := RR [0%nat; 1%nat] 0.

Lemma switch_loop_inv : loop_inv switch_rr switch_hv.
Proof.
  split; [apply switch_hv_shape|apply switch_hv_area| | |by eexists|apply shielded_contained, switch_shielded].
  - split; [split|by right; cbn; lia|done|done]; cbn [sched_len sched_runqueue scheduler switch_hv set_vcpus demo_hv demo_queue switch_rr rr_queue].
    + done.
    + unfold VCPU_SCHED_MAX. cbn. lia.
    + done.
    + intros [|[|i]]; (done || (cbn; lia)).
    + apply (bool_decide_unpack (NoDup [0%nat; 1%nat])). by vm_compute.
  - intros q Hq. assert (q = 0%nat ∨ q = 1%nat) as [-> | ->]; [|cbn; lia..].
    cbn [switch_rr rr_queue] in Hq. rewrite !elem_of_cons, elem_of_nil in Hq. tauto.
Qed.

Lemma vcpu_run_body_round_robin_witness :
  ∃ b h', vcpu_run_body switch_hv = Ok b h' ∧ b = true.
Proof.
  assert (is_ok (vcpu_run_body switch_hv) = true) as Hok by by vm_compute.
  destruct (vcpu_run_body switch_hv) as [b h'| | |] eqn:E; try discriminate Hok.
  exists b, h'. split; [reflexivity|].
  by destruct (vcpu_run_body_round_robin switch_rr 0 switch_hv b h' switch_loop_inv eq_refl E) as [Hb _].
Defined.

Lemma vcpu_run_never_returns_witness : vcpu_run 3 (Some 0%nat) switch_hv ≠ Ok () switch_hv.
Proof.
  assert (0 < length (vcpus switch_hv))%nat as Hp by (cbn; lia).
  apply (vcpu_run_never_returns 3 0 switch_hv switch_hv switch_hv_shape switch_hv_area demo_reachable Hp);
    [|exact switch_shielded].
  intros [|[|i]] q; [intros [= <-]; cbn; lia..|].
  by do 6 (destruct i as [|i]; [done|]).
Defined.
