(* ===== verification/El1Vectors.v ===== *)
(** * Vector tables: [arch/arm64/vectors_el2.S], [arch/arm64/el1_vectors.S]

    Which slot an exception takes, the code EL2's slots pass to
    [el2_vector_common], and what the guests' slots do: the synchronous ones
    report to EL2 with HVC #0x63, the others branch to themselves.              *)

From Stdlib Require Import ZArith Lia Ascii String.
From stdpp Require Import base gmap list strings.
From S2P Require Import Prelude Machine PageTable S2Mmu S2MmuTheory Uart UartTheory Vcpu VcpuTheory Sched Trap TrapTheory.
From S2P Require Import Context Isolation Switch SwitchTheory SwitchSpec.

#[local] Open Scope string_scope.
#[local] Open Scope list_scope.
#[local] Open Scope Z_scope.

(** ** Slots *)

(** The architecture's table: four exceptions from four places, 128 bytes each. *)
Inductive exc_kind := Sync | Irq | Fiq | SError.
Inductive exc_from := CurrentSp0 | CurrentSpx | LowerA64 | LowerA32.

Definition vector_offset (f : exc_from) (k : exc_kind) : Z :=
  match f with CurrentSp0 => 0 | CurrentSpx => 0x200 | LowerA64 => 0x400 | LowerA32 => 0x600 end +
  match k with Sync => 0 | Irq => 0x80 | Fiq => 0x100 | SError => 0x180 end.

(** The slot at an offset of a table whose slots are [.align 7] apart. *)
Definition slot_at {A} (table : list A) (offset : Z) : option A :=
  if offset mod 0x80 =? 0 then table !! Z.to_nat (offset / 0x80) else None.

(** The [SLOT] lines of [el2_vectors], by the code each puts in x16. *)
Definition el2_slots : list Z :=
  [0x00; 0x01; 0x02; 0x03; 0x10; 0x11; 0x12; 0x13; 0x20; 0x21; 0x22; 0x23; 0x30; 0x31; 0x32; 0x33].

(** The [GUEST_SLOT] lines of [guest_el1_vectors], by what each branches to; the
    default of [handler] is the slot itself. *)
Inductive el1_handler := SyncCommon | Spin.

Definition el1_slots : list el1_handler :=
  [SyncCommon; Spin; Spin; Spin; SyncCommon; Spin; Spin; Spin;
   Spin; Spin; Spin; Spin; Spin; Spin; Spin; Spin].

(** ** The guests' handler *)

Definition set_x (i : nat) (v : Z) : M machine () := modify (λ m, set_gprs (<[i := v]> (gprs m)) m).

(** HVC as the architecture takes it: the class and the immediate in ESR_EL2, the
    address of the next instruction in ELR_EL2, the state in SPSR_EL2. *)
Definition hvc (imm next pstate : Z) : M machine () :=
  modify (set_sys (upd ESR_EL2 (Z.lor (Z.lor (Z.shiftl 0x16 26) (Z.shiftl 1 25)) imm))) ;;
  modify (set_sys (upd ELR_EL2 next)) ;;
  modify (set_sys (upd SPSR_EL2 pstate)).

Section handlers.
Context `{!Counter}.

(** Up to the HVC; [next] is the address of the loop behind it. *)
Definition guest_el1_sync_common (next pstate : Z) : M machine () :=
  x ← mrs ESR_EL1; set_x 0 x ;;
  x ← mrs ELR_EL1; set_x 1 x ;;
  hvc 0x63 next pstate.

(** An exception taken at EL1: the code of the EL2 vector it ends in, if any. *)
Definition el1_exception (f : exc_from) (k : exc_kind) (next pstate : Z) : M machine Z :=
  h ← of_option (slot_at el1_slots (vector_offset f k));
  match h with
  | SyncCommon =>
      guest_el1_sync_common next pstate ;;
      of_option (slot_at el2_slots (vector_offset LowerA64 Sync))
  | Spin => hang
  end.
End handlers.

(** ** Theorems *)

(** The code identifies the exception: its high digit where it came from, its low
    digit which one it is. *)
Lemma el2_slot_code f k : ∃ code, slot_at el2_slots (vector_offset f k) = Some code ∧
  code = 0x10 * (vector_offset f k / 0x200) + vector_offset f k mod 0x200 / 0x80.
Proof. by destruct f, k; eexists. Qed.

(** What EL2 prints of a guest's exception. *)
Definition fault_text (esr elr : Z) : string :=
  crlf ("EL2: guest synchronous exception report" +:+ newline) +:+
  crlf "  guest ESR_EL1: " +:+ Uart.hex64 esr +:+ crlf newline +:+
  crlf "  guest ELR_EL1: " +:+ Uart.hex64 elr +:+ crlf newline.

Section report.
Context `{!Console, !ConsoleSpec, !Counter, !S2Image}.

(** Code that stops after printing [s]. *)
Definition stops_with {A} (m : M hv A) (h : hv) (s : string) : Prop :=
  ∃ c, m h = Hang (set_console c h) ∧ con_text c = con_text (console h) +:+ s.

Lemma stops_hang {A} h : stops_with (hang : M hv A) h "".
Proof. exists (console h). rewrite app_nil_r_string. by destruct h. Qed.

Lemma stops_bind {A B} h (m : M hv A) (k : A → M hv B) s : stops_with m h s → stops_with (m ≫= k) h s.
Proof. intros (c & E & Ht). exists c. split; [|done]. unfold mbind, M_bind. by rewrite E. Qed.

Lemma emits_stops {A B} h (m : M hv A) a (k : A → M hv B) s s' :
  emits h m a s → (∀ c, stops_with (k a) (set_console c h) s') → stops_with (m ≫= k) h (s +:+ s').
Proof.
  intros Hm Hk. destruct (emits_total _ _ _ _ Hm) as (c & E & Ht). destruct (Hk c) as (c' & E' & Ht').
  exists c'. rewrite (bind_Ok _ _ _ _ _ E). split; [done|]. by rewrite Ht', <-app_assoc_string, <-Ht.
Qed.

Lemma emits_line h l x : emits h (put_line l x) () (crlf l +:+ (Uart.hex64 x +:+ crlf newline)).
Proof. apply emits_prints, prints_line. Qed.

(** HVC #0x63 in the handler. *)
Lemma report_stops h p v x0 x1 esr elr spsr far code :
  esr_ec esr = 0x16 → esr_imm16 esr = 0x63 → sched_current (scheduler h) = Some p → vcpus h !! p = Some v →
  regs (tf (arch v)) !! 0%nat = Some x0 → regs (tf (arch v)) !! 1%nat = Some x1 →
  stops_with (el2_exception_common esr elr spsr far code) h (fault_text x0 x1).
Proof.
  intros He Hi Hc Hp Hx0 Hx1. unfold el2_exception_common. rewrite ec_eq, He. cbn [Z.eqb Pos.eqb]. cbv zeta.
  apply stops_bind. unfold handle_guest_hvc. rewrite imm16_eq, Hi. cbn [Z.eqb Pos.eqb]. cbv zeta.
  rewrite <-(app_nil_l_string (fault_text x0 x1)). eapply emits_stops; [apply emits_current|]. intros c. rewrite Hc.
  eapply emits_stops; [apply emits_puts|]. intros c'. rewrite <-(app_nil_r_string (_ +:+ _)).
  eapply emits_stops; [|intros; apply stops_hang]. eapply emits_text.
  - eapply emits_bind; [by eapply emits_get_reg|]. eapply emits_bind; [by eapply emits_get_reg|].
    eapply emits_bind; [apply emits_line|apply emits_line].
  - by rewrite !app_nil_l_string, !app_assoc_string.
Qed.

(** The guest's registers when its handler has trapped. *)
Lemma sync_common_eq next ps m :
  guest_el1_sync_common next ps m = Ok () (set_sys (upd SPSR_EL2 ps) (set_sys (upd ELR_EL2 next)
    (set_sys (upd ESR_EL2 0x5A000063) (set_gprs (<[1%nat := sys m ELR_EL1]> (<[0%nat := sys m ESR_EL1]> (gprs m))) m)))).
Proof. reflexivity. Qed.
End report.

Section exceptions.
Context `{!Console, !ConsoleSpec, !Counter, !S2Image, !Guest}.

(** C37. An exception a guest takes at EL1. A synchronous one ends in EL2's slot
    0x20 with its syndrome and return address in x0 and x1; when the run of the
    guest ends that way, EL2 captures the other registers as the exception found
    them, prints the two values and stops for ever. Any other exception keeps the
    guest in its own slot for ever: EL2 does not learn of it. *)
Theorem guest_exception_reported f k next ps m :
  f = CurrentSp0 ∨ f = CurrentSpx → length (gprs m) = 31%nat →
  match k with
  | Sync => ∃ m1, el1_exception f k next ps m = Ok 0x20 m1 ∧
      ∀ h p v r, current_trapframe h = Some p → sched_current (scheduler h) = Some p → vcpus h !! p = Some v →
        guest_run h = (set_ram r (set_mach m1 h), 0x20) →
        ∃ h' v', guest_exit h = Hang h' ∧ vcpus h' !! p = Some v' ∧
          drop 2 (regs (tf (arch v'))) = drop 2 (gprs m) ∧
          con_text (console h') = con_text (console h) +:+ fault_text (sys m ESR_EL1) (sys m ELR_EL1)
  | _ => el1_exception f k next ps m = Hang m
  end.
Proof.
  intros Hf Hg. destruct k; [|by destruct Hf as [->| ->]..].
  eexists. split; [by destruct Hf as [->| ->]|]. intros h p v r Ht Hc Hp Hr.
  match type of Hr with _ = (set_ram _ (set_mach ?x _), _) => set (m1 := x) in * end.
  assert (run_guest h = Ok 0x20 (set_ram r (set_mach m1 h))) as E.
  { unfold run_guest. by rewrite Hr. }
  unfold guest_exit. rewrite (bind_Ok _ _ _ _ _ E).
  assert (length (gprs m1) = 31%nat) as Hg1 by (cbn; by rewrite !length_insert).
  set (h1 := set_ram r (set_mach m1 h)). unfold mbind at 1, M_bind at 1.
  rewrite (el2_vector_common_eq p v 0x20 h1) by done. cbv zeta.
  set (h2 := handler_state p v h1). unfold mbind at 1, M_bind at 1.
  set (v2 := set_arch (set_tf (λ _, captured_frame m1)) v).
  assert (vcpus h2 !! p = Some v2) as Hp2 by (by apply (put_lookup p v2 v)).
  assert (regs (tf (arch v2)) = gprs m1) as Hregs by (unfold v2; cbn [arch set_arch tf set_tf]; by rewrite captured_frame_eq).
  destruct (report_stops h2 p v2 (sys m ESR_EL1) (sys m ELR_EL1) (sys m1 ESR_EL2) (sys m1 ELR_EL2)
    (sys m1 SPSR_EL2) (sys m1 FAR_EL2) 0x20) as (c & Ec & Htx); try done.
  - rewrite Hregs. cbn. rewrite list_lookup_insert_ne, list_lookup_insert_eq; [done|lia|done].
  - rewrite Hregs. cbn. rewrite list_lookup_insert_eq; [done|]. rewrite length_insert. lia.
  - change (sys (mach h1)) with (sys m1). rewrite Ec. exists (set_console c h2), v2. split_and!; try done.
    rewrite Hregs. cbn [gprs m1 set_sys set_gprs]. rewrite !drop_insert_lt by lia. done.
Qed.
End exceptions.

(** ** Witness *)

#[local] Existing Instance text_console.
#[local] Existing Instance text_console_spec.
#[local] Existing Instance demo_counter.
#[local] Existing Instance demo_s2_image.

(** A guest that takes a data abort from EL1 as soon as it runs. *)
Definition faulted (m : machine) : machine := set_sys (upd ELR_EL1 0x40001008) (set_sys (upd ESR_EL1 0x96000004) m).

#[local] Instance faulting_guest : Guest := {|
  guest_run h := (set_mach (final (mach h) (guest_el1_sync_common 0x40010800 0x3c5 (faulted (mach h)))) h, 0x20);
  guest_el1_vectors := 0x40010000;
|}.

Definition fault_hv : hv :=
  set_current_trapframe (Some 0%nat) (set_vcpus [switch_vcpu; switch_vcpu1] (demo_hv switch_machine)).

Lemma guest_exception_reported_witness :
  ∃ h', guest_exit fault_hv = Hang h' ∧
    con_text (console h') = fault_text 0x96000004 0x40001008.
Proof.
  assert (CurrentSpx = CurrentSp0 ∨ CurrentSpx = CurrentSpx) as Hf by (by right).
  destruct (guest_exception_reported CurrentSpx Sync 0x40010800 0x3c5 (faulted switch_machine) Hf eq_refl)
    as (m1 & E & Hr). injection E as <-.
  destruct (Hr fault_hv 0%nat switch_vcpu (ram fault_hv)) as (h' & v' & Eh & _ & _ & Ht);
    [reflexivity..|]. exists h'. split; [exact Eh|exact Ht].
Defined.
