(* ===== verification/Guests.v ===== *)
(** * The guests: [guests/], [include/guest_layout.h], [include/guest_stubs.h]

    The two guest programs as they act on memory: the private region each works
    on, the shared slots each logs to, the reports it makes and the times it gives
    up the processor. Guests run at EL1 on the identity map, so addresses here are
    physical.                                                                   *)

From Stdlib Require Import ZArith Lia Ascii String.
From stdpp Require Import base list strings.
From S2P Require Import Prelude Uart.

#[local] Open Scope string_scope.
#[local] Open Scope Z_scope.

(** ** [guest_layout.h] *)

Definition GUEST_SHARED_BASE : Z := 0x41000000.
Definition GUEST_SHARED_STRIDE : Z := 0x00001000.
Definition GUEST_SHARED_SLOT_COUNT : nat := 16.

Definition GUEST_WORK_BASE : Z := 0x42000000.
Definition GUEST_WORK_SIZE : Z := 0x00001000.
Definition GUEST_WORK_STRIDE : Z := 0x00002000.

(** ** [struct guest_task_result] *)

Record task_result := TaskResult {
  t_id : Z;
  t_desc : list Z;
  t_data0 : Z;
  t_data1 : Z;
  t_before : Z;
  t_after : Z;
  t_target : Z;
  t_walk : Z;
}.

(** ** The guest's state

    [words] is memory by aligned address, [counts] the number of counter reads
    so far, [calls] what the guest has asked of EL2, newest first. *)

Inductive call :=
  | TaskReport (guest_id : Z) (out : task_result)
  | SetVirtualTime (virtual_cnt : Z)
  | Yielded.

Record gst := Gst {
  words : Z → Z;
  counts : nat;
  calls : list call;
}.

(** What the processor shows the guest: CNTVCT_EL0 at its [n]-th read, CurrentEL
    and the stack pointer. *)
Class GuestCpu := {
  cntvct_at : nat → Z;
  current_el : Z;
  guest_sp : Z;
}.

Definition store_word (a v : Z) : M gst () :=
  modify (λ s, Gst (λ a', if a' =? a then v else words s a') (counts s) (calls s)).
Definition load_word (a : Z) : M gst Z := gets (λ s, words s a).
Definition do_call (c : call) : M gst () := modify (λ s, Gst (words s) (counts s) (c :: calls s)).

(** ** [guest_stubs.h] *)

Definition guest_shared_slot (slot : Z) : Z := u64 (GUEST_SHARED_BASE + u64 (slot * GUEST_SHARED_STRIDE)).

Definition guest_private_region (guest_id : Z) : Z :=
  u64 (GUEST_WORK_BASE + u64 (guest_id * GUEST_WORK_STRIDE)).

(** [&region[i]] *)
Definition word_at (region : Z) (i : nat) : Z := u64 (region + 8 * Z.of_nat i).

Definition guest_log_value (slot value : Z) : M gst () := store_word (guest_shared_slot slot) value.

Definition guest_yield : M gst () := do_call Yielded.

(** [nop], [iterations] times. *)
Definition guest_delay (iterations : Z) : M gst () := for_upM (Z.to_nat iterations) (λ _, mret ()).

Definition guest_set_virtual_time (virtual_cnt : Z) : M gst () := do_call (SetVirtualTime virtual_cnt).

Section guests.
Context `{!GuestCpu}.

Definition guest_read_counter : M gst Z := λ s,
  Ok (cntvct_at (counts s)) (Gst (words s) (S (counts s)) (calls s)).
Definition guest_read_current_el : M gst Z := mret current_el.
Definition guest_read_sp : M gst Z := mret guest_sp.

(** ** [guest_tasks.c] *)

(** A string literal with its terminator. *)
Definition c_literal (s : string) : list Z := (char_code <$> list_ascii_of_string s) ++ [0].

Definition DESC_SIZE : nat := 32.

(** [for (; msg[i] && i + 1 < sizeof(out->desc); ++i) out->desc[i] = msg[i];] *)
Fixpoint copy_loop (fuel : nat) (msg desc : list Z) (i : nat) : M gst (list Z * nat) :=
  c ← arr_get msg i;
  if negb (c =? 0) && (i + 1 <? DESC_SIZE)%nat then
    match fuel with
    | O => out_of_fuel
    | S fuel =>
        desc ← arr_set desc i c;
        copy_loop fuel msg desc (i + 1)
    end
  else mret (desc, i).

Definition copy_desc (out : task_result) (msg : list Z) : M gst task_result :=
  di ← copy_loop DESC_SIZE msg (t_desc out) 0;
  desc ← arr_set (fst di) (snd di) 0;
  mret (TaskResult (t_id out) desc (t_data0 out) (t_data1 out) (t_before out) (t_after out)
          (t_target out) (t_walk out)).

Definition guest_task_counter (guest_id : Z) (out : task_result) : M gst task_result :=
  sample_counter ← guest_read_counter;
  copy_desc (TaskResult guest_id (t_desc out) sample_counter (guest_private_region guest_id) 0 0 0 0)
    (c_literal "counter task").

Definition WORDS : nat := Z.to_nat (GUEST_WORK_SIZE / 8).

Definition guest_task_memwalk (guest_id : Z) (out : task_result) : M gst task_result :=
  let region := guest_private_region guest_id in
  checksum ← fold_upM WORDS (λ i checksum,
    w ← load_word (word_at region i);
    let value := Z.lxor w (u64 (Z.shiftl guest_id 32)) in
    mret (Z.lxor checksum value)) 0;
  memwalk_time ← guest_read_counter;
  copy_desc (TaskResult guest_id (t_desc out) checksum region 0 0 0 memwalk_time)
    (c_literal "memwalk task").

Definition guest_task_report (guest_id : Z) (out : task_result) : M gst () :=
  do_call (TaskReport guest_id out).

(** ** [counter_os.c] *)

Definition COUNTER_SLOT_ID : Z := 0.
Definition COUNTER_SLOT_EL : Z := 1.
Definition COUNTER_SLOT_SP : Z := 2.
Definition COUNTER_SLOT_REGION : Z := 3.
Definition COUNTER_SLOT_COUNTER : Z := 4.
Definition COUNTER_SLOT_ITER : Z := 5.
Definition COUNTER_SLOT_TIME_BEFORE : Z := 12.
Definition COUNTER_SLOT_TIME_AFTER : Z := 13.
Definition COUNTER_SLOT_TIME_TARGET : Z := 14.

Definition counter_isolation_tests (guest_id : Z) : M gst () :=
  guest_log_value COUNTER_SLOT_ID guest_id ;;
  el ← guest_read_current_el;
  guest_log_value COUNTER_SLOT_EL el ;;
  sp ← guest_read_sp;
  guest_log_value COUNTER_SLOT_SP sp ;;
  guest_log_value COUNTER_SLOT_REGION (guest_private_region guest_id) ;;
  let region := guest_private_region guest_id in
  let pattern := Z.lor 0xC0DE0000 guest_id in
  store_word (word_at region 0) pattern.

(** The virtual time test of the ninth iteration. *)
Definition counter_time_test (result : task_result) : M gst task_result :=
  before ← guest_read_counter;
  let target := u64 (before + 0x100000) in
  guest_log_value COUNTER_SLOT_TIME_BEFORE before ;;
  guest_log_value COUNTER_SLOT_TIME_TARGET target ;;
  guest_set_virtual_time target ;;
  after ← guest_read_counter;
  guest_log_value COUNTER_SLOT_TIME_AFTER after ;;
  mret (TaskResult (t_id result) (t_desc result) (t_data0 result) (t_data1 result) before after target
          (t_walk result)).

(** The body of the loop; it returns [iteration] and [result] for the next. *)
Definition counter_iteration (guest_id : Z) (st : Z * task_result) : M gst (Z * task_result) :=
  let iteration := fst st in
  result ← guest_task_counter guest_id (snd st);
  guest_log_value COUNTER_SLOT_COUNTER (t_data0 result) ;;
  guest_log_value COUNTER_SLOT_ITER iteration ;;
  result ← (if iteration =? 8 then counter_time_test result else mret result);
  guest_task_report guest_id result ;;
  let iteration := u64 (iteration + 1) in
  guest_delay 10000 ;;
  guest_yield ;;
  mret (iteration, result).

(** A run of the guest up to the end of its [n]-th iteration; [result] is what the
    stack held. The loop itself has no end. *)
Definition guest_counter_os (n : nat) (guest_id : Z) (result : task_result) : M gst (Z * task_result) :=
  counter_isolation_tests guest_id ;;
  fold_upM n (λ _, counter_iteration guest_id) (0, result).

(** ** [memwalk_os.c] *)

Definition MEMWALK_SLOT_ID : Z := 6.
Definition MEMWALK_SLOT_EL : Z := 7.
Definition MEMWALK_SLOT_SP : Z := 8.
Definition MEMWALK_SLOT_REGION : Z := 9.
Definition MEMWALK_SLOT_CHECKSUM : Z := 10.
Definition MEMWALK_SLOT_SEED : Z := 11.
Definition MEMWALK_SLOT_TIME : Z := 15.

Definition memwalk_isolation_tests (guest_id region : Z) : M gst () :=
  guest_log_value MEMWALK_SLOT_ID guest_id ;;
  el ← guest_read_current_el;
  guest_log_value MEMWALK_SLOT_EL el ;;
  sp ← guest_read_sp;
  guest_log_value MEMWALK_SLOT_SP sp ;;
  guest_log_value MEMWALK_SLOT_REGION region ;;
  store_word (word_at region 0) (Z.lor 0xBEEF0000 guest_id).

(** The loop that fills the region and accumulates its checksum. *)
Definition memwalk_fill (region seed : Z) : M gst Z :=
  fold_upM WORDS (λ i checksum,
    let value := Z.lxor seed (u64 (Z.shiftl (Z.of_nat i) 8)) in
    store_word (word_at region i) value ;;
    mret (Z.lxor checksum value)) 0.

(** The body of the loop; [junk] is what the stack holds where [result] is. *)
Definition memwalk_iteration (guest_id : Z) (junk : task_result) (seed : Z) : M gst Z :=
  let region := guest_private_region guest_id in
  checksum ← memwalk_fill region seed;
  result ← guest_task_memwalk guest_id junk;
  guest_log_value MEMWALK_SLOT_CHECKSUM checksum ;;
  guest_log_value MEMWALK_SLOT_SEED seed ;;
  guest_log_value MEMWALK_SLOT_TIME (t_walk result) ;;
  guest_task_report guest_id result ;;
  let seed := u64 (seed + 0x111111111) in
  guest_delay 200 ;;
  guest_yield ;;
  mret seed.

Definition guest_memwalk_os (n : nat) (guest_id : Z) (junk : nat → task_result) : M gst Z :=
  let region := guest_private_region guest_id in
  memwalk_isolation_tests guest_id region ;;
  fold_upM n (λ i, memwalk_iteration guest_id (junk i)) 0xfeed000000000000.
End guests.
