(* ===== verification/Main.v ===== *)
(** * Boot: [arch/arm64/start.S], [core/main.c], [core/guest_monitor.c]

    The reset code, [el2_main] from its first statement to the main loop, and the diagnostic dump of the guests' slots.   *)

From Stdlib Require Import ZArith Lia String.
From stdpp Require Import base gmap list strings.
From S2P Require Import Prelude Machine PageTable S2Mmu El2Mmu Layout Uart Vcpu Sched Context Trap Switch Guests.

#[local] Open Scope string_scope.
#[local] Open Scope Z_scope.

(** ** [core/main.c] *)

(** The state of the whole program: what EL2 code shares, and the tables of EL2's own
    address space. *)
Section state.
Context `{!Console}.

Record boot := Boot { b_hv : hv; b_el2 : pt }.

Definition set_hv h b := Boot h (b_el2 b).
Definition set_el2 t b := Boot (b_hv b) t.

Definition in_hv {A} (m : M hv A) : M boot A := zoom b_hv set_hv m.
Definition in_el2 {A} (m : M pt A) : M boot A := zoom b_el2 set_el2 m.

(** Stage-2 code works on its tables and on the processor. *)
Definition in_s2 {A} (m : M (pt * machine) A) : M boot A :=
  in_hv (zoom (λ h, (s2_tables h, mach h)) (λ p h, set_s2_tables (fst p) (set_mach (snd p) h)) m).

(** The static variables of every file when all bytes of [.bss] are zero. *)
Definition zero_statics (b : boot) : boot :=
  let h := b_hv b in
  Boot (Hv (mach h) (console h) (replicate 2 zero_vcpu) sched_bss None (replicate 16 0) 0 (pt_bss 16 1024) (ram h))
       (pt_bss 16 64).

(** Whether they are. *)
Definition bss_is_zero `{!Sections} (m : gmap Z Z) : bool :=
  bool_decide (Forall (λ a, m !! a = Some 0) (seqZ bss_start (bss_end - bss_start))).

(** The static variables lie in [.bss]: what the bytes there have become decides what
    they are. *)
Definition reread_statics `{!Sections} (b : boot) : boot :=
  if bss_is_zero (ram (b_hv b)) then zero_statics b else b.

Definition store8 (a v : Z) : M hv () := modify (λ h, set_ram (<[a := v]> (ram h)) h).

(** [for (u8* p = __bss_start; p < __bss_end; ++p) *p = 0;] *)
Fixpoint bss_loop (fuel : nat) (p e : Z) : M hv () :=
  if p <? e then
    match fuel with
    | O => out_of_fuel
    | S fuel => store8 p 0 ;; bss_loop fuel (p + 1) e
    end
  else mret ().

Definition bss_clear `{!Sections} : M boot () :=
  in_hv (bss_loop (Z.to_nat (bss_end - bss_start)) bss_start bss_end) ;;
  modify reread_statics.

(** [memclr(vcpu, sizeof( *vcpu))] *)
Definition memclr (p : nat) : M hv () := update p (λ _, zero_vcpu).
End state.

(** The addresses of the guests' entry points and of EL2's vectors are the
    linker's. *)
Class GuestImage := {
  el2_vectors : Z;
  guest_counter_os_sym : Z;
  guest_memwalk_os_sym : Z;
}.

Section init.
Context `{!Console, !Counter}.

Definition SPSR_EL1H : Z := Z.lor 0x5 (Z.shiftl 0xF 6).

Definition vcpu_init_slot (vcpu : nat) (id entry stack vttbr_snapshot : Z) : M hv () :=
  memclr vcpu ;;
  update_arch vcpu (set_cntvoff_el2 0) ;;
  x ← cpu (mrs TTBR0_EL1); update_tf vcpu (set_ttbr0_el1 x) ;;
  x ← cpu (mrs TTBR1_EL1); update_tf vcpu (set_ttbr1_el1 x) ;;
  x ← cpu (mrs TCR_EL1); update_tf vcpu (set_tcr_el1 x) ;;
  x ← cpu (mrs SCTLR_EL1); update_tf vcpu (set_sctlr_el1 x) ;;
  x ← cpu (mrs TPIDR_EL1); update_tf vcpu (set_tpidr_el1 x) ;;
  x ← cpu (mrs CNTKCTL_EL1); update_tf vcpu (set_cntkctl_el1 x) ;;
  x ← cpu (mrs CNTP_CTL_EL0); update_tf vcpu (set_cntp_ctl_el0 x) ;;
  x ← cpu (mrs CNTP_CVAL_EL0); update_tf vcpu (set_cntp_cval_el0 x) ;;
  v ← deref vcpu;
  update_tf vcpu (set_cntp_cval_el0 (u64 (cntp_cval_el0 (tf (arch v)) + cntvoff_el2 (arch v)))) ;;
  x ← cpu (mrs CNTV_CTL_EL0); update_tf vcpu (set_cntv_ctl_el0 x) ;;
  x ← cpu (mrs CNTV_CVAL_EL0); update_tf vcpu (set_cntv_cval_el0 x) ;;
  update_tf vcpu (set_elr_el1 entry) ;;
  update_tf vcpu (set_sp_el1 stack) ;;
  update_tf vcpu (set_regs (<[0%nat := u64 id]>)) ;;
  update_tf vcpu (set_spsr_el1 SPSR_EL1H) ;;
  update_arch vcpu (set_vttbr_el2 vttbr_snapshot) ;;
  cntpct ← cpu (mrs CNTPCT_EL0);
  update_arch vcpu (set_cntvct_el0 cntpct) ;;
  update vcpu (set_vcpu_id id).
End init.

Section main.
Context `{!Sections, !GuestImage, !El2Image, !S2Image, !Console, !Counter, !Features, !Guest}.

Definition boot_puts (s : string) : M boot () := in_hv (puts s).

(** The six mappings of EL2's own memory. *)
Definition map_image : M pt () :=
  el2_map_range text_start text_start (u64 (text_end - text_start)) NORMAL_WB true true ;;
  el2_map_range rodata_start rodata_start (u64 (rodata_end - rodata_start)) NORMAL_WB true false ;;
  el2_map_range data_start data_start (u64 (data_end - data_start)) NORMAL_WB false false ;;
  el2_map_range bss_start bss_start (u64 (bss_end - bss_start)) NORMAL_WB false false ;;
  el2_map_range stack_bottom stack_bottom (u64 (stack_top - stack_bottom)) NORMAL_WB false false ;;
  el2_map_range UART_PA UART_PA UART_SIZE DEVICE_nGnRE false false.

(** [el2_main] up to the call of [vcpu_run]: EL2's own address space, *)
Definition boot_el2 : M boot () :=
  bss_clear ;;
  in_hv (print con_init) ;;
  boot_puts ("EL2: Hello from EL2!" +:+ newline) ;;
  in_el2 (el2_mmu_init ;; map_image) ;;
  in_hv (cpu el2_mmu_enable) ;;
  boot_puts ("EL2: Stage-1 MMU enabled." +:+ newline).

(** the guests' address space, *)
Definition boot_s2 : M boot () :=
  in_s2 (s2_build_tables_identity 0x40000000 0x40000000 0x40000000 1 S2_VM_GUARD_BYTES 1 1 1) ;;
  boot_puts ("EL2: Stage-2 tables built." +:+ newline) ;;
  in_hv (cpu s2_program_regs_and_enable) ;;
  boot_puts ("EL2: Stage-2 MMU enabled." +:+ newline).

(** and the two VCPUs. *)
Definition boot_vcpus : M boot () :=
  vttbr_snapshot ← in_hv (cpu (mrs VTTBR_EL2));
  in_hv (vcpu_init_slot 0 0 guest_counter_os_sym 0x40080000 vttbr_snapshot) ;;
  in_hv (vcpu_init_slot 1 1 guest_memwalk_os_sym 0x400A0000 vttbr_snapshot) ;;
  in_hv (on_sched (vcpu_scheduler_register (Some 0%nat))) ;;
  in_hv (on_sched (vcpu_scheduler_register (Some 1%nat))) ;;
  in_hv (on_sched (vcpu_scheduler_set_current (Some 0%nat))) ;;
  boot_puts ("EL2: Launching initial VCPU..." +:+ newline).

Definition el2_main (fuel : nat) : M boot () :=
  boot_el2 ;;
  boot_s2 ;;
  boot_vcpus ;;
  in_hv (vcpu_run fuel (Some 0%nat)).

(** ** [arch/arm64/start.S] *)

Definition _start (fuel : nat) : M boot () :=
  in_hv (cpu (spsel 1)) ;;
  in_hv (cpu (msr SP stack_top)) ;;
  in_hv (cpu (msr VBAR_EL2 el2_vectors)) ;;
  in_hv (cpu isb) ;;
  x0 ← in_hv (cpu (mrs SCTLR_EL2));
  in_hv (cpu (msr SCTLR_EL2 x0)) ;;
  in_hv (cpu isb) ;;
  el2_main fuel ;;
  hang.
End main.

(** ** [core/guest_monitor.c] *)

Section monitor.
Context `{!Console}.

Definition guest_shared_dump_slot (slot : nat) : M hv () :=
  let ptr := guest_shared_slot (Z.of_nat slot) in
  value ← load64 ptr;
  puts "  slot " ;;
  hex64 (Z.of_nat slot) ;;
  puts " @ " ;;
  hex64 ptr ;;
  puts " = " ;;
  hex64 value ;;
  puts newline.

Definition guest_shared_dump : M hv () :=
  puts ("EL2: guest shared slots snapshot" +:+ newline) ;;
  for_upM GUEST_SHARED_SLOT_COUNT guest_shared_dump_slot.
End monitor.
