(* ===== verification/BootMap.v ===== *)
(** * The hypervisor's own address space after boot

    The six calls of [el2_map_range] in [el2_main] over the layout of [linker.ld]:
    code is never writable, data never executable, the guard pages fault.       *)

From Stdlib Require Import ZArith Lia String.
From stdpp Require Import base gmap list strings.
From S2P Require Import Prelude Machine PageTable PageTableTheory S2Mmu El2Mmu El2MmuTheory Layout Uart Vcpu Main.

#[local] Open Scope Z_scope.

(** ** The layout *)

Section layout.
Context `{!Sections, !SectionsOk}.

Lemma ld_align_spec x : ld_align x mod 4096 = 0 ∧ x ≤ ld_align x < x + 4096.
Proof.
  unfold ld_align. pose proof (Z.div_mod (x + 0xfff) 0x1000 ltac:(lia)).
  pose proof (Z.mod_pos_bound (x + 0xfff) 0x1000 ltac:(lia)). split; [by apply Z.mod_mul|lia].
Qed.

Lemma ld_align_aligned x : x mod 4096 = 0 → ld_align x = x.
Proof.
  intros Hx. destruct (ld_align_spec x) as [Ha Hb].
  pose proof (Z.div_mod x 4096 ltac:(lia)). pose proof (Z.div_mod (ld_align x) 4096 ltac:(lia)). lia.
Qed.

Lemma after_guard_spec x :
  after_guard x mod 4096 = 0 ∧ x + 4096 ≤ after_guard x < x + 8192 ∧ ld_align (after_guard x) = after_guard x.
Proof.
  unfold after_guard. destruct (ld_align_spec x) as [Ha Hb].
  assert ((ld_align x + 0x1000) mod 4096 = 0) as Hm by (rewrite Z.add_mod, Ha by lia; done).
  split_and!; [done|lia..|by apply ld_align_aligned].
Qed.

(** The sections in order, with their contents and a guard page between each two. *)
Record layout_ok : Prop := {
  ly_text : text_start = 0x40000000 ∧ text_end = text_start + text_bytes;
  ly_rodata : rodata_start = after_guard text_end ∧ rodata_end = rodata_start + rodata_bytes ∧ rodata_start mod 4096 = 0;
  ly_data : data_start = after_guard rodata_end ∧ data_end = data_start + data_bytes ∧ data_start mod 4096 = 0;
  ly_bss : bss_start = after_guard data_end ∧ bss_end = bss_start + bss_bytes ∧ bss_start mod 4096 = 0;
  ly_stack : stack_bottom = after_guard bss_end ∧ stack_top = stack_bottom + 0x8000 ∧ stack_bottom mod 4096 = 0;
}.

Lemma layout : layout_ok.
Proof.
  unfold rodata_end, data_end, bss_end.
  split; split_and!; try reflexivity; try apply after_guard_spec.
  - unfold rodata_end. f_equal. apply after_guard_spec.
  - unfold data_end. f_equal. apply after_guard_spec.
  - unfold bss_end. f_equal. apply after_guard_spec.
Qed.
End layout.

(** ** The regions [el2_main] maps *)

Record region := Region {
  rg_start : Z;
  rg_size : Z;
  rg_attr : Z;
  rg_ro : bool;
  rg_exec : bool;
}.

(** The pages a region touches. *)
Definition in_pages (start size a : Z) : bool :=
  bool_decide (start / 4096 ≤ a / 4096 ∧ a / 4096 * 4096 < start + size).

Definition region_access (r : region) (a : Z) : el2_access :=
  El2Access a (rg_attr r mod 8) (negb (rg_ro r)) (rg_exec r).

Section regions.
Context `{!El2Image, !El2ImageOk}.

Definition map_region (r : region) : M pt () :=
  el2_map_range (rg_start r) (rg_start r) (rg_size r) (rg_attr r) (rg_ro r) (rg_exec r).

Fixpoint map_regions (l : list region) : M pt () :=
  match l with
  | [] => mret ()
  | r :: l => map_region r ;; map_regions l
  end.

(** Where the code's pools are enough: the image's first 126 MiB and the UART. *)
Definition IMAGE_MAX : Z := 0x40000000 + 63 * 0x200000.

Definition region_ok (r : region) : Prop :=
  rg_start r mod 4096 = 0 ∧ 0 ≤ rg_size r ∧
  (0x40000000 ≤ rg_start r ∧ rg_start r + rg_size r ≤ IMAGE_MAX ∨ rg_start r = UART_PA ∧ rg_size r = UART_SIZE).

Definition windowed (m : pages) : Prop :=
  ∀ p, p ∈ dom m → 0x40000 ≤ p ≤ 0x40000 + 63 * 512 - 1 ∨ 0x9000 ≤ p ≤ 0x9000.

Lemma windowed_fits m : windowed m → fits m.
Proof.
  intros Hw. apply (fits_windows m 0x40000 (0x40000 + 63 * 512 - 1) 0x9000 0x9000); try done; by vm_compute.
Qed.

(** One region: its pages are added, nothing else changes. *)
Lemma map_region_total s m r :
  repr s m → all_pages m → windowed m → region_ok r →
  total (map_region r) s (λ _ s', ∃ m', repr s' m' ∧ all_pages m' ∧ windowed m' ∧
    ∀ a, 0 ≤ a < 2 ^ 39 → el2_lookup m' a =
      if in_pages (rg_start r) (rg_size r) a then Some (region_access r a) else el2_lookup m a).
Proof.
  intros Hr Hp Hw (Hal & Hsz & Hin). destruct r as [st sz at_ ro ex]. cbn [rg_start rg_size] in *. unfold map_region.
  cbn [rg_start rg_size rg_attr rg_ro rg_exec region_access]. unfold UART_PA, UART0_BASE, UART_SIZE, IMAGE_MAX in Hin.
  destruct (decide (sz = 0)) as [->|Hne].
  { exists m. split_and!; try done. intros a Ha. unfold in_pages. rewrite bool_decide_eq_false_2; [done|].
    pose proof (Z.div_mod st 4096 ltac:(lia)). lia. }
  set (m' := apply_pages (page_writes (el2_writes st st sz at_ ro ex)) m).
  assert (windowed m') as Hw'.
  { intros p. rewrite elem_of_dom. unfold m', el2_writes.
    rewrite span_lookup by (rewrite ?Hal; lia). case_bool_decide as Hc; [|by rewrite <-elem_of_dom; apply Hw].
    intros _. pose proof (Z.div_mod st 4096 ltac:(lia)). lia. }
  pose proof (el2_map_range_refines s m st st sz at_ ro ex Hr ltac:(lia)) as Ht. cbv zeta in Ht. fold m' in Ht.
  rewrite decide_True in Ht by (by apply windowed_fits). eapply total_mono; [exact Ht|].
  intros [] s' Hr'. exists m'. split_and!; [done|by apply all_pages_apply, el2_writes_type|done|].
  intros a Ha. unfold m'. rewrite el2_lookup_writes by (first [lia | split; lia]).
  unfold in_pages, region_access. cbn [rg_attr rg_ro rg_exec]. by replace (st + (a - st)) with a by lia.
Qed.

(** The last region that covers an address decides. *)
Definition regions_access (l : list region) (acc : option el2_access) (a : Z) : option el2_access :=
  foldl (λ acc r, if in_pages (rg_start r) (rg_size r) a then Some (region_access r a) else acc) acc l.

Lemma map_regions_total s m l :
  repr s m → all_pages m → windowed m → Forall region_ok l →
  total (map_regions l) s (λ _ s', ∃ m', repr s' m' ∧ all_pages m' ∧
    ∀ a, 0 ≤ a < 2 ^ 39 → el2_lookup m' a = regions_access l (el2_lookup m a) a).
Proof.
  intros Hr Hp Hw Hl. revert s m Hr Hp Hw. induction Hl as [|r l Hrg _ IH]; intros s m Hr Hp Hw.
  { by exists m. }
  cbn [map_regions]. eapply total_bind; [by apply (map_region_total s m r)|].
  intros [] s1 (m1 & Hr1 & Hp1 & Hw1 & Hl1). eapply total_mono; [by apply (IH s1 m1)|].
  intros [] s2 (m2 & Hr2 & Hp2 & Hl2). exists m2. split_and!; [done..|].
  intros a Ha. rewrite Hl2 by done. cbn [regions_access foldl]. by rewrite Hl1.
Qed.
End regions.

(** ** What EL2 can reach *)

Section boot_map.
Context `{!Sections}.

(** The access EL2 has to each address once its MMU is on. *)
Definition boot_access (a : Z) : option el2_access :=
  if in_pages UART_PA UART_SIZE a then Some (El2Access a DEVICE_nGnRE true false)
  else if in_pages stack_bottom 0x8000 a then Some (El2Access a NORMAL_WB true false)
  else if in_pages bss_start bss_bytes a then Some (El2Access a NORMAL_WB true false)
  else if in_pages data_start data_bytes a then Some (El2Access a NORMAL_WB true false)
  else if in_pages rodata_start rodata_bytes a then Some (El2Access a NORMAL_WB false false)
  else if in_pages text_start text_bytes a then Some (El2Access a NORMAL_WB false true)
  else None.

Definition image_regions : list region :=
  [Region text_start text_bytes NORMAL_WB true true;
   Region rodata_start rodata_bytes NORMAL_WB true false;
   Region data_start data_bytes NORMAL_WB false false;
   Region bss_start bss_bytes NORMAL_WB false false;
   Region stack_bottom 0x8000 NORMAL_WB false false;
   Region UART_PA UART_SIZE DEVICE_nGnRE false false].

Lemma regions_boot_access a : regions_access image_regions None a = boot_access a.
Proof. unfold boot_access, regions_access. cbn [image_regions foldl rg_start rg_size]. by repeat case_match. Qed.

(** The page between the sections [lo] and [hi]. *)
Definition in_guard (e a : Z) : Prop := ld_align e ≤ a < ld_align e + 4096.

Lemma guards_unmapped `{!SectionsOk} a :
  0x40000000 ≤ a → in_guard text_end a ∨ in_guard rodata_end a ∨ in_guard data_end a ∨ in_guard bss_end a →
  boot_access a = None.
Proof.
  intros Ha Hg. destruct layout as [[L1 L1'] (L2 & L2' & L2'') (L3 & L3' & L3'') (L4 & L4' & L4'') (L5 & L5' & L5'')].
  pose proof text_pos. pose proof rodata_pos. pose proof data_pos. pose proof bss_pos.
  unfold after_guard in L2, L3, L4, L5.
  destruct (ld_align_spec text_end) as [A1 B1]. destruct (ld_align_spec rodata_end) as [A2 B2].
  destruct (ld_align_spec data_end) as [A3 B3]. destruct (ld_align_spec bss_end) as [A4 B4].
  unfold in_guard in Hg. unfold boot_access, in_pages, UART_PA, UART0_BASE, UART_SIZE.
  set (t1 := ld_align text_end) in *. set (t2 := ld_align rodata_end) in *.
  set (t3 := ld_align data_end) in *. set (t4 := ld_align bss_end) in *.
  assert (∀ x, x mod 4096 = 0 → x = x / 4096 * 4096) as Hmul.
  { intros x Hx. pose proof (Z.div_mod x 4096 ltac:(lia)). lia. }
  apply Hmul in A1, A2, A3, A4, L2'', L3'', L4'', L5''.
  pose proof (Z.div_mod a 4096 ltac:(lia)). pose proof (Z.mod_pos_bound a 4096 ltac:(lia)).
  assert (text_start / 4096 = 0x40000) as Ht by (by rewrite L1).
  clearbody t1 t2 t3 t4. generalize dependent (a / 4096). intros q Hq.
  rewrite Ht. change (0x09000000 / 4096) with 0x9000.
  repeat (rewrite bool_decide_eq_false_2 by lia). done.
Qed.

Lemma stack_above `{!SectionsOk} : 0x40000000 + 0x9000 ≤ stack_top.
Proof.
  destruct layout as [[L1 L1'] (L2 & L2' & L2'') (L3 & L3' & L3'') (L4 & L4' & L4'') (L5 & L5' & L5'')].
  pose proof text_pos. pose proof rodata_pos. pose proof data_pos. pose proof bss_pos.
  pose proof (after_guard_spec text_end) as (_ & B1 & _). pose proof (after_guard_spec rodata_end) as (_ & B2 & _).
  pose proof (after_guard_spec data_end) as (_ & B3 & _). pose proof (after_guard_spec bss_end) as (_ & B4 & _). lia.
Qed.

(** The stack, and the guard page below it. *)
Lemma stack_access `{!SectionsOk} a :
  (stack_top - 0x8000 ≤ a < stack_top → boot_access a = Some (El2Access a NORMAL_WB true false)) ∧
  (stack_top - 0x9000 ≤ a < stack_top - 0x8000 → boot_access a = None).
Proof.
  destruct layout as [[L1 L1'] (L2 & L2' & L2'') (L3 & L3' & L3'') (L4 & L4' & L4'') (L5 & L5' & L5'')].
  pose proof text_pos. pose proof rodata_pos. pose proof data_pos. pose proof bss_pos.
  pose proof (after_guard_spec text_end) as (_ & B1 & _). pose proof (after_guard_spec rodata_end) as (_ & B2 & _).
  pose proof (after_guard_spec data_end) as (_ & B3 & _). pose proof (after_guard_spec bss_end) as (_ & B4 & _).
  split; intros Ha.
  - unfold boot_access, in_pages, UART_PA, UART0_BASE, UART_SIZE.
    pose proof (Z.div_mod stack_bottom 4096 ltac:(lia)).
    pose proof (Z.div_mod a 4096 ltac:(lia)). pose proof (Z.mod_pos_bound a 4096 ltac:(lia)).
    rewrite bool_decide_eq_false_2 by lia. by rewrite bool_decide_eq_true_2 by lia.
  - apply guards_unmapped; [lia|]. do 3 right. unfold in_guard. unfold after_guard in L5. lia.
Qed.
End boot_map.

Section properties.
Context `{!Sections, !SectionsOk, !El2Image, !El2ImageOk}.

(** The layout fits the tables' pools. *)
Definition image_fits : Prop := stack_top ≤ IMAGE_MAX.

Lemma image_regions_ok : image_fits → Forall region_ok image_regions.
Proof.
  unfold image_fits, IMAGE_MAX. intros Hf. destruct layout as [[L1 L1'] (L2 & L2' & L2'') (L3 & L3' & L3'') (L4 & L4' & L4'') (L5 & L5' & L5'')].
  pose proof text_pos. pose proof rodata_pos. pose proof data_pos. pose proof bss_pos.
  destruct (after_guard_spec text_end) as (_ & B1 & _). destruct (after_guard_spec rodata_end) as (_ & B2 & _).
  destruct (after_guard_spec data_end) as (_ & B3 & _). destruct (after_guard_spec bss_end) as (_ & B4 & _).
  unfold image_regions, region_ok, IMAGE_MAX.
  repeat (apply Forall_cons_2; [cbn [rg_start rg_size]; split_and!; try done; first [lia|left; lia|by right]|]).
  apply Forall_nil_2.
Qed.

Lemma map_image_eq s : image_fits → map_image s = map_regions image_regions s.
Proof.
  unfold image_fits, IMAGE_MAX. intros Hf. destruct layout as [[L1 L1'] (L2 & L2' & L2'') (L3 & L3' & L3'') (L4 & L4' & L4'') (L5 & L5' & L5'')].
  pose proof text_pos. pose proof rodata_pos. pose proof data_pos. pose proof bss_pos.
  destruct (after_guard_spec text_end) as (_ & B1 & _). destruct (after_guard_spec rodata_end) as (_ & B2 & _).
  destruct (after_guard_spec data_end) as (_ & B3 & _). destruct (after_guard_spec bss_end) as (_ & B4 & _).
  unfold map_image. replace (text_end - text_start) with text_bytes by lia.
  replace (rodata_end - rodata_start) with rodata_bytes by lia.
  replace (data_end - data_start) with data_bytes by lia. replace (bss_end - bss_start) with bss_bytes by lia.
  replace (stack_top - stack_bottom) with 0x8000 by lia. rewrite !u64_small by lia.
  cbn [map_regions image_regions]. unfold map_region. cbn [rg_start rg_size rg_attr rg_ro rg_exec].
  do 5 (apply bind_ext; intros [] ?). unfold mbind, M_bind. by destruct (el2_map_range _ _ _ _ _ _ _) as [[]| | |].
Qed.

Lemma boot_map_total s :
  shape s → image_fits →
  total (el2_mmu_init ;; map_image) s (λ _ s', ∀ a, 0 ≤ a < 2 ^ 39 →
    el2_translate (mem_read s') el2_l1_sym a = boot_access a).
Proof.
  intros Hs Hf. eapply total_bind; [rewrite el2_mmu_init_eq; exact (reset_refines s Hs)|].
  intros [] s1 Hr1. unfold total, wp. rewrite map_image_eq by done.
  eapply total_mono; [apply (map_regions_total s1 ∅); [done|apply all_pages_empty|..|by apply image_regions_ok]|].
  { intros p. rewrite dom_empty. by rewrite elem_of_empty. }
  intros [] s2 (m2 & Hr2 & Hp2 & Hl2) a Ha. rewrite (el2_translate_repr s2 m2) by done.
  rewrite Hl2 by done. by rewrite <-regions_boot_access.
Qed.

(** C3. The hypervisor's address space: whatever the compiled sections' sizes, as
    long as the image fits 126 MiB, [el2_mmu_init] and the six calls of
    [el2_map_range] in [el2_main] return, and EL2 then reaches exactly the pages of
    its sections, its stack and the UART, each at its own address: code read-only,
    constants read-only and never executed, data, stack and device never executed;
    no address is both writable and executable, and the guard page after each
    section faults. *)
Theorem boot_map_exact s :
  shape s → image_fits →
  total (el2_mmu_init ;; map_image) s (λ _ s', ∀ a, 0 ≤ a < 2 ^ 39 →
    el2_translate (mem_read s') el2_l1_sym a = boot_access a ∧
    (∀ acc, boot_access a = Some acc → ea_pa acc = a ∧ (ea_write acc && ea_exec acc = false)) ∧
    (0x40000000 ≤ a → in_guard text_end a ∨ in_guard rodata_end a ∨ in_guard data_end a ∨ in_guard bss_end a →
      el2_translate (mem_read s') el2_l1_sym a = None)).
Proof.
  intros Hs Hf. eapply total_mono; [by apply boot_map_total|]. intros [] s2 Htr a Ha.
  split; [by apply Htr|]. split.
  - intros acc. unfold boot_access. by repeat case_match; intros [= <-].
  - intros Hlo Hg. rewrite Htr by done. by apply guards_unmapped.
Qed.
End properties.

(** ** Witnesses *)

#[local] Existing Instance demo_sections.
#[local] Existing Instance demo_sections_ok.
#[local] Existing Instance demo_el2_image.
#[local] Existing Instance demo_el2_image_ok.

Lemma boot_map_exact_witness :
  total (el2_mmu_init ;; map_image) el2_bss (λ _ s',
    el2_translate (mem_read s') el2_l1_sym 0x40000100 = Some (El2Access 0x40000100 0 false true) ∧
    el2_translate (mem_read s') el2_l1_sym 0x40006000 = None).
Proof.
  assert (image_fits) as Hf by (vm_compute; discriminate).
  eapply total_mono; [apply (boot_map_exact el2_bss el2_bss_shape Hf)|].
  intros [] s' Hs. split; [exact (proj1 (Hs 0x40000100 ltac:(lia)))|exact (proj1 (Hs 0x40006000 ltac:(lia)))].
Defined.
