(* ===== verification/MainTheory.v ===== *)
(** * Theorems about boot

    From a cleared [.bss] [el2_main] builds both address spaces, turns them on,
    prepares the two VCPUs and enters the main loop, which it leaves only if a guest
    breaks it.                                                                  *)

From Stdlib Require Import ZArith Lia String.
From stdpp Require Import base gmap list strings.
From S2P Require Import Prelude Machine PageTable PageTableTheory S2Mmu S2MmuTheory El2Mmu El2MmuTheory.
From S2P Require Import Layout Uart UartTheory Vcpu VcpuTheory Sched SchedTheory Context Trap TrapTheory Switch.
From S2P Require Import Shield SwitchTheory SwitchSpec Guests Main BootMap.

#[local] Open Scope string_scope.
#[local] Open Scope Z_scope.

(** ** Clearing *)

Section clear.
Context `{!Console}.

Lemma bss_loop_total fuel p e h : Z.to_nat (e - p) = fuel →
  ∃ r, bss_loop fuel p e h = Ok () (set_ram r h) ∧
    ∀ a, r !! a = if bool_decide (p ≤ a < e) then Some 0 else ram h !! a.
Proof.
  revert p h. induction fuel as [|fuel IH]; intros p h Hf; cbn [bss_loop].
  - rewrite (proj2 (Z.ltb_ge p e)) by lia. exists (ram h). split; [by destruct h|].
    intros a. by rewrite bool_decide_eq_false_2 by lia.
  - rewrite (proj2 (Z.ltb_lt p e)) by lia. mstep.
    destruct (IH (p + 1) (set_ram (<[p := 0]> (ram h)) h)) as (r & E & Hr); [lia|].
    exists r. split; [exact E|]. intros a. rewrite Hr. cbn [ram set_ram]. rewrite lookup_insert.
    repeat case_bool_decide; repeat case_decide; (done || lia).
Qed.
End clear.

(** ** VCPUs *)

Section slots.
Context `{!Console, !Counter}.

(** A VCPU as [vcpu_init_slot] leaves it on the processor [m]. *)
Definition booted_vcpu (id entry stack vttbr : Z) (m : machine) : vcpu :=
  Vcpu (Arch vttbr 0 (count_at (reads m)) (Fp 0 0 0 (replicate 32 (0, 0))) (Sve 0) (Pauth 0 0 0 0 0)
         (Vgic (replicate 16 0) 0 0)
         (Tf (u64 id :: replicate 30 0) stack entry 0x3c5 (sys m TTBR0_EL1) (sys m TTBR1_EL1)
           (sys m TCR_EL1) (sys m SCTLR_EL1) (sys m TPIDR_EL1) (sys m CNTKCTL_EL1) (sys m CNTP_CTL_EL0)
           (u64 (sys m CNTP_CVAL_EL0 + 0)) (sys m CNTV_CTL_EL0) (sys m CNTV_CVAL_EL0)))
    id false.

Lemma vcpu_init_slot_focus p v w id entry stack vttbr m h : vcpus h !! p = Some v →
  vcpu_init_slot p id entry stack vttbr (focus p w m h) =
    Ok () (focus p (booted_vcpu id entry stack vttbr m) (tick m) h).
Proof.
  intros Hp. unfold vcpu_init_slot, memclr. repeat fstep.
  erewrite focus_update by done. reflexivity.
Qed.

Lemma vcpu_init_slot_eq p v id entry stack vttbr h : vcpus h !! p = Some v →
  vcpu_init_slot p id entry stack vttbr h =
    Ok () (focus p (booted_vcpu id entry stack vttbr (mach h)) (tick (mach h)) h).
Proof.
  intros Hp. pose proof (vcpu_init_slot_focus p v v id entry stack vttbr (mach h) h Hp) as E.
  by rewrite <-(focus_start p v h Hp) in E.
Qed.

Lemma booted_vcpu_shape id entry stack vttbr m : vcpu_shape (booted_vcpu id entry stack vttbr m).
Proof. done. Qed.
End slots.

(** ** The boot sequence *)

Section boot.
Context `{!Sections, !SectionsOk, !GuestImage, !El2Image, !El2ImageOk, !S2Image, !S2ImageOk}.
Context `{!Console, !ConsoleSpec, !Counter, !Features, !Guest}.

Lemma in_hv_Ok {A} (m : M hv A) x h b : m (b_hv b) = Ok x h → in_hv m b = Ok x (set_hv h b).
Proof. intros E. unfold in_hv, zoom. by rewrite E. Qed.

Lemma boot_puts_Ok s b : ∃ c, boot_puts s b = Ok () (set_hv (set_console c (b_hv b)) b).
Proof. destruct (prints_puts s (b_hv b)) as (c & E & _). exists c. by apply in_hv_Ok. Qed.

Lemma console_init_Ok b : ∃ c, in_hv (print con_init) b = Ok () (set_hv (set_console c (b_hv b)) b).
Proof.
  destruct (proj1 (total_Ok _ _ _) (con_init_text (console (b_hv b)))) as ([] & c & E & _). exists c.
  apply in_hv_Ok. unfold print, zoom. by rewrite E.
Qed.

(** A VCPU ready to enter its guest for the first time. *)
Record guest_ready (v : vcpu) (id entry stack vttbr : Z) : Prop := {
  gr_regs : regs (tf (arch v)) = u64 id :: replicate 30 0;
  gr_elr : elr_el1 (tf (arch v)) = entry;
  gr_sp : sp_el1 (tf (arch v)) = stack;
  gr_spsr : spsr_el1 (tf (arch v)) = 0x3c5;
  gr_vttbr : vttbr_el2 (arch v) = vttbr;
  gr_context : fp_used (fp (arch v)) = 0 ∧ pauth_used (pauth (arch v)) = 0 ∧ lrs (vgic (arch v)) = replicate 16 0;
  gr_id : vcpu_id v = id;
  gr_yield : request_yield v = false;
}.

(** The state in which [el2_main] calls [vcpu_run]. *)
Record booted (b : boot) : Prop := {
  bo_el2 a : 0 ≤ a < 2 ^ 39 →
    el2_translate (@mem_read el2_builder (b_el2 b)) (sys (mach (b_hv b)) TTBR0_EL2) a = boot_access a;
  bo_s2 a : 0 ≤ a < 2 ^ 39 →
    s2_translate (@mem_read s2_builder (s2_tables (b_hv b))) (sys (mach (b_hv b)) VTTBR_EL2 mod 2 ^ 48) a =
      if bool_decide (0x40000000 ≤ a < 0x80000000) then Some (S2Access a true true true) else None;
  bo_on : Z.testbit (sys (mach (b_hv b)) SCTLR_EL2) 0 = true ∧ Z.testbit (sys (mach (b_hv b)) HCR_EL2) 0 = true;
  bo_sched : scheduler (b_hv b) = demo_queue;
  bo_vcpus : ∃ v0 v1, vcpus (b_hv b) = [v0; v1] ∧
    guest_ready v0 0 guest_counter_os_sym 0x40080000 (sys (mach (b_hv b)) VTTBR_EL2) ∧
    guest_ready v1 1 guest_memwalk_os_sym 0x400A0000 (sys (mach (b_hv b)) VTTBR_EL2);
  bo_bss a : bss_start ≤ a < bss_end → ram (b_hv b) !! a = Some 0;
  bo_shape : hv_shape (b_hv b);
  bo_area : area_ok (b_hv b);
}.

(** Once every byte of [.bss] is zero, so are the static variables. *)
Lemma reread_zero b : (∀ a, bss_start ≤ a < bss_end → ram (b_hv b) !! a = Some 0) → reread_statics b = zero_statics b.
Proof.
  intros Hr. unfold reread_statics, bss_is_zero. rewrite bool_decide_eq_true_2; [done|].
  apply Forall_forall. intros a Ha%elem_of_seqZ. apply Hr. lia.
Qed.

Lemma bss_clear_Ok b : ∃ r, bss_clear b = Ok () (zero_statics (set_hv (set_ram r (b_hv b)) b)) ∧
  ∀ a, bss_start ≤ a < bss_end → r !! a = Some 0.
Proof.
  destruct (bss_loop_total (Z.to_nat (bss_end - bss_start)) bss_start bss_end (b_hv b) eq_refl) as (r & E & Hr).
  assert (∀ a, bss_start ≤ a < bss_end → r !! a = Some 0) as Hz.
  { intros a Ha. rewrite Hr. by rewrite bool_decide_eq_true_2. }
  exists r. split; [|exact Hz]. unfold bss_clear. rewrite (bind_Ok _ _ _ _ _ (in_hv_Ok _ _ _ b E)).
  rewrite <-reread_zero; [done|exact Hz].
Qed.

(** The processor after each stage. *)
Definition mmu_on (m : machine) : machine := Machine
  (upd SCTLR_EL2 (Z.lor (sys m SCTLR_EL2) SCTLR_MCI)
    (upd MAIR_EL2 MAIR_EL2_VALUE (upd TCR_EL2 el2_tcr
      (upd TTBR0_EL2 (Z.land el2_l1_sym (Z.land El2Mmu.PA_48_MASK PAGE_MASK)) (sys m)))))
  (vregs m) (gprs m) (reads m)
  (rev (el2_enable_trace (Z.lor (sys m SCTLR_EL2) SCTLR_MCI)) ++ trace m).

Definition cleared_hv (m : machine) (c : con) (r : gmap Z Z) : hv :=
  Hv m c (replicate 2 zero_vcpu) sched_bss None (replicate 16 0) 0 (pt_bss 16 1024) r.

Lemma boot_el2_Ok b : image_fits → ∃ b' c r,
  boot_el2 b = Ok () b' ∧ b_hv b' = cleared_hv (mmu_on (mach (b_hv b))) c r ∧
  (∀ a, 0 ≤ a < 2 ^ 39 → el2_translate (@mem_read el2_builder (b_el2 b')) el2_l1_sym a = boot_access a) ∧
  (∀ a, bss_start ≤ a < bss_end → r !! a = Some 0).
Proof.
  intros Hf. destruct (bss_clear_Ok b) as (r & Hb & Hr). unfold boot_el2. rewrite (bind_Ok _ _ _ _ _ Hb).
  set (b1 := zero_statics _). destruct (console_init_Ok b1) as (c & Hc). rewrite (bind_Ok _ _ _ _ _ Hc).
  set (b2 := set_hv _ b1). destruct (boot_puts_Ok ("EL2: Hello from EL2!" +:+ newline) b2) as (c2 & Hc2).
  rewrite (bind_Ok _ _ _ _ _ Hc2). set (b3 := set_hv _ b2).
  destruct (proj1 (total_Ok _ _ _) (boot_map_total (pt_bss 16 64) (@pt_bss_shape el2_builder 16 64 eq_refl eq_refl) Hf))
    as ([] & t & Ht & Hmap).
  rewrite (bind_Ok _ _ b3 () (set_el2 t b3)) by (unfold in_el2, zoom; by rewrite (Ht : _ (b_el2 b3) = _)).
  mstep_by ltac:(apply in_hv_Ok, cpu_do, el2_mmu_enable_eq).
  match goal with |- context [boot_puts ?s ?b] => destruct (boot_puts_Ok s b) as (c4 & Hc4) end.
  eexists _, c4, r. split; [exact Hc4|]. by split_and!.
Qed.

(** The registers stage 2 sets. *)
Definition s2_on (f : sysreg → Z) : sysreg → Z :=
  upd CNTHCTL_EL2 0 (upd HCR_EL2 (Z.lor (f HCR_EL2) HCR_TRAPS) (upd VTTBR_EL2 s2_vttbr
    (upd VTCR_EL2 vtcr_el2_value (upd MAIR_EL2 MAIR_EL2_VALUE f)))).

Lemma boot_s2_Ok b : @shape s2_builder (s2_tables (b_hv b)) → ∃ b' c m,
  boot_s2 b = Ok () b' ∧ b_hv b' = set_console c (set_s2_tables (s2_tables (b_hv b')) (set_mach m (b_hv b))) ∧ b_el2 b' = b_el2 b ∧
  sys m = s2_on (sys (mach (b_hv b))) ∧ vregs m = vregs (mach (b_hv b)) ∧ gprs m = gprs (mach (b_hv b)) ∧
  ∀ a, 0 ≤ a < 2 ^ 39 → s2_translate (@mem_read s2_builder (s2_tables (b_hv b'))) s2_l1_sym a =
    if bool_decide (0x40000000 ≤ a < 0x80000000) then Some (S2Access a true true true) else None.
Proof.
  intros Hs. destruct (proj1 (total_Ok _ _ _) (boot_total 1 1 1 (s2_tables (b_hv b)) (mach (b_hv b)) Hs))
    as ([] & [s m'] & E & Hr & Hm). cbn [fst snd] in Hr, Hm. subst m'. unfold boot_s2.
  rewrite (bind_Ok _ _ b () (set_hv (set_s2_tables s (set_mach (emit (Dsb "ishst") (mach (b_hv b))) (b_hv b))) b))
    by (apply in_hv_Ok; unfold zoom; by rewrite E).
  set (b1 := set_hv (set_s2_tables s _) b). destruct (boot_puts_Ok ("EL2: Stage-2 tables built." +:+ newline) b1) as (c & Hc).
  rewrite (bind_Ok _ _ _ _ _ Hc). mstep_by ltac:(apply in_hv_Ok, cpu_do, s2_program_regs_eq).
  match goal with |- context [boot_puts ?s ?b] => destruct (boot_puts_Ok s b) as (c4 & Hc4) end.
  eexists _, c4, _. split; [exact Hc4|]. split; [reflexivity|]. split_and!; try reflexivity.
  intros a Ha. by rewrite (boot_translate 1 1 1) by done.
Qed.

(** The last stage, from cleared statics. *)
Lemma boot_vcpus_Ok b : vcpus (b_hv b) = replicate 2 zero_vcpu → scheduler (b_hv b) = sched_bss → ∃ c,
  let m := mach (b_hv b) in
  boot_vcpus b = Ok () (set_hv (set_console c (set_scheduler demo_queue (set_mach (tick (tick m))
    (set_vcpus [booted_vcpu 0 guest_counter_os_sym 0x40080000 (sys m VTTBR_EL2) m;
                booted_vcpu 1 guest_memwalk_os_sym 0x400A0000 (sys m VTTBR_EL2) (tick m)] (b_hv b))))) b).
Proof.
  intros Hv Hs. destruct b as [h t]. cbn [b_hv] in *. unfold boot_vcpus.
  mstep_by ltac:(apply in_hv_Ok; by apply cpu_mrs). cbn [b_hv set_hv]. set (vt := sys (mach h) VTTBR_EL2).
  mstep_by ltac:(apply in_hv_Ok; apply (vcpu_init_slot_eq 0 zero_vcpu); cbn [b_hv set_hv]; by rewrite Hv).
  mstep_by ltac:(apply in_hv_Ok; apply (vcpu_init_slot_eq 1 zero_vcpu);
    cbn [b_hv set_hv focus put set_vcpus vcpus set_mach]; by rewrite Hv).
  cbn [b_hv set_hv]. unfold focus, put. cbn [vcpus set_vcpus set_mach mach]. rewrite Hv.
  destruct h as [m c vs sc ct ha vc tb rm]. cbn in Hs. subst sc.
  do 3 mstep. match goal with |- context [boot_puts ?s ?b] => destruct (boot_puts_Ok s b) as (c4 & Hc4) end.
  rewrite Hc4. by exists c4.
Qed.

(** [el2_main] to the call of [vcpu_run]. *)
Lemma el2_main_reaches fuel b : image_fits → length (gprs (mach (b_hv b))) = 31%nat → length (vregs (mach (b_hv b))) = 32%nat →
  ∃ b', el2_main fuel b = in_hv (vcpu_run fuel (Some 0%nat)) b' ∧ booted b' ∧
    ∀ r, r = SP ∨ r = VBAR_EL2 → sys (mach (b_hv b')) r = sys (mach (b_hv b)) r.
Proof.
  intros Hf Hg Hv.
  destruct (boot_el2_Ok b Hf) as (b1 & c & r & E1 & Hh1 & Hmap & Hr). unfold el2_main. rewrite (bind_Ok _ _ _ _ _ E1).
  assert (@shape s2_builder (s2_tables (b_hv b1))) as Hsh1 by (rewrite Hh1; by apply pt_bss_shape).
  destruct (boot_s2_Ok b1 Hsh1) as (b2 & c2 & m & E2 & Hh2 & He2 & Hsys & Hvm & Hgm & Hs2).
  rewrite (bind_Ok _ _ _ _ _ E2). rewrite Hh1 in Hh2, Hsys, Hvm, Hgm. cbn in Hvm, Hgm.
  destruct (boot_vcpus_Ok b2) as (c3 & E3); [by rewrite Hh2..|]. rewrite (bind_Ok _ _ _ _ _ E3).
  eexists. split; [reflexivity|]. split; cycle 1.
  { cbn [b_hv set_hv set_console set_scheduler set_mach set_vcpus mach tick sys]. rewrite Hh2. cbn [set_console set_s2_tables set_mach mach]. rewrite Hsys.
    intros x [->| ->]; unfold s2_on, cleared_hv, mmu_on; simpl_regs; cbn [mach sys]; by simpl_regs. }
  assert (mach (b_hv b2) = m) as Hm by (by rewrite Hh2). rewrite Hm.
  split; cbn [b_hv set_hv set_console set_scheduler set_mach set_vcpus mach scheduler vcpus ram b_el2 tick sys];
    rewrite ?Hsys, ?He2.
  - intros a Ha. unfold s2_on. simpl_regs. change (sys _ TTBR0_EL2) with (Z.land el2_l1_sym (Z.land El2Mmu.PA_48_MASK PAGE_MASK)).
    rewrite el2_ttbr_fields; [by apply Hmap|apply el2_l1_aligned|]. pose proof el2_l1_low. lia.
  - intros a Ha. unfold s2_on. simpl_regs.
    rewrite (proj1 (s2_vttbr_fields s2_l1_range)). by apply Hs2.
  - unfold s2_on. simpl_regs. unfold cleared_hv, mmu_on. cbn [mach sys]. simpl_regs. rewrite !Z.lor_spec. by rewrite !orb_true_r.
  - done.
  - eexists _, _. split; [reflexivity|]. by split; split.
  - rewrite Hh2. exact Hr.
  - split; cbn [vcpus mach set_console set_scheduler set_mach set_vcpus tick gprs vregs];
      [by repeat constructor|by rewrite Hgm|by rewrite Hvm].
  - unfold area_ok. rewrite Hh2. cbn. lia.
Qed.

(** Once booted, the main loop never ends if the guests leave EL2's data alone. *)
Lemma booted_runs `{!GuestArch} fuel b b' : booted b → leaves_el2 → in_hv (vcpu_run fuel (Some 0%nat)) b ≠ Ok () b'.
Proof.
  intros [_ _ _ Hs (v0 & v1 & Hvs & _) _ Hsh Ha] Hl. unfold in_hv, zoom.
  destruct (vcpu_run fuel (Some 0%nat) (b_hv b)) as [[] h| | |] eqn:Er; try done. exfalso. revert Er.
  apply run_never_returns; try done; rewrite ?Hs, ?Hvs; cbn [length]; [apply demo_reachable|lia| |].
  - intros [|[|i]] q; [intros [= <-]; lia..|]. by do 6 (destruct i as [|i]; [done|]).
  - intros q v _. by apply leaves_el2_contained.
Qed.

(** C4. Boot: for an image of any section sizes that fits, from any state of
    memory and statics, [el2_main] reaches its main loop; there [.bss] is zero, EL2
    runs on the address space of its sections with its MMU on, VTTBR_EL2 points at
    the identity map of the guests' gigabyte with stage 2 on, both VCPUs are ready
    to enter their guests at EL1 with interrupts masked, and the counter guest is
    current; and [el2_main] never returns if the guests leave the hypervisor's memory
    alone, which these tables do not make them do. *)
Theorem el2_main_boots `{!GuestArch} fuel b :
  image_fits → length (gprs (mach (b_hv b))) = 31%nat → length (vregs (mach (b_hv b))) = 32%nat →
  (∃ b', el2_main fuel b = in_hv (vcpu_run fuel (Some 0%nat)) b' ∧ booted b') ∧
  (leaves_el2 → ∀ b'', el2_main fuel b ≠ Ok () b'').
Proof.
  intros Hf Hg Hv. destruct (el2_main_reaches fuel b Hf Hg Hv) as (b' & E & Hb & _).
  split; [by exists b'|]. intros Hl b''. rewrite E. by apply booted_runs.
Qed.

Lemma start_eq fuel b : ∃ m, _start fuel b = (el2_main fuel ;; hang) (set_hv (set_mach m (b_hv b)) b) ∧
  gprs m = gprs (mach (b_hv b)) ∧ vregs m = vregs (mach (b_hv b)) ∧
  sys m SP = stack_top ∧ sys m VBAR_EL2 = el2_vectors.
Proof.
  unfold _start. generalize (el2_main fuel). intros k. destruct b as [h t]. eexists. split; [reflexivity|].
  split; [done|]. split; [done|]. cbn [sys set_sys emit mach b_hv set_mach]. by simpl_regs.
Qed.

(** C39. From reset, [_start] gives EL2 its own stack and its vectors and reaches the
    main loop with both in place, whatever the registers and memory held: the stack
    is 32 KiB of read-write memory in EL2's tables with an unmapped page below it;
    and the final loop of [_start] is never reached if the guests leave the
    hypervisor's memory alone. *)
Theorem start_boots `{!GuestArch} fuel b :
  image_fits → length (gprs (mach (b_hv b))) = 31%nat → length (vregs (mach (b_hv b))) = 32%nat →
  ∃ b', _start fuel b = (in_hv (vcpu_run fuel (Some 0%nat)) ;; hang) b' ∧ booted b' ∧
    sys (mach (b_hv b')) SP = stack_top ∧ sys (mach (b_hv b')) VBAR_EL2 = el2_vectors ∧
    (∀ a, let access := el2_translate (@mem_read el2_builder (b_el2 b')) (sys (mach (b_hv b')) TTBR0_EL2) a in
      (stack_top - 0x8000 ≤ a < stack_top → access = Some (El2Access a NORMAL_WB true false)) ∧
      (stack_top - 0x9000 ≤ a < stack_top - 0x8000 → access = None)) ∧
    (leaves_el2 → ∀ b'', in_hv (vcpu_run fuel (Some 0%nat)) b' ≠ Ok () b'').
Proof.
  intros Hf Hg Hv. destruct (start_eq fuel b) as (m & E & Eg & Ev & Es & Eb).
  destruct (el2_main_reaches fuel (set_hv (set_mach m (b_hv b)) b) Hf) as (b' & E' & Hb & Hr);
    [by cbn; rewrite ?Eg, ?Ev..|].
  exists b'. split_and!; [|done|by rewrite Hr; auto..| |intros Hl b''; by apply booted_runs].
  - rewrite E. unfold mbind, M_bind. by rewrite E'.
  - intros a access. subst access. pose proof stack_above. unfold image_fits, IMAGE_MAX in Hf.
    split; intros Ha; rewrite (bo_el2 _ Hb) by lia; by apply stack_access.
Qed.
End boot.

(** ** The diagnostic dump *)

Section monitor.
Context `{!Console, !ConsoleSpec}.

(** EL2's loads reach nothing that its tables do not map. *)
Definition el2_sees (access : Z → option el2_access) (h : hv) : Prop :=
  ∀ a, is_Some (ram h !! a) → is_Some (access a).

Definition slot_line (slot : nat) (x : Z) : string :=
  "  slot " +:+ Uart.hex64 (Z.of_nat slot) +:+ " @ " +:+ Uart.hex64 (guest_shared_slot (Z.of_nat slot)) +:+
  " = " +:+ Uart.hex64 x +:+ crlf newline.

Fixpoint slot_lines (n : nat) (f : nat → Z) : string :=
  match n with
  | O => ""
  | S n => slot_lines n f +:+ slot_line n (f n)
  end.

Lemma dump_slot_emits h slot x : mem_word (ram h) (guest_shared_slot (Z.of_nat slot)) x →
  emits h (guest_shared_dump_slot slot) () (slot_line slot x).
Proof.
  intros Hx. unfold guest_shared_dump_slot. cbv zeta. eapply emits_text.
  - eapply emits_bind; [by apply emits_load64|].
    repeat (eapply emits_bind; [apply emits_puts || apply emits_hex64|]). apply emits_puts.
  - done.
Qed.

Lemma dump_slots_emits h n f :
  (∀ i, (i < n)%nat → mem_word (ram h) (guest_shared_slot (Z.of_nat i)) (f i)) →
  emits h (for_upM n guest_shared_dump_slot) () (slot_lines n f).
Proof.
  intros Hf. induction n as [|n IH]; cbn [for_upM slot_lines]; [apply emits_ret|].
  eapply emits_bind; [apply IH; auto with lia|]. apply dump_slot_emits. apply Hf. lia.
Qed.

Lemma for_upM_undef (n : nat) (body : nat → M hv ()) h : body O h = Undef → for_upM (S n) body h = Undef.
Proof.
  intros Hb. induction n as [|n IH]; [done|].
  change (for_upM (S (S n)) body) with (for_upM (S n) body ;; body (S n)).
  unfold mbind, M_bind. by rewrite IH.
Qed.

(** EL2 has no mapping at the slots when its image ends below them. *)
Lemma slots_unmapped `{!Sections, !SectionsOk} : stack_top ≤ GUEST_SHARED_BASE → boot_access GUEST_SHARED_BASE = None.
Proof.
  unfold GUEST_SHARED_BASE. intros Hf. destruct layout as [[L1 L1'] (L2 & L2' & L2'') (L3 & L3' & L3'') (L4 & L4' & L4'') (L5 & L5' & L5'')].
  pose proof text_pos. pose proof rodata_pos. pose proof data_pos. pose proof bss_pos.
  destruct (after_guard_spec text_end) as (_ & B1 & _). destruct (after_guard_spec rodata_end) as (_ & B2 & _).
  destruct (after_guard_spec data_end) as (_ & B3 & _). destruct (after_guard_spec bss_end) as (_ & B4 & _).
  unfold boot_access, in_pages, UART_PA, UART0_BASE, UART_SIZE. change (0x41000000 / 4096) with 0x41000.
  by repeat (rewrite bool_decide_eq_false_2 by lia).
Qed.

(** C34. [guest_shared_dump], EL2's view of what the guests report, prints the
    sixteen slots when EL2 can load them. On the address space [el2_main] builds it
    cannot: for an image that ends below the slots, which EL2 does not map, the
    dump faults at its first load. *)
Theorem guest_shared_dump_reads h :
  (∀ f, (∀ i, (i < GUEST_SHARED_SLOT_COUNT)%nat → mem_word (ram h) (guest_shared_slot (Z.of_nat i)) (f i)) →
    ∃ c, guest_shared_dump h = Ok () (set_console c h) ∧
      con_text c = con_text (console h) +:+ (crlf ("EL2: guest shared slots snapshot" +:+ newline) +:+
        slot_lines GUEST_SHARED_SLOT_COUNT f)) ∧
  (∀ (Hs : Sections) (Hok : SectionsOk), el2_sees boot_access h → stack_top ≤ GUEST_SHARED_BASE →
    guest_shared_dump h = Undef).
Proof.
  split.
  - intros f Hf. apply emits_total. unfold guest_shared_dump. eapply emits_bind; [apply emits_puts|].
    by apply dump_slots_emits.
  - intros Hs Hok Hsee Hf. unfold guest_shared_dump.
    destruct (prints_puts ("EL2: guest shared slots snapshot" +:+ newline) h) as (c & E & _).
    rewrite (bind_Ok _ _ _ _ _ E). apply for_upM_undef. unfold guest_shared_dump_slot, load64, load_le, load8.
    change (guest_shared_slot (Z.of_nat 0)) with GUEST_SHARED_BASE. unfold mbind, M_bind. cbn.
    destruct (ram h !! GUEST_SHARED_BASE) as [x|] eqn:Hx; [|done].
    destruct (Hsee GUEST_SHARED_BASE) as [acc Hacc]; [by eexists|]. by rewrite slots_unmapped in Hacc.
Qed.
End monitor.

(** ** Witnesses *)

#[local] Existing Instance text_console.
#[local] Existing Instance text_console_spec.
#[local] Existing Instance demo_counter.
#[local] Existing Instance demo_sections.
#[local] Existing Instance demo_sections_ok.
#[local] Existing Instance demo_el2_image.
#[local] Existing Instance demo_el2_image_ok.
#[local] Existing Instance demo_s2_image.
#[local] Existing Instance demo_s2_image_ok.
#[local] Existing Instance switch_features.

(** A guest that waits for an interrupt and touches no memory. *)
#[local] Instance idle_guest : Guest := {|
  guest_run h := (set_mach (used_and_waiting (mach h)) h, 0x20);
  guest_el1_vectors := 0x40010000;
|}.

Lemma idle_guest_leaves : leaves_el2.
Proof. by intros h h' c [= <- _]. Qed.

#[local] Instance idle_guest_arch : GuestArch.
Proof.
  split; cbn [guest_run idle_guest]; intros h h' c.
  - intros x [= <- _] Hx. cbn. by rewrite upd_ne by (by intros <-).
  - by intros [= <- _].
  - intros [= <- _]. cbn. by rewrite length_map.
  - by intros [= <- _].
Defined.

#[local] Instance demo_guests : GuestImage :=
  {| el2_vectors := 0x40000800; guest_counter_os_sym := 0x40001000; guest_memwalk_os_sym := 0x40002000 |}.

(** A processor at reset, with arbitrary tables left in memory. *)
Definition reset_boot : boot := Boot (demo_hv switch_machine) (Pt [] [] [] [] 7 7).

Lemma el2_main_boots_witness :
  (∃ b', el2_main 2 reset_boot = in_hv (vcpu_run 2 (Some 0%nat)) b' ∧ booted b') ∧
  el2_main 2 reset_boot ≠ Ok () reset_boot.
Proof.
  assert (image_fits) as Hf by (vm_compute; discriminate).
  destruct (el2_main_boots 2 reset_boot Hf eq_refl eq_refl) as [Hb Hn]. split; [exact Hb|apply (Hn idle_guest_leaves)].
Defined.

Lemma start_boots_witness :
  ∃ b', booted b' ∧ sys (mach (b_hv b')) SP = 0x404BB000 ∧ sys (mach (b_hv b')) VBAR_EL2 = 0x40000800.
Proof.
  assert (image_fits) as Hf by (vm_compute; discriminate).
  destruct (start_boots 2 reset_boot Hf eq_refl eq_refl) as (b' & _ & Hb & Hs & Hv & _).
  exists b'. split; [exact Hb|]. split; [|exact Hv]. etrans; [exact Hs|]. by vm_compute.
Defined.

(** EL2 can read a byte of its stack and nothing of the slots. *)
Definition stack_hv : hv := set_ram {[ stack_bottom := 0 ]} (demo_hv demo_machine).

Lemma guest_shared_dump_reads_witness : guest_shared_dump stack_hv = Undef.
Proof.
  apply (proj2 (guest_shared_dump_reads stack_hv) demo_sections demo_sections_ok); [|vm_compute; discriminate].
  intros a [x Hx]. unfold stack_hv in Hx. cbn [ram set_ram] in Hx.
  apply lookup_singleton_Some in Hx as [<- _]. vm_compute. by eexists.
Defined.
