(* ===== verification/Breakout.v ===== *)
(** * A guest that leaves the main loop

    On the tables [el2_main] builds the guest of [Shield], which only stores where its
    translation lets it, makes [vcpu_run] and with it [el2_main] return.         *)

From Stdlib Require Import ZArith Lia String.
From stdpp Require Import base gmap list strings.
From S2P Require Import Prelude Machine PageTable S2Mmu S2MmuTheory El2Mmu El2MmuTheory Layout Uart UartTheory.
From S2P Require Import Vcpu VcpuTheory Sched SchedTheory Context Trap TrapTheory Switch Shield SwitchTheory.
From S2P Require Import SwitchSpec Guests Main BootMap MainTheory.

#[local] Open Scope Z_scope.

Section breakout.
Context `{!S2Image, !Console, !ConsoleSpec, !Counter, !Features}.
Variables sym vectors : Z.

#[local] Instance breaking_guest : Guest := storing_guest sym vectors.

(** A translation that lets the guest write is one it uses. *)
Lemma can_store_translate h ipa acc :
  s2_translate (@mem_read s2_builder (s2_tables h)) (sys (mach h) VTTBR_EL2 mod 2 ^ 48) ipa = Some acc →
  sa_write acc = true → can_store h ipa (sa_pa acc) = true.
Proof.
  unfold s2_translate, can_store. destruct (walk _ _ _); try done. destruct (Z.testbit desc 10); [|done].
  intros [= <-] Hw. cbn in *. by rewrite Hw, Z.eqb_refl.
Qed.

(** WFI when no VCPU is current. *)
Lemma wfi_nobody esr elr spsr far code h : esr_ec esr = 0x01 → sched_current (scheduler h) = None →
  ∃ m c, el2_exception_common esr elr spsr far code h = Ok () (set_mach m (set_console c h)).
Proof.
  intros He Hc. unfold el2_exception_common. rewrite ec_eq, He. cbn [Z.eqb Pos.eqb]. cbv zeta.
  destruct (prints_puts ("EL2: WFI/WFE from guest detected, yielding..." +:+ newline) h) as (c & E & _).
  rewrite (bind_Ok _ _ _ _ _ E). eexists _, c. mstep. mstep_by ltac:(apply current_eq).
  cbn [scheduler set_mach set_console]. rewrite Hc. reflexivity.
Qed.

(** One run of it, from any VCPU whose tables reach [sched_current]. *)
Lemma breaking_switch p v h :
  hv_shape h → vcpus h !! p = Some v →
  (∃ acc, s2_translate (@mem_read s2_builder (s2_tables h)) (vttbr_el2 (arch v) mod 2 ^ 48) sym = Some acc ∧
    sa_write acc = true ∧ sa_pa acc = sym) →
  ∃ h' v', world_switch None (Some p) h = Ok () h' ∧ sched_current (scheduler h') = None ∧
    vcpus h' !! p = Some v' ∧ request_yield v' = request_yield v.
Proof.
  intros Hh Hp (acc & Hacc & Hw & Hpa). rewrite world_switch_eq.
  destruct (proj1 (total_Ok _ _ _) (guest_entry_total None p v h Hh I ltac:(done) Hp)) as ([] & h2 & E & m & c & E2 & Hm).
  rewrite (bind_Ok _ _ _ _ _ E). set (v2 := set_arch _ v) in E2.
  assert (vcpus h2 !! p = Some v2) as Hp2 by (rewrite E2; by apply (put_lookup p v2 v (set_host_saved_area _ _))).
  assert (can_store h2 sym sym = true) as Hst.
  { rewrite <-Hpa at 2. apply can_store_translate; [|done].
    assert (sys (mach h2) VTTBR_EL2 = vttbr_el2 (arch v)) as ->.
    { rewrite E2. destruct Hm as [_ _ _ _ _ _ _ _ _ _ Ho]. cbn. by rewrite Ho. }
    by rewrite E2. }
  unfold guest_exit, mbind, M_bind. unfold run_guest. cbn [guest_run breaking_guest storing_guest]. rewrite Hst.
  set (h3 := set_scheduler _ _).
  assert (current_trapframe h3 = Some p) as Ht3 by (unfold h3; cbn; by rewrite E2).
  rewrite (el2_vector_common_eq p v2 0x20 h3 Hp2 Ht3). cbv zeta. unfold mbind, M_bind.
  set (h4 := handler_state p v2 h3).
  destruct (wfi_nobody (sys (mach h3) ESR_EL2) (sys (mach h3) ELR_EL2) (sys (mach h3) SPSR_EL2) (sys (mach h3) FAR_EL2)
    0x20 h4) as (m5 & c5 & E5); [reflexivity|reflexivity|].
  rewrite E5, restore_host_eq. eexists _, _. split; [reflexivity|]. split; [reflexivity|].
  split; [by apply (put_lookup p _ v2 h3)|done].
Qed.

(** The loop ends at its second test of [sched_current]. *)
Lemma guest_breaks_loop fuel p v h :
  hv_shape h → sched_reachable (scheduler h) → vcpus h !! p = Some v → request_yield v = false →
  (∃ acc, s2_translate (@mem_read s2_builder (s2_tables h)) (vttbr_el2 (arch v) mod 2 ^ 48) sym = Some acc ∧
    sa_write acc = true ∧ sa_pa acc = sym) →
  vcpu_scheduler_set_current (Some p) (scheduler h) = Ok () (scheduler h) → sched_current (scheduler h) = Some p →
  ∃ h', vcpu_run (S (S fuel)) (Some p) h = Ok () h'.
Proof.
  intros Hh Hr Hp Hy Hacc Hset Hc. destruct (breaking_switch p v h Hh Hp Hacc) as (h' & v' & E & Hn & Hv' & Hy').
  exists h'. unfold vcpu_run. rewrite bool_decide_eq_false_2 by done.
  rewrite (bind_Ok _ _ h () h) by (unfold on_sched, zoom; rewrite Hset; by destruct h).
  assert (vcpu_run_body h = Ok true h') as Hb.
  { unfold vcpu_run_body. rewrite (bind_Ok _ _ _ _ _ (current_eq h)), Hc, (bind_Ok _ _ _ _ _ E).
    mstep_by ltac:(by apply (deref_Ok p v')). by rewrite Hy', Hy. }
  assert (vcpu_run_body h' = Ok false h') as Hb'.
  { unfold vcpu_run_body. by rewrite (bind_Ok _ _ _ _ _ (current_eq h')), Hn. }
  cbn [vcpu_run_loop]. by rewrite (bind_Ok _ _ _ _ _ Hb), (bind_Ok _ _ _ _ _ Hb').
Qed.

(** What the boot code relies on does not hold of every guest: from any state, and with
    [sched_current] at an address [sym] of the image, the guest that stores where its
    translation lets it is one the architecture allows, and with it [el2_main] returns
    after two iterations of its main loop. *)
Theorem guest_breaks_main_loop
    `{!Sections, !SectionsOk, !GuestImage, !El2Image, !El2ImageOk, !S2ImageOk} fuel b :
  image_fits → length (gprs (mach (b_hv b))) = 31%nat → length (vregs (mach (b_hv b))) = 32%nat →
  in_image sym → sym < 0x80000000 →
  GuestArch ∧ ∃ b', el2_main (S (S fuel)) b = Ok () b'.
Proof.
  intros Hf Hg Hv Hin Hmax. pose proof Hin as [Hmin _]. unfold text_start in Hmin.
  split; [apply storing_guest_arch; [lia|done]|].
  destruct (el2_main_reaches (S (S fuel)) b Hf Hg Hv) as (b' & E & [_ Hs2 _ Hs (v0 & v1 & Hvs & Hr & _) _ Hsh _] & _).
  destruct (guest_breaks_loop fuel 0 v0 (b_hv b')) as (h' & E'); try done.
  - rewrite Hs. apply demo_reachable.
  - by rewrite Hvs.
  - by apply Hr.
  - rewrite (gr_vttbr _ _ _ _ _ Hr). eexists. rewrite Hs2 by lia. rewrite bool_decide_eq_true_2 by lia. by split.
  - by rewrite Hs.
  - by rewrite Hs.
  - exists (set_hv h' b'). rewrite E. by apply in_hv_Ok.
Qed.
End breakout.

(** ** Witness *)

#[local] Existing Instance text_console.
#[local] Existing Instance text_console_spec.
#[local] Existing Instance demo_counter.
#[local] Existing Instance demo_sections.
#[local] Existing Instance demo_sections_ok.
#[local] Existing Instance demo_el2_image.
#[local] Existing Instance demo_el2_image_ok.
#[local] Existing Instance demo_s2_image.
#[local] Existing Instance demo_s2_image_ok.
#[local] Existing Instance demo_guests.
#[local] Existing Instance switch_features.

Lemma guest_breaks_main_loop_witness :
  ∃ b', @el2_main _ _ _ _ _ _ _ (storing_guest 0x40400000 0x40010000) 2 reset_boot = Ok () b'.
Proof.
  assert (image_fits) as Hf by (vm_compute; discriminate).
  assert (in_image 0x40400000) as Hin by (split; [done|by vm_compute]).
  exact (proj2 (guest_breaks_main_loop 0x40400000 0x40010000 0 reset_boot Hf eq_refl eq_refl Hin ltac:(lia))).
Defined.
