(* ===== verification/GuestsTheory.v ===== *)
(** * Theorems about the guests

    What each guest writes is its own region and its own slots, its reports are
    well formed, and the memory walk's checksum.                                *)

From Stdlib Require Import ZArith Lia Ascii String Btauto.
From stdpp Require Import base list strings.
From S2P Require Import Prelude Uart UartTheory Guests.

#[local] Open Scope Z_scope.

(** ** Code that writes only some words and makes only some calls

    [confined P C m Q]: [m] returns a value in [Q], whatever the state, changes no
    word outside [P] and makes no call outside [C]. *)

Record within (P : Z → Prop) (C : call → Prop) (s s' : gst) : Prop := {
  within_words a : ¬ P a → words s' a = words s a;
  within_calls : ∃ cs, calls s' = cs ++ calls s ∧ Forall C cs;
}.

#[global] Instance within_refl P C : Reflexive (within P C).
Proof. intros s. split; [done|]. by exists []. Qed.

#[global] Instance within_trans P C : Transitive (within P C).
Proof.
  intros s1 s2 s3 [W1 (c1 & E1 & F1)] [W2 (c2 & E2 & F2)]. split.
  - intros a Ha. by rewrite W2, W1.
  - exists (c2 ++ c1). rewrite E2, E1, app_assoc. split; [done|]. by apply Forall_app.
Qed.

Definition confined {A} (P : Z → Prop) (C : call → Prop) (m : M gst A) (Q : A → Prop) : Prop :=
  ∀ s, total m s (λ x s', Q x ∧ within P C s s').

Section confined.
Variable P : Z → Prop.
Variable C : call → Prop.
#[local] Abbreviation cf := (confined P C).

Lemma cf_ret {A} (x : A) (Q : A → Prop) : Q x → cf (mret x) Q.
Proof. by intros Hx s. Qed.

Lemma cf_bind {A B} (m : M gst A) (k : A → M gst B) R Q :
  cf m R → (∀ x, R x → cf (k x) Q) → cf (m ≫= k) Q.
Proof.
  intros Hm Hk s. eapply total_bind; [apply Hm|]. intros x s' [Hx Hw].
  eapply total_mono; [by apply Hk|]. intros y s'' [Hy Hw']. split; [done|]. by etrans.
Qed.

Lemma cf_mono {A} (m : M gst A) (Q Q' : A → Prop) : cf m Q → (∀ x, Q x → Q' x) → cf m Q'.
Proof. intros Hm HQ s. eapply total_mono; [apply Hm|]. intros x s' [Hx Hw]. auto. Qed.

Lemma cf_seq {B} (m : M gst ()) (k : M gst B) Q :
  cf m (λ _, True) → cf k Q → cf (m ;; k) Q.
Proof. intros Hm Hk. by eapply cf_bind; [exact Hm|]. Qed.

Lemma cf_store a v : P a → cf (store_word a v) (λ _, True).
Proof.
  intros Ha s. split; [done|]. split; [|by exists []]. intros a' Hn. cbn. by destruct (Z.eqb_spec a' a) as [->|].
Qed.

Lemma cf_load a : cf (load_word a) (λ _, True).
Proof. by intros s. Qed.

Lemma cf_call c : C c → cf (do_call c) (λ _, True).
Proof. intros Hc s. split; [done|]. split; [done|]. exists [c]. split; [done|]. by constructor. Qed.

Lemma cf_fold {A} n (body : nat → A → M gst A) (I : A → Prop) a :
  I a → (∀ i x, (i < n)%nat → I x → cf (body i x) I) → cf (fold_upM n body a) I.
Proof.
  intros Ha Hb. induction n as [|n IH]; [by apply cf_ret|]. cbn [fold_upM].
  eapply cf_bind; [apply IH; auto|]. intros x Hx. apply Hb; [lia|done].
Qed.

Lemma cf_delay n : cf (guest_delay n) (λ _, True).
Proof.
  unfold guest_delay. intros s. generalize (Z.to_nat n). intros k. revert s.
  induction k as [|k IH]; intros s; [done|]. exact (cf_seq (for_upM k _) (mret ()) _ IH (cf_ret () _ I) s).
Qed.

Lemma cf_counter `{!GuestCpu} : cf guest_read_counter (λ _, True).
Proof. intros s. split; [done|]. split; [done|]. by exists []. Qed.
End confined.

(** ** Descriptions *)

Section desc.

(** The bytes of a C string's text. *)
Definition is_text (t : list Z) : Prop := Forall (λ c, c ≠ 0) t.

(** What [copy_desc] leaves in the array: at most 31 characters, a terminator and
    the rest of what was there. *)
Definition copied (t desc : list Z) : list Z :=
  take (DESC_SIZE - 1) t ++ 0 :: drop (S (length (take (DESC_SIZE - 1) t))) desc.

Lemma copy_loop_eq fuel t desc i s :
  is_text t → length desc = DESC_SIZE → (i ≤ length t)%nat → (i < DESC_SIZE)%nat → (DESC_SIZE ≤ i + fuel)%nat →
  let n := Nat.min (length t) (DESC_SIZE - 1) in
  copy_loop fuel (t ++ [0]) (take i t ++ drop i desc) i s = Ok (take n t ++ drop n desc, n) s.
Proof.
  intros Ht Hd Hi Hsz Hf n. revert i Hi Hsz Hf. induction fuel as [|fuel IH]; intros i Hi Hsz Hf; [lia|].
  cbn [copy_loop]. unfold arr_get. destruct (decide (i = length t)) as [->|Hne].
  - rewrite list_lookup_middle by done. mstep. unfold n. rewrite Nat.min_l by lia. done.
  - destruct (lookup_lt_is_Some_2 t i ltac:(lia)) as [c Hc]. rewrite lookup_app_l, Hc by lia. mstep.
    rewrite (proj2 (Z.eqb_neq c 0)) by (by eapply (Forall_lookup_1 _ _ _ _ Ht)). cbn [negb andb].
    destruct (Nat.ltb_spec (i + 1) DESC_SIZE).
    + unfold arr_set. rewrite decide_True by (rewrite length_app, length_take, length_drop; lia). mstep.
      replace (<[i:=c]> (take i t ++ drop i desc)) with (take (i + 1) t ++ drop (i + 1) desc); [apply IH; lia|].
      rewrite Nat.add_1_r. rewrite insert_app_r_alt by (rewrite length_take; lia).
      rewrite length_take, Nat.min_l, Nat.sub_diag by lia.
      destruct (lookup_lt_is_Some_2 desc i ltac:(lia)) as [d Hdi]. rewrite (drop_S _ _ _ Hdi). cbn.
      rewrite (take_S_r _ _ _ Hc). by rewrite <-app_assoc.
    + unfold n. rewrite Nat.min_r by lia. by replace (DESC_SIZE - 1)%nat with i by lia.
Qed.

(** [copy_desc] never writes past the array, truncates and always terminates. *)
Lemma copy_desc_eq out t s : is_text t → length (t_desc out) = DESC_SIZE →
  copy_desc out (t ++ [0]) s = Ok (TaskResult (t_id out) (copied t (t_desc out)) (t_data0 out) (t_data1 out)
    (t_before out) (t_after out) (t_target out) (t_walk out)) s.
Proof.
  intros Ht Hd. unfold copy_desc.
  pose proof (copy_loop_eq DESC_SIZE t (t_desc out) 0 s Ht Hd ltac:(lia) ltac:(unfold DESC_SIZE; lia) ltac:(lia)) as E.
  cbv zeta in E. cbn [take app] in E. rewrite drop_0 in E. rewrite (bind_Ok _ _ _ _ _ E). cbn [fst snd].
  set (n := Nat.min _ _). assert (n < DESC_SIZE)%nat by (unfold n, DESC_SIZE; lia).
  unfold arr_set. rewrite decide_True by (rewrite length_app, length_take, length_drop; lia). mstep.
  assert (take n t = take (DESC_SIZE - 1) t) as Hn.
  { unfold n. destruct (decide (length t ≤ DESC_SIZE - 1)%nat);
      [by rewrite Nat.min_l, !take_ge by lia|by rewrite Nat.min_r by lia]. }
  assert (length (take (DESC_SIZE - 1) t) = n) as Hl by (rewrite length_take; unfold n; lia).
  f_equal. f_equal. unfold copied. rewrite Hl, <-Hn.
  rewrite insert_app_r_alt by (rewrite length_take; lia). rewrite length_take.
  replace (n - n `min` length t)%nat with 0%nat by (unfold n; lia).
  destruct (lookup_lt_is_Some_2 (t_desc out) n ltac:(lia)) as [d Hdi]. by rewrite (drop_S _ _ _ Hdi).
Qed.

Lemma copied_length t desc : length desc = DESC_SIZE → length (copied t desc) = DESC_SIZE.
Proof.
  intros Hd. unfold copied. rewrite length_app. cbn [length]. rewrite length_drop, Hd, length_take.
  unfold DESC_SIZE. lia.
Qed.
End desc.

(** ** What each guest writes *)

Definition counter_slots : list Z := [0; 1; 2; 3; 4; 5; 12; 13; 14].
Definition memwalk_slots : list Z := [6; 7; 8; 9; 10; 11; 15].

Definition counter_writes (guest_id a : Z) : Prop :=
  a = word_at (guest_private_region guest_id) 0 ∨ ∃ slot, slot ∈ counter_slots ∧ a = guest_shared_slot slot.

Definition memwalk_writes (guest_id a : Z) : Prop :=
  (∃ i, (i < WORDS)%nat ∧ a = word_at (guest_private_region guest_id) i) ∨
  ∃ slot, slot ∈ memwalk_slots ∧ a = guest_shared_slot slot.

Lemma words_512 : WORDS = 512%nat.
Proof. reflexivity. Qed.

Lemma words_pos : (0 < WORDS)%nat.
Proof. rewrite words_512. lia. Qed.

(** A result whose description has its size. *)
Definition result_ok (r : task_result) : Prop := length (t_desc r) = DESC_SIZE.

(** A result as its task fills it in. *)
Record task_done (id : Z) (desc : string) (r : task_result) : Prop := {
  td_ok : result_ok r;
  td_id : t_id r = id;
  td_desc : ∃ rest, t_desc r = c_literal desc ++ rest;
  td_region : t_data1 r = guest_private_region id;
}.

(** The calls a guest makes: its reports are its task's. *)
Definition good_call (id : Z) (desc : string) (c : call) : Prop :=
  match c with
  | TaskReport g r => g = id ∧ task_done id desc r
  | _ => True
  end.

Section guests.
Context `{!GuestCpu}.

Lemma counter_text : is_text (char_code <$> list_ascii_of_string "counter task").
Proof. by repeat constructor. Qed.
Lemma memwalk_text : is_text (char_code <$> list_ascii_of_string "memwalk task").
Proof. by repeat constructor. Qed.

Lemma length_codes desc : length (list_ascii_of_string desc) = String.length desc.
Proof. by induction desc as [|c desc IH]; cbn; [|rewrite IH]. Qed.

Lemma cf_copy P C id desc out :
  is_text (char_code <$> list_ascii_of_string desc) → (String.length desc < DESC_SIZE)%nat →
  result_ok out → t_id out = id → t_data1 out = guest_private_region id →
  confined P C (copy_desc out (c_literal desc)) (task_done id desc).
Proof.
  intros Ht Hl Ho Hid Hr s. unfold total, wp, c_literal. rewrite copy_desc_eq by done.
  split; [|done]. split; [by apply copied_length|done| |done]. cbn [t_desc]. unfold copied, c_literal.
  rewrite take_ge by (rewrite length_fmap, length_codes; lia).
  eexists. rewrite <-app_assoc. reflexivity.
Qed.

Lemma cf_task_counter P C id out : result_ok out →
  confined P C (guest_task_counter id out) (task_done id "counter task").
Proof.
  intros Ho. unfold guest_task_counter. eapply cf_bind; [apply cf_counter|]. intros c _.
  apply cf_copy; [apply counter_text|cbn; unfold DESC_SIZE; lia|done..].
Qed.

Lemma cf_task_memwalk P C id out : result_ok out →
  confined P C (guest_task_memwalk id out) (task_done id "memwalk task").
Proof.
  intros Ho. unfold guest_task_memwalk. eapply cf_bind.
  - apply (cf_fold P C WORDS _ (λ _, True)); [done|]. intros i x _ _.
    eapply cf_bind; [apply cf_load|]. intros w _. by apply cf_ret.
  - intros c _. eapply cf_bind; [apply cf_counter|]. intros w _.
    apply cf_copy; [apply memwalk_text|cbn; unfold DESC_SIZE; lia|done..].
Qed.

Lemma cf_log (P : Z → Prop) C slot v :
  P (guest_shared_slot slot) → confined P C (guest_log_value slot v) (λ _, True).
Proof. apply cf_store. Qed.

(** One slot of a list. *)
Ltac in_slots := right; eexists; split; [|reflexivity]; by apply (bool_decide_unpack _).

Ltac cf_step := first
  [ apply cf_seq; [first [ apply cf_delay | apply cf_call; done | apply cf_log; in_slots | apply cf_store; by left ]|] ].

Lemma cf_counter_iteration id st : result_ok (snd st) →
  confined (counter_writes id) (good_call id "counter task") (counter_iteration id st) (λ st, result_ok (snd st)).
Proof.
  intros Hr. unfold counter_iteration. eapply cf_bind; [by apply cf_task_counter|]. intros r Hr1.
  do 2 cf_step. eapply (cf_bind _ _ _ _ (task_done id "counter task")).
  - destruct (fst st =? 8); [|by apply cf_ret]. unfold counter_time_test.
    eapply cf_bind; [apply cf_counter|]. intros b _. cbv zeta. do 3 cf_step.
    eapply cf_bind; [apply cf_counter|]. intros a _. cf_step. apply cf_ret. by destruct Hr1.
  - intros r2 Hr2. cf_step. cbv zeta. do 2 cf_step. apply cf_ret. apply Hr2.
Qed.

Lemma cf_counter_os n id result : result_ok result →
  confined (counter_writes id) (good_call id "counter task") (guest_counter_os n id result)
    (λ st, result_ok (snd st)).
Proof.
  intros Hr. unfold guest_counter_os. apply cf_seq.
  - unfold counter_isolation_tests. cf_step. eapply (cf_bind _ _ _ _ (λ _, True)); [by apply cf_ret|]. intros el _.
    cf_step. eapply (cf_bind _ _ _ _ (λ _, True)); [by apply cf_ret|]. intros sp _.
    do 2 cf_step. apply cf_store. by left.
  - apply (cf_fold _ _ n _ (λ st, result_ok (snd st))); [done|]. intros i st _ Hst. by apply cf_counter_iteration.
Qed.

Lemma cf_memwalk_iteration id junk seed : result_ok junk →
  confined (memwalk_writes id) (good_call id "memwalk task") (memwalk_iteration id junk seed) (λ _, True).
Proof.
  intros Hr. unfold memwalk_iteration, memwalk_fill. cbv zeta. eapply (cf_bind _ _ _ _ (λ _, True)).
  - apply (cf_fold _ _ WORDS _ (λ _, True)); [done|]. intros i c Hi _. cbv zeta. apply cf_seq; [|by apply cf_ret].
    apply cf_store. left. by exists i.
  - intros c _. eapply cf_bind; [by apply cf_task_memwalk|]. intros r Hr'. do 6 cf_step. by apply cf_ret.
Qed.

Lemma cf_memwalk_os n id junk : (∀ i, result_ok (junk i)) →
  confined (memwalk_writes id) (good_call id "memwalk task") (guest_memwalk_os n id junk) (λ _, True).
Proof.
  intros Hr. unfold guest_memwalk_os. cbv zeta. apply cf_seq.
  - unfold memwalk_isolation_tests. cf_step. eapply (cf_bind _ _ _ _ (λ _, True)); [by apply cf_ret|]. intros el _.
    cf_step. eapply (cf_bind _ _ _ _ (λ _, True)); [by apply cf_ret|]. intros sp _.
    do 2 cf_step. apply cf_store. left. exists 0%nat. split; [|done]. apply words_pos.
  - apply (cf_fold _ _ n _ (λ _, True)); [done|]. intros i x _ _. by apply cf_memwalk_iteration.
Qed.

(** The two guests' words are apart. *)
Lemma region_word id i : 0 ≤ id < 2 ^ 32 → (i < WORDS)%nat →
  word_at (guest_private_region id) i = 0x42000000 + id * 0x2000 + 8 * Z.of_nat i.
Proof.
  intros Hid Hi. unfold word_at, guest_private_region, GUEST_WORK_BASE, GUEST_WORK_STRIDE.
  rewrite words_512 in Hi. rewrite (u64_small (id * _)) by lia. rewrite (u64_small (0x42000000 + _)) by lia. by rewrite u64_small by lia.
Qed.

Lemma slot_addr slot : 0 ≤ slot < 16 → guest_shared_slot slot = 0x41000000 + slot * 0x1000.
Proof.
  intros Hs. unfold guest_shared_slot, GUEST_SHARED_BASE, GUEST_SHARED_STRIDE.
  by rewrite (u64_small (slot * _)), u64_small by lia.
Qed.

Lemma slots_range slot : slot ∈ counter_slots ∨ slot ∈ memwalk_slots → 0 ≤ slot < 16.
Proof.
  unfold counter_slots, memwalk_slots. rewrite !elem_of_cons, !elem_of_nil. lia.
Qed.

Lemma guests_apart idc idm a : 0 ≤ idc < 2 ^ 32 → 0 ≤ idm < 2 ^ 32 → idc ≠ idm →
  counter_writes idc a → memwalk_writes idm a → False.
Proof.
  intros Hc Hm Hne [->|(sc & Hsc & ->)] [(i & Hi & Ha)|(sm & Hsm & Ha)].
  - rewrite !region_word in Ha by (done || apply words_pos). rewrite words_512 in Hi. lia.
  - rewrite region_word, slot_addr in Ha by (done || (apply slots_range; by right) || apply words_pos).
    pose proof (slots_range sm (or_intror Hsm)). lia.
  - rewrite slot_addr, region_word in Ha by (done || (apply slots_range; by left)).
    pose proof (slots_range sc (or_introl Hsc)). lia.
  - pose proof (slots_range sc (or_introl Hsc)). pose proof (slots_range sm (or_intror Hsm)).
    rewrite !slot_addr in Ha by done. assert (sc = sm) as -> by lia.
    unfold counter_slots, memwalk_slots in *. rewrite !elem_of_cons, elem_of_nil in *. lia.
Qed.

(** C22. The guests keep apart: with different numbers, the counter guest and the
    memory-walk guest run any number of iterations without a fault and without
    writing a word the other one writes: not its private region, not its slots. *)
Theorem guests_do_not_interfere n idc idm result junk s :
  0 ≤ idc < 2 ^ 32 → 0 ≤ idm < 2 ^ 32 → idc ≠ idm → result_ok result → (∀ i, result_ok (junk i)) →
  total (guest_counter_os n idc result) s (λ _ s', ∀ a, memwalk_writes idm a → words s' a = words s a) ∧
  total (guest_memwalk_os n idm junk) s (λ _ s', ∀ a, counter_writes idc a → words s' a = words s a).
Proof.
  intros Hc Hm Hne Hr Hj. split.
  - eapply total_mono; [by apply cf_counter_os|]. intros x s' [_ [Hw _]] a Ha. apply Hw.
    intros Ha'. by apply (guests_apart idc idm a).
  - eapply total_mono; [by apply (cf_memwalk_os n idm junk)|]. intros x s' [_ [Hw _]] a Ha. apply Hw.
    intros Ha'. by apply (guests_apart idc idm a).
Qed.
End guests.

(** ** The memory walk's checksum *)

(** Exclusive or of [f 0] to [f (n - 1)]: the reference checksum. *)
Fixpoint xor_up (n : nat) (f : nat → Z) : Z :=
  match n with
  | O => 0
  | S k => Z.lxor (xor_up k f) (f k)
  end.

(** The word the guest stores at index [i]. *)
Definition fill (seed : Z) (i : nat) : Z := Z.lxor seed (u64 (Z.shiftl (Z.of_nat i) 8)).

Section xor.
Lemma lxor_swap a b c d : Z.lxor (Z.lxor a b) (Z.lxor c d) = Z.lxor (Z.lxor a c) (Z.lxor b d).
Proof. apply Z.bits_inj'. intros i Hi. rewrite !Z.lxor_spec. btauto. Qed.

Lemma xor_up_lxor n f g : xor_up n (λ i, Z.lxor (f i) (g i)) = Z.lxor (xor_up n f) (xor_up n g).
Proof. induction n as [|n IH]; [done|]. cbn [xor_up]. by rewrite IH, lxor_swap. Qed.

Lemma xor_up_ext n f g : (∀ i, (i < n)%nat → f i = g i) → xor_up n f = xor_up n g.
Proof. intros Hfg. induction n as [|n IH]; [done|]. cbn [xor_up]. rewrite IH, Hfg by auto with lia. done. Qed.

(** An even number of equal words cancels. *)
Lemma xor_up_const n c : xor_up (2 * n) (λ _, c) = 0.
Proof.
  induction n as [|n IH]; [done|]. replace (2 * S n)%nat with (S (S (2 * n))) by lia. cbn [xor_up].
  by rewrite IH, Z.lxor_0_l, Z.lxor_nilpotent.
Qed.

Lemma xor_up_fill seed : xor_up WORDS (fill seed) = 0.
Proof.
  unfold fill. rewrite xor_up_lxor. change WORDS with (2 * 256)%nat. rewrite xor_up_const, Z.lxor_0_l.
  by vm_compute.
Qed.
End xor.

Section memwalk.
Context `{!GuestCpu}.

Lemma word_at_inj id i j : 0 ≤ id < 2 ^ 32 → (i < WORDS)%nat → (j < WORDS)%nat →
  word_at (guest_private_region id) i = word_at (guest_private_region id) j → i = j.
Proof. intros Hid Hi Hj. rewrite !region_word by done. lia. Qed.

Lemma memwalk_fill_total id seed s : 0 ≤ id < 2 ^ 32 →
  let region := guest_private_region id in
  total (memwalk_fill region seed) s (λ c s', c = xor_up WORDS (fill seed) ∧ calls s' = calls s ∧
    ∀ i, (i < WORDS)%nat → words s' (word_at region i) = fill seed i).
Proof.
  intros Hid region. unfold memwalk_fill.
  enough (∀ n, (n ≤ WORDS)%nat → total (fold_upM n (λ i checksum,
    let value := Z.lxor seed (u64 (Z.shiftl (Z.of_nat i) 8)) in
    store_word (word_at region i) value ;; mret (Z.lxor checksum value)) 0) s (λ c s',
      c = xor_up n (fill seed) ∧ calls s' = calls s ∧
      ∀ i, (i < n)%nat → words s' (word_at region i) = fill seed i)) as Hn by (by apply Hn).
  induction n as [|n IH]; intros Hn; [split_and!; done || (intros; lia)|]. cbn [fold_upM].
  eapply total_bind; [apply IH; lia|]. intros c s1 (-> & Hc & Hw). cbv zeta. fold (fill seed n).
  split_and!; [done|done|]. intros i Hi. cbn [words]. destruct (Z.eqb_spec (word_at region i) (word_at region n)) as [He|He].
  - apply word_at_inj in He as ->; (done || lia).
  - apply Hw. destruct (decide (i = n)) as [->|]; [done|lia].
Qed.

Lemma memwalk_sum_total region id s :
  total (fold_upM WORDS (λ i checksum,
    w ← load_word (word_at region i);
    let value := Z.lxor w (u64 (Z.shiftl id 32)) in
    mret (Z.lxor checksum value)) 0) s (λ c s', s' = s ∧
      c = xor_up WORDS (λ i, Z.lxor (words s (word_at region i)) (u64 (Z.shiftl id 32)))).
Proof.
  generalize WORDS. intros n. induction n as [|n IH]; [done|]. cbn [fold_upM].
  eapply total_bind; [exact IH|]. by intros c s1 [-> ->].
Qed.

(** What [guest_task_memwalk] reports of the region. *)
Definition memwalk_result (id checksum walk : Z) (desc : list Z) : task_result :=
  TaskResult id (copied (char_code <$> list_ascii_of_string "memwalk task") desc) checksum
    (guest_private_region id) 0 0 0 walk.

Lemma task_memwalk_total id out s : result_ok out →
  total (guest_task_memwalk id out) s (λ r s',
    r = memwalk_result id (xor_up WORDS (λ i, words s (word_at (guest_private_region id) i))) (cntvct_at (counts s)) (t_desc out) ∧
    s' = Gst (words s) (S (counts s)) (calls s)).
Proof.
  intros Ho. unfold guest_task_memwalk. cbv zeta. eapply total_bind; [apply memwalk_sum_total|].
  intros c s1 [-> ->]. unfold total, wp. mstep. unfold c_literal.
  rewrite copy_desc_eq by (apply memwalk_text || done). split; [|done].
  unfold memwalk_result. cbn [t_id t_desc t_data0 t_data1 t_before t_after t_target t_walk]. f_equal.
  rewrite xor_up_lxor. change WORDS with (2 * 256)%nat at 2. by rewrite xor_up_const, Z.lxor_0_r.
Qed.

Lemma delay_eq n (s : gst) : guest_delay n s = Ok () s.
Proof.
  unfold guest_delay. generalize (Z.to_nat n). intros k. induction k as [|k IH]; [done|].
  rewrite for_upM_S. by rewrite (bind_Ok _ _ _ _ _ IH).
Qed.

Lemma slot_not_word id slot i : 0 ≤ id < 2 ^ 32 → 0 ≤ slot < 16 → (i < WORDS)%nat →
  word_at (guest_private_region id) i ≠ guest_shared_slot slot.
Proof. intros Hid Hs Hi. rewrite region_word, slot_addr by done. lia. Qed.

(** C23. One round of the memory walk: the region holds the pattern of the seed, the
    checksum the guest computed while it wrote and logs in its slot is the one
    [guest_task_memwalk] computes from memory and reports, the description is a
    terminated string, and the next round's seed is 0x111111111 more. The checksum
    is the exclusive or of 512 words in which the seed, the guest's number and the
    indices all cancel: it is 0 whatever the guest and the seed. *)
Theorem memwalk_checksum id junk seed s :
  0 ≤ id < 2 ^ 32 → result_ok junk →
  total (memwalk_iteration id junk seed) s (λ seed' s',
    seed' = u64 (seed + 0x111111111) ∧
    (∀ i, (i < WORDS)%nat → words s' (word_at (guest_private_region id) i) = fill seed i) ∧
    ∃ r, calls s' = Yielded :: TaskReport id r :: calls s ∧
      words s' (guest_shared_slot MEMWALK_SLOT_CHECKSUM) = xor_up WORDS (fill seed) ∧
      t_data0 r = words s' (guest_shared_slot MEMWALK_SLOT_CHECKSUM) ∧
      words s' (guest_shared_slot MEMWALK_SLOT_SEED) = seed ∧
      take 13 (t_desc r) = c_literal "memwalk task" ∧
      t_data0 r = 0).
Proof.
  intros Hid Hj. unfold memwalk_iteration. cbv zeta. eapply total_bind; [by apply memwalk_fill_total|].
  intros c s1 (-> & Hc & Hw). eapply total_bind; [by apply task_memwalk_total|].
  intros r s2 [-> ->]. unfold total, wp. do 4 mstep. mstep_by ltac:(apply delay_eq). do 1 mstep.
  unfold guest_log_value, store_word in *. cbn [words calls].
  rewrite (xor_up_ext _ _ (fill seed) Hw), xor_up_fill. split_and!; [done| |].
  - intros i Hi. cbn [words]. rewrite !(proj2 (Z.eqb_neq _ _)) by (apply slot_not_word; done). by apply Hw.
  - cbn [words calls]. eexists. split; [by rewrite Hc|]. rewrite !slot_addr by done. split_and!; done.
Qed.
End memwalk.

(** ** Witnesses *)

#[local] Instance demo_cpu : GuestCpu := {| cntvct_at n := Z.of_nat n; current_el := 4; guest_sp := 0x400A0000 |}.

Definition demo_gst : gst := Gst (λ _, 0) 0 [].
Definition demo_junk : task_result := TaskResult 0 (replicate 32 0xAA) 0 0 0 0 0 0.

Lemma guests_do_not_interfere_witness :
  total (guest_counter_os 9 0 demo_junk) demo_gst (λ _ s', words s' 0x42002000 = 0).
Proof.
  assert (0 ≤ 0 < 2 ^ 32) as H0r by lia. assert (0 ≤ 1 < 2 ^ 32) as H1r by lia. assert (0 ≠ 1) as Hne by lia.
  eapply total_mono; [apply (proj1 (guests_do_not_interfere 9 0 1 demo_junk (λ _, demo_junk) demo_gst H0r H1r Hne
    eq_refl (λ _, eq_refl)))|].
  intros x s' Hw. apply (Hw 0x42002000). left. exists 0%nat. split; [apply words_pos|reflexivity].
Defined.

Lemma memwalk_checksum_witness :
  total (memwalk_iteration 1 demo_junk 0xfeed000000000000) demo_gst (λ seed' s',
    seed' = 0xfeed000111111111 ∧ words s' 0x4100A000 = 0 ∧ words s' 0x42002008 = 0xfeed000000000100).
Proof.
  assert (0 ≤ 1 < 2 ^ 32) as Hr by lia.
  eapply total_mono; [apply (memwalk_checksum 1 demo_junk 0xfeed000000000000 demo_gst Hr eq_refl)|].
  intros seed' s' (Hs & Hw & r & _ & _ & Hd & _ & _ & Hz). split; [exact Hs|]. split; [exact (eq_trans (eq_sym Hd) Hz)|].
  assert (1 < WORDS)%nat as H1w by (rewrite words_512; lia). exact (Hw 1%nat H1w).
Defined.
