(* ===== verification/Reports.v ===== *)
(** * Task reports from the guest's struct to the console

    A guest fills in a [struct guest_task_result] on its stack and passes its
    address with HVC #0x60; EL2 reads the struct back byte by byte and prints it.
    This file puts the two sides together: the bytes the compiler lays the struct
    out in, their reading by [handle_guest_task_report], and the text of every
    report either guest makes.                                                  *)

From Stdlib Require Import ZArith Lia Ascii String.
From stdpp Require Import base gmap list strings.
From S2P Require Import Prelude Machine S2Mmu S2MmuTheory Uart UartTheory Vcpu VcpuTheory Sched Trap TrapTheory.
From S2P Require Import Guests GuestsTheory.

#[local] Open Scope string_scope.
#[local] Open Scope list_scope.
#[local] Open Scope Z_scope.

(** ** The struct in memory *)

(** A little-endian number of [n] bytes. *)
Fixpoint le_bytes (n : nat) (x : Z) : list Z :=
  match n with
  | O => []
  | S n => x mod 256 :: le_bytes n (x / 256)
  end.

(** The 88 bytes of [struct guest_task_result]: every member is aligned where it
    stands, so there is no padding. *)
Definition result_bytes (r : task_result) : list Z :=
  le_bytes 8 (t_id r) ++ t_desc r ++ le_bytes 8 (t_data0 r) ++ le_bytes 8 (t_data1 r) ++
  le_bytes 8 (t_before r) ++ le_bytes 8 (t_after r) ++ le_bytes 8 (t_target r) ++ le_bytes 8 (t_walk r).

Definition bytes_at (m : gmap Z Z) (a : Z) (l : list Z) : Prop :=
  ∀ (i : nat) b, l !! i = Some b → m !! (a + Z.of_nat i) = Some b.

(** Storing them. *)
Fixpoint write_bytes (a : Z) (l : list Z) (m : gmap Z Z) : gmap Z Z :=
  match l with
  | [] => m
  | b :: l => <[a := b]> (write_bytes (a + 1) l m)
  end.

Lemma write_bytes_at a l m : bytes_at (write_bytes a l m) a l.
Proof.
  revert a. induction l as [|b l IH]; intros a i c; [done|]. cbn [write_bytes]. destruct i as [|i].
  - intros [= ->]. rewrite Z.add_0_r. by rewrite lookup_insert_eq.
  - intros Hl. rewrite lookup_insert_ne by lia.
    replace (a + Z.of_nat (S i)) with (a + 1 + Z.of_nat i) by lia. by apply IH.
Qed.

Lemma bytes_at_app m a l1 l2 :
  bytes_at m a (l1 ++ l2) → bytes_at m a l1 ∧ bytes_at m (a + Z.of_nat (length l1)) l2.
Proof.
  intros Hl. split; intros i b Hb.
  - apply Hl. by apply lookup_app_l_Some.
  - rewrite <-Z.add_assoc, <-Nat2Z.inj_add. apply Hl. rewrite lookup_app_r by lia.
    by replace (length l1 + i - length l1)%nat with i by lia.
Qed.

Lemma bytes_at_cons m a b l : bytes_at m a (b :: l) → m !! a = Some b ∧ bytes_at m (a + 1) l.
Proof.
  intros Hl. destruct (bytes_at_app m a [b] l Hl) as [Hb Hr]. split; [|done].
  pose proof (Hb 0%nat b eq_refl) as E. by rewrite Z.add_0_r in E.
Qed.

(** ** Reading it back *)

Lemma length_le_bytes n x : length (le_bytes n x) = n.
Proof. revert x. induction n as [|n IH]; intros x; cbn; [done|]. by rewrite IH. Qed.

Lemma le_bytes_read m n a x : bytes_at m a (le_bytes n x) → mem_le m n a (x mod 256 ^ Z.of_nat n).
Proof.
  revert a x. induction n as [|n IH]; intros a x; cbn [le_bytes mem_le]; [by rewrite Z.mod_1_r|].
  intros [Hb Hl]%bytes_at_cons. exists (x mod 256), ((x / 256) mod 256 ^ Z.of_nat n).
  split_and!; [done|by apply IH|]. rewrite Nat2Z.inj_succ, Z.pow_succ_r by lia.
  rewrite Z.rem_mul_r by lia. lia.
Qed.

Lemma word_read m a x : bytes_at m a (le_bytes 8 x) → mem_word m a (u64 x).
Proof. exact (le_bytes_read m 8 a x). Qed.

Lemma literal_read m a s rest :
  is_text (char_code <$> list_ascii_of_string s) → bytes_at m a (c_literal s ++ rest) → mem_str m a s.
Proof.
  unfold c_literal. revert a. induction s as [|c s IH]; intros a Ht Hl; cbn in *.
  - by apply bytes_at_cons in Hl as [? _].
  - inversion_clear Ht. apply bytes_at_cons in Hl as [? Hl]. split_and!; [done..|]. by apply IH.
Qed.

(** The report EL2 sees. *)
Definition seen_report (desc : string) (r : task_result) : report :=
  Report desc (u64 (t_data0 r)) (u64 (t_data1 r)) (u64 (t_before r)) (u64 (t_after r)) (u64 (t_target r))
    (u64 (t_walk r)).

Lemma result_read m a id desc r :
  is_text (char_code <$> list_ascii_of_string desc) → task_done id desc r →
  bytes_at m a (result_bytes r) → report_at m a (seen_report desc r).
Proof.
  intros Ht [Hok _ (rest & Hd) _] Hb. unfold result_bytes in Hb.
  apply bytes_at_app in Hb as [_ Hb]. apply bytes_at_app in Hb as [H1 Hb].
  apply bytes_at_app in Hb as [H2 Hb]. apply bytes_at_app in Hb as [H3 Hb].
  apply bytes_at_app in Hb as [H4 Hb]. apply bytes_at_app in Hb as [H5 Hb].
  apply bytes_at_app in Hb as [H6 H7].
  rewrite Hd in H1. apply literal_read in H1; [|done].
  apply word_read in H2, H3, H4, H5, H6, H7.
  rewrite !length_le_bytes, Hok, <-!Z.add_assoc in *. by split.
Qed.

(** ** From the guest to the console *)

Section reports.
Context `{!Console, !ConsoleSpec, !Counter, !S2Image, !GuestCpu}.

(** EL2 takes a trap with HVC #0x60 while [p] runs, with the address [a] of [r] in
    x1. *)
Record reported (h : hv) (esr : Z) (v : vcpu) (a : Z) (r : task_result) : Prop := {
  rp_ec : esr_ec esr = 0x16;
  rp_imm : esr_imm16 esr = 0x60;
  rp_current : ∃ p, sched_current (scheduler h) = Some p ∧ vcpus h !! p = Some v;
  rp_id : 0 ≤ vcpu_id v < 10;
  rp_x1 : regs (tf (arch v)) !! 1%nat = Some a;
  rp_address : a ≠ 0;
  rp_bytes : bytes_at (ram h) a (result_bytes r);
}.

(** Wherever the guest keeps it, EL2 prints [r] under the running VCPU's number and
    returns, changing nothing else. *)
Definition prints_report (desc : string) (r : task_result) : Prop :=
  ∀ h esr elr spsr far code v a, reported h esr v a r →
  ∃ c, el2_exception_common esr elr spsr far code h = Ok () (set_console c h) ∧
    con_text c = (con_text (console h) +:+ report_text (vcpu_id v) (seen_report desc r))%string.

Lemma task_done_prints id desc r :
  is_text (char_code <$> list_ascii_of_string desc) → task_done id desc r → prints_report desc r.
Proof.
  intros Ht Hd h esr elr spsr far code v a [He Hi (p & Hc & Hp) Hid Hx Ha Hb].
  apply report_trap_runs; [done..|]. apply (task_report_emits h p v elr a); [done..|].
  by apply (result_read _ _ id).
Qed.

(** The calls of a guest that makes only its own reports. *)
Lemma good_calls_print P id desc s s' :
  is_text (char_code <$> list_ascii_of_string desc) → within P (good_call id desc) s s' →
  ∃ cs, calls s' = cs ++ calls s ∧
    ∀ g r, TaskReport g r ∈ cs → g = id ∧ t_data1 r = guest_private_region id ∧ prints_report desc r.
Proof.
  intros Ht [_ (cs & E & Hcs)]. exists cs. split; [done|]. intros g r Hr.
  rewrite Forall_forall in Hcs. destruct (Hcs _ Hr) as [-> Hd]. split_and!; [done|apply Hd|].
  by apply (task_done_prints id).
Qed.

(** C21. End to end, HVC #0x60: every report either guest makes, in any number of
    iterations, from any state and whatever was on its stack, carries its number and
    its own region; and when EL2 takes the hypercall with the struct's 88 bytes in
    memory, it prints the guest's description, its data words and, when any is set,
    its times, exactly, and returns to the guest with nothing else changed. *)
Theorem guest_reports_printed n id result junk s :
  result_ok result → (∀ i, result_ok (junk i)) →
  total (guest_counter_os n id result) s (λ _ s', ∃ cs, calls s' = cs ++ calls s ∧
    ∀ g r, TaskReport g r ∈ cs →
      g = id ∧ t_data1 r = guest_private_region id ∧ prints_report "counter task" r) ∧
  total (guest_memwalk_os n id junk) s (λ _ s', ∃ cs, calls s' = cs ++ calls s ∧
    ∀ g r, TaskReport g r ∈ cs →
      g = id ∧ t_data1 r = guest_private_region id ∧ prints_report "memwalk task" r).
Proof.
  intros Hr Hj. split.
  - eapply total_mono; [by apply cf_counter_os|]. intros x s' [_ Hw].
    eapply good_calls_print; [apply counter_text|done].
  - eapply total_mono; [by apply (cf_memwalk_os n id junk)|]. intros x s' [_ Hw].
    eapply good_calls_print; [apply memwalk_text|done].
Qed.
End reports.

(** ** Witness *)

#[local] Existing Instance text_console.
#[local] Existing Instance text_console_spec.
#[local] Existing Instance demo_counter.
#[local] Existing Instance demo_s2_image.
#[local] Existing Instance demo_cpu.

(** The report of the counter guest's first iteration, and EL2 trapping with it. *)
Definition first_report : task_result :=
  TaskResult 0 (c_literal "counter task" ++ replicate 19 0xAA) 0 0x42000000 0 0 0 0.

Definition first_report_hv : hv :=
  set_ram (write_bytes 0x1000 (result_bytes first_report) ∅) (set_vcpus [report_vcpu] (demo_hv demo_machine)).

Lemma guest_reports_printed_witness :
  ∃ c : string, el2_exception_common (0x16 * 2 ^ 26 + 0x60) 0x40001000 0 0 0x20 first_report_hv =
    Ok () (set_console c first_report_hv) ∧
    c = ("[guest0] counter task data0=0x0000000000000000 data1=0x0000000042000000" +:+ crlf newline)%string.
Proof.
  pose proof (proj1 (guest_reports_printed 1 0 demo_junk (λ _, demo_junk) demo_gst eq_refl (λ _, eq_refl))) as Hg.
  destruct (proj1 (total_Ok _ _ _) Hg) as (x & s' & E & cs & Hcs & Hr). clear Hg.
  assert (cs = [Yielded; TaskReport 0 first_report]) as ->.
  { change (calls demo_gst) with (@nil call) in Hcs. rewrite app_nil_r in Hcs. rewrite <-Hcs.
    apply (f_equal (λ o, match o with Ok _ s => calls s | _ => [] end)) in E. rewrite <-E. by vm_compute. }
  destruct (Hr 0 first_report) as (_ & _ & Hp); [right; left|].
  destruct (Hp first_report_hv (0x16 * 2 ^ 26 + 0x60) 0x40001000 0 0 0x20 report_vcpu 0x1000) as (c & Ec & Ht).
  - split; [reflexivity|reflexivity|exists 0%nat; split; reflexivity|cbn; lia|reflexivity|lia|].
    exact (write_bytes_at 0x1000 (result_bytes first_report) ∅).
  - exists c. split; [exact Ec|]. etrans; [exact Ht|]. vm_compute. reflexivity.
Defined.
